(** * GraphRAG page index: segmentation, graph construction and page lookup

    A shallow embedding of [index_markdown.py] (page segmentation with
    small-page merging, the batch indexing loop, construction of the page
    graph) and of [graphrag_mcp/documentation_tool.py] (the query
    operations), with the properties of the design document stated and
    proved over it.

    Conventions of the embedding.
    - Python [str] values are [string]s; the character classes
      ([str.isspace], [\s], [\d], [str.isalpha], [str.lower]) are the
      Python ones restricted to ASCII code points.
    - Python [int]s are [Z]; [int(s)] is the value of the digits, without
      the interpreter's limit on their number.
    - A Python [set] of strings is a [gset string]; [list(s)] is
      [elements s], in an order that no theorem depends on (the examples
      show the order that the model computes).
    - A [dict] with string keys is an association list in insertion order.
    - A function that may raise returns a [py] value; the exception is
      represented by its message.
    - The graph store is a list of nodes and a list of relationships; the
      Cypher statements and queries of the sources are given their meaning
      on it. Properties of nodes are never null, as the script sets them
      all. *)

From stdpp Require Import base list strings gmap sorting pretty.
From Stdlib Require Import Ascii ZArith QArith_base Lia.

Local Open Scope Z_scope.

(** ** Python string primitives *)

Module Py.

Definition code (c : ascii) : N := N_of_ascii c.

(** The line feed, as a character and as the string ['\n']. *)
Definition LF : ascii := "010"%char.
Definition nl : string := String LF "".

(** [str.isspace] on one character: TAB, LF, VT, FF, CR, the four
    separators FS GS RS US, and the space. *)
Definition isspace (c : ascii) : bool :=
  ((9 <=? code c) && (code c <=? 13) || (28 <=? code c) && (code c <=? 32))%N.

Definition isdigit (c : ascii) : bool :=
  ((48 <=? code c) && (code c <=? 57))%N.

Definition isupper (c : ascii) : bool :=
  ((65 <=? code c) && (code c <=? 90))%N.

Definition islower (c : ascii) : bool :=
  ((97 <=? code c) && (code c <=? 122))%N.

Definition isalpha_char (c : ascii) : bool := isupper c || islower c.

Definition lower_char (c : ascii) : ascii :=
  if isupper c then ascii_of_N (code c + 32) else c.

(** [s.isalpha()]: every character alphabetic and at least one character. *)
Fixpoint all_alpha (s : string) : bool :=
  match s with
  | "" => true
  | String c s' => isalpha_char c && all_alpha s'
  end.

Definition isalpha (s : string) : bool :=
  match s with
  | "" => false
  | _ => all_alpha s
  end.

(** [s.lower()] *)
Fixpoint lower (s : string) : string :=
  match s with
  | "" => ""
  | String c s' => String (lower_char c) (lower s')
  end.

(** [len(s)] *)
Definition len (s : string) : Z := Z.of_nat (String.length s).

Fixpoint lstrip (s : string) : string :=
  match s with
  | "" => ""
  | String c s' => if isspace c then lstrip s' else s
  end.

Fixpoint rstrip (s : string) : string :=
  match s with
  | "" => ""
  | String c s' =>
      match rstrip s' with
      | "" => if isspace c then "" else String c ""
      | r => String c r
      end
  end.

(** [s.strip()] *)
Definition strip (s : string) : string := rstrip (lstrip s).

(** [s.split(sep)] for a one-character separator: empty fields are kept
    and the result is never empty. *)
Fixpoint split_on (sep : ascii) (s : string) : list string :=
  match s with
  | "" => [""]
  | String c s' =>
      if Ascii.eqb c sep then "" :: split_on sep s'
      else match split_on sep s' with
           | l :: ls => String c l :: ls
           | [] => [String c ""]
           end
  end.

(** [s.split()]: maximal runs of non-whitespace characters. [cur] is the
    token being read. *)
Definition emit (cur : string) : list string :=
  match cur with
  | "" => []
  | _ => [cur]
  end.

Fixpoint split_go (cur : string) (s : string) : list string :=
  match s with
  | "" => emit cur
  | String c s' =>
      if isspace c then emit cur ++ split_go "" s'
      else split_go (cur +:+ String c "") s'
  end.

Definition split (s : string) : list string := split_go "" s.

(** [sep.join(l)] *)
Fixpoint join (sep : string) (l : list string) : string :=
  match l with
  | [] => ""
  | [x] => x
  | x :: l' => x +:+ sep +:+ join sep l'
  end.

(** The longest prefix of characters satisfying [p], and the rest. *)
Fixpoint span (p : ascii → bool) (s : string) : string * string :=
  match s with
  | "" => ("", "")
  | String c s' =>
      if p c then let '(a, b) := span p s' in (String c a, b)
      else ("", s)
  end.

(** [int(s)] on a string of decimal digits: the value of [int] where it has
    one. The interpreter refuses to convert a string of more than
    [max_str_digits] digits, 4300 unless it is configured otherwise, and
    [int] then raises [ValueError]; a property that depends on the conversion
    going through assumes that the strings converted are within that limit. *)
Definition max_str_digits : nat := 4300.

Definition digit_val (c : ascii) : Z := Z.of_N (code c) - 48.

Fixpoint int_go (acc : Z) (s : string) : Z :=
  match s with
  | "" => acc
  | String c s' => int_go (10 * acc + digit_val c) s'
  end.

Definition int (s : string) : Z := int_go 0 s.

(** [str(n)] and the [{n}] of an f-string. *)
Definition str (n : Z) : string := pretty n.

(** [re.match(r'^Page\s+(\d+)\s*$', s)]: the text of group 1 on a match.
    The classes [\s] and [\d] are disjoint and both repetitions are
    greedy, so there is one way to match. *)
Definition match_page_marker (s : string) : option string :=
  match s with
  | String "P" (String "a" (String "g" (String "e" r))) =>
      match r with
      | String c _ =>
          if isspace c then
            let '(ds, r2) := span isdigit (lstrip r) in
            match ds with
            | "" => None
            | _ => match lstrip r2 with
                   | "" => Some ds
                   | _ => None
                   end
            end
          else None
      | "" => None
      end
  | _ => None
  end.

End Py.

(** ** Segmentation: [split_by_pages] *)

Record raw_page := RawPage {
  rp_page_num : Z;
  rp_text : string;
  rp_word_count : Z
}.

Record chunk := Chunk {
  page_num : Z;
  page_range : list Z;
  text : string;
  word_count : Z;
  is_merged : bool
}.

(** [len(s.split())] *)
Definition count_words (s : string) : Z := Z.of_nat (length (Py.split s)).

(** The marker test of the scan: the page number when the line is a marker. *)
Definition page_match (line : string) : option Z :=
  Py.int <$> Py.match_page_marker (Py.strip line).

(** State of the first loop. *)
Record scan_state := ScanState {
  raw_pages : list raw_page;
  current_page : list string;
  current_page_num : option Z
}.

(** "Save previous page if exists" / "Handle trailing content". *)
Definition flush_page (st : scan_state) : list raw_page :=
  match current_page st, current_page_num st with
  | _ :: _, Some n =>
      let page_text := Py.strip (Py.join Py.nl (current_page st)) in
      match page_text with
      | "" => raw_pages st
      | _ => raw_pages st ++ [RawPage n page_text (count_words page_text)]
      end
  | _, _ => raw_pages st
  end.

Definition scan_line (st : scan_state) (line : string) : scan_state :=
  match page_match line with
  | Some n => ScanState (flush_page st) [line] (Some n)
  | None => ScanState (raw_pages st) (current_page st ++ [line]) (current_page_num st)
  end.

(** Step 1 of [split_by_pages]. *)
Definition extract_raw_pages (content : string) : list raw_page :=
  flush_page (foldl scan_line (ScanState [] [] None) (Py.split_on Py.LF content)).

(** The inner [while j < len(raw_pages) and merged_word_count < min_words]:
    [rest] is [raw_pages[j:]]; returns the accumulators and [raw_pages[j:]]
    at exit. *)
Fixpoint absorb (min_words : Z) (rest : list raw_page)
    (merged_text : string) (merged_word_count : Z) (range : list Z)
    : string * Z * list Z * list raw_page :=
  match rest with
  | next_page :: rest' =>
      if merged_word_count <? min_words then
        absorb min_words rest'
          (merged_text +:+ Py.nl +:+ Py.nl +:+ rp_text next_page)
          (merged_word_count + rp_word_count next_page)
          (range ++ [rp_page_num next_page])
      else (merged_text, merged_word_count, range, rest)
  | [] => (merged_text, merged_word_count, range, [])
  end.

(** The outer [while i < len(raw_pages)]: [pages] is [raw_pages[i:]]. Each
    iteration consumes at least one page, so [length pages] iterations are
    enough ([merge_loop_fuel] below). *)
Fixpoint merge_loop (fuel : nat) (min_words : Z) (pages : list raw_page) : list chunk :=
  match fuel, pages with
  | S fuel', current :: rest =>
      if min_words <=? rp_word_count current then
        Chunk (rp_page_num current) [rp_page_num current] (rp_text current)
              (rp_word_count current) false
        :: merge_loop fuel' min_words rest
      else
        let '(merged_text, merged_word_count, range, rest') :=
          absorb min_words rest (rp_text current) (rp_word_count current)
                 [rp_page_num current] in
        Chunk (default (rp_page_num current) (head range)) range merged_text
              merged_word_count (bool_decide (1 < length range)%nat)
        :: merge_loop fuel' min_words rest'
  | _, _ => []
  end.

(** Step 2 of [split_by_pages]. *)
Definition merge_pages (min_words : Z) (pages : list raw_page) : list chunk :=
  merge_loop (length pages) min_words pages.

Definition split_by_pages (content : string) (min_words : Z) : list chunk :=
  merge_pages min_words (extract_raw_pages content).

Definition MIN_WORDS : Z := 50.
Definition MIN_WORD_LENGTH : Z := 5.
Definition SIMILARITY_THRESHOLD : Z := 3.

(** [" ".join(["w"] * n)], used to write sample documents. *)
Fixpoint filler (n : nat) : string :=
  match n with
  | O => ""
  | 1%nat => "w"
  | S n' => "w " +:+ filler n'
  end.

(** Sum of a list of integers. *)
Fixpoint sumZ (l : list Z) : Z :=
  match l with
  | [] => 0
  | x :: l' => x + sumZ l'
  end.

(** ** Exceptions

    A computation that returns a value or raises; [Raise e] carries
    [str(e)]. *)

Inductive py (A : Type) : Type :=
  | Return (a : A)
  | Raise (e : string).
Global Arguments Return {A} a.
Global Arguments Raise {A} e.

Global Instance py_ret : MRet py := @Return.
Global Instance py_bind : MBind py := λ A B f m,
  match m with
  | Return a => f a
  | Raise e => Raise e
  end.

(** A [for] loop whose body may raise. *)
Fixpoint py_foldl {A B : Type} (f : B → A → py B) (b : B) (l : list A) : py B :=
  match l with
  | [] => Return b
  | x :: l' => b' ← f b x; py_foldl f b' l'
  end.

(** ** The graph store

    The indexing script only writes to the graph: it sends statements and
    never reads a result back. The script is embedded as the sequence of
    statements it sends; the store gives each statement its Cypher meaning. *)

Record page_node := PageNode {
  pn_id : string;
  pn_doc_id : string;
  pn_page_num : Z;
  pn_page_range : list Z;
  pn_page_range_str : string;
  pn_chunk_idx : Z;
  pn_text : string;
  pn_word_count : Z;
  pn_is_merged : bool
}.

Record doc_node := DocNode {
  dn_id : string;
  dn_source : string;
  dn_title : string
}.

(** Relationships; a node is named by its position in the store. *)
Inductive rel :=
  | Contains (d p : nat)
  | NextPage (p1 p2 : nat)
  | RelatedTo (p1 p2 : nat) (common_keywords : list string) (page_distance : Z).

Global Instance rel_eq_dec : EqDecision rel.
Proof. solve_decision. Defined.

Record graph := Graph {
  g_docs : list doc_node;
  g_pages : list page_node;
  g_rels : list rel
}.

Definition empty_graph : graph := Graph [] [] [].

(** The statements of [index_markdown.py]. *)
Inductive stmt :=
  (** [MERGE (d:Document {id: $id}) SET d.source = $source, d.title = $title] *)
  | MergeDocument (id source title : string)
  (** [CREATE (p:Page {...})] *)
  | CreatePage (p : page_node)
  (** [MATCH (d:Document {id: $doc_id}) MATCH (p:Page {id: $chunk_id})
       MERGE (d)-[:CONTAINS]->(p)] *)
  | MergeContains (doc_id chunk_id : string)
  (** [MATCH (p1:Page {id: $id1}) MATCH (p2:Page {id: $id2})
       CREATE (p1)-[:NEXT_PAGE]->(p2)] *)
  | CreateNextPage (id1 id2 : string)
  (** [MATCH (p1:Page {id: $id1}) MATCH (p2:Page {id: $id2})
       CREATE (p1)-[:RELATED_TO {common_keywords: $keywords,
                                 page_distance: $distance}]->(p2)] *)
  | CreateRelatedTo (id1 id2 : string) (keywords : list string) (distance : Z).

(** Positions of the elements satisfying [f]. *)
Definition positions {A : Type} (f : A → bool) (l : list A) : list nat :=
  filter (λ i, from_option f false (l !! i) = true) (seq 0 (length l)).

Definition pages_with_id (g : graph) (id : string) : list nat :=
  positions (λ p, String.eqb (pn_id p) id) (g_pages g).

Definition docs_with_id (g : graph) (id : string) : list nat :=
  positions (λ d, String.eqb (dn_id d) id) (g_docs g).

(** All pairs of a match on two patterns, row by row. *)
Definition match_pairs (xs ys : list nat) : list (nat * nat) :=
  x ← xs; y ← ys; [(x, y)].

(** [MERGE] of a relationship: created only when absent. *)
Definition merge_rel (rs : list rel) (r : rel) : list rel :=
  if bool_decide (r ∈ rs) then rs else rs ++ [r].

Definition exec (g : graph) (s : stmt) : graph :=
  match s with
  | MergeDocument id source title =>
      match docs_with_id g id with
      | [] => Graph (g_docs g ++ [DocNode id source title]) (g_pages g) (g_rels g)
      | _ => Graph ((λ d, if String.eqb (dn_id d) id
                          then DocNode id source title else d) <$> g_docs g)
                   (g_pages g) (g_rels g)
      end
  | CreatePage p => Graph (g_docs g) (g_pages g ++ [p]) (g_rels g)
  | MergeContains doc_id chunk_id =>
      Graph (g_docs g) (g_pages g)
            (foldl merge_rel (g_rels g)
               ((λ '(d, p), Contains d p)
                  <$> match_pairs (docs_with_id g doc_id) (pages_with_id g chunk_id)))
  | CreateNextPage id1 id2 =>
      Graph (g_docs g) (g_pages g)
            (g_rels g ++ ((λ '(a, b), NextPage a b)
                            <$> match_pairs (pages_with_id g id1) (pages_with_id g id2)))
  | CreateRelatedTo id1 id2 keywords distance =>
      Graph (g_docs g) (g_pages g)
            (g_rels g ++ ((λ '(a, b), RelatedTo a b keywords distance)
                            <$> match_pairs (pages_with_id g id1) (pages_with_id g id2)))
  end.

Definition exec_all (g : graph) (ss : list stmt) : graph := foldl exec g ss.

Definition is_next_page (r : rel) : bool :=
  match r with NextPage _ _ => true | _ => false end.

Definition is_related_to (r : rel) : bool :=
  match r with RelatedTo _ _ _ _ => true | _ => false end.

(** [MATCH ()-[r:NEXT_PAGE]->() RETURN count(r)] *)
Definition count_next_page (g : graph) : nat := length (filter is_next_page (g_rels g)).

(** [MATCH (p:Page) RETURN count(p)] *)
Definition count_pages (g : graph) : nat := length (g_pages g).


(** ** The indexing script *)

(** An embedding vector; its components are never inspected. *)
Definition vector := list Q.

(** [d[k] = v] on a dict kept in insertion order. *)
Fixpoint dict_set {V : Type} (k : string) (v : V) (d : list (string * V))
    : list (string * V) :=
  match d with
  | [] => [(k, v)]
  | (k', v') :: d' =>
      if String.eqb k' k then (k, v) :: d' else (k', v') :: dict_set k v d'
  end.

(** [d.get(k)] *)
Fixpoint dict_get {V : Type} (k : string) (d : list (string * V)) : option V :=
  match d with
  | [] => None
  | (k', v') :: d' => if String.eqb k' k then Some v' else dict_get k d'
  end.

(** [list(d.keys())] *)
Definition dict_keys {V : Type} (d : list (string * V)) : list string := d.*1.

Record chunk_data := ChunkData {
  cd_id : Z;
  cd_doc_id : string;
  cd_chunk_idx : Z;
  cd_page_num : Z;
  cd_page_range : list Z;
  cd_is_merged : bool;
  cd_text : string;
  cd_embedding : vector
}.

(** A [PointStruct] with its payload. *)
Record point := Point {
  pt_id : Z;
  pt_vector : vector;
  pt_text : string;
  pt_doc : string;
  pt_chunk_idx : Z;
  pt_page_num : Z;
  pt_page_range : list Z;
  pt_is_merged : bool
}.

(** A file of [md_files]: [file_path.name], [file_path.stem] and the text
    read from it. *)
Record source_file := SourceFile {
  f_name : string;
  f_stem : string;
  f_content : string
}.

(** The module-level variables of the script. [page_range_var] is the name
    [page_range], unbound until the first chunk is processed. [sent] are the
    statements sent to the graph store, [printed] the completed report
    lines. *)
Record index_state := IndexState {
  sent : list stmt;
  all_points : list point;
  point_id : Z;
  doc_data : list (string * list chunk_data);
  total_chunks : Z;
  merged_chunks : Z;
  pages_merged : Z;
  chunks_list : list chunk_data;
  merged_count : Z;
  page_range_var : option (list Z);
  printed : list string
}.

Definition initial_state : index_state :=
  IndexState [] [] 0 [] 0 0 0 [] 0 None [].

(** Body of [for page_data in pages]. *)
Definition index_page (encode : string → vector) (doc_id : string)
    (st : index_state) (page_data : chunk) : index_state :=
  let page_text := text page_data in
  let range := page_range page_data in
  let merged := is_merged page_data in
  let embedding := encode page_text in
  let idx := Z.of_nat (length (chunks_list st)) in
  let chunk_data :=
    ChunkData (point_id st) doc_id idx (page_num page_data) range merged
              page_text embedding in
  IndexState (sent st)
    (all_points st ++
       [Point (point_id st) embedding page_text doc_id idx (page_num page_data)
              range merged])
    (point_id st + 1)
    (doc_data st) (total_chunks st) (merged_chunks st)
    (if merged then pages_merged st + Z.of_nat (length range) else pages_merged st)
    (chunks_list st ++ [chunk_data])
    (if merged then merged_count st + 1 else merged_count st)
    (Some range)
    (printed st).

(** The report line that closes the processing of a file. *)
Definition report_line (n_chunks : Z) (page_range_str : string) (merged : Z) : string :=
  "✓ (" +:+ Py.str n_chunks +:+ " chunks, pages " +:+ page_range_str +:+ ", "
  +:+ Py.str merged +:+ " merged)".

(** Body of [for file_path in md_files]. The last two statements read the
    name [page_range]: a [NameError] when it is still unbound. *)
Definition index_file (encode : string → vector) (st : index_state)
    (file : source_file) : py index_state :=
  let doc_id := f_stem file in
  let st1 :=
    IndexState (sent st ++ [MergeDocument doc_id (f_name file) (f_stem file)])
      (all_points st) (point_id st) (doc_data st) (total_chunks st)
      (merged_chunks st) (pages_merged st) [] 0 (page_range_var st) (printed st) in
  let pages := split_by_pages (f_content file) MIN_WORDS in
  let st2 := foldl (index_page encode doc_id) st1 pages in
  match page_range_var st2 with
  | None => Raise "name 'page_range' is not defined"
  | Some range =>
      let page_range_str :=
        match head range, last range with
        | Some a, Some b => Py.str a +:+ "-" +:+ Py.str b
        | _, _ => "N/A"
        end in
      Return
        (IndexState (sent st2) (all_points st2) (point_id st2)
           (dict_set doc_id (chunks_list st2) (doc_data st2))
           (total_chunks st2 + Z.of_nat (length (chunks_list st2)))
           (merged_chunks st2 + merged_count st2)
           (pages_merged st2) (chunks_list st2) (merged_count st2)
           (page_range_var st2)
           (printed st2 ++
              [report_line (Z.of_nat (length (chunks_list st2))) page_range_str
                           (merged_count st2)]))
  end.

(** PHASE 1, from a given state of the variables. *)
Definition phase1_from (encode : string → vector) (st : index_state)
    (md_files : list source_file) : py index_state :=
  py_foldl (index_file encode) st md_files.

(** [f"{r[0]}-{r[-1]}" if len(r) > 1 else str(r[0])] *)
Definition page_range_label (r : list Z) : py string :=
  if bool_decide (1 < length r)%nat then
    match head r, last r with
    | Some a, Some b => Return (Py.str a +:+ "-" +:+ Py.str b)
    | _, _ => Raise "list index out of range"
    end
  else
    match head r with
    | Some a => Return (Py.str a)
    | None => Raise "list index out of range"
    end.

(** [f"{doc_id}_page_{page_range_str}"] *)
Definition neo_id (doc_id page_range_str : string) : string :=
  doc_id +:+ "_page_" +:+ page_range_str.

(** "Create Page nodes": body of [for chunk in chunks]. *)
Definition create_page (doc_id : string) (ss : list stmt) (chunk : chunk_data)
    : py (list stmt) :=
  page_range_str ← page_range_label (cd_page_range chunk);
  let chunk_neo_id := neo_id doc_id page_range_str in
  Return (ss ++
    [CreatePage (PageNode chunk_neo_id doc_id (cd_page_num chunk)
                   (cd_page_range chunk) page_range_str (cd_chunk_idx chunk)
                   (cd_text chunk) (count_words (cd_text chunk))
                   (cd_is_merged chunk));
     MergeContains doc_id chunk_neo_id]).

(** [chunks[i]] *)
Definition item {A : Type} (l : list A) (i : nat) : py A :=
  match l !! i with
  | Some x => Return x
  | None => Raise "list index out of range"
  end.

(** "RELATIONSHIP 1": body of [for i in range(len(chunks) - 1)]. *)
Definition link_next (doc_id : string) (chunks : list chunk_data)
    (ss : list stmt) (i : nat) : py (list stmt) :=
  c1 ← item chunks i;
  c2 ← item chunks (S i);
  page1_str ← page_range_label (cd_page_range c1);
  page2_str ← page_range_label (cd_page_range c2);
  Return (ss ++ [CreateNextPage (neo_id doc_id page1_str) (neo_id doc_id page2_str)]).

(** [set(w.lower() for w in text.split()
         if len(w) >= MIN_WORD_LENGTH and w.isalpha())] *)
Definition keywords (t : string) : gset string :=
  list_to_set
    (Py.lower <$>
       filter (λ w, bool_decide (MIN_WORD_LENGTH ≤ Py.len w) && Py.isalpha w)
              (Py.split t)).

(** "RELATIONSHIP 2": body of [for j in range(i + 2, min(i + 6, len(chunks)))]. *)
Definition relate (doc_id : string) (chunks : list chunk_data) (i : nat)
    (words1 : gset string) (ss : list stmt) (j : nat) : py (list stmt) :=
  chunk2 ← item chunks j;
  let words2 := keywords (cd_text chunk2) in
  let common_words := words1 ∩ words2 in
  if bool_decide (SIMILARITY_THRESHOLD ≤ Z.of_nat (size common_words)) then
    ci ← item chunks i;
    cj ← item chunks j;
    page1_str ← page_range_label (cd_page_range ci);
    page2_str ← page_range_label (cd_page_range cj);
    Return (ss ++
      [CreateRelatedTo (neo_id doc_id page1_str) (neo_id doc_id page2_str)
         (take 5 (elements common_words))
         (cd_page_num cj - cd_page_num ci)])
  else Return ss.

(** Body of [for i, chunk1 in enumerate(chunks)]. *)
Definition relate_from (doc_id : string) (chunks : list chunk_data)
    (ss : list stmt) (ic : nat * chunk_data) : py (list stmt) :=
  let '(i, chunk1) := ic in
  let words1 := keywords (cd_text chunk1) in
  py_foldl (relate doc_id chunks i words1) ss
    (seq (i + 2) (Nat.min (i + 6) (length chunks) - (i + 2))).

Definition similarity_pass (doc_id : string) (chunks : list chunk_data)
    (ss : list stmt) : py (list stmt) :=
  py_foldl (relate_from doc_id chunks) ss (imap pair chunks).

Definition sequential_pass (doc_id : string) (chunks : list chunk_data)
    (ss : list stmt) : py (list stmt) :=
  py_foldl (link_next doc_id chunks) ss (seq 0 (length chunks - 1)).

(** PHASE 3: body of [for doc_id, chunks in doc_data.items()]. *)
Definition build_document (ss : list stmt) (entry : string * list chunk_data)
    : py (list stmt) :=
  let '(doc_id, chunks) := entry in
  ss1 ← py_foldl (create_page doc_id) ss chunks;
  ss2 ← sequential_pass doc_id chunks ss1;
  similarity_pass doc_id chunks ss2.

Definition phase3 (ss : list stmt) (docs : list (string * list chunk_data))
    : py (list stmt) :=
  py_foldl build_document ss docs.

(** The statements one run of the script sends, up to the final summary. *)
Definition index_script (encode : string → vector) (md_files : list source_file)
    : py (list stmt) :=
  match md_files with
  | [] => Raise "SystemExit: 1"
  | _ =>
      st ← phase1_from encode initial_state md_files;
      phase3 (sent st) (doc_data st)
  end.

(** The graph store after a run of the script on store [g]. *)
Definition run_index (encode : string → vector) (md_files : list source_file)
    (g : graph) : py graph :=
  ss ← index_script encode md_files;
  Return (exec_all g ss).


(** ** The query tool: results and control flow *)

(** Values stored in result dicts. *)
#[local] Unset Elimination Schemes.
Inductive value :=
  | VNone
  | VBool (b : bool)
  | VInt (n : Z)
  | VFloat (x : Q)
  | VStr (s : string)
  | VList (l : list value)
  | VDict (d : list (string * value)).
#[local] Set Elimination Schemes.

(** A result dict, keys in insertion order. *)
Definition dict : Type := list (string * value).

(** A block of statements working on the result dict under construction:
    it leaves the dict as mutated so far, and either a value or the exception
    that interrupted it. *)
Definition block (A : Type) : Type := dict → dict * py A.

Global Instance block_ret : MRet block := λ A a d, (d, Return a).
Global Instance block_bind : MBind block := λ A B f m d,
  match m d with
  | (d', Return a) => f a d'
  | (d', Raise e) => (d', Raise e)
  end.

(** A call that may raise. *)
Definition call {A : Type} (m : py A) : block A := λ d, (d, m).

(** [result[k] = v] *)
Definition set_key (k : string) (v : value) : block unit :=
  λ d, (dict_set k v d, Return ()).

Definition skip : block unit := mret ().

(** [try: body except Exception as e: handler(e)] *)
Definition try_except (body : block unit) (handler : string → block unit)
    : block unit :=
  λ d, match body d with
       | (d', Raise e) => handler e d'
       | r => r
       end.

(** Run a block on [d] and [return] the dict; an exception that escapes the
    block propagates to the caller. *)
Definition returning (d : dict) (b : block unit) : py dict :=
  match b d with
  | (d', Return _) => Return d'
  | (_, Raise e) => Raise e
  end.

(** ** The backends *)

(** Rows of the page queries of [get_page_content]. *)
Record page_row := PageRow {
  r_text : string;
  r_word_count : Z;
  r_id : string;
  r_page_range : list Z;
  r_page_range_str : string;
  r_is_merged : bool
}.

Record nav_row := NavRow {
  nav_page_num : Z;
  nav_page_range_str : string
}.

Record related_row := RelatedRow {
  rr_page_num : Z;
  rr_page_range_str : string;
  rr_keywords : list string
}.

(** Rows of [get_intra_document_context] and [get_document_info]. *)
Record chunk_row := ChunkRow {
  cr_id : string;
  cr_idx : Z;
  cr_text : string;
  cr_page_range_str : string;
  cr_is_merged : bool;
  cr_keywords : list string;
  cr_distance : Z
}.

Record doc_row := DocRow {
  dr_id : string;
  dr_source : string;
  dr_title : string
}.

(** The records of a query result as a [for rec in res] loop receives
    them. The driver fetches the records while the loop runs, so the loop
    may receive some records and then be ended by an exception of the
    driver; a query that fails at once is the case of no record. *)
Record rows (A : Type) := Rows {
  received : list A;
  failure : option string
}.
Arguments Rows {A} _ _.
Arguments received {A} _.
Arguments failure {A} _.

(** The end of a [for rec in res] loop: the exception of the driver, if
    there is one. *)
Definition end_of_rows {A : Type} (res : rows A) : block unit :=
  match failure res with
  | Some e => call (Raise e)
  | None => skip
  end.

(** The graph driver: one entry per Cypher query of the tool, each of which
    may raise. The results the tool reads with [single()] or [list(res)] are
    whole or an exception; those it reads in a [for] loop are [rows].
    Properties are taken to be set (not null), as the indexing script sets
    them all. *)
Record neo4j := Neo4j {
  session : py ();
  find_page : string → Z → py (list page_row);
  next_chunks : string → rows chunk_row;
  previous_chunks : string → rows chunk_row;
  related_chunks : string → rows chunk_row;
  pages_in_range : string → Z → Z → py (list page_row);
  page_containing : string → Z → py (list page_row);
  next_page_of : string → py (list nav_row);
  prev_page_of : string → py (list nav_row);
  related_pages_of : string → rows related_row;
  document_pages : string → rows chunk_row;
  count_next : string → py (list Z);
  count_related : string → py (list Z);
  all_documents : rows doc_row
}.

(** A scored point of the vector index; payload keys may be missing. *)
Record scored_point := ScoredPoint {
  sp_id : Z;
  sp_score : Q;
  sp_text : option string;
  sp_doc : option string;
  sp_chunk_idx : option Z;
  sp_page_num : option Z;
  sp_page_range : option (list Z);
  sp_is_merged : option bool
}.

(** The three connections of [DocumentationGPTTool]; [None] when
    [initialize_connections] could not establish one. *)
Record services := Services {
  embedder : option (string → py vector);
  qdrant_client : option (vector → option string → Z → py (list scored_point));
  neo4j_driver : option neo4j
}.

(** ** The query operations *)

Definition VInts (l : list Z) : value := VList (VInt <$> l).
Definition VStrs (l : list string) : value := VList (VStr <$> l).

(** [x if x is not None else None] for an optional string argument. *)
Definition VOptStr (o : option string) : value :=
  match o with
  | Some s => VStr s
  | None => VNone
  end.

Definition chunk_entry (p : scored_point) : value :=
  VDict [("id", VInt (sp_id p));
         ("text", VStr (default "" (sp_text p)));
         ("doc", VStr (default "" (sp_doc p)));
         ("chunk_idx", VInt (default 0 (sp_chunk_idx p)));
         ("page_num", VInt (default 0 (sp_page_num p)));
         ("page_range", VInts (default [] (sp_page_range p)));
         ("is_merged", VBool (default false (sp_is_merged p)));
         ("score", VFloat (sp_score p))].

Definition search_documentation (sv : services) (query : string) (limit : Z)
    (doc_filter : option string) : py dict :=
  let results : dict :=
    [("query", VStr query);
     ("chunks", VList []);
     ("count", VInt 0);
     ("search_type", VStr "vector_search");
     ("filter_applied", VBool (bool_decide (is_Some doc_filter)));
     ("filter", VOptStr doc_filter)] in
  match embedder sv, qdrant_client sv with
  | Some encode, Some query_points =>
      returning results
        (try_except
           (query_embedding ← call (encode query);
            let query_filter :=
              match doc_filter with
              | Some "" => None
              | f => f
              end in
            points ← call (query_points query_embedding query_filter limit);
            set_key "chunks" (VList (chunk_entry <$> points));;
            set_key "count" (VInt (Z.of_nat (length points))))
           (λ e, set_key "error" (VStr e)))
  | _, _ => Return (dict_set "error" (VStr "Embedder or Qdrant not initialized") results)
  end.

(** [rec['text'][:n] if rec['text'] else 'N/A'] *)
Definition preview (n : nat) (t : string) : string :=
  match t with
  | "" => "N/A"
  | _ => String.substring 0 n t
  end.

Definition context_entry (r : chunk_row) : value :=
  VDict [("id", VStr (cr_id r));
         ("chunk_idx", VInt (cr_idx r));
         ("page_range", VStr (cr_page_range_str r));
         ("text", VStr (preview 200 (cr_text r)))].

Definition discussing_entry (r : chunk_row) : value :=
  VDict [("id", VStr (cr_id r));
         ("chunk_idx", VInt (cr_idx r));
         ("page_range", VStr (cr_page_range_str r));
         ("text", VStr (preview 200 (cr_text r)));
         ("shared_keywords", VStrs (cr_keywords r));
         ("distance", VInt (cr_distance r))].

Definition get_intra_document_context (sv : services) (doc_id : string)
    (chunk_idx : Z) : py dict :=
  let context : dict :=
    [("doc_id", VStr doc_id);
     ("chunk_idx", VInt chunk_idx);
     ("next_chunks", VList []);
     ("discussing_chunks", VList []);
     ("previous_chunks", VList []);
     ("error", VNone)] in
  match neo4j_driver sv with
  | None => Return (dict_set "error" (VStr "Neo4j not connected") context)
  | Some db =>
      returning context
        (try_except
           (call (session db);;
            recs ← call (find_page db doc_id chunk_idx);
            match head recs with
            | None =>
                set_key "error"
                  (VStr ("Chunk " +:+ Py.str chunk_idx +:+ " not found in " +:+ doc_id))
            | Some rec =>
                let page_id := r_id rec in
                let nexts := next_chunks db page_id in
                set_key "next_chunks" (VList (context_entry <$> received nexts));;
                end_of_rows nexts;;
                let prevs := previous_chunks db page_id in
                set_key "previous_chunks" (VList (context_entry <$> received prevs));;
                end_of_rows prevs;;
                let rels := related_chunks db page_id in
                set_key "discussing_chunks" (VList (discussing_entry <$> received rels));;
                end_of_rows rels
            end)
           (λ e, set_key "error" (VStr e)))
  end.

(** [d[k]] *)
Definition get_item (k : string) (d : dict) : py value :=
  match dict_get k d with
  | Some v => Return v
  | None => Raise k
  end.

(** [d.get(k, default)] *)
Definition get_or (k : string) (dflt : value) (d : dict) : value :=
  default dflt (dict_get k d).

(** Body of [for chunk in results['chunks']] of [hybrid_search]: the chunk
    with its context keys added. *)
Definition expand_chunk (sv : services) (chunk : value) : py value :=
  match chunk with
  | VDict c =>
      doc ← get_item "doc" c;
      idx ← get_item "chunk_idx" c;
      match doc, idx with
      | VStr doc_id, VInt chunk_idx =>
          context ← get_intra_document_context sv doc_id chunk_idx;
          Return (VDict
            (dict_set "context_error" (get_or "error" VNone context)
            (dict_set "related_discussing" (get_or "discussing_chunks" (VList []) context)
            (dict_set "related_previous" (get_or "previous_chunks" (VList []) context)
            (dict_set "related_next" (get_or "next_chunks" (VList []) context) c)))))
      | _, _ => Raise "unsupported operand type"
      end
  | _ => Raise "object is not subscriptable"
  end.

(** The loop over the chunks: they are updated in place, so the chunks
    before the one that raises stay expanded. *)
Fixpoint expand_chunks (sv : services) (chunks : list value)
    : list value * py () :=
  match chunks with
  | [] => ([], Return ())
  | chunk :: rest =>
      match expand_chunk sv chunk with
      | Return chunk' =>
          let '(rest', r) := expand_chunks sv rest in (chunk' :: rest', r)
      | Raise e => (chunk :: rest, Raise e)
      end
  end.

(** [results[k]] read inside a block. *)
Definition read_key (k : string) : block value := λ d, (d, get_item k d).

(** The loop of [hybrid_search] on the list held by [results['chunks']]. *)
Definition expand_in_place (sv : services) (l : list value) : block unit :=
  λ d, let '(l', r) := expand_chunks sv l in (dict_set "chunks" (VList l') d, r).

(** Truth value of a Python object. *)
Definition truthy (v : value) : bool :=
  match v with
  | VNone => false
  | VBool b => b
  | VInt n => negb (n =? 0)
  | VFloat x => negb (Qnum x =? 0)
  | VStr s => negb (String.eqb s "")
  | VList l => match l with [] => false | _ => true end
  | VDict d => match d with [] => false | _ => true end
  end.

Definition hybrid_search (sv : services) (query : string) (limit : Z)
    (doc_filter : option string) (expand_context : bool) : py dict :=
  results ← search_documentation sv query limit doc_filter;
  let results := dict_set "search_type" (VStr "hybrid_search") results in
  let results := dict_set "expanded_with_context" (VBool false) results in
  if negb expand_context || negb (truthy (get_or "chunks" VNone results)) then
    Return results
  else
    returning results
      (try_except
         (chunks ← read_key "chunks";
          match chunks with
          | VList l =>
              expand_in_place sv l;;
              set_key "expanded_with_context" (VBool true)
          | _ => call (Raise "object is not iterable")
          end)
         (λ e, skip)).

Definition nav_entry (r : nav_row) : value :=
  VDict [("page_num", VInt (nav_page_num r));
         ("page_range", VStr (nav_page_range_str r))].

Definition related_entry (r : related_row) : value :=
  VDict [("page_num", VInt (rr_page_num r));
         ("page_range", VStr (rr_page_range_str r));
         ("shared_keywords", VStrs (rr_keywords r))].

(** The three navigation queries at the end of [get_page_content]. *)
Definition navigation (db : neo4j) (page_id last_page_for_next : string)
    : block unit :=
  recs ← call (next_page_of db last_page_for_next);
  match head recs with
  | Some rec => set_key "next_page" (nav_entry rec)
  | None => skip
  end;;
  recs ← call (prev_page_of db page_id);
  match head recs with
  | Some rec => set_key "prev_page" (nav_entry rec)
  | None => skip
  end;;
  let recs := related_pages_of db page_id in
  set_key "related_pages" (VList (related_entry <$> received recs));;
  end_of_rows recs.

(** [f"\n--- Pages {page_range_str} ---\n"] followed by the text: the two
    items a chunk adds to [combined_content]. *)
Definition content_items (rec : page_row) : list string :=
  [Py.nl +:+ "--- Pages " +:+ r_page_range_str rec +:+ " ---" +:+ Py.nl;
   r_text rec].

(** [sorted(list(all_pages))] for the set of the page numbers of the rows. *)
Definition union_of_ranges (pages : list page_row) : list Z :=
  merge_sort Z.le (elements (list_to_set (pages ≫= r_page_range) : gset Z)).

Definition get_page_content (sv : services) (doc_id : string) (start_page : Z)
    (end_page : option Z) : py dict :=
  let is_range_request :=
    match end_page with
    | Some e => negb (e =? start_page)
    | None => false
    end in
  let result : dict :=
    [("doc_id", VStr doc_id);
     ("start_page", VInt start_page);
     ("end_page", VInt (if is_range_request then default start_page end_page
                        else start_page));
     ("content", VNone);
     ("word_count", VInt 0);
     ("page_range", VNone);
     ("is_range", VBool is_range_request);
     ("pages_retrieved", VInt 0);
     ("is_merged", VBool false);
     ("next_page", VNone);
     ("prev_page", VNone);
     ("related_pages", VList []);
     ("error", VNone)] in
  match neo4j_driver sv with
  | None => Return (dict_set "error" (VStr "Neo4j not connected") result)
  | Some db =>
      returning result
        (try_except
           (call (session db);;
            if is_range_request then
              let end_ := default start_page end_page in
              pages ← call (pages_in_range db doc_id start_page end_);
              match pages with
              | [] =>
                  set_key "error"
                    (VStr ("No pages found in range " +:+ Py.str start_page +:+ "-"
                           +:+ Py.str end_ +:+ " in " +:+ doc_id))
              | first :: _ =>
                  let first_page_id := r_id first in
                  let last_page_id := r_id (List.last pages first) in
                  set_key "content" (VStr (Py.join Py.nl (pages ≫= content_items)));;
                  set_key "word_count" (VInt (sumZ (r_word_count <$> pages)));;
                  set_key "page_range" (VInts (union_of_ranges pages));;
                  set_key "pages_retrieved" (VInt (Z.of_nat (length pages)));;
                  set_key "info"
                    (VStr ("Retrieved " +:+ Py.str (Z.of_nat (length pages))
                           +:+ " page chunk(s) covering pages " +:+ Py.str start_page
                           +:+ "-" +:+ Py.str end_));;
                  navigation db first_page_id last_page_id
              end
            else
              recs ← call (page_containing db doc_id start_page);
              match head recs with
              | None =>
                  set_key "error"
                    (VStr ("Page " +:+ Py.str start_page +:+ " not found in " +:+ doc_id))
              | Some rec =>
                  set_key "content" (VStr (r_text rec));;
                  set_key "word_count" (VInt (r_word_count rec));;
                  set_key "page_range" (VInts (r_page_range rec));;
                  set_key "is_merged" (VBool (r_is_merged rec));;
                  set_key "pages_retrieved" (VInt 1);;
                  (if r_is_merged rec then
                     set_key "info"
                       (VStr ("Page " +:+ Py.str start_page
                              +:+ " is part of merged pages " +:+ r_page_range_str rec))
                   else skip);;
                  navigation db (r_id rec) (r_id rec)
              end)
           (λ e, set_key "error" (VStr e)))
  end.

Definition summary_entry (r : chunk_row) : value :=
  VDict [("id", VStr (cr_id r));
         ("chunk_idx", VInt (cr_idx r));
         ("page_range", VStr (cr_page_range_str r));
         ("is_merged", VBool (cr_is_merged r));
         ("text", VStr (preview 150 (cr_text r)))].

(** The [stats] dict of [get_document_info]. *)
Definition stats_dict (total merged nexts discusses relationships : Z) : value :=
  VDict [("total_chunks", VInt total);
         ("merged_chunks", VInt merged);
         ("next_relationships", VInt nexts);
         ("discusses_relationships", VInt discusses);
         ("total_relationships", VInt relationships)].

Definition get_document_info (sv : services) (doc_id : string) : py dict :=
  let result : dict :=
    [("doc_id", VStr doc_id);
     ("chunks", VList []);
     ("stats", stats_dict 0 0 0 0 0);
     ("error", VNone)] in
  match neo4j_driver sv with
  | None => Return (dict_set "error" (VStr "Neo4j not connected") result)
  | Some db =>
      returning result
        (try_except
           (call (session db);;
            let res := document_pages db doc_id in
            let rows := received res in
            let total := Z.of_nat (length rows) in
            let merged := Z.of_nat (length (filter (λ r, cr_is_merged r = true) rows)) in
            set_key "chunks" (VList (summary_entry <$> rows));;
            end_of_rows res;;
            set_key "stats" (stats_dict total merged 0 0 0);;
            n ← call (count_next db doc_id);
            let nexts := default 0 (head n) in
            set_key "stats" (stats_dict total merged nexts 0 0);;
            m ← call (count_related db doc_id);
            let discusses := default 0 (head m) in
            set_key "stats" (stats_dict total merged nexts discusses 0);;
            set_key "stats" (stats_dict total merged nexts discusses (nexts + discusses)))
           (λ e, set_key "error" (VStr e)))
  end.

Definition document_entry (r : doc_row) : value :=
  VDict [("id", VStr (dr_id r));
         ("source", VStr (dr_source r));
         ("title", VStr (dr_title r))].

Definition list_documents (sv : services) : py dict :=
  let result : dict :=
    [("documents", VList []);
     ("total", VInt 0);
     ("error", VNone)] in
  match neo4j_driver sv with
  | None => Return (dict_set "error" (VStr "Neo4j not connected") result)
  | Some db =>
      returning result
        (try_except
           (call (session db);;
            let res := all_documents db in
            set_key "documents" (VList (document_entry <$> received res));;
            end_of_rows res;;
            set_key "total" (VInt (Z.of_nat (length (received res)))))
           (λ e, set_key "error" (VStr e)))
  end.


(** ** The graph driver over a store

    The meaning of the tool's Cypher queries on a graph [g]. Rows come in
    store order unless the query has an [ORDER BY]. *)

Definition row_of_page (p : page_node) : page_row :=
  PageRow (pn_text p) (pn_word_count p) (pn_id p) (pn_page_range p)
          (pn_page_range_str p) (pn_is_merged p).

Definition nav_of_page (p : page_node) : nav_row :=
  NavRow (pn_page_num p) (pn_page_range_str p).

Definition chunk_row_of_page (p : page_node) (keywords : list string)
    (distance : Z) : chunk_row :=
  ChunkRow (pn_id p) (pn_chunk_idx p) (pn_text p) (pn_page_range_str p)
           (pn_is_merged p) keywords distance.

(** The row of a [RELATED_TO] match: the target node with the keywords of
    the relationship. *)
Definition related_row_of (x : page_node * list string * Z) : related_row :=
  RelatedRow (pn_page_num x.1.1) (pn_page_range_str x.1.1) x.1.2.

(** [ORDER BY p.chunk_idx] *)
Definition by_chunk_idx (a b : page_node) : Prop := pn_chunk_idx a ≤ pn_chunk_idx b.
Global Instance by_chunk_idx_dec : RelDecision by_chunk_idx.
Proof. intros a b. unfold by_chunk_idx. apply _. Defined.

(** [ORDER BY size(r.common_keywords) DESC] *)
Definition by_keywords_desc {A : Type} (a b : A * list string * Z) : Prop :=
  (length (b.1.2) ≤ length (a.1.2))%nat.
Global Instance by_keywords_desc_dec {A : Type} : RelDecision (@by_keywords_desc A).
Proof. intros a b. unfold by_keywords_desc. apply _. Defined.

(** [ORDER BY id] on documents *)
Definition by_doc_id (a b : doc_node) : Prop := String.le (dn_id a) (dn_id b).
Global Instance by_doc_id_dec : RelDecision by_doc_id.
Proof. intros a b. unfold by_doc_id. apply _. Defined.

(** [ANY(page IN p.page_range WHERE page >= $start_page AND page <= $end_page)] *)
Definition intersects (start_page end_page : Z) (range : list Z) : Prop :=
  Exists (λ page, start_page ≤ page ∧ page ≤ end_page) range.

(** [MATCH (p:Page {doc_id: $doc_id}) WHERE ANY(...) ... ORDER BY p.chunk_idx] *)
Definition store_pages_in_range (g : graph) (doc_id : string)
    (start_page end_page : Z) : list page_node :=
  merge_sort by_chunk_idx
    (filter (λ p, pn_doc_id p = doc_id
                  ∧ intersects start_page end_page (pn_page_range p))
            (g_pages g)).

(** [MATCH (p:Page {doc_id: $doc_id}) WHERE $start_page IN p.page_range] *)
Definition store_page_containing (g : graph) (doc_id : string)
    (start_page : Z) : list page_node :=
  filter (λ p, pn_doc_id p = doc_id ∧ start_page ∈ pn_page_range p) (g_pages g).

(** [MATCH (p:Page {doc_id: $doc_id, chunk_idx: $chunk_idx})] *)
Definition store_find_page (g : graph) (doc_id : string) (chunk_idx : Z)
    : list page_node :=
  filter (λ p, pn_doc_id p = doc_id ∧ pn_chunk_idx p = chunk_idx) (g_pages g).

(** [MATCH (p1:Page {id: $page_id})-[:NEXT_PAGE]->(p2:Page)]: the nodes [p2]. *)
Definition store_successors (g : graph) (page_id : string) : list page_node :=
  r ← g_rels g;
  match r with
  | NextPage a b =>
      match g_pages g !! a, g_pages g !! b with
      | Some p1, Some p2 => if String.eqb (pn_id p1) page_id then [p2] else []
      | _, _ => []
      end
  | _ => []
  end.

(** [MATCH (p1:Page {id: $page_id})<-[:NEXT_PAGE]-(p2:Page)]: the nodes [p2]. *)
Definition store_predecessors (g : graph) (page_id : string) : list page_node :=
  r ← g_rels g;
  match r with
  | NextPage a b =>
      match g_pages g !! a, g_pages g !! b with
      | Some p2, Some p1 => if String.eqb (pn_id p1) page_id then [p2] else []
      | _, _ => []
      end
  | _ => []
  end.

(** [MATCH (p1:Page {id: $page_id})-[r:RELATED_TO]->(p2:Page) ...
     ORDER BY size(r.common_keywords) DESC LIMIT 5]: the nodes [p2] with the
    payload of [r]. *)
Definition store_related_all (g : graph) (page_id : string)
    : list (page_node * list string * Z) :=
  r ← g_rels g;
  match r with
  | RelatedTo a b keywords distance =>
      match g_pages g !! a, g_pages g !! b with
      | Some p1, Some p2 =>
          if String.eqb (pn_id p1) page_id then [(p2, keywords, distance)] else []
      | _, _ => []
      end
  | _ => []
  end.

Definition store_related (g : graph) (page_id : string)
    : list (page_node * list string * Z) :=
  take 5 (merge_sort by_keywords_desc (store_related_all g page_id)).

(** [MATCH (d:Document {id: $doc_id})-[:CONTAINS]->(p:Page)]: positions of
    the nodes [p], one per matching relationship. *)
Definition store_contained (g : graph) (doc_id : string) : list nat :=
  r ← g_rels g;
  match r with
  | Contains d p =>
      match g_docs g !! d with
      | Some dn => if String.eqb (dn_id dn) doc_id then [p] else []
      | None => []
      end
  | _ => []
  end.

(** [MATCH (d:Document {id: $doc_id})-[:CONTAINS]->(p:Page) MATCH (p)-[..]->()
     RETURN count( * )] for the relationships selected by [kind]. *)
Definition page_source (r : rel) : option nat :=
  match r with
  | NextPage a _ | RelatedTo a _ _ _ => Some a
  | Contains _ _ => None
  end.

Definition store_count_from (g : graph) (doc_id : string) (kind : rel → bool) : Z :=
  Z.of_nat (length (
    p ← store_contained g doc_id;
    filter (λ r, kind r = true ∧ page_source r = Some p) (g_rels g))).

Definition store_driver (g : graph) : neo4j :=
  {| session := Return ();
     find_page doc_id chunk_idx := Return (row_of_page <$> store_find_page g doc_id chunk_idx);
     next_chunks page_id :=
       Rows (take 5 ((λ p, chunk_row_of_page p [] 0) <$> store_successors g page_id))
            None;
     previous_chunks page_id :=
       Rows (take 5 ((λ p, chunk_row_of_page p [] 0) <$> store_predecessors g page_id))
            None;
     related_chunks page_id :=
       Rows ((λ '(p, keywords, distance), chunk_row_of_page p keywords distance)
               <$> store_related g page_id)
            None;
     pages_in_range doc_id start_page end_page :=
       Return (row_of_page <$> store_pages_in_range g doc_id start_page end_page);
     page_containing doc_id start_page :=
       Return (row_of_page <$> store_page_containing g doc_id start_page);
     next_page_of page_id := Return (nav_of_page <$> store_successors g page_id);
     prev_page_of page_id := Return (nav_of_page <$> store_predecessors g page_id);
     related_pages_of page_id := Rows (related_row_of <$> store_related g page_id) None;
     document_pages doc_id :=
       Rows ((λ p, chunk_row_of_page p [] 0)
               <$> merge_sort by_chunk_idx
                     (omap (λ i, g_pages g !! i) (store_contained g doc_id)))
            None;
     count_next doc_id := Return [store_count_from g doc_id is_next_page];
     count_related doc_id := Return [store_count_from g doc_id is_related_to];
     all_documents :=
       Rows ((λ d, DocRow (dn_id d) (dn_source d) (dn_title d))
               <$> merge_sort by_doc_id (g_docs g))
            None |}.

(** The tool connected to a graph store, without vector search. *)
Definition store_services (g : graph) : services :=
  Services None None (Some (store_driver g)).


(** ** Auxiliary definitions for the statements *)

(** Whether the string has a character that is not whitespace. *)
Fixpoint has_nonspace (s : string) : bool :=
  match s with
  | "" => false
  | String c s' => negb (Py.isspace c) || has_nonspace s'
  end.

(** The page numbers of the markers of a document, in order of occurrence. *)
Definition marker_numbers (content : string) : list Z :=
  omap page_match (Py.split_on Py.LF content).

(** A raw page whose stored word count is the word count of its text. *)
Definition raw_consistent (p : raw_page) : Prop :=
  rp_word_count p = count_words (rp_text p).

(** While a page is open, its first line is the marker line. *)
Definition pending_ok (st : scan_state) : Prop :=
  match current_page_num st with
  | None => True
  | Some _ => ∃ l ls, current_page st = l :: ls ∧ has_nonspace l = true
  end.

(** The text a merged chunk gets from its first page text [t] and the
    pages it absorbs. *)
Definition absorbed_text (t : string) (taken : list raw_page) : string :=
  foldl (λ acc p, acc +:+ Py.nl +:+ Py.nl +:+ rp_text p) t taken.

(** A page of a sample document: its marker line and [k] words. *)
Definition sample_page (n : Z) (k : nat) : string :=
  "Page " +:+ Py.str n +:+ Py.nl +:+ filler k.

(** A sample document with two full pages carrying the same number. *)
Definition repeated_marker_doc : string :=
  sample_page 1 50 +:+ Py.nl +:+ sample_page 1 50.

(** A sample document with two full pages. *)
Definition two_page_doc : string :=
  sample_page 1 50 +:+ Py.nl +:+ sample_page 2 50.

(** Coverage as the design document states it: the page numbers of the
    chunks are those of the markers, and no page number is in the
    [page_range] of two chunks. *)
Definition coverage (content : string) (min_words : Z) : Prop :=
  let chunks := split_by_pages content min_words in
  (∀ n, n ∈ marker_numbers content ↔ ∃ c, c ∈ chunks ∧ n ∈ page_range c)
  ∧ (∀ i j ci cj n,
       chunks !! i = Some ci → chunks !! j = Some cj →
       n ∈ page_range ci → n ∈ page_range cj → i = j).

(** The chunk made of a group of consecutive raw pages, following the
    description of the merging pass. *)
Definition chunk_of_group (g : list raw_page) : chunk :=
  Chunk (default 0 (head (rp_page_num <$> g)))
        (rp_page_num <$> g)
        (Py.join (Py.nl +:+ Py.nl) (rp_text <$> g))
        (sumZ (rp_word_count <$> g))
        (bool_decide (1 < length g)%nat).

(** A group is merged forward: a page is added only while the pages before
    it are together below the threshold. *)
Definition merged_forward (min_words : Z) (g : list raw_page) : Prop :=
  g ≠ [] ∧
  ∀ k, (0 < k < length g)%nat → sumZ (rp_word_count <$> take k g) < min_words.


(** A sample embedding function. *)
Definition sample_encode (t : string) : vector := [].

(** A report line that announces success. *)
Definition success_line (line : string) : bool := String.prefix "✓" line.

(** The handling of segmentation failure as the design document states it,
    for the [i]-th file of a batch: the pass goes through the batch, and the
    report of that file is not a success report. *)
Definition signals_segmentation_failure (encode : string → vector)
    (md_files : list source_file) (i : nat) : Prop :=
  ∃ st, phase1_from encode initial_state md_files = Return st
        ∧ ∃ line, printed st !! i = Some line ∧ success_line line = false.

(** Sample batches: a file without markers after, and before, a file with
    two pages. *)
Definition batch_markerless_last : list source_file :=
  [SourceFile "b.md" "b" two_page_doc; SourceFile "a.md" "a" "no markers"].

Definition batch_markerless_first : list source_file :=
  [SourceFile "a.md" "a" "no markers"; SourceFile "b.md" "b" two_page_doc].


(** A state of the script's variables in which [page_range] is bound. *)
Definition state_after_pages : index_state :=
  IndexState [] [] 0 [] 0 0 0 [] 0 (Some [2]) [].

(** A sample batch of one file with two full pages. *)
Definition sample_batch : list source_file :=
  [SourceFile "a.md" "a" two_page_doc].

(** The [CREATE (p:Page ...)] statements of a run. *)
Definition created_pages (ss : list stmt) : list page_node :=
  omap (λ s, match s with CreatePage p => Some p | _ => None end) ss.


(** The pairs of positions compared by the similarity pass on [n] chunks. *)
Definition window_pairs (n : nat) : list (nat * nat) :=
  i ← seq 0 n; pair i <$> seq (i + 2) (Nat.min (i + 6) n - (i + 2)).

(** The label of a page range that is not empty. *)
Definition range_label (r : list Z) : string :=
  match page_range_label r with
  | Return label => label
  | Raise _ => ""
  end.

(** The node id of a chunk: [f"{doc_id}_page_{page_range_str}"]. *)
Definition chunk_node_id (doc_id : string) (c : chunk_data) : string :=
  neo_id doc_id (range_label (cd_page_range c)).

(** The Page node the script creates for an entry of [doc_data]. *)
Definition page_of_chunk_data (doc_id : string) (cd : chunk_data) : page_node :=
  PageNode (chunk_node_id doc_id cd) doc_id (cd_page_num cd) (cd_page_range cd)
           (range_label (cd_page_range cd)) (cd_chunk_idx cd) (cd_text cd)
           (count_words (cd_text cd)) (cd_is_merged cd).

(** The Page node of the [i]-th chunk of a document. *)
Definition node_of_chunk (doc_id : string) (i : nat) (c : chunk) : page_node :=
  PageNode (neo_id doc_id (range_label (page_range c))) doc_id (page_num c)
           (page_range c) (range_label (page_range c)) (Z.of_nat i) (text c)
           (count_words (text c)) (is_merged c).

(** The Page nodes of a batch: for each file, in order, one node per chunk
    of its text. *)
Definition indexed_pages (md_files : list source_file) : list page_node :=
  f ← md_files;
  imap (node_of_chunk (f_stem f)) (split_by_pages (f_content f) MIN_WORDS).

(** The keywords two chunks share. *)
Definition shared_keywords (ci cj : chunk_data) : gset string :=
  keywords (cd_text ci) ∩ keywords (cd_text cj).

(** The similarity relationship of a pair of positions, following the
    design document: present when the chunks share at least
    [SIMILARITY_THRESHOLD] keywords, with up to five of them and the page
    distance as payload. *)
Definition similarity_edge (doc_id : string) (chunks : list chunk_data)
    (ij : nat * nat) : option stmt :=
  ci ← chunks !! ij.1;
  cj ← chunks !! ij.2;
  if bool_decide (SIMILARITY_THRESHOLD ≤ Z.of_nat (size (shared_keywords ci cj)))
  then Some (CreateRelatedTo (chunk_node_id doc_id ci) (chunk_node_id doc_id cj)
               (take 5 (elements (shared_keywords ci cj)))
               (cd_page_num cj - cd_page_num ci))
  else None.

(** Every character is a lowercase letter. *)
Fixpoint all_lower (s : string) : bool :=
  match s with
  | "" => true
  | String c s' => Py.islower c && all_lower s'
  end.

(** Four sample chunks on pages 1, 2, 3 and 7: the first and the last share
    the keywords alpha, bravo, charlie; the second and the last share two. *)
Definition sample_chunk (idx page : Z) (t : string) : chunk_data :=
  ChunkData idx "a" idx page [page] false t [].

Definition sample_chunks : list chunk_data :=
  [sample_chunk 0 1 "Alpha bravo charlie delta";
   sample_chunk 1 2 "alpha bravo";
   sample_chunk 2 3 "nothing shared";
   sample_chunk 3 7 "ALPHA Bravo charlie, charlie echo"].


(** The value of an optional navigation row. *)
Definition nav_value (o : option nav_row) : value :=
  match o with
  | Some r => VDict [("page_num", VInt (nav_page_num r));
                     ("page_range", VStr (nav_page_range_str r))]
  | None => VNone
  end.

(** The entries of [related_pages] for the rows of the related pages. *)
Definition related_values (rels : list related_row) : value :=
  VList ((λ r, VDict [("page_num", VInt (rr_page_num r));
                      ("page_range", VStr (rr_page_range_str r));
                      ("shared_keywords", VList (VStr <$> rr_keywords r))])
           <$> rels).

(** The result of [get_page_content] for a resolved range of rows. *)
Definition range_result (doc_id : string) (start_page end_page : Z)
    (pages : list page_row) (nexts prevs : list nav_row)
    (rels : list related_row) : dict :=
  [("doc_id", VStr doc_id);
   ("start_page", VInt start_page);
   ("end_page", VInt end_page);
   ("content", VStr (Py.join Py.nl (pages ≫= content_items)));
   ("word_count", VInt (sumZ (r_word_count <$> pages)));
   ("page_range", VInts (union_of_ranges pages));
   ("is_range", VBool true);
   ("pages_retrieved", VInt (Z.of_nat (length pages)));
   ("is_merged", VBool false);
   ("next_page", nav_value (head nexts));
   ("prev_page", nav_value (head prevs));
   ("related_pages", related_values rels);
   ("error", VNone);
   ("info", VStr ("Retrieved " +:+ Py.str (Z.of_nat (length pages))
                  +:+ " page chunk(s) covering pages " +:+ Py.str start_page
                  +:+ "-" +:+ Py.str end_page))].

(** The result of [get_page_content] for a resolved single page. *)
Definition single_result (doc_id : string) (start_page : Z) (rec : page_row)
    (nexts prevs : list nav_row) (rels : list related_row) : dict :=
  [("doc_id", VStr doc_id);
   ("start_page", VInt start_page);
   ("end_page", VInt start_page);
   ("content", VStr (r_text rec));
   ("word_count", VInt (r_word_count rec));
   ("page_range", VInts (r_page_range rec));
   ("is_range", VBool false);
   ("pages_retrieved", VInt 1);
   ("is_merged", VBool (r_is_merged rec));
   ("next_page", nav_value (head nexts));
   ("prev_page", nav_value (head prevs));
   ("related_pages", related_values rels);
   ("error", VNone)]
  ++ (if r_is_merged rec then
        [("info", VStr ("Page " +:+ Py.str start_page
                        +:+ " is part of merged pages " +:+ r_page_range_str rec))]
      else []).

(** The result of [get_page_content] when nothing is resolved. *)
Definition unresolved_result (doc_id : string) (start_page end_page : Z)
    (is_range : bool) (error : string) : dict :=
  [("doc_id", VStr doc_id);
   ("start_page", VInt start_page);
   ("end_page", VInt end_page);
   ("content", VNone);
   ("word_count", VInt 0);
   ("page_range", VNone);
   ("is_range", VBool is_range);
   ("pages_retrieved", VInt 0);
   ("is_merged", VBool false);
   ("next_page", VNone);
   ("prev_page", VNone);
   ("related_pages", VList []);
   ("error", VStr error)].

(** Whether a request is in single-page mode. *)
Definition single_mode (start_page : Z) (end_page : option Z) : Prop :=
  end_page = None ∨ end_page = Some start_page.


(** The store after one run of the script on the sample batch. *)
Definition sample_graph : graph :=
  match run_index sample_encode sample_batch empty_graph with
  | Return g => g
  | Raise _ => empty_graph
  end.

(** The page numbers covered by a list of nodes: sorted, each once. *)
Definition covered_pages (chunks : list page_node) : list Z :=
  union_of_ranges (row_of_page <$> chunks).

(** The texts of a list of nodes, each preceded by its separator header,
    joined by line feeds. *)
Definition combined_content (chunks : list page_node) : string :=
  Py.join Py.nl
    (chunks ≫= λ p, [Py.nl +:+ "--- Pages " +:+ pn_page_range_str p +:+ " ---" +:+ Py.nl;
                     pn_text p]).

(** Range resolution as the design document states it: the content, word
    count and page range of the result are those of the chunks that
    intersect the interval. *)
Definition range_resolution (g : graph) (doc_id : string)
    (start_page end_page : Z) : Prop :=
  let chunks := store_pages_in_range g doc_id start_page end_page in
  ∃ d, get_page_content (store_services g) doc_id start_page (Some end_page) = Return d
       ∧ dict_get "content" d = Some (VStr (combined_content chunks))
       ∧ dict_get "word_count" d = Some (VInt (sumZ (pn_word_count <$> chunks)))
       ∧ dict_get "page_range" d = Some (VInts (covered_pages chunks)).




(** What a file adds to [doc_data]: its stem with chunk data matching the
    chunks of its text. *)
Definition entry_of_file (f : source_file) (entry : string * list chunk_data) : Prop :=
  entry.1 = f_stem f
  ∧ page_of_chunk_data (f_stem f) <$> entry.2
    = imap (node_of_chunk (f_stem f)) (split_by_pages (f_content f) MIN_WORDS).

(** A sample document whose first two pages are merged: a short page 1,
    then pages 2 and 3 with 60 and 50 words. *)
Definition merged_doc : string :=
  "Page 1" +:+ Py.nl +:+ "Short." +:+ Py.nl +:+ sample_page 2 60
  +:+ Py.nl +:+ sample_page 3 50.

Definition merged_batch : list source_file := [SourceFile "m.md" "m" merged_doc].

Definition merged_graph : graph :=
  match run_index sample_encode merged_batch empty_graph with
  | Return g => g
  | Raise _ => empty_graph
  end.

(** What a single-page request returns for a file of an indexed batch:
    "not found" when no chunk of the file contains the page, and otherwise the
    text, page range, word count and merged flag of a chunk that contains it,
    which is the only such chunk when the markers of the file are distinct. *)
Definition single_page_outcome (g : graph) (f : source_file) (page : Z)
    (end_page : option Z) : Prop :=
  let chunks := split_by_pages (f_content f) MIN_WORDS in
  ∃ d, get_page_content (store_services g) (f_stem f) page end_page = Return d
       ∧ (((∀ c, c ∈ chunks → page ∉ page_range c)
           ∧ d = unresolved_result (f_stem f) page page false
                   ("Page " +:+ Py.str page +:+ " not found in " +:+ f_stem f))
          ∨ ∃ i c,
              chunks !! i = Some c
              ∧ page ∈ page_range c
              ∧ dict_get "content" d = Some (VStr (text c))
              ∧ dict_get "page_range" d = Some (VInts (page_range c))
              ∧ dict_get "word_count" d = Some (VInt (word_count c))
              ∧ dict_get "is_merged" d
                = Some (VBool (bool_decide (1 < length (page_range c))%nat))
              ∧ dict_get "error" d = Some VNone
              ∧ (NoDup (marker_numbers (f_content f)) →
                 ∀ j c', chunks !! j = Some c' → page ∈ page_range c' → j = i)).


(** A sample document of four pages: pages 1, 3 and 4 share the keywords
    alpha, bravo and charlie. *)
Definition keyword_page (n : Z) (words : string) : string :=
  "Page " +:+ Py.str n +:+ Py.nl +:+ words +:+ " " +:+ filler 50.

Definition story_doc : string :=
  keyword_page 1 "alpha bravo charlie" +:+ Py.nl
  +:+ sample_page 2 50 +:+ Py.nl
  +:+ keyword_page 3 "alpha bravo charlie delta" +:+ Py.nl
  +:+ keyword_page 4 "Alpha Bravo Charlie".

Definition story_graph : graph :=
  match run_index sample_encode [SourceFile "s.md" "s" story_doc] empty_graph with
  | Return g => g
  | Raise _ => empty_graph
  end.

(** The result of asking the sample store for pages 1 to 2. *)
Definition story_result : dict :=
  match get_page_content (store_services story_graph) "s" 1 (Some 2) with
  | Return d => d
  | Raise _ => []
  end.

(** Result shapes. *)
Definition search_keys : list string :=
  ["query"; "chunks"; "count"; "search_type"; "filter_applied"; "filter"].

Definition page_keys : list string :=
  ["doc_id"; "start_page"; "end_page"; "content"; "word_count"; "page_range";
   "is_range"; "pages_retrieved"; "is_merged"; "next_page"; "prev_page";
   "related_pages"; "error"].

Definition info_keys : list string := ["doc_id"; "chunks"; "stats"; "error"].

Definition list_keys : list string := ["documents"; "total"; "error"].

(** An operation has uniform results, as the design document states it:
    whatever the backends and the input, it returns a dict, with an error
    field, and always with the same keys. *)
Definition uniform {I : Type} (op : services → I → py dict) : Prop :=
  ∃ ks, "error" ∈ ks ∧ ∀ sv i, ∃ d, op sv i = Return d ∧ dict_keys d ≡ₚ ks.

Definition uniform_results : Prop :=
  uniform (λ sv '(q, l, f), search_documentation sv q l f)
  ∧ uniform (λ sv '(q, l, f, x), hybrid_search sv q l f x)
  ∧ uniform (λ sv '(doc, s, e), get_page_content sv doc s e)
  ∧ uniform (λ sv doc, get_document_info sv doc)
  ∧ uniform (λ sv (_ : ()), list_documents sv).

(** A block keeps a property of the key list of the dict it works on. *)
Definition keeps (K : list string → Prop) {A : Type} (b : block A) : Prop :=
  ∀ d, K (dict_keys d) → K (dict_keys (b d).1).

(** A block that does not raise. *)
Definition quiet {A : Type} (b : block A) : Prop :=
  ∀ d, ∃ a, (b d).2 = Return a.

(** Vector search services that work and find nothing. *)
Definition idle_search : services :=
  Services (Some (λ _, Return [])) (Some (λ _ _ _, Return [])) None.


(** Keys that are either a base list, or the base list followed by one
    optional key. *)
Definition optional_key (base : list string) (x : string) (ks : list string) : Prop :=
  ks = base ∨ ks = base ++ [x].

(** The store after indexing the sample document with a repeated marker. *)
Definition repeated_graph : graph :=
  match run_index sample_encode [SourceFile "r.md" "r" repeated_marker_doc] empty_graph with
  | Return g => g
  | Raise _ => empty_graph
  end.

(** Single-page resolution as the design document states it: the result is
    that of the one chunk of the document whose [page_range] contains the
    page, or "not found" when there is no such chunk. *)
Definition single_page_resolution (g : graph) (doc_id : string) (page : Z) : Prop :=
  ∃ d, get_page_content (store_services g) doc_id page None = Return d
       ∧ match store_page_containing g doc_id page with
         | [] =>
             dict_get "error" d
             = Some (VStr ("Page " +:+ Py.str page +:+ " not found in " +:+ doc_id))
         | [p] =>
             dict_get "content" d = Some (VStr (pn_text p))
             ∧ dict_get "page_range" d = Some (VInts (pn_page_range p))
             ∧ dict_get "is_merged" d
               = Some (VBool (bool_decide (1 < length (pn_page_range p))%nat))
             ∧ dict_get "error" d = Some VNone
         | _ => False
         end.


(** The statements of the similarity pass on a chunk list, following the
    design document: one per pair of the window whose chunks are similar. *)
Definition similarity_statements (doc_id : string) (chunks : list chunk_data)
    : list stmt :=
  omap (similarity_edge doc_id chunks) (window_pairs (length chunks)).

(** The relationship a pair of positions gets in a store whose Page nodes are
    those of the chunks. *)
Definition similarity_rel (chunks : list chunk_data) (ij : nat * nat) : option rel :=
  ci ← chunks !! ij.1;
  cj ← chunks !! ij.2;
  if bool_decide (SIMILARITY_THRESHOLD ≤ Z.of_nat (size (shared_keywords ci cj)))
  then Some (RelatedTo ij.1 ij.2 (take 5 (elements (shared_keywords ci cj)))
               (cd_page_num cj - cd_page_num ci))
  else None.

(** The similarity relationships of a store, as the design document states
    them: between two nodes of the window there is a RELATED_TO relationship
    exactly when their texts share at least [SIMILARITY_THRESHOLD]
    keywords. *)
Definition related_iff_similar (g : graph) : Prop :=
  ∀ i j pi pj,
    g_pages g !! i = Some pi → g_pages g !! j = Some pj →
    (i + 2 ≤ j ∧ j ≤ i + 5)%nat →
    (∃ keywords distance, RelatedTo i j keywords distance ∈ g_rels g)
    ↔ SIMILARITY_THRESHOLD
      ≤ Z.of_nat (size (keywords (pn_text pi) ∩ keywords (pn_text pj))).

(** A store holding the nodes of the sample chunks. *)
Definition sample_store : graph :=
  Graph [] (page_of_chunk_data "a" <$> sample_chunks) [].

(** A sample document in which two pages carry the number 1: the first and
    the last page share three keywords, the second page has none. *)
Definition collided_doc : string :=
  keyword_page 1 "alpha bravo charlie" +:+ Py.nl
  +:+ sample_page 1 50 +:+ Py.nl
  +:+ sample_page 2 50 +:+ Py.nl
  +:+ keyword_page 3 "alpha bravo charlie".

Definition collided_graph : graph :=
  match run_index sample_encode [SourceFile "c.md" "c" collided_doc] empty_graph with
  | Return g => g
  | Raise _ => empty_graph
  end.


(** * Further parts of the repository *)

(** ** The resource [get_documents_list] of [server.py] *)

(** [str(v)], as an f-string applies it, for the values that the results of
    the tool hold at the places the server formats; on a float, a list or a
    dict it is not modelled. *)
Definition format_value (v : value) : py string :=
  match v with
  | VNone => Return "None"
  | VBool b => Return (if b then "True" else "False")
  | VInt n => Return (Py.str n)
  | VStr s => Return s
  | _ => Raise "str() is not modelled on this value"
  end.

(** [f"  â€¢ {doc['id']}: {doc['source']}"] *)
Definition document_line (doc : value) : py string :=
  match doc with
  | VDict d =>
      id ← get_item "id" d;
      source ← get_item "source" d;
      id_text ← format_value id;
      source_text ← format_value source;
      Return ("  â€¢ " +:+ id_text +:+ ": " +:+ source_text)
  | _ => Raise "object is not subscriptable"
  end.

Definition get_documents_list (sv : services) : string :=
  match
    (result ← list_documents sv;
     error ← get_item "error" result;
     if truthy error then
       error_text ← format_value error;
       Return ("Error: " +:+ error_text)
     else
       documents ← get_item "documents" result;
       match documents with
       | VList docs =>
           lines ← py_foldl (λ lines doc, line ← document_line doc;
                                          Return (lines ++ [line]))
                            ["Indexed Documents:"] docs;
           total ← get_item "total" result;
           total_text ← format_value total;
           Return (Py.join Py.nl
                     (lines ++ [Py.nl +:+ "Total: " +:+ total_text +:+ " documents"]))
       | _ => Raise "object is not iterable"
       end)
  with
  | Return text => text
  | Raise e => "Error listing documents: " +:+ e
  end.

(** ** PHASE 2 of the indexing script: storing the vectors *)

Definition BATCH_SIZE : nat := 50.

(** [range(0, stop, step)] for a positive [step]. *)
Definition range_by (stop step : nat) : list nat :=
  (λ k, k * step)%nat <$> seq 0 ((stop + step - 1) / step).

(** [l[i:j]] for [0 <= i <= j]. *)
Definition slice {A : Type} (l : list A) (i j : nat) : list A :=
  take (j - i) (drop i l).

(** The batches sent to the vector index. *)
Definition batches (points : list point) : list (list point) :=
  (λ i, slice points i (i + BATCH_SIZE)) <$> range_by (length points) BATCH_SIZE.

(** The vector index: the points by id. [upsert] writes each point of the
    batch under its id, replacing the point that was there. *)
Definition upsert (collection : gmap Z point) (batch : list point) : gmap Z point :=
  foldl (λ c p, <[pt_id p := p]> c) collection batch.

Definition phase2 (collection : gmap Z point) (points : list point) : gmap Z point :=
  foldl upsert collection (batches points).

(** ** The final summary of the indexing script *)

(** The values the summary prints; [merged_share] is
    [merged_chunks / total_chunks * 100] before it is formatted. *)
Record summary := Summary {
  s_docs : Z;
  s_pages : Z;
  s_min_page : option Z;
  s_max_page : option Z;
  s_merged_chunks : Z;
  s_merged_share : Q;
  s_pages_merged : Z;
  s_next_pages : Z;
  s_related : Z;
  s_contains : Z;
  s_vectors : Z
}.

Definition is_contains (r : rel) : bool :=
  match r with Contains _ _ => true | _ => false end.

(** [min(p.page_num)] and [max(p.page_num)] over the Page nodes: null when
    there is none. *)
Definition min_page (g : graph) : option Z :=
  match pn_page_num <$> g_pages g with
  | [] => None
  | n :: ns => Some (foldl Z.min n ns)
  end.

Definition max_page (g : graph) : option Z :=
  match pn_page_num <$> g_pages g with
  | [] => None
  | n :: ns => Some (foldl Z.max n ns)
  end.

(** The division of the "Merged chunks" line raises when no chunk was
    counted. *)
Definition final_summary (g : graph) (st : index_state) : py summary :=
  if total_chunks st =? 0 then Raise "division by zero"
  else
    Return (Summary (Z.of_nat (length (g_docs g)))
              (Z.of_nat (length (g_pages g)))
              (min_page g) (max_page g)
              (merged_chunks st)
              (Qmult (Qmake (merged_chunks st) (Z.to_pos (total_chunks st))) (inject_Z 100))
              (pages_merged st)
              (Z.of_nat (length (filter is_next_page (g_rels g))))
              (Z.of_nat (length (filter is_related_to (g_rels g))))
              (Z.of_nat (length (filter is_contains (g_rels g))))
              (point_id st)).

(** The whole script on a vector index and a graph store: the three phases
    and the summary. *)
Definition index_markdown (encode : string → vector) (md_files : list source_file)
    (collection : gmap Z point) (g : graph) : py (gmap Z point * graph * summary) :=
  match md_files with
  | [] => Raise "SystemExit: 1"
  | _ =>
      st ← phase1_from encode initial_state md_files;
      let collection' := phase2 collection (all_points st) in
      ss ← phase3 (sent st) (doc_data st);
      let g' := exec_all g ss in
      s ← final_summary g' st;
      Return (collection', g', s)
  end.


(** ** The script [scripts/check_pages.py] *)

(** A match of [r'Page\s+(\d+)'] at the start of [s]: the text of group 1
    and the length of the match. The classes [\s] and [\d] are disjoint
    and both repetitions are greedy, so there is one way to match. *)
Definition match_page_at (s : string) : option (string * nat) :=
  match s with
  | String "P" (String "a" (String "g" (String "e" r))) =>
      let '(spaces, r1) := Py.span Py.isspace r in
      let '(digits, _) := Py.span Py.isdigit r1 in
      match spaces, digits with
      | String _ _, String _ _ =>
          Some (digits, (4 + String.length spaces + String.length digits)%nat)
      | _, _ => None
      end
  | _ => None
  end.

(** [[int(m.group(1)) for m in re.finditer(r'Page\s+(\d+)', s)]]: the
    matches from left to right, without overlap. [skip] is the number of
    characters still covered by the last match. *)
Fixpoint find_pages (skip : nat) (s : string) : list Z :=
  match s with
  | "" => []
  | String c s' =>
      match skip with
      | S k => find_pages k s'
      | O =>
          match match_page_at s with
          | Some (digits, len) => Py.int digits :: find_pages (len - 1) s'
          | None => find_pages 0 s'
          end
      end
  end.

(** [max(l)] *)
Definition py_max (l : list Z) : py Z :=
  match l with
  | [] => Raise "max() arg is an empty sequence"
  | n :: ns => Return (foldl Z.max n ns)
  end.

(** The keys of [Counter(nums)]: the numbers in order of first
    occurrence. *)
Definition first_seen (nums : list Z) : list Z :=
  foldl (λ seen n, if bool_decide (n ∈ seen) then seen else seen ++ [n]) [] nums.

(** [Counter(nums)[p]] *)
Definition occurrences (p : Z) (nums : list Z) : nat :=
  length (filter (λ n, n = p) nums).

(** The values the script prints before it looks at the text around the
    missing pages. *)
Record page_report := PageReport {
  total_occurrences : Z;
  unique_pages : list Z;
  max_page_found : Z;
  missing_pages : list Z;
  duplicates : list Z;
  duplicates_shown : list Z
}.

Definition check_pages (s : string) : py page_report :=
  let nums := find_pages 0 s in
  let count := Z.of_nat (length nums) in
  let unique := merge_sort Z.le (elements (list_to_set nums : gset Z)) in
  top ← py_max unique;
  let missing := filter (λ n, n ∉ unique) (seqZ 1 top) in
  let dups := filter (λ p, (1 < occurrences p nums)%nat) (first_seen nums) in
  Return (PageReport count unique top missing dups (take 20 dups)).


(** ** Auxiliary definitions for the further statements *)

(** A chunk of a search result with the context keys [hybrid_search] adds
    to it from the context dict [ctx] of the chunk. *)
Definition expanded_entry (p : scored_point) (ctx : dict) : value :=
  VDict [("id", VInt (sp_id p));
         ("text", VStr (default "" (sp_text p)));
         ("doc", VStr (default "" (sp_doc p)));
         ("chunk_idx", VInt (default 0 (sp_chunk_idx p)));
         ("page_num", VInt (default 0 (sp_page_num p)));
         ("page_range", VInts (default [] (sp_page_range p)));
         ("is_merged", VBool (default false (sp_is_merged p)));
         ("score", VFloat (sp_score p));
         ("related_next", get_or "next_chunks" (VList []) ctx);
         ("related_previous", get_or "previous_chunks" (VList []) ctx);
         ("related_discussing", get_or "discussing_chunks" (VList []) ctx);
         ("context_error", get_or "error" VNone ctx)].

(** The context of the chunk a point names by its payload. *)
Definition context_of_point (sv : services) (p : scored_point) (ctx : dict) : Prop :=
  get_intra_document_context sv (default "" (sp_doc p)) (default 0 (sp_chunk_idx p))
  = Return ctx.

(** The text [get_documents_list] returns for the rows of the documents. *)
Definition documents_text (rows : list doc_row) (total : Z) : string :=
  Py.join Py.nl
    ("Indexed Documents:"
     :: ((λ r, "  â€¢ " +:+ dr_id r +:+ ": " +:+ dr_source r) <$> rows)
     ++ [Py.nl +:+ "Total: " +:+ Py.str total +:+ " documents"]).

(** The text a row shows of the text of a chunk: its first [n] characters,
    or "N/A" for an empty text. *)
Definition shown_text (n : nat) (t : string) : string :=
  if String.eqb t "" then "N/A" else String.substring 0 n t.

(** The entry of a chunk in the [chunks] of a document, fields written
    out. *)
Definition summary_of (id : string) (idx : Z) (label : string) (merged : bool)
    (t : string) : value :=
  VDict [("id", VStr id);
         ("chunk_idx", VInt idx);
         ("page_range", VStr label);
         ("is_merged", VBool merged);
         ("text", VStr (shown_text 150 t))].

(** The [stats] of a document, fields written out. *)
Definition stats_of (total merged nexts discusses relationships : Z) : value :=
  VDict [("total_chunks", VInt total);
         ("merged_chunks", VInt merged);
         ("next_relationships", VInt nexts);
         ("discusses_relationships", VInt discusses);
         ("total_relationships", VInt relationships)].

(** The entry of a chunk in [next_chunks] and [previous_chunks], fields
    written out. *)
Definition context_of (id : string) (idx : Z) (label : string) (t : string)
    : value :=
  VDict [("id", VStr id);
         ("chunk_idx", VInt idx);
         ("page_range", VStr label);
         ("text", VStr (shown_text 200 t))].

(** The entry of a chunk in [discussing_chunks], fields written out. *)
Definition discussing_of (id : string) (idx : Z) (label : string) (t : string)
    (keywords : list string) (distance : Z) : value :=
  VDict [("id", VStr id);
         ("chunk_idx", VInt idx);
         ("page_range", VStr label);
         ("text", VStr (shown_text 200 t));
         ("shared_keywords", VList (VStr <$> keywords));
         ("distance", VInt distance)].

(** The value of [next_page] and [prev_page] for an optional neighbour,
    fields written out. *)
Definition neighbour_of (o : option (Z * string)) : value :=
  match o with
  | Some (page_num, label) =>
      VDict [("page_num", VInt page_num); ("page_range", VStr label)]
  | None => VNone
  end.

(** A graph driver that loses the connection after the first record of the
    pages of a document. *)
Definition failing_driver : neo4j :=
  {| session := Return ();
     find_page _ _ := Return [];
     next_chunks _ := Rows [] None;
     previous_chunks _ := Rows [] None;
     related_chunks _ := Rows [] None;
     pages_in_range _ _ _ := Return [];
     page_containing _ _ := Return [];
     next_page_of _ := Return [];
     prev_page_of _ := Return [];
     related_pages_of _ := Rows [] None;
     document_pages _ :=
       Rows [ChunkRow "a_page_1" 0 "Page 1" "1" false [] 0] (Some "connection lost");
     count_next _ := Return [0];
     count_related _ := Return [0];
     all_documents := Rows [DocRow "a" "a.md" "a"] (Some "connection lost") |}.

(** A tool with vector search that finds one point, and no graph store. *)
Definition one_point_search : services :=
  Services (Some (λ _, Return []))
           (Some (λ _ _ _, Return [ScoredPoint 0 0 (Some "Page 1") (Some "a") (Some 0)
                                     (Some 1) (Some [1]) (Some false)]))
           None.


(** The point the indexing loop stores for the [i]-th chunk of a document
    whose first chunk gets the id [first_id]. *)
Definition point_of_chunk (encode : string → vector) (doc_id : string)
    (first_id : Z) (i : nat) (c : chunk) : point :=
  Point (first_id + Z.of_nat i) (encode (text c)) (text c) doc_id (Z.of_nat i)
        (page_num c) (page_range c) (is_merged c).

(** The chunks of a file. *)
Definition file_chunks (f : source_file) : list chunk :=
  split_by_pages (f_content f) MIN_WORDS.

(** The points of a batch of files, the first of which gets [first_id]. *)
Fixpoint batch_points (encode : string → vector) (first_id : Z)
    (files : list source_file) : list point :=
  match files with
  | [] => []
  | f :: files' =>
      imap (point_of_chunk encode (f_stem f) first_id) (file_chunks f)
      ++ batch_points encode (first_id + Z.of_nat (length (file_chunks f))) files'
  end.

(** The chunks of a batch of files. *)
Definition batch_chunks (files : list source_file) : list chunk :=
  files ≫= file_chunks.

(** The merged chunks among a list of chunks. *)
Definition merged_among (chunks : list chunk) : list chunk :=
  filter (λ c, is_merged c = true) chunks.


(** The page numbers of the markers of a batch of files. *)
Definition batch_markers (files : list source_file) : list Z :=
  files ≫= λ f, marker_numbers (f_content f).

(** The variables of the script after PHASE 1 on the sample batch of the
    merged document. *)
Definition merged_state : index_state :=
  match phase1_from sample_encode initial_state merged_batch with
  | Return st => st
  | Raise _ => initial_state
  end.

(** Three sample points with distinct ids. *)
Definition sample_points : list point :=
  [Point 0 [] "Page 1" "a" 0 1 [1] false;
   Point 1 [] "Page 2" "a" 1 2 [2] false;
   Point 2 [] "Page 3" "a" 2 3 [3] false].


(** The Document node of a file. *)
Definition doc_of_file (f : source_file) : doc_node :=
  DocNode (f_stem f) (f_name f) (f_stem f).

(** [MERGE (d:Document {id: ...}) SET ...] on the Document nodes: every node
    with the id gets the properties, and a node is added when there is
    none. *)
Definition merge_document (docs : list doc_node) (d : doc_node) : list doc_node :=
  if bool_decide (dn_id d ∈ dn_id <$> docs)
  then (λ x, if String.eqb (dn_id x) (dn_id d) then d else x) <$> docs
  else docs ++ [d].

(** The statements of PHASE 3 for a document: the Page nodes with their
    CONTAINS relationships, the sequential links, the similarity links. *)
Definition page_statements (doc_id : string) (cds : list chunk_data) : list stmt :=
  cds ≫= λ cd, [CreatePage (page_of_chunk_data doc_id cd);
                MergeContains doc_id (chunk_node_id doc_id cd)].

Definition next_statements (doc_id : string) (cds : list chunk_data) : list stmt :=
  seq 0 (length cds - 1) ≫= λ i,
    match cds !! i, cds !! S i with
    | Some c1, Some c2 =>
        [CreateNextPage (chunk_node_id doc_id c1) (chunk_node_id doc_id c2)]
    | _, _ => []
    end.

Definition document_statements (entry : string * list chunk_data) : list stmt :=
  page_statements entry.1 entry.2
  ++ next_statements entry.1 entry.2
  ++ similarity_statements entry.1 entry.2.

(** The Page nodes of a file. *)
Definition file_nodes (f : source_file) : list page_node :=
  imap (node_of_chunk (f_stem f)) (file_chunks f).

(** The similarity relationship of a pair of positions of a document whose
    nodes [nodes] start at position [first] of the store. *)
Definition related_rel (first : nat) (nodes : list page_node) (ij : nat * nat)
    : option rel :=
  pi ← nodes !! ij.1;
  pj ← nodes !! ij.2;
  let shared := keywords (pn_text pi) ∩ keywords (pn_text pj) in
  if bool_decide (SIMILARITY_THRESHOLD ≤ Z.of_nat (size shared))
  then Some (RelatedTo (first + ij.1) (first + ij.2) (take 5 (elements shared))
               (pn_page_num pj - pn_page_num pi))
  else None.

(** The relationships of a document whose Document node is at position [d]
    and whose Page nodes start at position [first]: one CONTAINS per node,
    one NEXT_PAGE from each node to the next, and the similarity
    relationships of the window. *)
Definition document_rels (d first : nat) (nodes : list page_node) : list rel :=
  ((λ i, Contains d (first + i)) <$> seq 0 (length nodes))
  ++ ((λ i, NextPage (first + i) (first + S i)) <$> seq 0 (length nodes - 1))
  ++ omap (related_rel first nodes) (window_pairs (length nodes)).

Fixpoint batch_rels (d first : nat) (docs : list (list page_node)) : list rel :=
  match docs with
  | [] => []
  | nodes :: docs' =>
      document_rels d first nodes
      ++ batch_rels (S d) (first + length nodes) docs'
  end.

(** The store a run of the script builds from the empty store when no two
    Page nodes get the same id. *)
Definition indexed_graph (files : list source_file) : graph :=
  Graph (doc_of_file <$> files) (indexed_pages files)
        (batch_rels 0 0 (file_nodes <$> files)).


(** The target of a NEXT_PAGE relationship from position [a], and the source
    of one into position [b]. *)
Definition next_from (a : nat) (r : rel) : option nat :=
  match r with
  | NextPage a' b => if bool_decide (a' = a) then Some b else None
  | _ => None
  end.

Definition next_into (b : nat) (r : rel) : option nat :=
  match r with
  | NextPage a b' => if bool_decide (b' = b) then Some a else None
  | _ => None
  end.

(** The position in the store of the first Page node of the [k]-th file of a
    batch indexed from the empty store. *)
Definition first_position (files : list source_file) (k : nat) : nat :=
  length (indexed_pages (take k files)).


(** A sample batch of two files. *)
Definition story_batch : list source_file :=
  [SourceFile "m.md" "m" merged_doc; SourceFile "s.md" "s" story_doc].

Definition story_batch_graph : graph :=
  match run_index sample_encode story_batch empty_graph with
  | Return g => g
  | Raise _ => empty_graph
  end.


(** Every character is a decimal digit. *)
Fixpoint all_digits (s : string) : bool :=
  match s with
  | "" => true
  | String c s' => Py.isdigit c && all_digits s'
  end.

(** Whether the character occurs in the string. *)
Fixpoint occurs (c0 : ascii) (s : string) : bool :=
  match s with
  | "" => false
  | String c s' => Ascii.eqb c c0 || occurs c0 s'
  end.

(** The part of the string after the last occurrence of the character. *)
Fixpoint after_last (c0 : ascii) (s : string) : string :=
  match s with
  | "" => ""
  | String c s' =>
      if occurs c0 s' then after_last c0 s'
      else if Ascii.eqb c c0 then s' else s
  end.


(** The end and the payload of a RELATED_TO relationship from position
    [a]. *)
Definition related_from (a : nat) (r : rel) : option (nat * list string * Z) :=
  match r with
  | RelatedTo a' b keywords distance =>
      if bool_decide (a' = a) then Some (b, keywords, distance) else None
  | _ => None
  end.

(** The ends and payloads of the similarity relationships from the [i]-th
    node of a document whose nodes start at position [first]. *)
Definition related_targets (first : nat) (nodes : list page_node) (i : nat)
    : list (nat * list string * Z) :=
  omap (λ j, related_rel first nodes (i, j) ≫= related_from (first + i)%nat)
       (seq (i + 2) (Nat.min (i + 6) (length nodes) - (i + 2))).

(** The nodes of a document the similarity window relates to its [i]-th
    node, with the shared keywords kept and the page distance. *)
Definition related_after (nodes : list page_node) (i : nat)
    : list (page_node * list string * Z) :=
  omap (λ j,
          pi ← nodes !! i;
          pj ← nodes !! j;
          let shared := keywords (pn_text pi) ∩ keywords (pn_text pj) in
          if bool_decide (SIMILARITY_THRESHOLD ≤ Z.of_nat (size shared))
          then Some (pj, take 5 (elements shared), pn_page_num pj - pn_page_num pi)
          else None)
       (seq (i + 2) (Nat.min (i + 6) (length nodes) - (i + 2))).

(** The node a relationship end points to, with the payload. *)
Definition related_node (pages : list page_node) (x : nat * list string * Z)
    : option (page_node * list string * Z) :=
  (λ p, (p, x.1.2, x.2)) <$> pages !! x.1.1.



(** The Page node position of a CONTAINS relationship from the Document
    node at position [d]. *)
Definition contains_from (d : nat) (r : rel) : option nat :=
  match r with
  | Contains d' p => if bool_decide (d' = d) then Some p else None
  | _ => None
  end.

(** The number of similarity relationships between the nodes of a
    document. *)
Definition related_count (nodes : list page_node) : nat :=
  length (i ← seq 0 (length nodes); related_after nodes i).



(** Every character of the string satisfies [p]. *)
Fixpoint every (p : ascii → bool) (s : string) : bool :=
  match s with
  | "" => true
  | String c s' => p c && every p s'
  end.

(** The string does not start with a character that satisfies [p]. *)
Definition stops (p : ascii → bool) (s : string) : bool :=
  match s with
  | "" => true
  | String c _ => negb (p c)
  end.

(** The end of a match of "Page\s+(\d+)": whitespace and then at least one
    digit. *)
Definition number_tail (x : string) : Prop :=
  ∃ w d, x = w +:+ d ∧ every Py.isspace w = true
         ∧ every Py.isdigit d = true ∧ d ≠ "".

(** What is left of a match of "Page\s+(\d+)" after its first characters. *)
Definition match_tail (x : string) : Prop :=
  number_tail x
  ∨ ∃ y, number_tail y ∧ (x = "e" +:+ y ∨ x = "ge" +:+ y ∨ x = "age" +:+ y).

(** The state of the search of [find_pages] at a position: the first [skip]
    characters of the rest [s] of the text belong to the last match. *)
Definition in_match (skip : nat) (s : string) : Prop :=
  skip = 0%nat
  ∨ ∃ x rest, s = x +:+ rest ∧ skip = String.length x ∧ match_tail x.



(** The lines of a document from its first page marker on. *)
Fixpoint from_first_marker (lines : list string) : list string :=
  match lines with
  | [] => []
  | line :: lines' =>
      match page_match line with
      | Some _ => lines
      | None => from_first_marker lines'
      end
  end.

(** The words of a document that belong to a page: those of the lines from
    the first page marker on, in order. *)
Definition page_words (content : string) : list string :=
  from_first_marker (Py.split_on Py.LF content) ≫= Py.split.

(** The words a scan state has collected into pages so far. *)
Definition scanned_words (st : scan_state) : list string :=
  (raw_pages st ≫= λ p, Py.split (rp_text p))
  ++ match current_page_num st with
     | Some _ => current_page st ≫= Py.split
     | None => []
     end.



(** The chunk a Page node was created from. *)
Definition chunk_of_node (p : page_node) : chunk :=
  Chunk (pn_page_num p) (pn_page_range p) (pn_text p) (pn_word_count p)
        (pn_is_merged p).

(** The keywords a similarity relationship between two chunks stores. *)
Definition stored_keywords (ci cj : chunk) : list string :=
  take 5 (elements (keywords (text ci) ∩ keywords (text cj))).


(** ** The error field of the query operations *)

(** The exception that a call raises, if it raises. *)
Definition raised {A : Type} (m : py A) : option string :=
  match m with
  | Raise e => Some e
  | Return _ => None
  end.

(** The iteration over the records of a query result, as a call: it raises
    the exception of the driver that ends the loop, if there is one. *)
Definition iteration {A : Type} (res : rows A) : py () :=
  match failure res with
  | Some e => Raise e
  | None => Return ()
  end.

(** The [error] field for an optional message. *)
Definition error_of (o : option string) : value :=
  match o with
  | Some e => VStr e
  | None => VNone
  end.

(** The backend calls of a lookup of [get_page_content], in their order: the
    session, the query for the pages, and for resolved pages the queries for
    the successor of the last, the predecessor of the first and the related
    pages of the first. The value is the message of a lookup that resolves no
    page. *)
Definition page_lookup_calls (db : neo4j) (doc_id : string) (start_page : Z)
    (end_page : option Z) : py (option string) :=
  let neighbours (first_id last_id : string) : py (option string) :=
    next_page_of db last_id;;
    prev_page_of db first_id;;
    iteration (related_pages_of db first_id);;
    Return None in
  session db;;
  match end_page with
  | Some e =>
      if decide (e = start_page) then
        recs ← page_containing db doc_id start_page;
        match recs with
        | [] => Return (Some ("Page " +:+ Py.str start_page +:+ " not found in " +:+ doc_id))
        | rec :: _ => neighbours (r_id rec) (r_id rec)
        end
      else
        pages ← pages_in_range db doc_id start_page e;
        match pages with
        | [] => Return (Some ("No pages found in range " +:+ Py.str start_page +:+ "-"
                              +:+ Py.str e +:+ " in " +:+ doc_id))
        | first :: rest => neighbours (r_id first) (r_id (List.last rest first))
        end
  | None =>
      recs ← page_containing db doc_id start_page;
      match recs with
      | [] => Return (Some ("Page " +:+ Py.str start_page +:+ " not found in " +:+ doc_id))
      | rec :: _ => neighbours (r_id rec) (r_id rec)
      end
  end.

(** A tool whose embedding model raises on every text, over the graph driver
    that loses its connection. *)
Definition failing_services : services :=
  Services (Some (λ _, Raise "model not loaded")) (Some (λ _ _ _, Return []))
           (Some failing_driver).

(** The store after a second run of the script on the sample document with
    a merged page. *)
Definition reindexed_graph : graph :=
  match run_index sample_encode merged_batch merged_graph with
  | Return g => g
  | Raise _ => empty_graph
  end.


(** The digit strings of the markers of a document, which the scan passes
    to [int]. *)
Definition marker_digits (content : string) : list string :=
  omap (λ line, Py.match_page_marker (Py.strip line)) (Py.split_on Py.LF content).

(** [int] converts every marker of the files: none has more digits than the
    interpreter converts. *)
Definition markers_convert (files : list source_file) : Prop :=
  Forall (λ f, Forall (λ ds, (String.length ds ≤ Py.max_str_digits)%nat)
                 (marker_digits (f_content f))) files.

(** * Properties *)

(** Split a goal into all its conjuncts. *)
Ltac conjuncts := repeat match goal with |- _ ∧ _ => split end.

Example split_ex1 :
  split_by_pages ("Page 1" +:+ Py.nl +:+ "Short." +:+ Py.nl +:+ "Page 2" +:+ Py.nl +:+ filler 60) 50
  = [Chunk 1 [1; 2]
       ("Page 1" +:+ Py.nl +:+ "Short." +:+ Py.nl +:+ Py.nl +:+ "Page 2" +:+ Py.nl +:+ filler 60)
       65 true].
Proof. vm_compute. reflexivity. Qed.

(** ** Facts about the string primitives *)

Section string_facts.
Implicit Types (s t cur : string) (c : ascii).

Lemma sapp_nil s : s +:+ "" = s.
Proof. induction s as [|c s IH]; [done|]. change (String c (s +:+ "") = String c s). by rewrite IH. Qed.

Lemma sapp_cons c s t : String c s +:+ t = String c (s +:+ t).
Proof. reflexivity. Qed.

Lemma sapp_assoc s t u : (s +:+ t) +:+ u = s +:+ (t +:+ u).
Proof. induction s as [|c s IH]; [done|]. rewrite !sapp_cons. by rewrite IH. Qed.

Lemma has_nonspace_app s t : has_nonspace (s +:+ t) = has_nonspace s || has_nonspace t.
Proof.
  induction s as [|c s IH]; [done|].
  rewrite sapp_cons. simpl. rewrite IH. by rewrite orb_assoc.
Qed.

Lemma lstrip_empty s : Py.lstrip s = "" ↔ has_nonspace s = false.
Proof.
  induction s as [|c s IH]; simpl; [done|].
  destruct (Py.isspace c); simpl; [done|]. split; discriminate.
Qed.

Lemma has_nonspace_lstrip s : has_nonspace (Py.lstrip s) = has_nonspace s.
Proof.
  induction s as [|c s IH]; simpl; [done|].
  destruct (Py.isspace c) eqn:E; simpl; [done|]. by rewrite E.
Qed.

Lemma rstrip_empty s : Py.rstrip s = "" ↔ has_nonspace s = false.
Proof.
  induction s as [|c s IH]; simpl; [done|].
  destruct (Py.rstrip s) eqn:E.
  - destruct (Py.isspace c); simpl.
    + split; [intros _; by apply IH | done].
    + split; discriminate.
  - split; [discriminate|]. intros [_ H]%orb_false_iff.
    apply IH in H. discriminate.
Qed.

Lemma strip_empty s : Py.strip s = "" ↔ has_nonspace s = false.
Proof. unfold Py.strip. by rewrite rstrip_empty, has_nonspace_lstrip. Qed.

Lemma strip_nonempty s : has_nonspace s = true → Py.strip s ≠ "".
Proof. intros H E. apply strip_empty in E. congruence. Qed.

Lemma has_nonspace_join_head sep s l :
  has_nonspace s = true → has_nonspace (Py.join sep (s :: l)) = true.
Proof.
  intros H. destruct l as [|x l]; simpl; [done|].
  by rewrite has_nonspace_app, H.
Qed.

Lemma match_page_marker_nonspace s g :
  Py.match_page_marker s = Some g → has_nonspace s = true.
Proof.
  destruct s as [|c s]; [done|]. simpl.
  destruct (decide (c = "P"%char)) as [->|Hne]; [done|].
  intros H. exfalso. revert H.
  destruct c as [[] [] [] [] [] [] [] []]; try done.
Qed.

Lemma page_match_nonspace line n : page_match line = Some n → has_nonspace line = true.
Proof.
  unfold page_match. intros H.
  destruct (Py.match_page_marker (Py.strip line)) as [g|] eqn:E; [|done].
  apply match_page_marker_nonspace in E.
  destruct (has_nonspace line) eqn:Hl; [done|].
  apply strip_empty in Hl. by rewrite Hl in E.
Qed.

(** Splitting at whitespace distributes over a whitespace separator. *)
Lemma split_go_sep cur s c t :
  Py.isspace c = true →
  Py.split_go cur (s +:+ String c t) = Py.split_go cur s ++ Py.split_go "" t.
Proof.
  intros Hc. revert cur. induction s as [|a s IH]; intros cur.
  - simpl. change ("" +:+ String c t) with (String c t). simpl. by rewrite Hc.
  - rewrite sapp_cons. simpl. destruct (Py.isspace a).
    + by rewrite IH, (assoc_L (++)).
    + apply IH.
Qed.

Lemma split_join2 s t :
  Py.split (s +:+ Py.nl +:+ Py.nl +:+ t) = Py.split s ++ Py.split t.
Proof.
  unfold Py.split, Py.nl. rewrite !sapp_cons.
  change ("" +:+ String Py.LF "" +:+ t) with (String Py.LF t).
  change ("" +:+ String Py.LF t) with (String Py.LF t).
  rewrite split_go_sep by done. f_equal.
Qed.

Lemma count_words_join2 s t :
  count_words (s +:+ Py.nl +:+ Py.nl +:+ t) = count_words s + count_words t.
Proof. unfold count_words. rewrite split_join2, length_app. lia. Qed.

End string_facts.

(** ** Facts about the segmentation *)

Section scan_facts.

Lemma flush_page_open st n l ls :
  current_page_num st = Some n → current_page st = l :: ls →
  has_nonspace l = true →
  ∃ t, flush_page st = raw_pages st ++ [RawPage n t (count_words t)].
Proof.
  intros Hn Hc Hl. unfold flush_page. rewrite Hn, Hc.
  pose proof (strip_nonempty (Py.join Py.nl (l :: ls))
                (has_nonspace_join_head _ _ _ Hl)) as Hne.
  destruct (Py.strip (Py.join Py.nl (l :: ls))) as [|a t] eqn:E; [done|].
  by eexists.
Qed.

Lemma flush_page_closed st :
  current_page_num st = None → flush_page st = raw_pages st.
Proof. intros Hn. unfold flush_page. rewrite Hn. by destruct (current_page st). Qed.

Lemma flush_page_nums st :
  pending_ok st →
  rp_page_num <$> flush_page st
  = (rp_page_num <$> raw_pages st) ++ option_list (current_page_num st).
Proof.
  unfold pending_ok. intros Hok.
  destruct (current_page_num st) as [n|] eqn:Hn.
  - destruct Hok as (l & ls & Hc & Hl).
    destruct (flush_page_open st n l ls Hn Hc Hl) as [t ->].
    by rewrite fmap_app.
  - rewrite flush_page_closed by done. simpl. by rewrite (right_id_L [] (++)).
Qed.

Lemma scan_line_ok st line : pending_ok st → pending_ok (scan_line st line).
Proof.
  unfold scan_line, pending_ok. intros Hok.
  destruct (page_match line) as [n|] eqn:E; simpl.
  - exists line, []. split; [done|]. by eapply page_match_nonspace.
  - destruct (current_page_num st); [|done].
    destruct Hok as (l & ls & -> & Hl). by exists l, (ls ++ [line]).
Qed.

Lemma scan_line_nums st line :
  pending_ok st →
  rp_page_num <$> flush_page (scan_line st line)
  = (rp_page_num <$> flush_page st) ++ option_list (page_match line).
Proof.
  intros Hok. rewrite (flush_page_nums _ (scan_line_ok st line Hok)).
  unfold scan_line. destruct (page_match line) as [n|]; simpl.
  - done.
  - rewrite (right_id_L [] (++)). by rewrite flush_page_nums.
Qed.

Lemma scan_lines_nums lines st :
  pending_ok st →
  rp_page_num <$> flush_page (foldl scan_line st lines)
  = (rp_page_num <$> flush_page st) ++ omap page_match lines.
Proof.
  revert st. induction lines as [|line lines IH]; intros st Hok; simpl.
  - by rewrite (right_id_L [] (++)).
  - rewrite IH by by apply scan_line_ok.
    rewrite scan_line_nums by done.
    rewrite <- (assoc_L (++)). f_equal. by destruct (page_match line).
Qed.

Lemma extract_raw_pages_nums content :
  rp_page_num <$> extract_raw_pages content = marker_numbers content.
Proof. unfold extract_raw_pages. by rewrite scan_lines_nums. Qed.

Lemma flush_page_consistent st :
  Forall raw_consistent (raw_pages st) → Forall raw_consistent (flush_page st).
Proof.
  intros H. unfold flush_page.
  destruct (current_page st); [done|]. destruct (current_page_num st); [|done].
  match goal with |- context [Py.strip ?x] => destruct (Py.strip x) eqn:E end; [done|].
  apply Forall_app. split; [done|]. by repeat constructor.
Qed.

Lemma scan_lines_consistent lines st :
  Forall raw_consistent (raw_pages st) →
  Forall raw_consistent (raw_pages (foldl scan_line st lines)).
Proof.
  revert st. induction lines as [|line lines IH]; intros st H; simpl; [done|].
  apply IH. unfold scan_line. destruct (page_match line); simpl; [|done].
  by apply flush_page_consistent.
Qed.

Lemma extract_raw_pages_consistent content :
  Forall raw_consistent (extract_raw_pages content).
Proof.
  unfold extract_raw_pages.
  apply flush_page_consistent, scan_lines_consistent. constructor.
Qed.

End scan_facts.

Section merge_facts.
Variable min_words : Z.

(** What the inner loop returns: it takes a prefix [taken] of the
    remaining raw pages, stops at the first moment the cumulative count
    has reached [min_words], or at the end of the pages. *)
Lemma absorb_spec rest : ∀ t w r t' w' r' rest',
  absorb min_words rest t w r = (t', w', r', rest') →
  ∃ taken,
    rest = taken ++ rest'
    ∧ t' = absorbed_text t taken
    ∧ w' = w + sumZ (rp_word_count <$> taken)
    ∧ r' = r ++ (rp_page_num <$> taken)
    ∧ (rest' = [] ∨ min_words ≤ w')
    ∧ (∀ k, (k < length taken)%nat →
            w + sumZ (rp_word_count <$> take k taken) < min_words).
Proof.
  induction rest as [|p rest IH]; intros t w r t' w' r' rest' H; simpl in H.
  - inversion H; subst. exists []. simpl.
    rewrite (right_id_L [] (++)). conjuncts; auto with lia.
  - destruct (w <? min_words) eqn:Hlt.
    + apply IH in H as (taken & -> & -> & -> & -> & Hstop & Hmin).
      exists (p :: taken).
      conjuncts; [done | done | csimpl; lia | by rewrite <- (assoc_L (++))
                 | done | ].
      intros [|k] Hk; simpl in Hk; csimpl.
      * apply Z.ltb_lt in Hlt. lia.
      * specialize (Hmin k ltac:(lia)). lia.
    + inversion H; subst. apply Z.ltb_ge in Hlt.
      exists []. simpl. rewrite (right_id_L [] (++)).
      conjuncts; auto with lia.
Qed.

Lemma absorb_length rest t w r t' w' r' rest' :
  absorb min_words rest t w r = (t', w', r', rest') →
  (length rest' ≤ length rest)%nat.
Proof.
  intros (taken & -> & _)%absorb_spec. rewrite length_app. lia.
Qed.

Lemma absorb_consistent rest : ∀ t w r t' w' r' rest',
  absorb min_words rest t w r = (t', w', r', rest') →
  Forall raw_consistent rest → w = count_words t → w' = count_words t'.
Proof.
  induction rest as [|p rest IH]; intros t w r t' w' r' rest' H Hall Hw;
    simpl in H.
  - by inversion H; subst.
  - destruct (w <? min_words).
    + apply Forall_cons in Hall as [Hp Hall].
      eapply IH; [exact H|done|].
      rewrite count_words_join2. unfold raw_consistent in Hp. lia.
    + by inversion H; subst.
Qed.

(** Any fuel at least the number of pages gives the same chunks. *)
Lemma merge_loop_fuel fuel : ∀ fuel' pages,
  (length pages ≤ fuel)%nat → (length pages ≤ fuel')%nat →
  merge_loop fuel min_words pages = merge_loop fuel' min_words pages.
Proof.
  induction fuel as [|fuel IH]; intros fuel' pages H H'.
  - destruct pages; [|simpl in H; lia]. by destruct fuel'.
  - destruct pages as [|p rest]; [by destruct fuel'|].
    destruct fuel' as [|fuel']; [simpl in H'; lia|]. simpl in *.
    destruct (min_words <=? rp_word_count p).
    + f_equal. apply IH; lia.
    + destruct (absorb min_words rest (rp_text p) (rp_word_count p)
                  [rp_page_num p]) as [[[t w] r] rest'] eqn:E.
      apply absorb_length in E. f_equal. apply IH; lia.
  Qed.

(** The loop of step 2, one iteration at a time. *)
Lemma merge_pages_nil : merge_pages min_words [] = [].
Proof. reflexivity. Qed.

Lemma merge_pages_cons p rest :
  merge_pages min_words (p :: rest) =
    if min_words <=? rp_word_count p then
      Chunk (rp_page_num p) [rp_page_num p] (rp_text p) (rp_word_count p) false
      :: merge_pages min_words rest
    else
      let '(t, w, r, rest') :=
        absorb min_words rest (rp_text p) (rp_word_count p) [rp_page_num p] in
      Chunk (default (rp_page_num p) (head r)) r t w (bool_decide (1 < length r)%nat)
      :: merge_pages min_words rest'.
Proof.
  unfold merge_pages. simpl.
  destruct (min_words <=? rp_word_count p); [done|].
  destruct (absorb min_words rest (rp_text p) (rp_word_count p)
              [rp_page_num p]) as [[[t w] r] rest'] eqn:E.
  apply absorb_length in E. f_equal. by apply merge_loop_fuel.
Qed.

(** Induction over the iterations of the outer loop. *)
Lemma merge_pages_ind (P : list raw_page → list chunk → Prop) :
  P [] [] →
  (∀ p rest, min_words ≤ rp_word_count p →
     P rest (merge_pages min_words rest) →
     P (p :: rest)
       (Chunk (rp_page_num p) [rp_page_num p] (rp_text p) (rp_word_count p) false
        :: merge_pages min_words rest)) →
  (∀ p rest t w r rest', rp_word_count p < min_words →
     absorb min_words rest (rp_text p) (rp_word_count p) [rp_page_num p]
       = (t, w, r, rest') →
     P rest' (merge_pages min_words rest') →
     P (p :: rest)
       (Chunk (default (rp_page_num p) (head r)) r t w (bool_decide (1 < length r)%nat)
        :: merge_pages min_words rest')) →
  ∀ pages, P pages (merge_pages min_words pages).
Proof.
  intros Hnil Hbig Hsmall pages.
  remember (length pages) as n eqn:Hn.
  revert pages Hn. induction (lt_wf n) as [n _ IH]; intros pages ->.
  destruct pages as [|p rest]; [exact Hnil|].
  rewrite merge_pages_cons.
  destruct (min_words <=? rp_word_count p) eqn:Hle.
  - apply Z.leb_le in Hle. apply Hbig; [done|].
    eapply IH; [|done]. simpl. lia.
  - apply Z.leb_gt in Hle.
    destruct (absorb min_words rest (rp_text p) (rp_word_count p)
                [rp_page_num p]) as [[[t w] r] rest'] eqn:E.
    apply Hsmall; [done..|].
    eapply IH; [|done]. apply absorb_length in E. simpl. lia.
Qed.

End merge_facts.

(** ** Coverage, threshold and word counts of the chunks *)

Section chunk_facts.
Variable min_words : Z.

Lemma join_cons2 sep (x y : string) l :
  Py.join sep (x :: y :: l) = x +:+ sep +:+ Py.join sep (y :: l).
Proof. reflexivity. Qed.

Lemma join_merge_head sep (a b : string) l :
  Py.join sep ((a +:+ sep +:+ b) :: l) = a +:+ sep +:+ Py.join sep (b :: l).
Proof.
  destruct l as [|x l]; [done|].
  rewrite !join_cons2. by rewrite !sapp_assoc.
Qed.

Lemma absorbed_text_join t taken :
  absorbed_text t taken = Py.join (Py.nl +:+ Py.nl) (t :: (rp_text <$> taken)).
Proof.
  revert t. induction taken as [|p taken IH]; intros t; [done|].
  csimpl. unfold absorbed_text in *. simpl. rewrite IH.
  apply (join_merge_head (Py.nl +:+ Py.nl)).
Qed.

Lemma merge_pages_ranges pages :
  concat (page_range <$> merge_pages min_words pages) = rp_page_num <$> pages.
Proof.
  apply (merge_pages_ind min_words
           (λ pages chunks, concat (page_range <$> chunks) = rp_page_num <$> pages)).
  - done.
  - intros p rest _ IH. csimpl. by rewrite IH.
  - intros p rest t w r rest' _ (taken & -> & _ & _ & -> & _)%absorb_spec IH.
    csimpl. rewrite IH. by rewrite fmap_app.
Qed.

Lemma merge_pages_threshold pages i c :
  merge_pages min_words pages !! i = Some c →
  (S i < length (merge_pages min_words pages))%nat →
  min_words ≤ word_count c.
Proof.
  revert i c.
  apply (merge_pages_ind min_words
           (λ pages chunks, ∀ i c, chunks !! i = Some c →
              (S i < length chunks)%nat → min_words ≤ word_count c)).
  - intros i c H. by rewrite lookup_nil in H.
  - intros p rest Hp IH [|i] c Hc Hlen; simpl in *.
    + by inversion Hc; subst.
    + apply (IH i); [done|lia].
  - intros p rest t w r rest' _ Habs IH [|i] c Hc Hlen; simpl in *.
    + inversion Hc; subst; simpl.
      apply absorb_spec in Habs as (_ & _ & _ & _ & _ & [->|Hw] & _); [|done].
      rewrite merge_pages_nil in Hlen. simpl in Hlen. lia.
    + apply (IH i); [done|lia].
Qed.

Lemma merge_pages_consistent pages :
  Forall raw_consistent pages →
  Forall (λ c, word_count c = count_words (text c)) (merge_pages min_words pages).
Proof.
  apply (merge_pages_ind min_words
           (λ pages chunks, Forall raw_consistent pages →
              Forall (λ c, word_count c = count_words (text c)) chunks)).
  - constructor.
  - intros p rest _ IH [Hp Hrest]%Forall_cons. constructor; [exact Hp|auto].
  - intros p rest t w r rest' _ Habs IH [Hp Hrest]%Forall_cons.
    constructor; simpl.
    + by eapply absorb_consistent.
    + apply IH. apply absorb_spec in Habs as (taken & -> & _).
      by apply Forall_app in Hrest as [_ ?].
Qed.

(** The chunks are the groups of a partition of the raw pages into
    consecutive groups, each merged forward, and each but the last
    reaching the threshold. *)
Lemma merge_pages_groups pages :
  ∃ groups,
    concat groups = pages
    ∧ merge_pages min_words pages = chunk_of_group <$> groups
    ∧ Forall (merged_forward min_words) groups
    ∧ (∀ i g, groups !! i = Some g → (S i < length groups)%nat →
              min_words ≤ sumZ (rp_word_count <$> g)).
Proof.
  apply (merge_pages_ind min_words
           (λ pages chunks, ∃ groups,
              concat groups = pages
              ∧ chunks = chunk_of_group <$> groups
              ∧ Forall (merged_forward min_words) groups
              ∧ (∀ i g, groups !! i = Some g → (S i < length groups)%nat →
                        min_words ≤ sumZ (rp_word_count <$> g)))).
  - exists []. conjuncts; [done|done|constructor|].
    intros i g H. by rewrite lookup_nil in H.
  - intros p rest Hp (groups & <- & -> & Hall & Hlast).
    exists ([p] :: groups). conjuncts.
    + done.
    + csimpl. f_equal. unfold chunk_of_group. csimpl. f_equal. lia.
    + constructor; [|done]. split; [done|]. simpl. intros k Hk. lia.
    + intros [|i] g Hg Hlen; simpl in *.
      * inversion Hg; subst. simpl. lia.
      * apply (Hlast i); [done|lia].
  - intros p rest t w r rest' Hp Habs (groups & <- & -> & Hall & Hlast).
    apply absorb_spec in Habs as (taken & -> & -> & -> & -> & Hstop & Hmin).
    exists ((p :: taken) :: groups). conjuncts.
    + csimpl. by rewrite ?(assoc_L (++)).
    + csimpl. f_equal. unfold chunk_of_group. csimpl.
      by rewrite absorbed_text_join, ?length_fmap.
    + constructor; [|done]. split; [done|].
      intros [|k] Hk; simpl in Hk; [lia|]. csimpl.
      apply (Hmin k). lia.
    + intros [|i] g Hg Hlen; simpl in *.
      * inversion Hg; subst. csimpl.
        destruct Hstop as [Hnil|Hw]; [|done].
        apply (f_equal length) in Hnil. rewrite length_concat in Hnil.
        destruct groups as [|g0 groups]; [simpl in Hlen; lia|].
        apply Forall_cons in Hall as [[Hg0 _] _].
        destruct g0; [done|]. simpl in Hnil. lia.
      * apply (Hlast i); [done|lia].
Qed.

(** Sublists of a duplicate-free concatenation do not share elements. *)
Lemma NoDup_concat_unique {A : Type} (ls : list (list A)) i j a b (x : A) :
  NoDup (concat ls) → ls !! i = Some a → ls !! j = Some b →
  x ∈ a → x ∈ b → i = j.
Proof.
  revert i j. induction ls as [|l ls IH]; intros i j Hnd Hi Hj Ha Hb.
  - by rewrite lookup_nil in Hi.
  - simpl in Hnd. apply NoDup_app in Hnd as (Hl & Hdisj & Hrest).
    destruct i as [|i], j as [|j]; simpl in *.
    + done.
    + inversion Hi; subst. exfalso. apply (Hdisj x Ha).
      apply list_elem_of_In, in_concat. exists b.
      split; apply list_elem_of_In; [|done]. by eapply list_elem_of_lookup_2.
    + inversion Hj; subst. exfalso. apply (Hdisj x Hb).
      apply list_elem_of_In, in_concat. exists a.
      split; apply list_elem_of_In; [|done]. by eapply list_elem_of_lookup_2.
    + f_equal. by apply IH.
Qed.

End chunk_facts.

Lemma split_by_pages_ranges content min_words :
  concat (page_range <$> split_by_pages content min_words) = marker_numbers content.
Proof.
  unfold split_by_pages. by rewrite merge_pages_ranges, extract_raw_pages_nums.
Qed.

Lemma split_by_pages_covers content min_words n :
  n ∈ marker_numbers content
  ↔ ∃ c, c ∈ split_by_pages content min_words ∧ n ∈ page_range c.
Proof.
  rewrite <- (split_by_pages_ranges content min_words).
  rewrite list_elem_of_In, in_concat. split.
  - intros (r & [c [-> Hc]]%list_elem_of_In%list_elem_of_fmap & Hn).
    exists c. split; [done|]. by apply list_elem_of_In.
  - intros (c & Hc & Hn). exists (page_range c).
    rewrite <- !list_elem_of_In. split; [|done].
    apply list_elem_of_fmap. by exists c.
Qed.

Lemma split_by_pages_owner content min_words i j ci cj n :
  NoDup (marker_numbers content) →
  split_by_pages content min_words !! i = Some ci →
  split_by_pages content min_words !! j = Some cj →
  n ∈ page_range ci → n ∈ page_range cj → i = j.
Proof.
  intros Hnd Hi Hj Hni Hnj.
  rewrite <- (split_by_pages_ranges content min_words) in Hnd.
  apply (NoDup_concat_unique (page_range <$> split_by_pages content min_words)
           i j (page_range ci) (page_range cj) n); [done| | |done..].
  - by rewrite list_lookup_fmap, Hi.
  - by rewrite list_lookup_fmap, Hj.
Qed.

(** C1, as amended. The [page_range] lists of the chunks of
    [split_by_pages], concatenated in chunk order, are the page numbers of
    the "Page N" markers of the text in order of occurrence. So a page number
    is in the [page_range] of some chunk exactly when a marker carries it, and
    when no two markers carry the same number, no page number is in the
    [page_range] of two chunks. *)
Theorem split_by_pages_coverage (content : string) (min_words : Z) :
  let chunks := split_by_pages content min_words in
  concat (page_range <$> chunks) = marker_numbers content
  ∧ (∀ n, n ∈ marker_numbers content ↔ ∃ c, c ∈ chunks ∧ n ∈ page_range c)
  ∧ (NoDup (marker_numbers content) → coverage content min_words).
Proof.
  intros chunks. conjuncts.
  - apply split_by_pages_ranges.
  - apply split_by_pages_covers.
  - intros Hnd. split; [apply split_by_pages_covers|].
    intros i j ci cj n. by apply split_by_pages_owner.
Qed.

Lemma split_by_pages_coverage_witness :
  NoDup (marker_numbers two_page_doc) ∧ coverage two_page_doc 50.
Proof.
  assert (H : NoDup (marker_numbers two_page_doc)).
  { apply (bool_decide_unpack _). vm_compute. exact I. }
  split; [exact H|].
  exact (proj2 (proj2 (split_by_pages_coverage two_page_doc 50)) H).
Defined.

(** C1, as stated, fails on a document in which two pages carry the same
    number: each of the two pages is a chunk of its own and both have
    [page_range = [1]]. *)
Lemma coverage_fails_on_repeated_marker : ¬ coverage repeated_marker_doc 50.
Proof.
  intros [_ H].
  assert (Hc : split_by_pages repeated_marker_doc 50
               = [Chunk 1 [1] (sample_page 1 50) 52 false;
                  Chunk 1 [1] (sample_page 1 50) 52 false])
    by (vm_compute; reflexivity).
  specialize (H 0%nat 1%nat (Chunk 1 [1] (sample_page 1 50) 52 false)
                (Chunk 1 [1] (sample_page 1 50) 52 false) 1).
  rewrite Hc in H. simpl in H.
  assert (0%nat = 1%nat); [|done].
  apply H; [done|done|set_solver..].
Qed.

(** C2. In the list returned by [split_by_pages] every chunk but the last
    has a word count of at least [min_words]. The chunks are the groups of a
    partition of the raw pages into runs of consecutive pages: the text of a
    chunk is the texts of its pages joined by a blank line, its word count
    their sum, its range their numbers; a page is added to a group only while
    the pages before it are together below [min_words], and a group is closed
    before the threshold is reached only when the raw pages are exhausted. *)
Theorem split_by_pages_merge_threshold (content : string) (min_words : Z) :
  let chunks := split_by_pages content min_words in
  (∀ i c, chunks !! i = Some c → (S i < length chunks)%nat →
          min_words ≤ word_count c)
  ∧ ∃ groups,
      concat groups = extract_raw_pages content
      ∧ chunks = chunk_of_group <$> groups
      ∧ Forall (merged_forward min_words) groups
      ∧ (∀ i g, groups !! i = Some g → (S i < length groups)%nat →
                min_words ≤ sumZ (rp_word_count <$> g)).
Proof.
  intros chunks. split.
  - intros i c. apply merge_pages_threshold.
  - apply merge_pages_groups.
Qed.

Lemma split_by_pages_merge_threshold_witness :
  50 ≤ word_count (Chunk 1 [1] (sample_page 1 50) 52 false).
Proof.
  apply (proj1 (split_by_pages_merge_threshold two_page_doc 50) 0%nat).
  - vm_compute. reflexivity.
  - vm_compute. lia.
Defined.

Lemma chunk_word_count content min_words c :
  c ∈ split_by_pages content min_words → word_count c = count_words (text c).
Proof.
  revert c. apply Forall_forall.
  apply merge_pages_consistent, extract_raw_pages_consistent.
Qed.

Lemma count_words_join texts :
  count_words (Py.join (Py.nl +:+ Py.nl) texts) = sumZ (count_words <$> texts).
Proof.
  induction texts as [|t texts IH]; [done|].
  destruct texts as [|u texts]; [csimpl; lia|].
  rewrite join_cons2.
  change (t +:+ (Py.nl +:+ Py.nl) +:+ Py.join (Py.nl +:+ Py.nl) (u :: texts))
    with (t +:+ Py.nl +:+ Py.nl +:+ Py.join (Py.nl +:+ Py.nl) (u :: texts)).
  rewrite count_words_join2, IH. done.
Qed.

(** C10. Every chunk of [split_by_pages] stores as [word_count] the number
    of whitespace-separated tokens of its [text]; for a merged chunk this
    rests on the fact that the token count of texts joined by a blank line is
    the sum of their token counts. The [word_count] property of the page node
    created from a chunk is computed from the stored text and so agrees as
    well. *)
Theorem split_by_pages_word_count (content : string) (min_words : Z) :
  (∀ c, c ∈ split_by_pages content min_words →
        word_count c = count_words (text c))
  ∧ (∀ texts, count_words (Py.join (Py.nl +:+ Py.nl) texts)
              = sumZ (count_words <$> texts))
  ∧ (∀ doc_id ss cd ss', create_page doc_id ss cd = Return ss' →
       ∀ p, CreatePage p ∈ ss' → CreatePage p ∈ ss ∨
            (pn_text p = cd_text cd ∧ pn_word_count p = count_words (pn_text p))).
Proof.
  conjuncts.
  - apply chunk_word_count.
  - apply count_words_join.
  - intros doc_id ss cd ss' H p Hp. unfold create_page in H.
    destruct (page_range_label (cd_page_range cd)) as [lbl|e]; [|done].
    simpl in H. inversion H; subst.
    apply elem_of_app in Hp as [Hp|Hp]; [by left|right].
    apply elem_of_cons in Hp as [Hp|Hp]; [by inversion Hp|].
    apply elem_of_cons in Hp as [Hp|Hp]; [done|]. by apply elem_of_nil in Hp.
Qed.

Lemma split_by_pages_word_count_witness :
  word_count (Chunk 1 [1] (sample_page 1 50) 52 false)
  = count_words (text (Chunk 1 [1] (sample_page 1 50) 52 false)).
Proof.
  apply (proj1 (split_by_pages_word_count two_page_doc 50)).
  apply list_elem_of_In. vm_compute. left. reflexivity.
Defined.

(** ** The indexing loop on a document without markers *)

Lemma dict_get_set_eq {V : Type} (k : string) (v : V) (d : list (string * V)) :
  dict_get k (dict_set k v d) = Some v.
Proof.
  induction d as [|[k' v'] d IH]; simpl.
  - by rewrite String.eqb_refl.
  - destruct (String.eqb k' k) eqn:E; simpl; [by rewrite String.eqb_refl|].
    by rewrite E.
Qed.

Lemma dict_get_set_ne {V : Type} (k k' : string) (v : V) (d : list (string * V)) :
  k ≠ k' → dict_get k' (dict_set k v d) = dict_get k' d.
Proof.
  intros Hne. induction d as [|[k0 v0] d IH]; simpl.
  - destruct (String.eqb k k') eqn:E; [|done].
    by apply String.eqb_eq in E.
  - destruct (String.eqb k0 k) eqn:E; simpl.
    + apply String.eqb_eq in E as ->.
      destruct (String.eqb k k') eqn:E'; [|done].
      by apply String.eqb_eq in E'.
    + by rewrite IH.
Qed.

Lemma split_by_pages_no_markers content min_words :
  marker_numbers content = [] → split_by_pages content min_words = [].
Proof.
  intros H. unfold split_by_pages.
  rewrite <- extract_raw_pages_nums in H.
  apply fmap_nil_inv in H. by rewrite H.
Qed.

Lemma index_pages_bound encode doc_id pages st r :
  page_range_var st = Some r →
  ∃ r', page_range_var (foldl (index_page encode doc_id) st pages) = Some r'.
Proof.
  revert st r. induction pages as [|c pages IH]; intros st r H; simpl.
  - by exists r.
  - by apply (IH _ (page_range c)).
Qed.

(** Once the name [page_range] is bound, no later file makes the loop
    raise, and the name stays bound. *)
Lemma index_file_bound encode st file r :
  page_range_var st = Some r →
  ∃ st' r', index_file encode st file = Return st'
            ∧ page_range_var st' = Some r'.
Proof.
  intros H. unfold index_file.
  match goal with |- context [foldl ?f ?s ?l] =>
    destruct (index_pages_bound encode (f_stem file) l s r H) as [r' Hr'];
    set (st2 := foldl f s l) in *
  end.
  rewrite Hr'. eexists _, r'. split; [reflexivity|done].
Qed.

(** A file with at least one chunk binds the name, whatever came before. *)
Lemma index_file_with_chunks encode st file :
  split_by_pages (f_content file) MIN_WORDS ≠ [] →
  ∃ st' r, index_file encode st file = Return st'
           ∧ page_range_var st' = Some r.
Proof.
  intros Hne. unfold index_file.
  destruct (split_by_pages (f_content file) MIN_WORDS) as [|c pages]; [done|].
  simpl.
  match goal with |- context [foldl ?f ?s ?l] =>
    destruct (index_pages_bound encode (f_stem file) l s (page_range c) eq_refl)
      as [r Hr];
    set (st2 := foldl f s l) in *
  end.
  rewrite Hr. eexists _, r. split; [reflexivity|done].
Qed.

(** C7, as amended. A document without "Page N" markers yields no chunk.
    When the name [page_range] is bound, that is once an earlier file of the
    run has produced a chunk, the loop records an empty chunk list for the
    document, stores no point, prints a success report with 0 chunks for it,
    and goes on with the remaining files: no failure is signalled. *)
Theorem index_file_without_markers (encode : string → vector)
    (st : index_state) (file : source_file) :
  marker_numbers (f_content file) = [] →
  split_by_pages (f_content file) MIN_WORDS = []
  ∧ ∀ r, page_range_var st = Some r →
      ∃ st' line,
        index_file encode st file = Return st'
        ∧ doc_data st' = dict_set (f_stem file) [] (doc_data st)
        ∧ dict_get (f_stem file) (doc_data st') = Some []
        ∧ all_points st' = all_points st
        ∧ point_id st' = point_id st
        ∧ printed st' = printed st ++ [line]
        ∧ success_line line = true
        ∧ String.prefix "✓ (0 chunks, " line = true
        ∧ ∀ rest, phase1_from encode st (file :: rest)
                  = phase1_from encode st' rest.
Proof.
  intros Hno. pose proof (split_by_pages_no_markers _ MIN_WORDS Hno) as Hsplit.
  split; [done|]. intros r Hr.
  unfold index_file. rewrite Hsplit. simpl. rewrite Hr.
  eexists _, _. conjuncts; try reflexivity.
  - simpl. apply dict_get_set_eq.
  - intros rest. unfold phase1_from. simpl.
    unfold index_file. rewrite Hsplit. simpl. rewrite Hr. reflexivity.
Qed.

Lemma index_file_without_markers_witness :
  ∃ st' line,
    index_file sample_encode state_after_pages (SourceFile "a.md" "a" "no markers")
    = Return st'
    ∧ printed st' = [line] ∧ success_line line = true.
Proof.
  destruct (index_file_without_markers sample_encode state_after_pages
              (SourceFile "a.md" "a" "no markers")) as [_ H].
  { vm_compute. reflexivity. }
  destruct (H [2]) as (st' & line & H1 & _ & _ & _ & _ & H2 & H3 & _).
  { reflexivity. }
  exists st', line. conjuncts; [exact H1|exact H2|exact H3].
Defined.

(** C7, as stated, fails both ways on sample batches. After a file with
    pages, the file without markers gets a success report. As the first file
    of the run, it makes the loop raise [NameError], so that the batch is
    abandoned. *)
Lemma markerless_document_not_signalled :
  ¬ signals_segmentation_failure sample_encode batch_markerless_last 1
  ∧ ¬ signals_segmentation_failure sample_encode batch_markerless_first 0.
Proof.
  split.
  - intros (st & Hst & line & Hline & Hfail).
    assert (H : (st ← phase1_from sample_encode initial_state batch_markerless_last;
                 Return (printed st !! 1%nat))
                = Return (Some "✓ (0 chunks, pages 2-2, 0 merged)"))
      by (vm_compute; reflexivity).
    rewrite Hst in H. simpl in H. rewrite Hline in H.
    inversion H; subst. vm_compute in Hfail. done.
  - intros (st & Hst & _).
    assert (H : phase1_from sample_encode initial_state batch_markerless_first
                = Raise "name 'page_range' is not defined")
      by (vm_compute; reflexivity).
    rewrite Hst in H. done.
Qed.

(** ** Running the indexing script again *)

Lemma exec_pages g s :
  g_pages (exec g s) = g_pages g ++ created_pages [s].
Proof.
  destruct s; simpl; rewrite ?(right_id_L [] (++)); try done.
  by destruct (docs_with_id g id).
Qed.

Lemma exec_all_pages ss : ∀ g,
  g_pages (exec_all g ss) = g_pages g ++ created_pages ss.
Proof.
  unfold exec_all. induction ss as [|s ss IH]; intros g; simpl.
  - by rewrite (right_id_L [] (++)).
  - rewrite IH, exec_pages. rewrite <- (assoc_L (++)). f_equal.
    unfold created_pages. simpl. by destruct s.
Qed.

(** Every run adds the Page nodes of the batch once more: the script
    creates them, where it merges the Document nodes. *)
Lemma run_index_adds_pages encode md_files g g1 g2 :
  run_index encode md_files g = Return g1 →
  run_index encode md_files g1 = Return g2 →
  (count_pages g2 - count_pages g1 = count_pages g1 - count_pages g)%nat.
Proof.
  unfold run_index. destruct (index_script encode md_files) as [ss|e]; [|done].
  simpl. intros [= <-] [= <-]. unfold count_pages.
  rewrite !exec_all_pages, !length_app. lia.
Qed.

(** C4 on the sample batch. Indexing one file of two pages twice, from the
    empty store: the first run leaves 2 Page nodes and 1 NEXT_PAGE
    relationship, the second leaves 4 Page nodes and 5 NEXT_PAGE
    relationships. *)
Theorem reindexing_duplicates_sequential_edges :
  ∃ g1 g2,
    run_index sample_encode sample_batch empty_graph = Return g1
    ∧ run_index sample_encode sample_batch g1 = Return g2
    ∧ count_pages g1 = 2%nat ∧ count_next_page g1 = 1%nat
    ∧ count_pages g2 = 4%nat ∧ count_next_page g2 = 5%nat.
Proof.
  destruct (run_index sample_encode sample_batch empty_graph) as [g1|e] eqn:H1;
    [|by vm_compute in H1].
  destruct (run_index sample_encode sample_batch g1) as [g2|e] eqn:H2.
  2: { vm_compute in H1. inversion H1; subst. by vm_compute in H2. }
  exists g1, g2. vm_compute in H1. inversion H1; subst; clear H1.
  vm_compute in H2. inversion H2; subst; clear H2.
  conjuncts; reflexivity.
Qed.

(** ** The similarity pass *)

Lemma py_foldl_collect {A B : Type} (f : list B → A → py (list B))
    (g : A → list B) (l : list A) :
  (∀ x ss, x ∈ l → f ss x = Return (ss ++ g x)) →
  ∀ ss, py_foldl f ss l = Return (ss ++ (l ≫= g)).
Proof.
  induction l as [|x l IH]; intros Hf ss.
  - simpl. by rewrite (right_id_L [] (++)).
  - rewrite bind_cons. simpl.
    rewrite Hf by apply list_elem_of_here. simpl.
    rewrite IH by (intros; apply Hf; by apply list_elem_of_further).
    by rewrite (assoc_L (++)).
Qed.

Lemma omap_list_bind {A B C : Type} (f : B → option C) (h : A → list B) l :
  omap f (l ≫= h) = l ≫= (λ x, omap f (h x)).
Proof.
  induction l as [|x l IH]; [done|].
  by rewrite !bind_cons, omap_app, IH.
Qed.

Lemma omap_singleton_bind {A B : Type} (f : A → option B) l :
  omap f l = l ≫= (λ x, option_list (f x)).
Proof.
  induction l as [|x l IH]; [done|]. rewrite bind_cons. csimpl.
  rewrite <- IH. by destruct (f x).
Qed.

Lemma page_range_label_nonempty r :
  r ≠ [] → ∃ label, page_range_label r = Return label.
Proof.
  intros Hr. unfold page_range_label. case_bool_decide as Hlen.
  - destruct r as [|a r]; [done|]. simpl.
    destruct (last (a :: r)) eqn:E; [by eexists|].
    by apply last_None in E.
  - destruct r as [|a r]; [done|]. by eexists.
Qed.

Lemma window_pairs_elem n i j :
  (i, j) ∈ window_pairs n ↔ (i + 2 ≤ j ∧ j ≤ i + 5 ∧ j < n)%nat.
Proof.
  unfold window_pairs. rewrite list_elem_of_bind. split.
  - intros (i' & [j' [[= -> ->] Hj]]%list_elem_of_fmap & Hi).
    apply elem_of_seq in Hj, Hi. lia.
  - intros (H1 & H2 & H3). exists i. split.
    + apply list_elem_of_fmap. exists j. split; [done|].
      apply elem_of_seq. lia.
    + apply elem_of_seq. lia.
Qed.

Lemma window_pairs_NoDup n : NoDup (window_pairs n).
Proof.
  unfold window_pairs. apply NoDup_bind.
  - intros i1 i2 [i j] _ _ [j1 [[= -> ->] _]]%list_elem_of_fmap
      [j2 [[= -> ->] _]]%list_elem_of_fmap. done.
  - intros i _. apply NoDup_fmap_2; [|apply NoDup_seq].
    by intros j1 j2 [= ->].
  - apply NoDup_seq.
Qed.

Section similarity.
Variables (doc_id : string) (chunks : list chunk_data).
Hypothesis ranges : Forall (λ c, cd_page_range c ≠ []) chunks.

Lemma item_lookup {A : Type} (l : list A) i x : l !! i = Some x → item l i = Return x.
Proof. unfold item. by intros ->. Qed.

Lemma chunk_label c :
  c ∈ chunks →
  ∃ label, page_range_label (cd_page_range c) = Return label
           ∧ chunk_node_id doc_id c = neo_id doc_id label.
Proof.
  intros Hc. rewrite Forall_forall in ranges.
  destruct (page_range_label_nonempty _ (ranges c Hc)) as [label H].
  exists label. unfold chunk_node_id, range_label. by rewrite H.
Qed.

(** One comparison: the statement, if any, is the one of the pair. *)
Lemma relate_edge i j ci cj ss :
  chunks !! i = Some ci → chunks !! j = Some cj →
  relate doc_id chunks i (keywords (cd_text ci)) ss j
  = Return (ss ++ option_list (similarity_edge doc_id chunks (i, j))).
Proof.
  intros Hi Hj. unfold relate, similarity_edge.
  rewrite (item_lookup _ _ _ Hj). simpl. rewrite Hi. simpl. rewrite Hj. simpl.
  fold (shared_keywords ci cj).
  case_bool_decide; simpl; [|by rewrite (right_id_L [] (++))].
  rewrite (item_lookup _ _ _ Hi). simpl.
  destruct (chunk_label ci) as (li & -> & ->);
    [by eapply list_elem_of_lookup_2|].
  destruct (chunk_label cj) as (lj & -> & ->);
    [by eapply list_elem_of_lookup_2|].
  done.
Qed.

Lemma relate_from_edges i ci ss :
  chunks !! i = Some ci →
  relate_from doc_id chunks ss (i, ci)
  = Return (ss ++ omap (similarity_edge doc_id chunks)
                       (pair i <$> seq (i + 2)
                                       (Nat.min (i + 6) (length chunks) - (i + 2)))).
Proof.
  intros Hi. unfold relate_from.
  rewrite (py_foldl_collect _
             (λ j, option_list (similarity_edge doc_id chunks (i, j)))).
  - f_equal. f_equal. rewrite omap_singleton_bind.
    generalize (seq (i + 2) (Nat.min (i + 6) (length chunks) - (i + 2))).
    intros l. induction l as [|j l IH]; [done|].
    csimpl. by rewrite IH.
  - intros j ss' Hj. apply elem_of_seq in Hj.
    destruct (lookup_lt_is_Some_2 chunks j) as [cj Hcj]; [lia|].
    by apply (relate_edge i j ci cj).
Qed.

Lemma similarity_pass_collect ss :
  similarity_pass doc_id chunks ss
  = Return (ss ++ omap (similarity_edge doc_id chunks)
                       (window_pairs (length chunks))).
Proof.
  unfold similarity_pass.
  rewrite (py_foldl_collect _
             (λ ic, omap (similarity_edge doc_id chunks)
                      (pair ic.1 <$> seq (ic.1 + 2)
                         (Nat.min (ic.1 + 6) (length chunks) - (ic.1 + 2))))).
  - f_equal. f_equal. unfold window_pairs. rewrite omap_list_bind.
    assert (H : ∀ (G : nat → list stmt) (l : list chunk_data) k,
               imap (λ i c, (k + i, c)%nat) l ≫= (λ ic, G ic.1)
               = seq k (length l) ≫= G).
    { intros G l. induction l as [|c l IH]; intros k; [done|].
      rewrite imap_cons. csimpl. rewrite Nat.add_0_r. f_equal.
      rewrite <- IH. f_equal. apply imap_ext. intros; simpl. f_equal. lia. }
    apply (H (λ i, omap (similarity_edge doc_id chunks)
                     (pair i <$> seq (i + 2)
                        (Nat.min (i + 6) (length chunks) - (i + 2))))
             chunks 0%nat).
  - intros [i ci] ss' Hic.
    apply elem_of_lookup_imap in Hic as (i' & c' & [= -> ->] & Hi).
    by apply relate_from_edges.
Qed.

End similarity.

(** *** Keywords *)

Lemma lower_char_alpha c :
  Py.isalpha_char c = true → Py.islower (Py.lower_char c) = true.
Proof. destruct c as [[] [] [] [] [] [] [] []]; vm_compute; done. Qed.

Lemma lower_all_alpha s : Py.all_alpha s = true → all_lower (Py.lower s) = true.
Proof.
  induction s as [|c s IH]; [done|]. simpl.
  intros [Hc Hs]%andb_true_iff. by rewrite lower_char_alpha, IH.
Qed.

Lemma lower_len s : Py.len (Py.lower s) = Py.len s.
Proof.
  unfold Py.len. f_equal. induction s as [|c s IH]; [done|].
  simpl. by rewrite IH.
Qed.

Lemma isalpha_all_alpha s : Py.isalpha s = true → Py.all_alpha s = true.
Proof. by destruct s. Qed.

Lemma keywords_elem t w :
  w ∈ keywords t ↔
  ∃ tok, tok ∈ Py.split t ∧ MIN_WORD_LENGTH ≤ Py.len tok
         ∧ Py.isalpha tok = true ∧ w = Py.lower tok.
Proof.
  unfold keywords. rewrite elem_of_list_to_set, list_elem_of_fmap. split.
  - intros (tok & -> & [Hp Htok]%list_elem_of_filter). exists tok.
    apply andb_True in Hp as [Hlen%bool_decide_unpack Ha%Is_true_true].
    done.
  - intros (tok & Htok & Hlen & Ha & ->). exists tok. split; [done|].
    apply list_elem_of_filter. split; [|done].
    apply andb_True. split; [by apply bool_decide_pack|by apply Is_true_true].
Qed.

Lemma keywords_lower t w :
  w ∈ keywords t → all_lower w = true ∧ MIN_WORD_LENGTH ≤ Py.len w.
Proof.
  intros (tok & _ & Hlen & Ha & ->)%keywords_elem. split.
  - by apply lower_all_alpha, isalpha_all_alpha.
  - by rewrite lower_len.
Qed.

(** ** The similarity relationships in the store *)

Lemma elem_of_positions {A} (f : A → bool) (l : list A) i :
  i ∈ positions f l ↔ ∃ x, l !! i = Some x ∧ f x = true.
Proof.
  unfold positions. rewrite list_elem_of_filter, elem_of_seq. split.
  - intros [Hf _]. destruct (l !! i) as [x|]; [by exists x | done].
  - intros (x & Hx & Hf). rewrite Hx. split; [done|].
    apply lookup_lt_Some in Hx. lia.
Qed.

Lemma positions_NoDup {A} (f : A → bool) (l : list A) : NoDup (positions f l).
Proof. unfold positions. apply NoDup_filter, NoDup_seq. Qed.

Lemma NoDup_only {A} (l : list A) a :
  NoDup l → (∀ x, x ∈ l ↔ x = a) → l = [a].
Proof.
  intros Hnd Hl. destruct l as [|b l].
  - assert (a ∈ @nil A) by by apply Hl. by apply elem_of_nil in H.
  - assert (b = a) as -> by (apply Hl; left).
    destruct l as [|c l]; [done|].
    assert (c = a) as -> by (apply Hl; right; left).
    apply NoDup_cons in Hnd as [Hnot _]. destruct Hnot. left.
Qed.

(** A [MATCH] on the id of a node whose id no other node has gives that
    node alone. *)
Lemma pages_with_id_unique g i p :
  NoDup (pn_id <$> g_pages g) → g_pages g !! i = Some p →
  pages_with_id g (pn_id p) = [i].
Proof.
  intros Hnd Hi. apply NoDup_only; [apply positions_NoDup|].
  intros k. unfold pages_with_id. rewrite elem_of_positions. split.
  - intros (q & Hk & Heq). apply String.eqb_eq in Heq.
    eapply NoDup_lookup; [exact Hnd | |].
    + rewrite list_lookup_fmap, Hk. simpl. by rewrite Heq.
    + by rewrite list_lookup_fmap, Hi.
  - intros ->. exists p. split; [done|]. apply String.eqb_refl.
Qed.

Lemma exec_related_to g i j pi pj keywords distance :
  NoDup (pn_id <$> g_pages g) →
  g_pages g !! i = Some pi → g_pages g !! j = Some pj →
  exec g (CreateRelatedTo (pn_id pi) (pn_id pj) keywords distance)
  = Graph (g_docs g) (g_pages g) (g_rels g ++ [RelatedTo i j keywords distance]).
Proof.
  intros Hnd Hi Hj. unfold exec.
  by rewrite (pages_with_id_unique g i pi), (pages_with_id_unique g j pj).
Qed.

Lemma omap_cons_eq {A B} (f : A → option B) x l :
  omap f (x :: l) = match f x with Some y => y :: omap f l | None => omap f l end.
Proof. reflexivity. Qed.

Lemma exec_all_cons g s ss : exec_all g (s :: ss) = exec_all (exec g s) ss.
Proof. reflexivity. Qed.

(** The statement and the relationship of a pair go together. *)
Lemma similarity_edge_rel doc_id chunks ij :
  match similarity_rel chunks ij with
  | Some r =>
      ∃ ci cj, chunks !! ij.1 = Some ci ∧ chunks !! ij.2 = Some cj
        ∧ r = RelatedTo ij.1 ij.2 (take 5 (elements (shared_keywords ci cj)))
                (cd_page_num cj - cd_page_num ci)
        ∧ similarity_edge doc_id chunks ij
          = Some (CreateRelatedTo (chunk_node_id doc_id ci) (chunk_node_id doc_id cj)
                    (take 5 (elements (shared_keywords ci cj)))
                    (cd_page_num cj - cd_page_num ci))
  | None => similarity_edge doc_id chunks ij = None
  end.
Proof.
  unfold similarity_rel, similarity_edge.
  destruct (chunks !! ij.1) as [ci|]; simpl; [|done].
  destruct (chunks !! ij.2) as [cj|]; simpl; [|done].
  case_bool_decide; [|done]. by exists ci, cj.
Qed.

Lemma exec_similarity_edges doc_id chunks ps : ∀ g,
  g_pages g = page_of_chunk_data doc_id <$> chunks →
  NoDup (chunk_node_id doc_id <$> chunks) →
  exec_all g (omap (similarity_edge doc_id chunks) ps)
  = Graph (g_docs g) (g_pages g) (g_rels g ++ omap (similarity_rel chunks) ps).
Proof.
  induction ps as [|ij ps IH]; intros g Hpages Hnd.
  - simpl. rewrite (right_id_L [] (++)). by destruct g.
  - assert (Hids : NoDup (pn_id <$> g_pages g)).
    { rewrite Hpages, <- list_fmap_compose. exact Hnd. }
    rewrite !omap_cons_eq. pose proof (similarity_edge_rel doc_id chunks ij) as Hij.
    destruct (similarity_rel chunks ij) as [r|].
    + destruct Hij as (ci & cj & Hi & Hj & -> & ->).
      rewrite exec_all_cons.
      rewrite (exec_related_to g ij.1 ij.2 (page_of_chunk_data doc_id ci)
                 (page_of_chunk_data doc_id cj)).
      * rewrite IH; [|done..]. cbn [g_docs g_pages g_rels].
        by rewrite <- (assoc_L (++)).
      * done.
      * by rewrite Hpages, list_lookup_fmap, Hi.
      * by rewrite Hpages, list_lookup_fmap, Hj.
    + rewrite Hij. by apply IH.
Qed.

Lemma similarity_rel_some chunks ij i j keywords distance :
  similarity_rel chunks ij = Some (RelatedTo i j keywords distance) →
  ij = (i, j) ∧ ∃ ci cj, chunks !! i = Some ci ∧ chunks !! j = Some cj
    ∧ SIMILARITY_THRESHOLD ≤ Z.of_nat (size (shared_keywords ci cj)).
Proof.
  destruct ij as [i' j']. unfold similarity_rel. simpl.
  destruct (chunks !! i') as [ci|] eqn:Hi; simpl; [|done].
  destruct (chunks !! j') as [cj|] eqn:Hj; simpl; [|done].
  case_bool_decide; [|done]. intros [= -> -> _ _].
  split; [done|]. by exists ci, cj.
Qed.

Lemma related_iff_similar_store doc_id chunks g before :
  g_pages g = page_of_chunk_data doc_id <$> chunks →
  Forall (λ r, is_related_to r = false) before →
  g_rels g = before ++ omap (similarity_rel chunks) (window_pairs (length chunks)) →
  related_iff_similar g.
Proof.
  intros Hpages Hbefore Hrels i j pi pj Hi Hj Hwin.
  rewrite Hpages, list_lookup_fmap in Hi, Hj.
  destruct (chunks !! i) as [ci|] eqn:Hci; [|done].
  destruct (chunks !! j) as [cj|] eqn:Hcj; [|done].
  simpl in Hi, Hj. injection Hi as <-. injection Hj as <-. simpl.
  fold (shared_keywords ci cj). rewrite Hrels. split.
  - intros (kws & d & Hin). apply elem_of_app in Hin as [Hin|Hin].
    { rewrite Forall_forall in Hbefore. by apply Hbefore in Hin. }
    apply list_elem_of_omap in Hin as (ij & _ & Hrel).
    apply similarity_rel_some in Hrel as (_ & ci' & cj' & Hi' & Hj' & Hsize).
    by simplify_eq.
  - intros Hsize. eexists _, _. apply elem_of_app. right.
    apply list_elem_of_omap. exists (i, j). split.
    + apply window_pairs_elem. apply lookup_lt_Some in Hcj. lia.
    + unfold similarity_rel. simpl. rewrite Hci, Hcj. simpl.
      by rewrite bool_decide_true.
Qed.


(** C3, as amended. For a chunk list whose page ranges are not empty, as
    every chunk list of the indexing loop is, the similarity pass sends one
    RELATED_TO statement per pair of positions (i, j) with i+2 <= j <= i+5
    whose chunks share at least [SIMILARITY_THRESHOLD] keywords, in the order
    of the pairs, and nothing else. The statement names the nodes of the two
    chunks and carries at most five of the shared keywords, without
    repetition, and the difference of the page numbers. A pair sharing fewer
    keywords, so also one below the threshold, gets no statement. The keywords
    of a text are the lowercased forms of its alphabetic whitespace-separated
    tokens of at least [MIN_WORD_LENGTH] characters. On a store that holds the
    nodes of the chunks, when the chunks have distinct node ids, each
    statement adds the one relationship between the nodes of its pair: if the
    store had no RELATED_TO relationship before, two nodes of the window are
    related afterwards exactly when they share at least
    [SIMILARITY_THRESHOLD] keywords. *)
Theorem similarity_edges_by_shared_keywords (doc_id : string)
    (chunks : list chunk_data) (ss : list stmt) :
  Forall (λ c, cd_page_range c ≠ []) chunks →
  similarity_pass doc_id chunks ss = Return (ss ++ similarity_statements doc_id chunks)
  ∧ NoDup (window_pairs (length chunks))
  ∧ (∀ i j, (i, j) ∈ window_pairs (length chunks)
            ↔ (i + 2 ≤ j ∧ j ≤ i + 5 ∧ j < length chunks)%nat)
  ∧ (∀ i j ci cj, chunks !! i = Some ci → chunks !! j = Some cj →
       let shared := keywords (cd_text ci) ∩ keywords (cd_text cj) in
       (SIMILARITY_THRESHOLD ≤ Z.of_nat (size shared) →
          ∃ kws,
            similarity_edge doc_id chunks (i, j)
            = Some (CreateRelatedTo (chunk_node_id doc_id ci)
                      (chunk_node_id doc_id cj) kws
                      (cd_page_num cj - cd_page_num ci))
            ∧ NoDup kws
            ∧ (∀ w, w ∈ kws → w ∈ shared)
            ∧ length kws = Nat.min 5 (size shared))
       ∧ (Z.of_nat (size shared) < SIMILARITY_THRESHOLD →
          similarity_edge doc_id chunks (i, j) = None))
  ∧ (∀ t w, w ∈ keywords t ↔
       ∃ tok, tok ∈ Py.split t ∧ MIN_WORD_LENGTH ≤ Py.len tok
              ∧ Py.isalpha tok = true ∧ w = Py.lower tok)
  ∧ (∀ t w, w ∈ keywords t → all_lower w = true ∧ MIN_WORD_LENGTH ≤ Py.len w)
  ∧ (∀ g, g_pages g = page_of_chunk_data doc_id <$> chunks →
       NoDup (chunk_node_id doc_id <$> chunks) →
       Forall (λ r, is_related_to r = false) (g_rels g) →
       let g' := exec_all g (similarity_statements doc_id chunks) in
       g_pages g' = g_pages g
       ∧ g_rels g'
         = g_rels g ++ omap (similarity_rel chunks) (window_pairs (length chunks))
       ∧ related_iff_similar g').
Proof.
  intros Hranges. conjuncts.
  - by apply similarity_pass_collect.
  - apply window_pairs_NoDup.
  - apply window_pairs_elem.
  - intros i j ci cj Hi Hj shared. unfold similarity_edge. simpl.
    rewrite Hi, Hj. simpl. fold shared. unfold shared_keywords. fold shared.
    split; intros Hsize.
    + rewrite bool_decide_true by done.
      exists (take 5 (elements shared)). conjuncts.
      * done.
      * apply (sublist_NoDup _ (elements shared)); [apply NoDup_elements|apply sublist_take].
      * intros w Hw. apply elem_of_elements. by eapply subseteq_take.
      * by rewrite length_take.
    + rewrite bool_decide_false by lia. done.
  - apply keywords_elem.
  - apply keywords_lower.
  - intros g Hpages Hids Hbefore g'. unfold g', similarity_statements.
    rewrite (exec_similarity_edges doc_id chunks _ g Hpages Hids).
    conjuncts; [done..|].
    by eapply related_iff_similar_store.
Qed.

Lemma similarity_edges_by_shared_keywords_witness :
  ∃ kws,
    similarity_pass "a" sample_chunks [] = Return [CreateRelatedTo "a_page_1" "a_page_7" kws 6]
    ∧ kws ≡ₚ ["alpha"; "bravo"; "charlie"]
    ∧ related_iff_similar
        (exec_all sample_store (similarity_statements "a" sample_chunks)).
Proof.
  destruct (similarity_edges_by_shared_keywords "a" sample_chunks [])
    as (H & _ & _ & _ & _ & _ & Hstore).
  { repeat constructor; done. }
  eexists. conjuncts.
  - rewrite H. vm_compute. reflexivity.
  - apply (bool_decide_unpack _). vm_compute. exact I.
  - apply Hstore.
    + reflexivity.
    + apply (bool_decide_unpack _). vm_compute. exact I.
    + constructor.
Defined.

(** C3, as stated, fails on the store of a document in which two pages carry
    the number 1, so that their nodes share an id: the statement for the
    first and the fourth chunk, which share three keywords, also relates the
    second chunk to the fourth, and these share none. *)
Lemma related_iff_similar_fails_on_repeated_marker :
  ¬ related_iff_similar collided_graph.
Proof.
  intros H.
  assert (Hsize : size (keywords (from_option pn_text "" (g_pages collided_graph !! 1%nat))
                        ∩ keywords (from_option pn_text "" (g_pages collided_graph !! 3%nat)))
                  = 0%nat) by (vm_compute; reflexivity).
  assert (Hin : RelatedTo 1 3 ["charlie"; "alpha"; "bravo"] 2 ∈ g_rels collided_graph).
  { apply (bool_decide_unpack _). vm_compute. exact I. }
  assert (Hi : is_Some (g_pages collided_graph !! 1%nat))
    by (vm_compute; eexists; reflexivity).
  assert (Hj : is_Some (g_pages collided_graph !! 3%nat))
    by (vm_compute; eexists; reflexivity).
  destruct Hi as [pi Hi], Hj as [pj Hj].
  rewrite Hi, Hj in Hsize. cbn [from_option] in Hsize.
  destruct (H 1%nat 3%nat pi pj Hi Hj) as [Hfwd _]; [lia|].
  assert (Hthr : SIMILARITY_THRESHOLD
                 ≤ Z.of_nat (size (keywords (pn_text pi) ∩ keywords (pn_text pj)))).
  { apply Hfwd. eexists _, _. exact Hin. }
  rewrite Hsize in Hthr. unfold SIMILARITY_THRESHOLD in Hthr. lia.
Qed.

(** The pair (1, 3) of the sample chunks shares two keywords, one below the
    threshold, and gets no relationship; the pair (0, 3) shares three. *)
Example similarity_edge_below_threshold :
  size (shared_keywords (sample_chunk 1 2 "alpha bravo")
          (sample_chunk 3 7 "ALPHA Bravo charlie, charlie echo")) = 2%nat
  ∧ similarity_edge "a" sample_chunks (1%nat, 3%nat) = None
  ∧ is_Some (similarity_edge "a" sample_chunks (0%nat, 3%nat)).
Proof. conjuncts; [by vm_compute..|]. vm_compute. by eexists. Qed.

(** On the store of the sample document of four pages, the RELATED_TO
    relationships are those from page 1 to pages 3 and 4; there is none
    between neighbours and none from page 2. *)
Example story_relationships :
  filter is_related_to (g_rels story_graph)
  = [RelatedTo 0 2 ["charlie"; "alpha"; "bravo"] 2;
     RelatedTo 0 3 ["charlie"; "alpha"; "bravo"] 3]
  ∧ filter is_next_page (g_rels story_graph)
    = [NextPage 0 1; NextPage 1 2; NextPage 2 3].
Proof. split; vm_compute; reflexivity. Qed.

(** ** Page lookup: evaluation of [get_page_content] on a working driver *)

Section page_lookup_eval.
Variables (em : option (string → py vector))
          (qc : option (vector → option string → Z → py (list scored_point)))
          (db : neo4j).
Hypothesis session_ok : session db = Return ().

Lemma get_page_content_range doc_id start_page end_page pages first nexts prevs rels :
  end_page ≠ start_page →
  pages_in_range db doc_id start_page end_page = Return pages →
  head pages = Some first →
  next_page_of db (r_id (List.last pages first)) = Return nexts →
  prev_page_of db (r_id first) = Return prevs →
  related_pages_of db (r_id first) = Rows rels None →
  get_page_content (Services em qc (Some db)) doc_id start_page (Some end_page)
  = Return (range_result doc_id start_page end_page pages nexts prevs rels).
Proof.
  intros Hne Hpages Hfirst Hnext Hprev Hrel.
  destruct pages as [|first' rest]; [done|]. simpl in Hfirst.
  injection Hfirst as ->.
  unfold get_page_content, range_result. simpl neo4j_driver. cbv beta iota.
  apply Z.eqb_neq in Hne. rewrite Hne. simpl negb. cbv iota.
  unfold returning, try_except, mbind, block_bind, call, navigation, end_of_rows.
  rewrite session_ok. simpl default. rewrite Hpages.
  unfold mbind, block_bind, call. rewrite Hnext, Hprev, Hrel.
  destruct (head nexts), (head prevs); reflexivity.
Qed.

Lemma get_page_content_range_empty doc_id start_page end_page :
  end_page ≠ start_page →
  pages_in_range db doc_id start_page end_page = Return [] →
  get_page_content (Services em qc (Some db)) doc_id start_page (Some end_page)
  = Return (unresolved_result doc_id start_page end_page true
              ("No pages found in range " +:+ Py.str start_page +:+ "-"
               +:+ Py.str end_page +:+ " in " +:+ doc_id)).
Proof.
  intros Hne Hpages.
  unfold get_page_content, unresolved_result. simpl neo4j_driver. cbv beta iota.
  apply Z.eqb_neq in Hne. rewrite Hne. simpl negb. cbv iota.
  unfold returning, try_except, mbind, block_bind, call.
  rewrite session_ok. simpl default. rewrite Hpages. reflexivity.
Qed.

Lemma single_mode_flag start_page end_page :
  single_mode start_page end_page →
  match end_page with
  | Some e => negb (e =? start_page)
  | None => false
  end = false.
Proof. intros [->| ->]; [done|]. by rewrite Z.eqb_refl. Qed.

Lemma get_page_content_single doc_id start_page end_page recs rec nexts prevs rels :
  single_mode start_page end_page →
  page_containing db doc_id start_page = Return recs →
  head recs = Some rec →
  next_page_of db (r_id rec) = Return nexts →
  prev_page_of db (r_id rec) = Return prevs →
  related_pages_of db (r_id rec) = Rows rels None →
  get_page_content (Services em qc (Some db)) doc_id start_page end_page
  = Return (single_result doc_id start_page rec nexts prevs rels).
Proof.
  intros Hmode Hrecs Hrec Hnext Hprev Hrel.
  unfold get_page_content, single_result. simpl neo4j_driver. cbv beta iota.
  rewrite (single_mode_flag _ _ Hmode). cbv iota.
  unfold returning, try_except, mbind, block_bind, call, navigation, end_of_rows.
  rewrite session_ok, Hrecs, Hrec.
  unfold mbind, block_bind, call. rewrite Hnext, Hprev, Hrel.
  destruct (r_is_merged rec), (head nexts), (head prevs); reflexivity.
Qed.

Lemma get_page_content_not_found doc_id start_page end_page recs :
  single_mode start_page end_page →
  page_containing db doc_id start_page = Return recs →
  head recs = None →
  get_page_content (Services em qc (Some db)) doc_id start_page end_page
  = Return (unresolved_result doc_id start_page start_page false
              ("Page " +:+ Py.str start_page +:+ " not found in " +:+ doc_id)).
Proof.
  intros Hmode Hrecs Hrec.
  unfold get_page_content, unresolved_result. simpl neo4j_driver. cbv beta iota.
  rewrite (single_mode_flag _ _ Hmode). cbv iota.
  unfold returning, try_except, mbind, block_bind, call.
  rewrite session_ok, Hrecs, Hrec. reflexivity.
Qed.

End page_lookup_eval.

(** ** Page lookup on a graph store *)

(** The fields of the results. *)
Section result_fields.
Variables (doc_id : string) (start_page end_page : Z).
Variables (pages : list page_row) (rec : page_row).
Variables (nexts prevs : list nav_row) (rels : list related_row).

Lemma range_result_content :
  dict_get "content" (range_result doc_id start_page end_page pages nexts prevs rels)
  = Some (VStr (Py.join Py.nl (pages ≫= content_items))).
Proof. reflexivity. Qed.
Lemma range_result_word_count :
  dict_get "word_count" (range_result doc_id start_page end_page pages nexts prevs rels)
  = Some (VInt (sumZ (r_word_count <$> pages))).
Proof. reflexivity. Qed.
Lemma range_result_page_range :
  dict_get "page_range" (range_result doc_id start_page end_page pages nexts prevs rels)
  = Some (VInts (union_of_ranges pages)).
Proof. reflexivity. Qed.
Lemma range_result_pages_retrieved :
  dict_get "pages_retrieved" (range_result doc_id start_page end_page pages nexts prevs rels)
  = Some (VInt (Z.of_nat (length pages))).
Proof. reflexivity. Qed.
Lemma range_result_error :
  dict_get "error" (range_result doc_id start_page end_page pages nexts prevs rels)
  = Some VNone.
Proof. reflexivity. Qed.
Lemma range_result_next :
  dict_get "next_page" (range_result doc_id start_page end_page pages nexts prevs rels)
  = Some (nav_value (head nexts)).
Proof. reflexivity. Qed.
Lemma range_result_prev :
  dict_get "prev_page" (range_result doc_id start_page end_page pages nexts prevs rels)
  = Some (nav_value (head prevs)).
Proof. reflexivity. Qed.
Lemma range_result_related :
  dict_get "related_pages" (range_result doc_id start_page end_page pages nexts prevs rels)
  = Some (related_values rels).
Proof. reflexivity. Qed.

Lemma single_result_content :
  dict_get "content" (single_result doc_id start_page rec nexts prevs rels)
  = Some (VStr (r_text rec)).
Proof. reflexivity. Qed.
Lemma single_result_word_count :
  dict_get "word_count" (single_result doc_id start_page rec nexts prevs rels)
  = Some (VInt (r_word_count rec)).
Proof. reflexivity. Qed.
Lemma single_result_page_range :
  dict_get "page_range" (single_result doc_id start_page rec nexts prevs rels)
  = Some (VInts (r_page_range rec)).
Proof. reflexivity. Qed.
Lemma single_result_is_merged :
  dict_get "is_merged" (single_result doc_id start_page rec nexts prevs rels)
  = Some (VBool (r_is_merged rec)).
Proof. reflexivity. Qed.
Lemma single_result_error :
  dict_get "error" (single_result doc_id start_page rec nexts prevs rels)
  = Some VNone.
Proof. reflexivity. Qed.
Lemma single_result_next :
  dict_get "next_page" (single_result doc_id start_page rec nexts prevs rels)
  = Some (nav_value (head nexts)).
Proof. reflexivity. Qed.
Lemma single_result_prev :
  dict_get "prev_page" (single_result doc_id start_page rec nexts prevs rels)
  = Some (nav_value (head prevs)).
Proof. reflexivity. Qed.
Lemma single_result_related :
  dict_get "related_pages" (single_result doc_id start_page rec nexts prevs rels)
  = Some (related_values rels).
Proof. reflexivity. Qed.


End result_fields.

Global Instance by_chunk_idx_total : Total by_chunk_idx.
Proof. intros a b. unfold by_chunk_idx. lia. Qed.
Global Instance by_chunk_idx_trans : Transitive by_chunk_idx.
Proof. intros a b c. unfold by_chunk_idx. lia. Qed.
Global Instance by_keywords_desc_total {A : Type} : Total (@by_keywords_desc A).
Proof. intros a b. unfold by_keywords_desc. lia. Qed.
Global Instance by_keywords_desc_trans {A : Type} : Transitive (@by_keywords_desc A).
Proof. intros a b c. unfold by_keywords_desc. lia. Qed.

Lemma StronglySorted_le_lt (l : list Z) :
  StronglySorted Z.le l → NoDup l → StronglySorted Z.lt l.
Proof.
  induction 1 as [|x l Hl IH Hx]; intros Hnd; constructor.
  - apply IH. by apply NoDup_cons in Hnd as [_ ?].
  - apply NoDup_cons in Hnd as [Hnotin _].
    rewrite Forall_forall in Hx |- *. intros y Hy.
    specialize (Hx y Hy). assert (x ≠ y) by (intros ->; done). lia.
Qed.

Lemma covered_pages_sorted chunks : StronglySorted Z.lt (covered_pages chunks).
Proof.
  unfold covered_pages, union_of_ranges. apply StronglySorted_le_lt.
  - apply StronglySorted_merge_sort; apply _.
  - rewrite merge_sort_Permutation. apply NoDup_elements.
Qed.

Lemma covered_pages_elem chunks n :
  n ∈ covered_pages chunks ↔ ∃ p, p ∈ chunks ∧ n ∈ pn_page_range p.
Proof.
  unfold covered_pages, union_of_ranges.
  rewrite merge_sort_Permutation, elem_of_elements, elem_of_list_to_set.
  rewrite list_elem_of_bind. split.
  - intros (r & Hn & [p [-> Hp]]%list_elem_of_fmap). by exists p.
  - intros (p & Hp & Hn). exists (row_of_page p). split; [done|].
    apply list_elem_of_fmap. by exists p.
Qed.

Lemma content_of_rows chunks :
  Py.join Py.nl ((row_of_page <$> chunks) ≫= content_items) = combined_content chunks.
Proof.
  unfold combined_content. f_equal.
  induction chunks as [|p chunks IH]; [done|]. csimpl. by rewrite IH.
Qed.

Lemma word_count_of_rows chunks :
  sumZ (r_word_count <$> (row_of_page <$> chunks)) = sumZ (pn_word_count <$> chunks).
Proof. by rewrite <- list_fmap_compose. Qed.

(** C5, as amended. In range mode, on a graph store, the chunks resolved
    are the Page nodes of the document whose [page_range] intersects
    [start_page, end_page], ordered by [chunk_idx]. When there is at least
    one, the result has as content their texts, each preceded by its
    separator header, as [word_count] the sum of their word counts, as
    [page_range] the sorted union of their page numbers, their number as
    [pages_retrieved], and no error. When there is none, the result reports
    "No pages found in range ..." and leaves content and page range unset. *)
Theorem range_lookup (g : graph) (doc_id : string) (start_page end_page : Z) :
  end_page ≠ start_page →
  let chunks := store_pages_in_range g doc_id start_page end_page in
  chunks ≡ₚ filter (λ p, pn_doc_id p = doc_id
                         ∧ intersects start_page end_page (pn_page_range p))
                   (g_pages g)
  ∧ StronglySorted by_chunk_idx chunks
  ∧ StronglySorted Z.lt (covered_pages chunks)
  ∧ (∀ n, n ∈ covered_pages chunks ↔ ∃ p, p ∈ chunks ∧ n ∈ pn_page_range p)
  ∧ (chunks ≠ [] →
       range_resolution g doc_id start_page end_page
       ∧ ∃ d, get_page_content (store_services g) doc_id start_page (Some end_page)
              = Return d
              ∧ dict_get "pages_retrieved" d = Some (VInt (Z.of_nat (length chunks)))
              ∧ dict_get "error" d = Some VNone)
  ∧ (chunks = [] →
       get_page_content (store_services g) doc_id start_page (Some end_page)
       = Return (unresolved_result doc_id start_page end_page true
                   ("No pages found in range " +:+ Py.str start_page +:+ "-"
                    +:+ Py.str end_page +:+ " in " +:+ doc_id))).
Proof.
  intros Hne chunks. conjuncts.
  - apply merge_sort_Permutation.
  - apply StronglySorted_merge_sort; apply _.
  - apply covered_pages_sorted.
  - apply covered_pages_elem.
  - intros Hchunks.
    destruct chunks as [|first rest] eqn:E; [done|].
    eassert (H : get_page_content (store_services g) doc_id start_page (Some end_page)
                 = Return (range_result doc_id start_page end_page
                             (row_of_page <$> first :: rest) _ _ _)).
    { apply (get_page_content_range None None (store_driver g) eq_refl)
        with (first := row_of_page first);
        [done|simpl; fold chunks; by rewrite E|done|reflexivity..]. }
    split.
    + unfold range_resolution. fold chunks. rewrite E.
      eexists. split; [exact H|]. conjuncts.
      * by rewrite range_result_content, content_of_rows.
      * by rewrite range_result_word_count, word_count_of_rows.
      * by rewrite range_result_page_range.
    + eexists. split; [exact H|]. split.
      * by rewrite range_result_pages_retrieved, length_fmap.
      * by rewrite range_result_error.
  - intros Hchunks.
    apply (get_page_content_range_empty None None (store_driver g) eq_refl _ _ _ Hne).
    simpl. fold chunks. by rewrite Hchunks.
Qed.

Lemma range_lookup_witness : range_resolution sample_graph "a" 1 2.
Proof.
  destruct (range_lookup sample_graph "a" 1 2) as (_ & _ & _ & _ & H & _).
  { done. }
  apply H. vm_compute. discriminate.
Defined.

(** C5, as stated, fails on a range that no chunk intersects: the content
    of the result is [None], not the concatenation of no text, and its page
    range is [None], not the empty union. *)
Lemma range_resolution_fails_on_empty_range :
  ¬ range_resolution sample_graph "a" 5 7.
Proof.
  intros (d & Hd & Hcontent & _).
  vm_compute in Hd. injection Hd as <-.
  vm_compute in Hcontent. discriminate.
Qed.

(** ** Navigation and related pages *)











(** ** The Page nodes written by a run of the script *)

Lemma split_by_pages_chunk_shape content min_words c :
  c ∈ split_by_pages content min_words →
  page_range c ≠ []
  ∧ is_merged c = bool_decide (1 < length (page_range c))%nat
  ∧ head (page_range c) = Some (page_num c).
Proof.
  unfold split_by_pages.
  destruct (merge_pages_groups min_words (extract_raw_pages content))
    as (groups & _ & -> & Hall & _).
  intros (g & -> & Hg)%list_elem_of_fmap.
  rewrite Forall_forall in Hall. destruct (Hall g Hg) as [Hne _].
  destruct g as [|p g]; [done|]. unfold chunk_of_group. csimpl.
  by rewrite length_fmap.
Qed.

Lemma created_pages_app ss1 ss2 :
  created_pages (ss1 ++ ss2) = created_pages ss1 ++ created_pages ss2.
Proof. apply omap_app. Qed.

Section index_pages.
Variables (encode : string → vector) (doc_id : string).

Lemma index_pages_state pages : ∀ st,
  let st' := foldl (index_page encode doc_id) st pages in
  sent st' = sent st
  ∧ doc_data st' = doc_data st
  ∧ printed st' = printed st
  ∧ page_of_chunk_data doc_id <$> chunks_list st'
    = (page_of_chunk_data doc_id <$> chunks_list st)
      ++ imap (λ i c, node_of_chunk doc_id (length (chunks_list st) + i) c) pages.
Proof.
  induction pages as [|c pages IH]; intros st; simpl.
  - by rewrite (right_id_L [] (++)).
  - destruct (IH (index_page encode doc_id st c)) as (H1 & H2 & H3 & H4).
    simpl in *. conjuncts; [done..|].
    rewrite H4, fmap_app, <- (assoc_L (++)). f_equal. csimpl. f_equal.
    + unfold page_of_chunk_data, node_of_chunk, chunk_node_id. simpl.
      by rewrite Nat.add_0_r.
    + apply imap_ext. intros i x _. simpl. rewrite length_app. simpl.
      f_equal. lia.
Qed.

End index_pages.

Lemma index_file_state encode st file st' :
  index_file encode st file = Return st' →
  ∃ cds, doc_data st' = dict_set (f_stem file) cds (doc_data st)
         ∧ entry_of_file file (f_stem file, cds)
         ∧ created_pages (sent st') = created_pages (sent st).
Proof.
  unfold index_file.
  match goal with |- context [foldl ?f ?s ?l] =>
    pose proof (index_pages_state encode (f_stem file) l s) as (H1 & H2 & H3 & H4);
    set (st2 := foldl f s l) in *
  end.
  destruct (page_range_var st2); [|done]. intros [= <-]. simpl in *.
  exists (chunks_list st2). conjuncts.
  - by rewrite H2.
  - split; [done|]. simpl. by rewrite H4.
  - rewrite H1, created_pages_app. simpl. by rewrite (right_id_L [] (++)).
Qed.

Lemma dict_set_fresh {V : Type} (k : string) (v : V) (d : list (string * V)) :
  k ∉ dict_keys d → dict_set k v d = d ++ [(k, v)].
Proof.
  induction d as [|[k' v'] d IH]; intros Hk; [done|]. simpl.
  unfold dict_keys in Hk. csimpl in Hk.
  apply not_elem_of_cons in Hk as [Hne Hk].
  destruct (String.eqb k' k) eqn:E.
  - apply String.eqb_eq in E. congruence.
  - by rewrite IH.
Qed.

Lemma phase1_state encode files : ∀ st st',
  NoDup (dict_keys (doc_data st) ++ (f_stem <$> files)) →
  phase1_from encode st files = Return st' →
  ∃ entries, doc_data st' = doc_data st ++ entries
             ∧ Forall2 entry_of_file files entries
             ∧ created_pages (sent st') = created_pages (sent st).
Proof.
  unfold phase1_from.
  induction files as [|f files IH]; intros st st' Hnd H; simpl in H.
  - injection H as <-. exists []. by rewrite (right_id_L [] (++)).
  - destruct (index_file encode st f) as [st1|e] eqn:E; [|done]. simpl in H.
    apply index_file_state in E as (cds & Hdata & Hentry & Hsent).
    rewrite dict_set_fresh in Hdata.
    2: { apply NoDup_app in Hnd as (_ & Hdisj & _). intros Hin.
         apply (Hdisj _ Hin). csimpl. apply list_elem_of_here. }
    apply IH in H as (entries & Hdata' & Hall & Hsent').
    + exists ((f_stem f, cds) :: entries). conjuncts.
      * by rewrite Hdata', Hdata, <- (assoc_L (++)).
      * by constructor.
      * by rewrite Hsent', Hsent.
    + rewrite Hdata. unfold dict_keys in *. rewrite fmap_app. csimpl.
      rewrite <- (assoc_L (++)). csimpl. csimpl in Hnd.
      by apply NoDup_app in Hnd as (? & ? & ?); apply NoDup_app.
Qed.

Lemma create_page_eval doc_id cd ss :
  cd_page_range cd ≠ [] →
  create_page doc_id ss cd
  = Return (ss ++ [CreatePage (page_of_chunk_data doc_id cd);
                   MergeContains doc_id (chunk_node_id doc_id cd)]).
Proof.
  intros Hcd. destruct (page_range_label_nonempty _ Hcd) as [label Hl].
  unfold create_page, page_of_chunk_data, chunk_node_id, range_label.
  by rewrite Hl.
Qed.

Lemma create_pages_collect doc_id cds ss :
  Forall (λ cd, cd_page_range cd ≠ []) cds →
  ∃ ss', py_foldl (create_page doc_id) ss cds = Return ss'
         ∧ created_pages ss' = created_pages ss ++ (page_of_chunk_data doc_id <$> cds).
Proof.
  intros Hall. rewrite Forall_forall in Hall.
  rewrite (py_foldl_collect _
             (λ cd, [CreatePage (page_of_chunk_data doc_id cd);
                     MergeContains doc_id (chunk_node_id doc_id cd)]))
    by (intros cd ss0 Hcd; by apply create_page_eval, Hall).
  eexists. split; [done|]. rewrite created_pages_app. f_equal.
  clear Hall. induction cds as [|cd cds IH]; [done|].
  rewrite bind_cons, created_pages_app, IH. done.
Qed.

Lemma sequential_pass_collect doc_id cds ss :
  Forall (λ cd, cd_page_range cd ≠ []) cds →
  ∃ ss', sequential_pass doc_id cds ss = Return ss'
         ∧ created_pages ss' = created_pages ss.
Proof.
  intros Hall. unfold sequential_pass.
  assert (H : ∀ i, i ∈ seq 0 (length cds - 1) →
              ∃ id1 id2, ∀ ss, link_next doc_id cds ss i
                               = Return (ss ++ [CreateNextPage id1 id2])).
  { intros i Hi%elem_of_seq.
    destruct (lookup_lt_is_Some_2 cds i) as [c1 H1]; [lia|].
    destruct (lookup_lt_is_Some_2 cds (S i)) as [c2 H2]; [lia|].
    rewrite Forall_forall in Hall.
    destruct (page_range_label_nonempty (cd_page_range c1)) as [l1 Hl1].
    { apply Hall. by eapply list_elem_of_lookup_2. }
    destruct (page_range_label_nonempty (cd_page_range c2)) as [l2 Hl2].
    { apply Hall. by eapply list_elem_of_lookup_2. }
    exists (neo_id doc_id l1), (neo_id doc_id l2). intros ss0.
    unfold link_next, item. rewrite H1, H2. simpl. rewrite Hl1. simpl.
    by rewrite Hl2. }
  revert ss H. generalize (seq 0 (length cds - 1)).
  intros l. induction l as [|i l IH]; intros ss H.
  - by exists ss.
  - destruct (H i) as (id1 & id2 & Hi); [apply list_elem_of_here|].
    simpl. rewrite Hi. simpl.
    destruct (IH (ss ++ [CreateNextPage id1 id2])) as (ss' & -> & Hss').
    { intros j Hj. apply H. by apply list_elem_of_further. }
    exists ss'. split; [done|]. rewrite Hss', created_pages_app. simpl.
    by rewrite (right_id_L [] (++)).
Qed.

Lemma similarity_pass_pages doc_id cds ss :
  Forall (λ cd, cd_page_range cd ≠ []) cds →
  ∃ ss', similarity_pass doc_id cds ss = Return ss'
         ∧ created_pages ss' = created_pages ss.
Proof.
  intros Hall. rewrite similarity_pass_collect by done.
  eexists. split; [done|]. rewrite created_pages_app.
  rewrite <- (right_id_L [] (++) (created_pages ss)) at 2. f_equal.
  generalize (window_pairs (length cds)). intros l.
  induction l as [|ij l IH]; [done|]. csimpl.
  destruct (similarity_edge doc_id cds ij) as [s|] eqn:E; [|done].
  unfold created_pages in *. csimpl. unfold similarity_edge in E.
  destruct (cds !! ij.1); [|done]. destruct (cds !! ij.2); [|done].
  simpl in E. case_bool_decide; [|done]. by injection E as <-.
Qed.

Lemma phase3_pages docs : ∀ ss,
  Forall (λ e : string * list chunk_data,
            Forall (λ cd, cd_page_range cd ≠ []) e.2) docs →
  ∃ ss', phase3 ss docs = Return ss'
         ∧ created_pages ss'
           = created_pages ss ++ (docs ≫= λ e, page_of_chunk_data e.1 <$> e.2).
Proof.
  unfold phase3. induction docs as [|[doc_id cds] docs IH]; intros ss Hall.
  - exists ss. csimpl. by rewrite (right_id_L [] (++)).
  - apply Forall_cons in Hall as [Hcds Hall]. simpl in Hcds. simpl.
    destruct (create_pages_collect doc_id cds ss Hcds) as (ss1 & -> & H1).
    simpl.
    destruct (sequential_pass_collect doc_id cds ss1 Hcds) as (ss2 & -> & H2).
    simpl.
    destruct (similarity_pass_pages doc_id cds ss2 Hcds) as (ss3 & -> & H3).
    simpl.
    destruct (IH ss3 Hall) as (ss' & -> & H').
    exists ss'. split; [done|].
    rewrite H', H3, H2, H1, <- (assoc_L (++)). done.
Qed.

(** The entries of [doc_data] have page ranges that are not empty. *)
Lemma entry_of_file_ranges f entry :
  entry_of_file f entry → Forall (λ cd, cd_page_range cd ≠ []) entry.2.
Proof.
  intros [_ H]. apply Forall_forall. intros cd Hcd.
  apply list_elem_of_lookup in Hcd as [i Hi].
  apply (f_equal (λ l, l !! i)) in H.
  rewrite list_lookup_fmap, Hi, list_lookup_imap in H. simpl in H.
  destruct (split_by_pages (f_content f) MIN_WORDS !! i) as [c|] eqn:E; [|done].
  simpl in H. injection H as _ _ H _. rewrite H.
  by eapply split_by_pages_chunk_shape, list_elem_of_lookup_2.
Qed.

(** One run of the script adds to the store the Page nodes of the batch. *)
Lemma run_index_pages encode files g g' :
  NoDup (f_stem <$> files) →
  run_index encode files g = Return g' →
  g_pages g' = g_pages g ++ indexed_pages files.
Proof.
  intros Hnd. unfold run_index, index_script.
  destruct files as [|f0 files0] eqn:Efiles; [done|]. rewrite <- Efiles in *.
  destruct (phase1_from encode initial_state files) as [st|e] eqn:E1; [|done].
  simpl. apply phase1_state in E1 as (entries & Hdata & Hall & Hsent); [|done].
  simpl in Hdata, Hsent.
  destruct (phase3_pages (doc_data st) (sent st)) as (ss & -> & Hss).
  { rewrite Hdata. clear -Hall. induction Hall; constructor; [|done].
    by eapply entry_of_file_ranges. }
  simpl. intros [= <-]. rewrite exec_all_pages, Hss, Hsent, Hdata. simpl.
  f_equal. unfold indexed_pages. clear -Hall.
  induction Hall as [|f [doc cds] files entries [Hk Hv] _ IH]; [done|].
  rewrite !bind_cons, IH. f_equal. simpl in *. by rewrite Hk.
Qed.

(** ** Single-page lookup on an indexed batch *)

Lemma NoDup_fmap_inj {A B : Type} (f : A → B) (l : list A) x y :
  NoDup (f <$> l) → x ∈ l → y ∈ l → f x = f y → x = y.
Proof.
  intros Hnd [i Hi]%list_elem_of_lookup [j Hj]%list_elem_of_lookup Hxy.
  assert (i = j) as ->; [|congruence].
  apply (NoDup_lookup (f <$> l) i j (f x)); [done|..].
  - by rewrite list_lookup_fmap, Hi.
  - by rewrite list_lookup_fmap, Hj, Hxy.
Qed.

Section indexed_lookup.
Variables (files : list source_file) (f : source_file) (page : Z).
Hypothesis stems : NoDup (f_stem <$> files).
Hypothesis member : f ∈ files.

Lemma indexed_containing_elem p :
  p ∈ filter (λ p, pn_doc_id p = f_stem f ∧ page ∈ pn_page_range p)
             (indexed_pages files) ↔
  ∃ i c, split_by_pages (f_content f) MIN_WORDS !! i = Some c ∧ page ∈ page_range c
         ∧ p = node_of_chunk (f_stem f) i c.
Proof.
  rewrite list_elem_of_filter. unfold indexed_pages.
  rewrite list_elem_of_bind. split.
  - intros [[Hdoc Hpage] (f' & Hp & Hf')].
    apply elem_of_lookup_imap in Hp as (i & c & -> & Hc). simpl in Hdoc.
    assert (f' = f) as -> by by eapply (NoDup_fmap_inj f_stem files).
    by exists i, c.
  - intros (i & c & Hc & Hpage & ->). split; [done|].
    exists f. split; [|done]. by apply elem_of_lookup_imap_2.
Qed.

End indexed_lookup.

Lemma indexed_pages_doc files p :
  p ∈ indexed_pages files → pn_doc_id p ∈ f_stem <$> files.
Proof.
  unfold indexed_pages. intros (f & Hp & Hf)%list_elem_of_bind.
  apply elem_of_lookup_imap in Hp as (i & c & -> & _). simpl.
  apply list_elem_of_fmap. by exists f.
Qed.

Lemma single_page_in_batch files g f page end_page :
  g_pages g = indexed_pages files →
  NoDup (f_stem <$> files) →
  f ∈ files →
  single_mode page end_page →
  single_page_outcome g f page end_page.
Proof.
  intros Hpages Hstems Hf Hmode.
  unfold single_page_outcome. set (chunks := split_by_pages (f_content f) MIN_WORDS).
  pose proof (indexed_containing_elem files f page Hstems Hf) as Helem.
  fold chunks in Helem.
  assert (Hstore : store_page_containing g (f_stem f) page
                   = filter (λ p, pn_doc_id p = f_stem f ∧ page ∈ pn_page_range p)
                            (indexed_pages files)).
  { unfold store_page_containing. by rewrite Hpages. }
  destruct (store_page_containing g (f_stem f) page) as [|p rest] eqn:E.
  - eexists. split.
    + apply (get_page_content_not_found None None (store_driver g) eq_refl
               (f_stem f) page end_page []); [done| |done].
      simpl. by rewrite E.
    + left. split; [|done]. intros c [i Hc]%list_elem_of_lookup Hpage.
      assert (H : node_of_chunk (f_stem f) i c ∈ ([] : list page_node)).
      { rewrite Hstore. apply Helem. by exists i, c. }
      by apply elem_of_nil in H.
  - assert (Hp : p ∈ p :: rest) by apply list_elem_of_here.
    rewrite Hstore in Hp. apply Helem in Hp as (i & c & Hc & Hpage & ->).
    eexists. split.
    + apply (get_page_content_single None None (store_driver g) eq_refl
               (f_stem f) page end_page
               (row_of_page <$> node_of_chunk (f_stem f) i c :: rest)
               (row_of_page (node_of_chunk (f_stem f) i c)));
        [done|simpl; by rewrite E|done|reflexivity..].
    + right. exists i, c.
      assert (Hc' : c ∈ chunks) by by eapply list_elem_of_lookup_2.
      destruct (split_by_pages_chunk_shape _ _ _ Hc') as (_ & Hmerged & _).
      pose proof (chunk_word_count (f_content f) MIN_WORDS c Hc') as Hwc.
      conjuncts; try done.
      * rewrite single_result_word_count. simpl. by rewrite Hwc.
      * rewrite single_result_is_merged. simpl. by rewrite Hmerged.
      * intros Hnd j c' Hj Hpage'.
        by apply (split_by_pages_owner (f_content f) MIN_WORDS j i c' c page).
Qed.

Lemma single_page_outside_batch files g doc_id page end_page :
  g_pages g = indexed_pages files →
  doc_id ∉ f_stem <$> files →
  single_mode page end_page →
  get_page_content (store_services g) doc_id page end_page
  = Return (unresolved_result doc_id page page false
              ("Page " +:+ Py.str page +:+ " not found in " +:+ doc_id)).
Proof.
  intros Hpages Hdoc Hmode.
  apply (get_page_content_not_found None None (store_driver g) eq_refl
           doc_id page end_page
           (row_of_page <$> store_page_containing g doc_id page)); [done..|].
  destruct (store_page_containing g doc_id page) as [|p rest] eqn:E; [done|].
  assert (Hp : p ∈ store_page_containing g doc_id page)
    by (rewrite E; apply list_elem_of_here).
  unfold store_page_containing in Hp. rewrite Hpages in Hp.
  apply list_elem_of_filter in Hp as [[<- _] Hp].
  by apply indexed_pages_doc in Hp.
Qed.

Lemma single_page_first_record g doc_id page end_page :
  single_mode page end_page →
  ∃ d, get_page_content (store_services g) doc_id page end_page = Return d
       ∧ match store_page_containing g doc_id page with
         | [] => d = unresolved_result doc_id page page false
                       ("Page " +:+ Py.str page +:+ " not found in " +:+ doc_id)
         | p :: _ =>
             dict_get "content" d = Some (VStr (pn_text p))
             ∧ dict_get "page_range" d = Some (VInts (pn_page_range p))
             ∧ dict_get "word_count" d = Some (VInt (pn_word_count p))
             ∧ dict_get "is_merged" d = Some (VBool (pn_is_merged p))
             ∧ dict_get "error" d = Some VNone
         end.
Proof.
  intros Hmode.
  destruct (store_page_containing g doc_id page) as [|p rest] eqn:E.
  - eexists. split; [|reflexivity].
    apply (get_page_content_not_found None None (store_driver g) eq_refl
             doc_id page end_page []); [done| |done].
    simpl. by rewrite E.
  - eexists. split.
    + apply (get_page_content_single None None (store_driver g) eq_refl
               doc_id page end_page (row_of_page <$> p :: rest) (row_of_page p));
        [done|simpl; by rewrite E|done|reflexivity..].
    + conjuncts; reflexivity.
Qed.

Lemma file_nodes_NoDup f : NoDup (file_nodes f).
Proof.
  apply NoDup_alt. intros i j p Hi Hj.
  unfold file_nodes in Hi, Hj. rewrite list_lookup_imap in Hi, Hj.
  destruct (file_chunks f !! i) as [ci|]; [|done].
  destruct (file_chunks f !! j) as [cj|]; [|done].
  simpl in Hi, Hj. rewrite <- Hi in Hj.
  apply (f_equal (fmap pn_chunk_idx)) in Hj.
  cbn [fmap option_fmap option_map node_of_chunk pn_chunk_idx] in Hj.
  injection Hj. lia.
Qed.

Lemma indexed_pages_NoDup files :
  NoDup (f_stem <$> files) → NoDup (indexed_pages files).
Proof.
  intros Hstems. unfold indexed_pages. apply NoDup_bind.
  - intros f1 f2 p Hf1 Hf2 Hp1 Hp2.
    apply elem_of_lookup_imap in Hp1 as (i1 & c1 & -> & _).
    apply elem_of_lookup_imap in Hp2 as (i2 & c2 & Hp & _).
    apply (f_equal pn_doc_id) in Hp. simpl in Hp.
    apply list_elem_of_lookup in Hf1 as [k1 Hk1].
    apply list_elem_of_lookup in Hf2 as [k2 Hk2].
    assert (k1 = k2) as ->; [|congruence].
    apply (NoDup_lookup (f_stem <$> files) k1 k2 (f_stem f1)); [done|..];
      rewrite list_lookup_fmap; [by rewrite Hk1|by rewrite Hk2, Hp].
  - intros f _. apply file_nodes_NoDup.
  - by apply NoDup_fmap_1 in Hstems.
Qed.

Lemma single_page_one_record files g f page :
  g_pages g = indexed_pages files →
  NoDup (f_stem <$> files) →
  f ∈ files →
  NoDup (marker_numbers (f_content f)) →
  (length (store_page_containing g (f_stem f) page) ≤ 1)%nat.
Proof.
  intros Hpages Hstems Hf Hmarkers.
  pose proof (indexed_containing_elem files f page Hstems Hf) as Helem.
  unfold store_page_containing. rewrite Hpages.
  pose proof (NoDup_filter (λ p, pn_doc_id p = f_stem f ∧ page ∈ pn_page_range p)
                _ (indexed_pages_NoDup files Hstems)) as Hnd.
  destruct (filter _ (indexed_pages files)) as [|p [|q rest]]; simpl; [lia..|].
  exfalso.
  assert (Hp : p ∈ p :: q :: rest) by apply list_elem_of_here.
  assert (Hq : q ∈ p :: q :: rest) by (apply list_elem_of_further, list_elem_of_here).
  apply Helem in Hp as (i & c & Hc & Hpage & ->).
  apply Helem in Hq as (j & c' & Hc' & Hpage' & ->).
  assert (j = i) as ->
    by by apply (split_by_pages_owner (f_content f) MIN_WORDS j i c' c page).
  assert (c' = c) as -> by congruence.
  apply NoDup_cons in Hnd as [Hnd _]. apply Hnd, list_elem_of_here.
Qed.

(** C6, as amended. On every store, a single-page request returns the first
    record that the store gives for the Page nodes of the document whose
    [page_range] contains the page: its text, its [page_range], its word
    count and its [is_merged] flag, as they are stored; when no node of the
    document contains the page the result carries the error
    "Page N not found in ...". On a store written by one run of the script
    from the empty store on files with distinct stems, that record is a chunk
    of [split_by_pages] for the file: its full text, its [page_range], its
    word count, and [is_merged] true exactly when the range has more than one
    page; when moreover the markers of the file carry distinct numbers, the
    store holds at most one record containing the page; a document that is
    none of the batch gives the error. *)
Theorem single_page_lookup (g : graph) (doc_id : string) (page : Z)
    (end_page : option Z) :
  single_mode page end_page →
  (∃ d, get_page_content (store_services g) doc_id page end_page = Return d
        ∧ match store_page_containing g doc_id page with
          | [] => d = unresolved_result doc_id page page false
                        ("Page " +:+ Py.str page +:+ " not found in " +:+ doc_id)
          | p :: _ =>
              dict_get "content" d = Some (VStr (pn_text p))
              ∧ dict_get "page_range" d = Some (VInts (pn_page_range p))
              ∧ dict_get "word_count" d = Some (VInt (pn_word_count p))
              ∧ dict_get "is_merged" d = Some (VBool (pn_is_merged p))
              ∧ dict_get "error" d = Some VNone
          end)
  ∧ (∀ p, p ∈ store_page_containing g doc_id page
          ↔ p ∈ g_pages g ∧ pn_doc_id p = doc_id ∧ page ∈ pn_page_range p)
  ∧ ∀ (encode : string → vector) (files : list source_file),
      run_index encode files empty_graph = Return g →
      NoDup (f_stem <$> files) →
      (∀ f, f ∈ files →
         single_page_outcome g f page end_page
         ∧ (NoDup (marker_numbers (f_content f)) →
            (length (store_page_containing g (f_stem f) page) ≤ 1)%nat))
      ∧ (doc_id ∉ f_stem <$> files →
         get_page_content (store_services g) doc_id page end_page
         = Return (unresolved_result doc_id page page false
                     ("Page " +:+ Py.str page +:+ " not found in " +:+ doc_id))).
Proof.
  intros Hmode. split; [by apply single_page_first_record|]. split.
  { intros p. unfold store_page_containing. rewrite list_elem_of_filter. tauto. }
  intros encode files Hrun Hstems.
  apply run_index_pages in Hrun as Hpages; [|done]. simpl in Hpages.
  split.
  - intros f Hf. split.
    + by apply (single_page_in_batch files).
    + by apply (single_page_one_record files).
  - intros Hdoc. by apply (single_page_outside_batch files).
Qed.

Lemma single_page_lookup_witness :
  single_page_outcome merged_graph (SourceFile "m.md" "m" merged_doc) 2 None
  ∧ (length (store_page_containing merged_graph "m" 2) ≤ 1)%nat.
Proof.
  destruct (single_page_lookup merged_graph "m" 2 None) as (_ & _ & H).
  - by left.
  - destruct (H sample_encode merged_batch) as [Hin _].
    + vm_compute. reflexivity.
    + apply (bool_decide_unpack _). vm_compute. exact I.
    + destruct (Hin (SourceFile "m.md" "m" merged_doc)) as [Hout Hone].
      * apply list_elem_of_here.
      * split; [exact Hout|]. apply Hone.
        apply (bool_decide_unpack _). vm_compute. exact I.
Defined.

(** C6, as stated, fails on the store of a document in which two pages
    carry the number 1: two chunks contain page 1, so that there is no unique
    chunk to return; the result is that of the first of them. *)
Lemma single_page_resolution_fails_on_repeated_marker :
  ¬ single_page_resolution repeated_graph "r" 1.
Proof.
  intros (d & _ & H).
  assert (Hlen : length (store_page_containing repeated_graph "r" 1) = 2%nat)
    by (vm_compute; reflexivity).
  destruct (store_page_containing repeated_graph "r" 1) as [|p [|q rest]];
    [discriminate Hlen..|exact H].
Qed.

(** Uniqueness is a property of a store written once: after a second run
    on the same file, whose markers are distinct, two records hold page 2,
    and the lookup returns the first of them. *)
Example reindexed_store_has_two_records :
  length (store_page_containing reindexed_graph "m" 2) = 2%nat
  ∧ ∃ d, get_page_content (store_services reindexed_graph) "m" 2 None = Return d
         ∧ dict_get "page_range" d = Some (VInts [1; 2])
         ∧ dict_get "error" d = Some VNone.
Proof.
  split; [vm_compute; reflexivity|].
  eexists. split; [vm_compute; reflexivity|]. split; reflexivity.
Qed.

(** Page 2 of the sample document was merged into the chunk of pages 1-2:
    asking for it returns that chunk, flagged as merged. *)
Example merged_page_lookup :
  ∃ d, get_page_content (store_services merged_graph) "m" 2 None = Return d
       ∧ dict_get "is_merged" d = Some (VBool true)
       ∧ dict_get "page_range" d = Some (VInts [1; 2])
       ∧ dict_get "info" d = Some (VStr "Page 2 is part of merged pages 1-2")
       ∧ dict_get "next_page" d = Some (neighbour_of (Some (3, "3"))).
Proof. eexists. split; [vm_compute; reflexivity|]. conjuncts; reflexivity. Qed.


(** On the sample store, pages 1 to 2 resolve to the chunks of page 1 and of
    page 2: the next page is page 3, the successor of the last chunk; there is
    no previous page; the related pages are those of the first chunk. *)
Example story_navigation :
  dict_get "next_page" story_result = Some (neighbour_of (Some (3, "3")))
  ∧ dict_get "prev_page" story_result = Some VNone
  ∧ dict_get "related_pages" story_result
    = Some (related_values [RelatedRow 3 "3" ["charlie"; "alpha"; "bravo"];
                            RelatedRow 4 "4" ["charlie"; "alpha"; "bravo"]]).
Proof. conjuncts; vm_compute; reflexivity. Qed.

(** ** Results of the query operations under failing backends *)

Lemma dict_keys_set_present {V : Type} (k : string) (v : V) (d : list (string * V)) :
  k ∈ dict_keys d → dict_keys (dict_set k v d) = dict_keys d.
Proof.
  unfold dict_keys. induction d as [|[k' v'] d IH]; intros Hk; csimpl in *.
  - by apply elem_of_nil in Hk.
  - destruct (String.eqb k' k) eqn:E; csimpl.
    + apply String.eqb_eq in E. by subst.
    + f_equal. apply IH. apply elem_of_cons in Hk as [->|Hk]; [|done].
      by rewrite String.eqb_refl in E.
Qed.

Lemma dict_keys_set_fresh {V : Type} (k : string) (v : V) (d : list (string * V)) :
  k ∉ dict_keys d → dict_keys (dict_set k v d) = dict_keys d ++ [k].
Proof.
  intros Hk. rewrite dict_set_fresh by done. unfold dict_keys.
  by rewrite fmap_app.
Qed.

Section keeping_keys.
Variable K : list string → Prop.

Lemma keeps_ret {A : Type} (a : A) : keeps K (mret a).
Proof. by intros d Hd. Qed.

Lemma keeps_call {A : Type} (m : py A) : keeps K (call m).
Proof. by intros d Hd. Qed.

Lemma keeps_read k : keeps K (read_key k).
Proof. by intros d Hd. Qed.

Lemma keeps_end_of_rows {A : Type} (res : rows A) : keeps K (end_of_rows res).
Proof. unfold end_of_rows. by destruct (failure res); intros d Hd. Qed.

Lemma keeps_bind {A B : Type} (m : block A) (f : A → block B) :
  keeps K m → (∀ a, keeps K (f a)) → keeps K (m ≫= f).
Proof.
  intros Hm Hf d Hd. unfold mbind, block_bind.
  specialize (Hm d Hd). destruct (m d) as [d' [a|e]]; simpl in *; [|done].
  by apply Hf.
Qed.

Lemma keeps_try body handler :
  keeps K body → (∀ e, keeps K (handler e)) → keeps K (try_except body handler).
Proof.
  intros Hb Hh d Hd. unfold try_except.
  specialize (Hb d Hd). destruct (body d) as [d' [a|e]]; simpl in *; [done|].
  by apply Hh.
Qed.

Lemma keeps_set_present k v :
  (∀ ks, K ks → k ∈ ks) → keeps K (set_key k v).
Proof.
  intros Hk d Hd. unfold set_key. simpl.
  by rewrite dict_keys_set_present by by apply Hk.
Qed.

End keeping_keys.

Lemma keeps_set_optional base x k v :
  k ∈ base ++ [x] → keeps (optional_key base x) (set_key k v).
Proof.
  intros Hk d Hd. unfold set_key. simpl.
  destruct (decide (k ∈ dict_keys d)) as [Hin|Hout].
  - by rewrite dict_keys_set_present.
  - rewrite dict_keys_set_fresh by done. destruct Hd as [Hd|Hd].
    + right. rewrite Hd in *. f_equal.
      apply elem_of_app in Hk as [Hk|Hk]; [done|].
      by apply list_elem_of_singleton in Hk as ->.
    + by rewrite Hd in Hout.
Qed.

Lemma keeps_apply (K : list string → Prop) {A : Type} (b : block A) d :
  keeps K b → K (dict_keys d) → K (dict_keys (b d).1).
Proof. intros Hb. apply Hb. Qed.

Lemma quiet_set_key k v : quiet (set_key k v).
Proof. intros d. by exists (). Qed.

Lemma quiet_skip : quiet skip.
Proof. intros d. by exists (). Qed.

(** A [try] whose handler does not raise lets nothing escape. *)
Lemma returning_try d body handler :
  (∀ e, quiet (handler e)) →
  returning d (try_except body handler)
  = Return (try_except body handler d).1.
Proof.
  intros Hq. unfold returning, try_except.
  destruct (body d) as [d1 [[]|e]]; [done|].
  destruct (Hq e d1) as [[] H]. destruct (handler e d1) as [d2 r].
  simpl in *. by rewrite H.
Qed.

(** Membership in a list of literal keys. *)
Ltac literal_key := apply (bool_decide_unpack _); vm_compute; exact I.

(** Keys kept by a block built from calls, assignments to listed keys,
    sequencing, branching and [try]. *)
Ltac keep_keys set_tac :=
  repeat first
    [ apply keeps_ret
    | apply keeps_call
    | apply keeps_read
    | apply keeps_end_of_rows
    | apply keeps_bind; [|intros ?]
    | apply keeps_try; [|intros ?]
    | set_tac
    | match goal with
      | |- keeps _ (match ?x with _ => _ end) => destruct x
      end ].

Lemma expand_in_place_keeps K sv l :
  (∀ ks, K ks → "chunks" ∈ ks) → keeps K (expand_in_place sv l).
Proof.
  intros Hk d Hd. unfold expand_in_place.
  destruct (expand_chunks sv l) as [l' r]. simpl.
  by rewrite dict_keys_set_present by by apply Hk.
Qed.

Section query_results.
Variable sv : services.

Lemma search_documentation_result query limit doc_filter :
  ∃ d, search_documentation sv query limit doc_filter = Return d
       ∧ optional_key search_keys "error" (dict_keys d)
       ∧ (embedder sv = None ∨ qdrant_client sv = None →
          dict_get "error" d = Some (VStr "Embedder or Qdrant not initialized")).
Proof.
  unfold search_documentation.
  destruct (embedder sv) as [encode|], (qdrant_client sv) as [query_points|];
    try (eexists; split; [reflexivity|]; split; [by right|done]).
  rewrite returning_try by (intros; apply quiet_set_key).
  eexists. split; [reflexivity|]. split; [|by intros [|]].
  apply (keeps_apply (optional_key search_keys "error")); [|by left].
  keep_keys ltac:(apply keeps_set_optional; literal_key).
Qed.

Lemma get_page_content_result doc_id start_page end_page :
  ∃ d, get_page_content sv doc_id start_page end_page = Return d
       ∧ optional_key page_keys "info" (dict_keys d)
       ∧ (neo4j_driver sv = None →
          dict_get "error" d = Some (VStr "Neo4j not connected")).
Proof.
  unfold get_page_content.
  destruct (neo4j_driver sv) as [db|];
    [|eexists; split; [reflexivity|]; split; [by left|done]].
  rewrite returning_try by (intros; apply quiet_set_key).
  eexists. split; [reflexivity|]. split; [|done].
  apply (keeps_apply (optional_key page_keys "info")); [|by left].
  unfold navigation.
  keep_keys ltac:(apply keeps_set_optional; literal_key).
Qed.

Lemma get_document_info_result doc_id :
  ∃ d, get_document_info sv doc_id = Return d
       ∧ dict_keys d = info_keys
       ∧ (neo4j_driver sv = None →
          dict_get "error" d = Some (VStr "Neo4j not connected")).
Proof.
  unfold get_document_info.
  destruct (neo4j_driver sv) as [db|];
    [|eexists; split; [reflexivity|]; split; done].
  rewrite returning_try by (intros; apply quiet_set_key).
  eexists. split; [reflexivity|]. split; [|done].
  apply (keeps_apply (λ ks, ks = info_keys)); [|done].
  keep_keys ltac:(apply keeps_set_present; intros ? ->; literal_key).
Qed.

Lemma list_documents_result :
  ∃ d, list_documents sv = Return d
       ∧ dict_keys d = list_keys
       ∧ (neo4j_driver sv = None →
          dict_get "error" d = Some (VStr "Neo4j not connected")).
Proof.
  unfold list_documents.
  destruct (neo4j_driver sv) as [db|];
    [|eexists; split; [reflexivity|]; split; done].
  rewrite returning_try by (intros; apply quiet_set_key).
  eexists. split; [reflexivity|]. split; [|done].
  apply (keeps_apply (λ ks, ks = list_keys)); [|done].
  keep_keys ltac:(apply keeps_set_present; intros ? ->; literal_key).
Qed.

Lemma hybrid_search_result query limit doc_filter expand_context :
  ∃ d, hybrid_search sv query limit doc_filter expand_context = Return d
       ∧ (dict_keys d = search_keys ++ ["expanded_with_context"]
          ∨ dict_keys d = search_keys ++ ["error"; "expanded_with_context"]).
Proof.
  unfold hybrid_search.
  destruct (search_documentation_result query limit doc_filter)
    as (d0 & -> & Hd0 & _). simpl.
  set (K := λ ks, ks = search_keys ++ ["expanded_with_context"]
                  ∨ ks = search_keys ++ ["error"; "expanded_with_context"]).
  assert (Hstart : K (dict_keys (dict_set "expanded_with_context" (VBool false)
                                   (dict_set "search_type" (VStr "hybrid_search") d0)))).
  { assert (Hst : dict_keys (dict_set "search_type" (VStr "hybrid_search") d0)
                  = dict_keys d0).
    { apply dict_keys_set_present. destruct Hd0 as [-> | ->]; literal_key. }
    rewrite dict_keys_set_fresh; rewrite Hst.
    - destruct Hd0 as [-> | ->]; [by left|by right].
    - destruct Hd0 as [-> | ->]; literal_key. }
  match goal with |- context [if ?b then _ else _] => destruct b end.
  - by eexists.
  - rewrite returning_try by (intros; apply quiet_skip).
    eexists. split; [reflexivity|].
    apply (keeps_apply K); [|done].
    keep_keys ltac:(first
      [ apply keeps_set_present; intros ? [-> | ->]; literal_key
      | apply expand_in_place_keeps; intros ? [-> | ->]; literal_key ]).
Qed.

End query_results.

Lemma dict_get_keys {V : Type} (k : string) (v : V) (d : list (string * V)) :
  dict_get k d = Some v → k ∈ dict_keys d.
Proof.
  unfold dict_keys. induction d as [|[k' v'] d IH]; csimpl; [done|].
  destruct (String.eqb k' k) eqn:E.
  - apply String.eqb_eq in E as ->. intros _. apply list_elem_of_here.
  - intros H. apply list_elem_of_further. by apply IH.
Qed.

Lemma dict_get_None_keys {V : Type} (k : string) (d : list (string * V)) :
  dict_get k d = None → k ∉ dict_keys d.
Proof.
  unfold dict_keys. induction d as [|[k' v'] d IH]; csimpl.
  - intros _. apply not_elem_of_nil.
  - destruct (String.eqb k' k) eqn:E; [done|].
    intros H. apply not_elem_of_cons. split; [|by apply IH].
    intros ->. by rewrite String.eqb_refl in E.
Qed.

(** Case analysis on the outcomes of the backend calls of a block. *)
Ltac split_calls :=
  repeat (cbv beta iota;
    match goal with
    | |- context [match ?x with Return _ => _ | Raise _ => _ end] =>
        lazymatch x with
        | session _ => idtac
        | pages_in_range _ _ _ _ => idtac
        | page_containing _ _ _ => idtac
        | next_page_of _ _ => idtac
        | prev_page_of _ _ => idtac
        | count_next _ _ => idtac
        | count_related _ _ => idtac
        end;
        destruct x as [?|?]
    | |- context [match head ?x with Some _ => _ | None => _ end] =>
        destruct x as [|? ?]; cbn [head]
    | |- context [match failure ?x with Some _ => _ | None => _ end] =>
        destruct (failure x)
    | |- context [if r_is_merged ?x then _ else _] =>
        destruct (r_is_merged x)
    | |- context [match ?x with [] => _ | _ :: _ => _ end] =>
        is_var x; destruct x as [|? rest]
    end).

Section query_errors.
Variable sv : services.

Lemma search_documentation_error query limit doc_filter :
  ∃ d, search_documentation sv query limit doc_filter = Return d
       ∧ dict_get "error" d
         = match embedder sv, qdrant_client sv with
           | Some encode, Some query_points =>
               VStr <$> raised (v ← encode query;
                                query_points v (match doc_filter with
                                                | Some "" => None
                                                | _ => doc_filter
                                                end) limit)
           | _, _ => Some (VStr "Embedder or Qdrant not initialized")
           end
       ∧ dict_keys d = match dict_get "error" d with
                       | Some _ => search_keys ++ ["error"]
                       | None => search_keys
                       end.
Proof.
  unfold search_documentation.
  destruct (embedder sv) as [encode|], (qdrant_client sv) as [query_points|];
    try (eexists; split; [reflexivity|]; split; reflexivity).
  unfold returning, try_except, mbind, block_bind, py_bind, call, set_key.
  destruct (encode query) as [v|e];
    [|eexists; split; [reflexivity|]; split; reflexivity].
  destruct doc_filter as [[|c s]|];
    match goal with |- context [query_points v ?f limit] =>
      destruct (query_points v f limit) as [points|e] end;
    eexists; (split; [reflexivity|]); split; reflexivity.
Qed.

Lemma hybrid_search_error query limit doc_filter expand_context :
  ∃ d d0, hybrid_search sv query limit doc_filter expand_context = Return d
          ∧ search_documentation sv query limit doc_filter = Return d0
          ∧ dict_get "error" d = dict_get "error" d0
          ∧ dict_keys d = match dict_get "error" d with
                          | Some _ => search_keys ++ ["error"; "expanded_with_context"]
                          | None => search_keys ++ ["expanded_with_context"]
                          end.
Proof.
  destruct (search_documentation_error query limit doc_filter)
    as (d0 & Hd0 & _ & Hkeys0).
  destruct (hybrid_search_result sv query limit doc_filter expand_context)
    as (d & Hd & Hkeys).
  exists d, d0. split; [done|]. split; [done|].
  assert (Herr : dict_get "error" d = dict_get "error" d0).
  { unfold hybrid_search in Hd. rewrite Hd0 in Hd. simpl in Hd.
    set (d1 := dict_set "expanded_with_context" (VBool false)
                 (dict_set "search_type" (VStr "hybrid_search") d0)) in Hd.
    assert (H1 : dict_get "error" d1 = dict_get "error" d0)
      by (unfold d1; by rewrite !dict_get_set_ne).
    destruct (negb expand_context || negb (truthy (get_or "chunks" VNone d1))).
    - injection Hd as <-. done.
    - rewrite <- H1. revert Hd.
      unfold returning, try_except, mbind, block_bind, read_key, call, set_key,
        skip, mret, block_ret, expand_in_place.
      destruct (get_item "chunks" d1) as [[| | | | |l|]|e]; try (by intros [= <-]).
      destruct (expand_chunks sv l) as [l' [[]|e]]; intros [= <-];
        by rewrite ?dict_get_set_ne. }
  split; [done|].
  destruct Hkeys as [Hk|Hk]; rewrite Hk.
  - destruct (dict_get "error" d) as [v|] eqn:E; [|done].
    apply dict_get_keys in E. rewrite Hk in E. exfalso. revert E.
    apply (bool_decide_unpack _). vm_compute. exact I.
  - destruct (dict_get "error" d) as [v|] eqn:E; [done|].
    apply dict_get_None_keys in E. rewrite Hk in E. exfalso. apply E.
    literal_key.
Qed.

Lemma get_page_content_error doc_id start_page end_page :
  ∃ d, get_page_content sv doc_id start_page end_page = Return d
       ∧ optional_key page_keys "info" (dict_keys d)
       ∧ dict_get "error" d
         = Some (match neo4j_driver sv with
                 | None => VStr "Neo4j not connected"
                 | Some db =>
                     match page_lookup_calls db doc_id start_page end_page with
                     | Raise e => VStr e
                     | Return o => error_of o
                     end
                 end).
Proof.
  destruct (get_page_content_result sv doc_id start_page end_page)
    as (d & Hd & Hkeys & Hnone).
  exists d. split; [done|]. split; [done|].
  unfold get_page_content in Hd.
  destruct (neo4j_driver sv) as [db|]; [|by apply Hnone]. clear Hnone Hkeys.
  revert Hd.
  unfold page_lookup_calls, returning, try_except, navigation, end_of_rows,
    iteration, mbind, block_bind, py_bind, call, set_key, skip, mret, block_ret.
  destruct end_page as [e|]; [destruct (decide (e = start_page)) as [->|Hne]|];
    cbn [default from_option id]; rewrite 1?Z.eqb_refl;
    try (apply Z.eqb_neq in Hne as ->); cbn [negb].
  - split_calls; intros [= <-]; reflexivity.
  - destruct (session db) as [[]|?]; [|by intros [= <-]].
    destruct (pages_in_range db doc_id start_page e) as [[|first [|second rest]]|?];
      cbn [List.last]; split_calls; intros [= <-]; reflexivity.
  - split_calls; intros [= <-]; reflexivity.
Qed.

Lemma get_document_info_error doc_id :
  ∃ d, get_document_info sv doc_id = Return d
       ∧ dict_keys d = info_keys
       ∧ dict_get "error" d
         = Some (match neo4j_driver sv with
                 | None => VStr "Neo4j not connected"
                 | Some db =>
                     error_of (raised (session db;;
                                       iteration (document_pages db doc_id);;
                                       count_next db doc_id;;
                                       count_related db doc_id))
                 end).
Proof.
  destruct (get_document_info_result sv doc_id) as (d & Hd & Hkeys & Hnone).
  exists d. split; [done|]. split; [done|].
  unfold get_document_info in Hd.
  destruct (neo4j_driver sv) as [db|]; [|by apply Hnone]. clear Hnone Hkeys.
  revert Hd.
  unfold returning, try_except, end_of_rows, iteration, raised, mbind, block_bind,
    py_bind, call, set_key, skip, mret, block_ret.
  split_calls; intros [= <-]; reflexivity.
Qed.

Lemma list_documents_error :
  ∃ d, list_documents sv = Return d
       ∧ dict_keys d = list_keys
       ∧ dict_get "error" d
         = Some (match neo4j_driver sv with
                 | None => VStr "Neo4j not connected"
                 | Some db =>
                     error_of (raised (session db;; iteration (all_documents db)))
                 end).
Proof.
  destruct (list_documents_result sv) as (d & Hd & Hkeys & Hnone).
  exists d. split; [done|]. split; [done|].
  unfold list_documents in Hd.
  destruct (neo4j_driver sv) as [db|]; [|by apply Hnone]. clear Hnone Hkeys.
  revert Hd.
  unfold returning, try_except, end_of_rows, iteration, raised, mbind, block_bind,
    py_bind, call, set_key, skip, mret, block_ret.
  split_calls; intros [= <-]; reflexivity.
Qed.

End query_errors.

(** C8, as amended. Whatever the backends do, absent or raising on any
    call, each of the five query operations returns a result dict and raises
    nothing, and the exception of the first backend call that raises, be it
    while the records of a query are iterated, is the [error] field of the
    result. [search_documentation] has the [error] key exactly when a backend
    is absent or the embedding or the vector query raises, after its six base
    keys; [hybrid_search] has the [error] of its vector search, an exception
    of the expansion being dropped, and the same keys with
    [expanded_with_context]. [get_page_content] always returns its thirteen
    base keys, possibly followed by an [info] key, and its [error] is that of
    the calls of the lookup, the message of a lookup that resolves no page,
    or [None]. [get_document_info] and [list_documents] always return the
    same keys, their [error] being that of the session, of the iteration over
    the records or of the counting queries, or [None]. *)
Theorem query_operations_return_results (sv : services) :
  (∀ query limit doc_filter,
     ∃ d, search_documentation sv query limit doc_filter = Return d
          ∧ dict_get "error" d
            = match embedder sv, qdrant_client sv with
              | Some encode, Some query_points =>
                  VStr <$> raised (v ← encode query;
                                   query_points v (match doc_filter with
                                                   | Some "" => None
                                                   | _ => doc_filter
                                                   end) limit)
              | _, _ => Some (VStr "Embedder or Qdrant not initialized")
              end
          ∧ dict_keys d = match dict_get "error" d with
                          | Some _ => search_keys ++ ["error"]
                          | None => search_keys
                          end)
  ∧ (∀ query limit doc_filter expand_context,
       ∃ d d0, hybrid_search sv query limit doc_filter expand_context = Return d
               ∧ search_documentation sv query limit doc_filter = Return d0
               ∧ dict_get "error" d = dict_get "error" d0
               ∧ dict_keys d
                 = match dict_get "error" d with
                   | Some _ => search_keys ++ ["error"; "expanded_with_context"]
                   | None => search_keys ++ ["expanded_with_context"]
                   end)
  ∧ (∀ doc_id start_page end_page,
       ∃ d, get_page_content sv doc_id start_page end_page = Return d
            ∧ optional_key page_keys "info" (dict_keys d)
            ∧ dict_get "error" d
              = Some (match neo4j_driver sv with
                      | None => VStr "Neo4j not connected"
                      | Some db =>
                          match page_lookup_calls db doc_id start_page end_page with
                          | Raise e => VStr e
                          | Return o => error_of o
                          end
                      end))
  ∧ (∀ doc_id,
       ∃ d, get_document_info sv doc_id = Return d
            ∧ dict_keys d = info_keys
            ∧ dict_get "error" d
              = Some (match neo4j_driver sv with
                      | None => VStr "Neo4j not connected"
                      | Some db =>
                          error_of (raised (session db;;
                                            iteration (document_pages db doc_id);;
                                            count_next db doc_id;;
                                            count_related db doc_id))
                      end))
  ∧ (∃ d, list_documents sv = Return d
          ∧ dict_keys d = list_keys
          ∧ dict_get "error" d
            = Some (match neo4j_driver sv with
                    | None => VStr "Neo4j not connected"
                    | Some db =>
                        error_of (raised (session db;; iteration (all_documents db)))
                    end)).
Proof.
  conjuncts.
  - apply search_documentation_error.
  - apply hybrid_search_error.
  - apply get_page_content_error.
  - apply get_document_info_error.
  - apply list_documents_error.
Qed.

Lemma query_operations_return_results_witness :
  (∃ d, search_documentation failing_services "q" 5 None = Return d
        ∧ dict_get "error" d = Some (VStr "model not loaded")
        ∧ dict_keys d = search_keys ++ ["error"])
  ∧ (∃ d, get_document_info failing_services "a" = Return d
          ∧ dict_keys d = info_keys
          ∧ dict_get "error" d = Some (VStr "connection lost")).
Proof.
  destruct (query_operations_return_results failing_services)
    as (Hsearch & _ & _ & Hinfo & _).
  split.
  - destruct (Hsearch "q" 5 None) as (d & H1 & H2 & H3).
    change (dict_get "error" d = Some (VStr "model not loaded")) in H2.
    rewrite H2 in H3. exists d. exact (conj H1 (conj H2 H3)).
  - destruct (Hinfo "a") as (d & H1 & H2 & H3).
    exists d. exact (conj H1 (conj H2 H3)).
Defined.

(** The results of vector search do not have the same keys with and
    without an error: the [error] key is only there when an error occurred. *)
Lemma search_results_not_uniform :
  ¬ uniform (λ sv '(q, l, f), search_documentation sv q l f).
Proof.
  intros (ks & _ & H).
  destruct (H idle_search ("q", 5, None)) as (d1 & Hd1 & Hp1).
  destruct (H (Services None None None) ("q", 5, None)) as (d2 & Hd2 & Hp2).
  vm_compute in Hd1, Hd2. injection Hd1 as <-. injection Hd2 as <-.
  rewrite <- Hp2 in Hp1. apply Permutation_length in Hp1.
  vm_compute in Hp1. discriminate.
Qed.

(** C8, as stated, fails: the results of [get_page_content] do not always
    have the same keys. On the sample store, the result for page 2, which is
    part of a merged chunk, has the [info] key, and the result for page 9,
    which is not found, does not. *)
Lemma query_results_not_uniform : ¬ uniform_results.
Proof.
  intros (_ & _ & (ks & _ & H) & _).
  destruct (H (store_services merged_graph) ("m", 2, None)) as (d1 & Hd1 & Hp1).
  destruct (H (store_services merged_graph) ("m", 9, None)) as (d2 & Hd2 & Hp2).
  vm_compute in Hd1, Hd2. injection Hd1 as <-. injection Hd2 as <-.
  rewrite <- Hp2 in Hp1. apply Permutation_length in Hp1.
  vm_compute in Hp1. discriminate.
Qed.

(** * Further properties *)

(** ** Vector search and its expansion *)

(** X1. An empty string as [doc_filter] is not [None], so the result reports
    a filter as applied, but it is falsy, so no filter is built: the search
    is the unfiltered one, with the same backend calls and the same chunks,
    count and error. *)
Theorem search_documentation_empty_filter (sv : services) (query : string)
    (limit : Z) :
  search_documentation sv query limit (Some "")
  = d ← search_documentation sv query limit None;
    Return (dict_set "filter" (VStr "") (dict_set "filter_applied" (VBool true) d)).
Proof.
  unfold search_documentation.
  destruct (embedder sv) as [encode|]; [|reflexivity].
  destruct (qdrant_client sv) as [query_points|]; [|reflexivity].
  unfold returning, try_except, mbind at 1 2 3 4 5 6, block_bind, call, set_key.
  destruct (encode query) as [v|e]; [|reflexivity].
  destruct (query_points v None limit) as [points|e]; reflexivity.
Qed.

Lemma get_intra_document_context_returns sv doc_id chunk_idx :
  ∃ ctx, get_intra_document_context sv doc_id chunk_idx = Return ctx.
Proof.
  unfold get_intra_document_context.
  destruct (neo4j_driver sv) as [db|]; [|by eexists].
  rewrite returning_try by (intros; apply quiet_set_key). by eexists.
Qed.

Lemma expand_chunk_entry sv p :
  expand_chunk sv (chunk_entry p)
  = ctx ← get_intra_document_context sv (default "" (sp_doc p))
                                     (default 0 (sp_chunk_idx p));
    Return (expanded_entry p ctx).
Proof.
  unfold expand_chunk, chunk_entry. cbn [get_item dict_get String.eqb Ascii.eqb
    Bool.eqb mbind py_bind].
  by destruct (get_intra_document_context _ _ _).
Qed.

Lemma expand_chunks_entries sv points :
  ∃ ctxs, Forall2 (context_of_point sv) points ctxs
          ∧ expand_chunks sv (chunk_entry <$> points)
            = (zip_with expanded_entry points ctxs, Return ()).
Proof.
  induction points as [|p points (ctxs & Hall & IH)].
  - exists []. by split; [constructor|].
  - destruct (get_intra_document_context_returns sv (default "" (sp_doc p))
                (default 0 (sp_chunk_idx p))) as [ctx Hctx].
    exists (ctx :: ctxs). split; [by constructor|].
    rewrite fmap_cons. cbn [expand_chunks].
    rewrite expand_chunk_entry, Hctx. cbn [mbind py_bind]. by rewrite IH.
Qed.

Lemma search_documentation_found sv encode query_points query limit doc_filter
    v points :
  embedder sv = Some encode →
  qdrant_client sv = Some query_points →
  encode query = Return v →
  query_points v (match doc_filter with Some "" => None | f => f end) limit
  = Return points →
  search_documentation sv query limit doc_filter
  = Return [("query", VStr query);
            ("chunks", VList (chunk_entry <$> points));
            ("count", VInt (Z.of_nat (length points)));
            ("search_type", VStr "vector_search");
            ("filter_applied", VBool (bool_decide (is_Some doc_filter)));
            ("filter", VOptStr doc_filter)].
Proof.
  intros Hem Hqc Hv Hpoints.
  unfold search_documentation. rewrite Hem, Hqc.
  unfold returning, try_except, mbind, block_bind, call, set_key.
  rewrite Hv, Hpoints. reflexivity.
Qed.

(** X2. When vector search finds at least one chunk, [hybrid_search] with
    [expand_context] set expands every chunk and reports
    [expanded_with_context] as true whatever the state of the graph store:
    each chunk keeps its fields and gets the lists of the context looked up
    for its [doc] and [chunk_idx], with that lookup's error as
    [context_error]. Without a graph connection every chunk carries the error
    "Neo4j not connected" and the flag is still true. *)
Theorem hybrid_search_expands (sv : services) (encode : string → py vector)
    (query_points : vector → option string → Z → py (list scored_point))
    (query : string) (limit : Z) (doc_filter : option string) (v : vector)
    (points : list scored_point) :
  embedder sv = Some encode →
  qdrant_client sv = Some query_points →
  encode query = Return v →
  query_points v (match doc_filter with Some "" => None | f => f end) limit
  = Return points →
  points ≠ [] →
  ∃ ctxs,
    Forall2 (context_of_point sv) points ctxs
    ∧ hybrid_search sv query limit doc_filter true
      = Return [("query", VStr query);
                ("chunks", VList (zip_with expanded_entry points ctxs));
                ("count", VInt (Z.of_nat (length points)));
                ("search_type", VStr "hybrid_search");
                ("filter_applied", VBool (bool_decide (is_Some doc_filter)));
                ("filter", VOptStr doc_filter);
                ("expanded_with_context", VBool true)]
    ∧ (neo4j_driver sv = None →
       Forall (λ ctx, dict_get "error" ctx = Some (VStr "Neo4j not connected")) ctxs).
Proof.
  intros Hem Hqc Hv Hpoints Hne.
  destruct (expand_chunks_entries sv points) as (ctxs & Hall & Hexp).
  exists ctxs. conjuncts; [done| |].
  - unfold hybrid_search.
    rewrite (search_documentation_found sv encode query_points query limit
               doc_filter v points) by done.
    destruct points as [|p points]; [done|].
    cbn [mbind py_bind dict_set String.eqb Ascii.eqb Bool.eqb get_or dict_get
         default negb orb fmap list_fmap truthy].
    unfold returning, try_except, read_key, expand_in_place, get_item, mbind,
      block_bind, set_key.
    cbn [dict_get String.eqb Ascii.eqb Bool.eqb].
    rewrite fmap_cons in Hexp. rewrite Hexp. reflexivity.
  - intros Hneo. eapply Forall2_Forall_r; [exact Hall|].
    apply Forall_forall. intros p _ ctx. unfold context_of_point,
      get_intra_document_context. rewrite Hneo. by intros [= <-].
Qed.

Lemma hybrid_search_expands_witness :
  ∃ ctx,
    dict_get "error" ctx = Some (VStr "Neo4j not connected")
    ∧ dict_get "expanded_with_context"
        (match hybrid_search one_point_search "q" 5 None true with
         | Return d => d
         | Raise _ => []
         end) = Some (VBool true).
Proof.
  destruct (hybrid_search_expands one_point_search (λ _, Return [])
              (λ _ _ _, Return [ScoredPoint 0 0 (Some "Page 1") (Some "a") (Some 0)
                                  (Some 1) (Some [1]) (Some false)])
              "q" 5 None []
              [ScoredPoint 0 0 (Some "Page 1") (Some "a") (Some 0)
                 (Some 1) (Some [1]) (Some false)])
    as (ctxs & Hall & Hres & Herr); [reflexivity..|done|].
  specialize (Herr eq_refl).
  destruct ctxs as [|ctx ctxs]; [by apply Forall2_length in Hall|].
  exists ctx. split.
  - by apply Forall_cons in Herr as [? _].
  - rewrite Hres. reflexivity.
Defined.

(** ** Document statistics and the document list *)

Lemma preview_shown n t : preview n t = shown_text n t.
Proof. by destruct t. Qed.

Lemma summary_entry_of r :
  summary_entry r
  = summary_of (cr_id r) (cr_idx r) (cr_page_range_str r) (cr_is_merged r)
               (cr_text r).
Proof. unfold summary_entry, summary_of. by rewrite preview_shown. Qed.



Lemma document_lines rows : ∀ lines,
  py_foldl (λ lines doc, line ← document_line doc; Return (lines ++ [line]))
           lines (document_entry <$> rows)
  = Return (lines ++ ((λ r, "  â€¢ " +:+ dr_id r +:+ ": " +:+ dr_source r) <$> rows)).
Proof.
  induction rows as [|r rows IH]; intros lines.
  - rewrite !fmap_nil. by rewrite (right_id_L [] (++)).
  - rewrite !fmap_cons. cbn [py_foldl].
    change (document_line (document_entry r))
      with (Return (A:=string) ("  â€¢ " +:+ dr_id r +:+ ": " +:+ dr_source r)).
    cbn [mbind py_bind]. rewrite IH. by rewrite <- (assoc_L (++)).
Qed.

Lemma list_documents_value sv :
  list_documents sv
  = Return
      match neo4j_driver sv with
      | None =>
          [("documents", VList []); ("total", VInt 0);
           ("error", VStr "Neo4j not connected")]
      | Some db =>
          match session db with
          | Raise e =>
              [("documents", VList []); ("total", VInt 0); ("error", VStr e)]
          | Return _ =>
              let res := all_documents db in
              match failure res with
              | Some e =>
                  [("documents", VList (document_entry <$> received res));
                   ("total", VInt 0); ("error", VStr e)]
              | None =>
                  [("documents", VList (document_entry <$> received res));
                   ("total", VInt (Z.of_nat (length (received res))));
                   ("error", VNone)]
              end
          end
      end.
Proof.
  unfold list_documents.
  destruct (neo4j_driver sv) as [db|]; [|reflexivity].
  unfold returning, try_except, mbind, block_bind, call, set_key, end_of_rows.
  destruct (session db) as [[]|e]; [|reflexivity].
  by destruct (failure (all_documents db)).
Qed.

(** X4. The text of the resource [get_documents_list]: without a graph
    connection it is "Error: Neo4j not connected"; when the session or the
    document query raises with message [e] it is "Error: e"; otherwise it
    is the header, one line per document row with its id and source, and the
    total. An exception with an empty message is taken for no error: the
    text then lists the rows received before it, with the total 0. The
    handler for unexpected exceptions is never reached. *)
Theorem get_documents_list_text (sv : services) :
  get_documents_list sv
  = match neo4j_driver sv with
    | None => "Error: Neo4j not connected"
    | Some db =>
        match session db with
        | Raise e =>
            if String.eqb e "" then documents_text [] 0 else "Error: " +:+ e
        | Return _ =>
            let res := all_documents db in
            match failure res with
            | Some e =>
                if String.eqb e "" then documents_text (received res) 0
                else "Error: " +:+ e
            | None =>
                documents_text (received res) (Z.of_nat (length (received res)))
            end
        end
    end.
Proof.
  unfold get_documents_list. rewrite list_documents_value.
  destruct (neo4j_driver sv) as [db|]; [|reflexivity].
  destruct (session db) as [[]|e]; [|by destruct e].
  cbv zeta. destruct (failure (all_documents db)) as [e|].
  - destruct e as [|c e].
    + cbn [mbind py_bind get_item dict_get String.eqb Ascii.eqb Bool.eqb truthy
           negb].
      rewrite document_lines. reflexivity.
    + reflexivity.
  - cbn [mbind py_bind get_item dict_get String.eqb Ascii.eqb Bool.eqb truthy].
    rewrite document_lines. reflexivity.
Qed.

(** ** PHASE 1: the points and the merge statistics *)

Section phase1_points.
Variable encode : string → vector.

Lemma index_pages_points doc_id pages : ∀ st,
  let st' := foldl (index_page encode doc_id) st pages in
  all_points st'
  = all_points st
    ++ imap (λ i c, Point (point_id st + Z.of_nat i) (encode (text c)) (text c)
                      doc_id (Z.of_nat (length (chunks_list st) + i))
                      (page_num c) (page_range c) (is_merged c)) pages
  ∧ chunks_list st'
    = chunks_list st
      ++ imap (λ i c, ChunkData (point_id st + Z.of_nat i) doc_id
                        (Z.of_nat (length (chunks_list st) + i)) (page_num c)
                        (page_range c) (is_merged c) (text c) (encode (text c)))
              pages
  ∧ point_id st' = point_id st + Z.of_nat (length pages)
  ∧ merged_count st'
    = merged_count st + Z.of_nat (length (merged_among pages))
  ∧ pages_merged st'
    = pages_merged st
      + sumZ ((λ c, Z.of_nat (length (page_range c))) <$> merged_among pages)
  ∧ total_chunks st' = total_chunks st
  ∧ merged_chunks st' = merged_chunks st.
Proof.
  induction pages as [|c pages IH]; intros st; cbn [foldl]; cbn zeta.
  - cbn [imap length merged_among]. rewrite !(right_id_L [] (++)).
    unfold merged_among. rewrite filter_nil, fmap_nil. cbn [length sumZ].
    conjuncts; try done; lia.
  - destruct (IH (index_page encode doc_id st c))
      as (H1 & H2 & H3 & H4 & H5 & H6 & H7).
    cbn zeta in *. rewrite H1, H2, H3, H4, H5, H6, H7.
    cbn [index_page all_points point_id chunks_list merged_count pages_merged
         total_chunks merged_chunks].
    rewrite !length_app. cbn [length].
    assert (Hm : merged_among (c :: pages)
                 = if is_merged c then c :: merged_among pages
                   else merged_among pages).
    { unfold merged_among. rewrite filter_cons.
      destruct (is_merged c); [by rewrite decide_True|by rewrite decide_False]. }
    rewrite Hm. conjuncts.
    + rewrite <- (assoc_L (++)). f_equal. cbn [imap app]. f_equal.
      * f_equal; [lia|f_equal; lia].
      * apply imap_ext. intros i x _. cbn. f_equal; [lia|f_equal; lia].
    + rewrite <- (assoc_L (++)). f_equal. cbn [imap app]. f_equal.
      * f_equal; [lia|f_equal; lia].
      * apply imap_ext. intros i x _. cbn. f_equal; [lia|f_equal; lia].
    + lia.
    + destruct (is_merged c); cbn [length]; lia.
    + destruct (is_merged c); rewrite ?fmap_cons; cbn [sumZ]; lia.
    + done.
    + done.
Qed.

Lemma index_file_points st file st' :
  index_file encode st file = Return st' →
  all_points st'
  = all_points st
    ++ imap (point_of_chunk encode (f_stem file) (point_id st)) (file_chunks file)
  ∧ point_id st' = point_id st + Z.of_nat (length (file_chunks file))
  ∧ total_chunks st' = total_chunks st + Z.of_nat (length (file_chunks file))
  ∧ merged_chunks st'
    = merged_chunks st + Z.of_nat (length (merged_among (file_chunks file)))
  ∧ pages_merged st'
    = pages_merged st
      + sumZ ((λ c, Z.of_nat (length (page_range c)))
                <$> merged_among (file_chunks file))
  ∧ doc_data st'
    = dict_set (f_stem file)
        (imap (λ i c, ChunkData (point_id st + Z.of_nat i) (f_stem file)
                        (Z.of_nat i) (page_num c) (page_range c) (is_merged c)
                        (text c) (encode (text c)))
              (file_chunks file))
        (doc_data st).
Proof.
  unfold index_file. fold (file_chunks file).
  match goal with |- context [foldl ?f ?s ?l] =>
    pose proof (index_pages_points (f_stem file) l s)
      as (H1 & H2 & H3 & H4 & H5 & H6 & H7);
    pose proof (index_pages_state encode (f_stem file) l s) as (_ & H8 & _);
    set (st2 := foldl f s l) in *
  end.
  cbn zeta in *.
  cbn [all_points point_id chunks_list merged_count pages_merged total_chunks
       merged_chunks length app Nat.add] in *.
  destruct (page_range_var st2); [|done]. intros [= <-].
  cbn [all_points point_id doc_data total_chunks merged_chunks pages_merged].
  rewrite H1, H2, H3, H4, H5, H6, H7, H8, length_imap.
  cbn [doc_data]. conjuncts; try done; lia.
Qed.

Lemma phase1_points files : ∀ st st',
  phase1_from encode st files = Return st' →
  all_points st' = all_points st ++ batch_points encode (point_id st) files
  ∧ point_id st' = point_id st + Z.of_nat (length (batch_chunks files))
  ∧ total_chunks st' = total_chunks st + Z.of_nat (length (batch_chunks files))
  ∧ merged_chunks st'
    = merged_chunks st + Z.of_nat (length (merged_among (batch_chunks files)))
  ∧ pages_merged st'
    = pages_merged st
      + sumZ ((λ c, Z.of_nat (length (page_range c)))
                <$> merged_among (batch_chunks files)).
Proof.
  unfold phase1_from, batch_chunks, merged_among.
  induction files as [|f files IH]; intros st st' H; cbn [py_foldl] in H.
  - injection H as <-. cbn [batch_points mbind list_bind].
    rewrite (right_id_L [] (++)), filter_nil, fmap_nil. cbn [length sumZ].
    conjuncts; try done; lia.
  - destruct (index_file encode st f) as [st1|e] eqn:E; [|done].
    cbn [mbind py_bind] in H.
    apply index_file_points in E as (E1 & E2 & E3 & E4 & E5 & _).
    apply IH in H as (H1 & H2 & H3 & H4 & H5).
    rewrite H1, H2, H3, H4, H5, E1, E2, E3, E4, E5.
    rewrite bind_cons, filter_app, fmap_app, !length_app.
    cbn [batch_points]. unfold merged_among.
    assert (Hs : ∀ l1 l2, sumZ (l1 ++ l2) = sumZ l1 + sumZ l2).
    { intros l1 l2. induction l1 as [|x l1 IHl]; cbn [app sumZ]; lia. }
    rewrite Hs. conjuncts; try lia.
    by rewrite <- (assoc_L (++)).
Qed.

Lemma batch_points_length first_id files :
  length (batch_points encode first_id files) = length (batch_chunks files).
Proof.
  revert first_id. unfold batch_chunks.
  induction files as [|f files IH]; intros first_id; [done|].
  cbn [batch_points]. by rewrite bind_cons, !length_app, length_imap, IH.
Qed.

Lemma batch_points_ids files : ∀ first_id,
  pt_id <$> batch_points encode first_id files
  = (λ i, first_id + Z.of_nat i) <$> seq 0 (length (batch_chunks files)).
Proof.
  unfold batch_chunks.
  induction files as [|f files IH]; intros first_id; [done|].
  cbn [batch_points]. rewrite bind_cons, length_app, seq_app, !fmap_app, IH.
  f_equal.
  - generalize (file_chunks f). intros l. unfold point_of_chunk.
    clear. revert first_id.
    induction l as [|c l IHl] using rev_ind; intros first_id; [done|].
    rewrite imap_app, fmap_app, length_app, seq_app, fmap_app, IHl.
    cbn. by rewrite Nat.add_0_r.
  - replace (0 + length (file_chunks f))%nat
      with (length (file_chunks f) + 0)%nat by lia.
    rewrite <- fmap_add_seq, <- list_fmap_compose.
    apply list_fmap_ext. intros _ i _. cbn. lia.
Qed.

Lemma chunks_pages_accounting (chunks : list chunk) :
  (∀ c, c ∈ chunks →
        page_range c ≠ []
        ∧ is_merged c = bool_decide (1 < length (page_range c))%nat) →
  Z.of_nat (length (concat (page_range <$> chunks)))
  = Z.of_nat (length chunks) - Z.of_nat (length (merged_among chunks))
    + sumZ ((λ c, Z.of_nat (length (page_range c))) <$> merged_among chunks).
Proof.
  unfold merged_among.
  induction chunks as [|c chunks IH]; intros Hshape; [done|].
  rewrite fmap_cons, filter_cons. cbn [concat]. rewrite length_app.
  cbn [length]. rewrite Nat2Z.inj_add, IH.
  2: { intros c' Hc'. apply Hshape. by right. }
  destruct (Hshape c) as [Hne Hm]; [by left|].
  destruct (is_merged c) eqn:E.
  - rewrite decide_True by done. rewrite fmap_cons. cbn [length sumZ]. lia.
  - rewrite decide_False by done. symmetry in Hm.
    apply bool_decide_eq_false in Hm.
    destruct (page_range c) as [|n [|m r]]; [done| |simpl in Hm; lia].
    cbn [length]. lia.
Qed.

Lemma batch_chunks_shape files c :
  c ∈ batch_chunks files →
  page_range c ≠ []
  ∧ is_merged c = bool_decide (1 < length (page_range c))%nat.
Proof.
  unfold batch_chunks. intros (f & Hc & _)%list_elem_of_bind.
  apply split_by_pages_chunk_shape in Hc as (? & ? & _). done.
Qed.

Lemma batch_chunks_ranges files :
  concat (page_range <$> batch_chunks files) = batch_markers files.
Proof.
  unfold batch_chunks, batch_markers.
  induction files as [|f files IH]; [done|].
  rewrite !bind_cons, fmap_app, concat_app, IH. f_equal.
  apply split_by_pages_ranges.
Qed.

End phase1_points.

(** X5. When PHASE 1 completes, the points collected for the vector index
    are, file by file and chunk by chunk, one point per chunk: it carries
    the text of the chunk, the stem of the file as [doc], the position of the
    chunk in the file as [chunk_idx], and the page number, page range and
    merged flag of the chunk. The ids are 0, 1, 2, ... in that order, so no
    two points share an id, and [point_id] and the chunk total both end as the
    number of points. *)
Theorem phase1_point_ids (encode : string → vector) (files : list source_file)
    (st : index_state) :
  phase1_from encode initial_state files = Return st →
  all_points st = batch_points encode 0 files
  ∧ length (all_points st) = length (batch_chunks files)
  ∧ pt_id <$> all_points st = Z.of_nat <$> seq 0 (length (all_points st))
  ∧ NoDup (pt_id <$> all_points st)
  ∧ point_id st = Z.of_nat (length (all_points st))
  ∧ total_chunks st = Z.of_nat (length (all_points st)).
Proof.
  intros H. apply phase1_points in H as (H1 & H2 & H3 & _).
  cbn [initial_state all_points point_id total_chunks app] in *.
  assert (Hlen : length (all_points st) = length (batch_chunks files))
    by by rewrite H1, batch_points_length.
  assert (Hids : pt_id <$> all_points st
                 = Z.of_nat <$> seq 0 (length (all_points st))).
  { rewrite Hlen, H1, batch_points_ids. apply list_fmap_ext. intros _ i _. lia. }
  conjuncts; try done; try lia.
  rewrite Hids. apply NoDup_fmap_2; [apply _|apply NoDup_seq].
Qed.

Lemma phase1_point_ids_witness :
  pt_id <$> all_points merged_state = [0; 1]
  ∧ point_id merged_state = 2.
Proof.
  destruct (phase1_point_ids sample_encode merged_batch merged_state)
    as (_ & Hlen & Hids & _ & Hid & _).
  { vm_compute. reflexivity. }
  assert (H : length (batch_chunks merged_batch) = 2%nat)
    by (vm_compute; reflexivity).
  rewrite Hlen, H in Hids, Hid. done.
Defined.

(** X6. The merge statistics of PHASE 1: [merged_chunks] counts the merged
    chunks of the batch and [pages_merged] the pages in their ranges. No
    page is lost in the count: the number of page markers of the batch is the
    number of chunks that are not merged plus [pages_merged]. *)
Theorem phase1_merge_statistics (encode : string → vector)
    (files : list source_file) (st : index_state) :
  phase1_from encode initial_state files = Return st →
  merged_chunks st = Z.of_nat (length (merged_among (batch_chunks files)))
  ∧ pages_merged st
    = sumZ ((λ c, Z.of_nat (length (page_range c)))
              <$> merged_among (batch_chunks files))
  ∧ 0 ≤ merged_chunks st ≤ total_chunks st
  ∧ Z.of_nat (length (batch_markers files))
    = total_chunks st - merged_chunks st + pages_merged st.
Proof.
  intros H. apply phase1_points in H as (_ & _ & H3 & H4 & H5).
  cbn [initial_state total_chunks merged_chunks pages_merged] in *.
  rewrite H3, H4, H5.
  pose proof (length_filter (λ c, is_merged c = true) (batch_chunks files)).
  conjuncts; try done; try (unfold merged_among; lia).
  rewrite <- batch_chunks_ranges, chunks_pages_accounting; [lia|].
  apply batch_chunks_shape.
Qed.

Lemma phase1_merge_statistics_witness :
  merged_chunks merged_state = 1
  ∧ pages_merged merged_state = 2
  ∧ length (batch_markers merged_batch) = 3%nat.
Proof.
  destruct (phase1_merge_statistics sample_encode merged_batch merged_state)
    as (H1 & H2 & _ & _).
  { vm_compute. reflexivity. }
  rewrite H1, H2. conjuncts; vm_compute; reflexivity.
Defined.

(** ** PHASE 2: the batches and the vector index *)

Lemma concat_slices {A : Type} (l : list A) (step m : nat) :
  concat ((λ i, slice l i (i + step)) <$> ((λ k, k * step)%nat <$> seq 0 m))
  = take (m * step) l.
Proof.
  induction m as [|m IH]; [by rewrite take_0|].
  rewrite seq_S, !fmap_app, concat_app, IH. cbn [fmap list_fmap concat Nat.add].
  rewrite (right_id_L [] (++)). unfold slice.
  replace (m * step + step - m * step)%nat with step by lia.
  rewrite take_take_drop. f_equal. lia.
Qed.

Lemma range_by_bound stop step :
  (0 < step)%nat →
  (stop ≤ (stop + step - 1) / step * step)%nat
  ∧ ∀ k, (k < (stop + step - 1) / step)%nat → (k * step < stop)%nat.
Proof.
  intros Hstep.
  pose proof (Nat.div_mod (stop + step - 1) step ltac:(lia)) as Hdm.
  pose proof (Nat.mod_upper_bound (stop + step - 1) step ltac:(lia)) as Hr.
  split; [nia|]. intros k Hk. nia.
Qed.

(** X7. The batches of PHASE 2 cut the list of points without losing,
    repeating or reordering any: concatenated they give the list back. Each
    batch holds at least one and at most [BATCH_SIZE] points, and there are
    [ceil(n / BATCH_SIZE)] batches for [n] points (none for no point). *)
Theorem batches_partition (points : list point) :
  concat (batches points) = points
  ∧ Forall (λ b, (0 < length b ≤ BATCH_SIZE)%nat) (batches points)
  ∧ length (batches points) = ((length points + BATCH_SIZE - 1) / BATCH_SIZE)%nat.
Proof.
  unfold batches, range_by.
  destruct (range_by_bound (length points) BATCH_SIZE) as [Hup Hlt];
    [unfold BATCH_SIZE; lia|].
  conjuncts.
  - rewrite concat_slices. by apply take_ge.
  - apply Forall_forall. intros b Hb.
    apply list_elem_of_fmap in Hb as (i & -> & Hi).
    apply list_elem_of_fmap in Hi as (k & -> & Hk).
    apply elem_of_seq in Hk. specialize (Hlt k ltac:(lia)).
    unfold slice. rewrite length_take, length_drop. lia.
  - by rewrite !length_fmap, length_seq.
Qed.

Lemma upsert_batches collection bs :
  foldl upsert collection bs = upsert collection (concat bs).
Proof.
  revert collection. induction bs as [|b bs IH]; intros c; [done|].
  cbn [foldl concat]. rewrite IH. unfold upsert. by rewrite foldl_app.
Qed.

Lemma upsert_lookup points : ∀ collection,
  NoDup (pt_id <$> points) →
  (∀ p, p ∈ points → upsert collection points !! pt_id p = Some p)
  ∧ (∀ k, k ∉ pt_id <$> points → upsert collection points !! k = collection !! k).
Proof.
  unfold upsert.
  induction points as [|q points IH]; intros c Hnd.
  - split; [by intros p Hp%elem_of_nil|done].
  - rewrite fmap_cons in Hnd. apply NoDup_cons in Hnd as [Hq Hnd].
    destruct (IH (<[pt_id q := q]> c) Hnd) as [IH1 IH2].
    cbn [foldl]. split.
    + intros p [->|Hp]%elem_of_cons; [|by apply IH1].
      rewrite IH2 by done. apply lookup_insert_eq.
    + intros k Hk. rewrite fmap_cons in Hk.
      apply not_elem_of_cons in Hk as [Hne Hk].
      rewrite IH2 by done. by apply lookup_insert_ne.
Qed.

(** X8. PHASE 2 stores every point under its id, whatever the batch
    boundaries: the result is that of one [upsert] of the whole list. When
    the ids are distinct, as those of PHASE 1 are, each point is found under
    its id afterwards, and a point of the collection with another id is left
    as it was: nothing is deleted. Storing the same points again changes
    nothing. *)
Theorem phase2_stores_points (collection : gmap Z point) (points : list point) :
  NoDup (pt_id <$> points) →
  phase2 collection points = upsert collection points
  ∧ (∀ p, p ∈ points → phase2 collection points !! pt_id p = Some p)
  ∧ (∀ k, k ∉ pt_id <$> points →
          phase2 collection points !! k = collection !! k)
  ∧ phase2 (phase2 collection points) points = phase2 collection points.
Proof.
  intros Hnd.
  assert (Hone : ∀ c, phase2 c points = upsert c points).
  { intros c. unfold phase2. rewrite upsert_batches.
    by destruct (batches_partition points) as [-> _]. }
  rewrite !Hone.
  destruct (upsert_lookup points collection Hnd) as [H1 H2].
  destruct (upsert_lookup points (upsert collection points) Hnd) as [H3 H4].
  conjuncts; [done..|].
  apply map_eq. intros k.
  destruct (decide (k ∈ pt_id <$> points)) as [Hk|Hk].
  - apply list_elem_of_fmap in Hk as (p & -> & Hp). by rewrite H3, H1.
  - by rewrite H4.
Qed.

Lemma phase2_stores_points_witness :
  phase2 ∅ sample_points !! 1 = Some (Point 1 [] "Page 2" "a" 1 2 [2] false).
Proof.
  destruct (phase2_stores_points ∅ sample_points) as (_ & H & _).
  { apply (bool_decide_unpack _). vm_compute. exact I. }
  apply (H (Point 1 [] "Page 2" "a" 1 2 [2] false)).
  unfold sample_points. right. left.
Defined.

(** ** The outcomes of the indexing script *)

Lemma phase1_bound encode files : ∀ st r,
  page_range_var st = Some r →
  ∃ st', phase1_from encode st files = Return st'.
Proof.
  unfold phase1_from.
  induction files as [|f files IH]; intros st r Hr; [by eexists|].
  destruct (index_file_bound encode st f r Hr) as (st1 & r1 & H1 & Hr1).
  cbn [py_foldl]. rewrite H1. cbn [mbind py_bind]. by eapply IH.
Qed.

Lemma phase1_unbound encode f files :
  file_chunks f = [] →
  phase1_from encode initial_state (f :: files)
  = Raise "name 'page_range' is not defined".
Proof.
  intros Hf. unfold phase1_from. cbn [py_foldl].
  unfold index_file. fold (file_chunks f). by rewrite Hf.
Qed.

Lemma dict_set_Forall {V : Type} (P : string * V → Prop) k v (d : list (string * V)) :
  P (k, v) → Forall P d → Forall P (dict_set k v d).
Proof.
  intros Hv. induction 1 as [|[k' v'] d Hx Hd IH]; cbn [dict_set].
  - by repeat constructor.
  - destruct (String.eqb k' k); by constructor.
Qed.

Lemma phase1_ranges encode files : ∀ st st',
  phase1_from encode st files = Return st' →
  Forall (λ e : string * list chunk_data,
            Forall (λ cd, cd_page_range cd ≠ []) e.2) (doc_data st) →
  Forall (λ e : string * list chunk_data,
            Forall (λ cd, cd_page_range cd ≠ []) e.2) (doc_data st').
Proof.
  unfold phase1_from.
  induction files as [|f files IH]; intros st st' H Hst; cbn [py_foldl] in H.
  - by injection H as <-.
  - destruct (index_file encode st f) as [st1|e] eqn:E; [|done].
    cbn [mbind py_bind] in H. apply (IH st1 st' H).
    apply index_file_points in E as (_ & _ & _ & _ & _ & ->).
    apply dict_set_Forall; [|done]. cbn [snd].
    apply Forall_forall. intros cd Hcd.
    apply list_elem_of_lookup in Hcd as [i Hi].
    rewrite list_lookup_imap in Hi.
    destruct (file_chunks f !! i) as [c|] eqn:Ec; [|done].
    injection Hi as <-. cbn [cd_page_range].
    by eapply split_by_pages_chunk_shape, list_elem_of_lookup_2.
Qed.

Lemma indexed_pages_length files :
  length (indexed_pages files) = length (batch_chunks files).
Proof.
  unfold indexed_pages, batch_chunks.
  induction files as [|f files IH]; [done|].
  by rewrite !bind_cons, !length_app, length_imap, IH.
Qed.

(** X9. The outcomes of the indexing script when the backends work and no
    page marker of the files has more digits than [int] converts (4300). With
    no file it exits. When the first file yields no chunk it stops with a
    [NameError] on [page_range]. In every other case it runs to the end,
    whatever else the later files hold: no page range is empty, no index is
    out of range, and the division of the summary is never by zero, since the
    chunk total, which is also the number of vectors reported, is positive.
    The vector index then holds the points of PHASE 1, and when the stems of
    the files are distinct the graph store has gained one Page node per chunk
    of the batch. *)
Theorem index_markdown_outcomes (encode : string → vector)
    (files : list source_file) (collection : gmap Z point) (g : graph) :
  markers_convert files →
  match files with
  | [] => index_markdown encode files collection g = Raise "SystemExit: 1"
  | f :: _ =>
      match file_chunks f with
      | [] =>
          index_markdown encode files collection g
          = Raise "name 'page_range' is not defined"
      | _ :: _ =>
          ∃ st g' s,
            phase1_from encode initial_state files = Return st
            ∧ index_markdown encode files collection g
              = Return (phase2 collection (all_points st), g', s)
            ∧ s_vectors s = Z.of_nat (length (batch_chunks files))
            ∧ 0 < s_vectors s
            ∧ s_merged_chunks s = merged_chunks st
            ∧ s_pages_merged s = pages_merged st
            ∧ (NoDup (f_stem <$> files) →
               g_pages g' = g_pages g ++ indexed_pages files
               ∧ s_pages s = Z.of_nat (length (g_pages g)) + s_vectors s)
      end
  end.
Proof.
  intros _. destruct files as [|f files]; [done|].
  destruct (file_chunks f) as [|c chunks] eqn:Ef.
  - unfold index_markdown. by rewrite phase1_unbound.
  - destruct (index_file_with_chunks encode initial_state f)
      as (st1 & r & H1 & Hr).
    { fold (file_chunks f). by rewrite Ef. }
    destruct (phase1_bound encode files st1 r Hr) as [st Hst].
    assert (Hphase1 : phase1_from encode initial_state (f :: files) = Return st).
    { unfold phase1_from in *. cbn [py_foldl]. by rewrite H1. }
    pose proof (phase1_ranges _ _ _ _ Hphase1 (Forall_nil_2 _)) as Hranges.
    destruct (phase3_pages (doc_data st) (sent st) Hranges) as (ss & Hss & _).
    pose proof (phase1_points _ _ _ _ Hphase1) as (_ & Hid & Htotal & _).
    cbn [initial_state point_id total_chunks] in Hid, Htotal.
    assert (Hpos : (0 < length (batch_chunks (f :: files)))%nat).
    { unfold batch_chunks. rewrite bind_cons, length_app, Ef. cbn [length]. lia. }
    assert (Hz : (total_chunks st =? 0) = false) by (apply Z.eqb_neq; lia).
    eexists st, (exec_all g ss), _. conjuncts.
    + done.
    + unfold index_markdown. rewrite Hphase1. cbn [mbind py_bind].
      rewrite Hss. cbn [mbind py_bind]. unfold final_summary. rewrite Hz.
      reflexivity.
    + cbn [s_vectors]. lia.
    + cbn [s_vectors]. lia.
    + done.
    + done.
    + intros Hnd.
      assert (Hrun : run_index encode (f :: files) g = Return (exec_all g ss)).
      { unfold run_index, index_script. rewrite Hphase1. cbn [mbind py_bind].
        by rewrite Hss. }
      apply run_index_pages in Hrun; [|done]. split; [done|].
      cbn [s_pages s_vectors]. rewrite Hrun, length_app, indexed_pages_length.
      lia.
Qed.

Lemma index_markdown_outcomes_witness :
  ∃ st g' s,
    phase1_from sample_encode initial_state sample_batch = Return st
    ∧ index_markdown sample_encode sample_batch ∅ empty_graph
      = Return (phase2 ∅ (all_points st), g', s)
    ∧ 0 < s_vectors s.
Proof.
  assert (Hlimit : markers_convert sample_batch)
    by (apply (bool_decide_unpack _); vm_compute; exact I).
  pose proof (index_markdown_outcomes sample_encode sample_batch ∅ empty_graph
                Hlimit) as H.
  unfold sample_batch in H at 1. cbv beta iota in H. revert H.
  destruct (file_chunks (SourceFile "a.md" "a" two_page_doc)) as [|c cs] eqn:E;
    [by vm_compute in E|].
  intros (st & g' & s & H1 & H2 & _ & H4 & _).
  exists st, g', s. exact (conj H1 (conj H2 H4)).
Defined.

(** ** Text before the first page marker *)

Lemma split_on_nonempty sep s : Py.split_on sep s ≠ [].
Proof.
  destruct s as [|c s]; [done|]. cbn [Py.split_on].
  destruct (Ascii.eqb c sep); [done|]. by destruct (Py.split_on sep s).
Qed.

Lemma split_on_app sep s t :
  Py.split_on sep (s +:+ String sep t) = Py.split_on sep s ++ Py.split_on sep t.
Proof.
  induction s as [|c s IH].
  - change ("" +:+ String sep t) with (String sep t). cbn [Py.split_on].
    by rewrite Ascii.eqb_refl.
  - rewrite sapp_cons. cbn [Py.split_on]. rewrite IH.
    destruct (Ascii.eqb c sep); [done|].
    pose proof (split_on_nonempty sep s) as Hne.
    by destruct (Py.split_on sep s).
Qed.

Lemma scan_without_page lines : ∀ pending,
  flush_page (foldl scan_line (ScanState [] pending None) lines)
  = flush_page (foldl scan_line (ScanState [] [] None) lines).
Proof.
  assert (Hflush : ∀ pending, flush_page (ScanState [] pending None) = []).
  { intros pending. unfold flush_page. cbn. by destruct pending. }
  induction lines as [|line lines IH]; intros pending; cbn [foldl].
  - by rewrite !Hflush.
  - unfold scan_line at 2 4. destruct (page_match line) as [n|].
    + by rewrite !Hflush.
    + cbn [raw_pages current_page current_page_num].
      by rewrite (IH (pending ++ [line])), (IH ([] ++ [line])).
Qed.

Lemma scan_lines_without_marker lines : ∀ st,
  omap page_match lines = [] →
  foldl scan_line st lines
  = ScanState (raw_pages st) (current_page st ++ lines) (current_page_num st).
Proof.
  induction lines as [|line lines IH]; intros st H.
  - cbn [foldl]. rewrite (right_id_L [] (++)). by destruct st.
  - rewrite omap_cons_eq in H. destruct (page_match line) eqn:E; [done|].
    cbn [foldl]. rewrite IH by done. unfold scan_line. rewrite E.
    cbn [raw_pages current_page current_page_num].
    by rewrite <- (assoc_L (++)).
Qed.

(** X10. Text before the first page marker is in no chunk: lines without a
    marker put in front of a document do not change its chunks. *)
Theorem split_by_pages_ignores_preamble (preamble content : string)
    (min_words : Z) :
  marker_numbers preamble = [] →
  split_by_pages (preamble +:+ Py.nl +:+ content) min_words
  = split_by_pages content min_words.
Proof.
  unfold marker_numbers. intros Hpre.
  unfold split_by_pages, extract_raw_pages. f_equal.
  change (preamble +:+ Py.nl +:+ content)
    with (preamble +:+ String Py.LF content).
  rewrite split_on_app, foldl_app.
  rewrite (scan_lines_without_marker (Py.split_on Py.LF preamble)) by done.
  apply scan_without_page.
Qed.

Lemma split_by_pages_ignores_preamble_witness :
  split_by_pages ("Introduction" +:+ Py.nl +:+ two_page_doc) 50
  = split_by_pages two_page_doc 50.
Proof.
  apply split_by_pages_ignores_preamble. vm_compute. reflexivity.
Defined.

(** ** The page check of [scripts/check_pages.py] *)

Lemma foldl_max_spec (ns : list Z) : ∀ n,
  let top := foldl Z.max n ns in
  top ∈ n :: ns ∧ ∀ x, x ∈ n :: ns → x ≤ top.
Proof.
  induction ns as [|m ns IH]; intros n; cbn [foldl]; cbn zeta.
  - split; [left|]. by intros x ->%list_elem_of_singleton.
  - destruct (IH (Z.max n m)) as [Hin Hle]. cbn zeta in *. split.
    + apply elem_of_cons in Hin as [Hin|Hin]; [|by do 2 right].
      rewrite Hin. destruct (Z.max_spec n m) as [[_ ->]|[_ ->]];
        [right; left|left].
    + intros x Hx. pose proof (Hle (Z.max n m) ltac:(left)) as Htop.
      apply elem_of_cons in Hx as [->|Hx]; [lia|].
      apply elem_of_cons in Hx as [->|Hx]; [lia|].
      apply Hle. by right.
Qed.

Lemma first_seen_spec (nums : list Z) :
  NoDup (first_seen nums) ∧ ∀ p, p ∈ first_seen nums ↔ p ∈ nums.
Proof.
  unfold first_seen.
  assert (H : ∀ seen, NoDup seen →
            let r := foldl (λ seen n, if bool_decide (n ∈ seen) then seen
                                      else seen ++ [n]) seen nums in
            NoDup r ∧ ∀ p, p ∈ r ↔ p ∈ seen ∨ p ∈ nums).
  { induction nums as [|n nums IH]; intros seen Hnd; cbn [foldl]; cbn zeta.
    - split; [done|]. intros p. rewrite elem_of_nil. tauto.
    - case_bool_decide as Hn.
      + destruct (IH seen Hnd) as [H1 H2]. split; [done|].
        intros p. rewrite H2, elem_of_cons. split; [tauto|].
        intros [?|[->|?]]; tauto.
      + destruct (IH (seen ++ [n])) as [H1 H2].
        { apply NoDup_app. split; [done|]. split; [|apply NoDup_singleton].
          by intros x Hx ->%list_elem_of_singleton. }
        split; [done|]. intros p.
        rewrite H2, elem_of_app, list_elem_of_singleton, elem_of_cons. tauto. }
  destruct (H [] (NoDup_nil_2)) as [H1 H2]. split; [done|].
  intros p. rewrite H2, elem_of_nil. tauto.
Qed.

Lemma occurrences_NoDup (nums : list Z) :
  NoDup nums ↔ ∀ p, (occurrences p nums ≤ 1)%nat.
Proof.
  unfold occurrences. induction nums as [|n nums IH].
  - split; [intros _ p; simpl; lia|intros _; constructor].
  - rewrite NoDup_cons, IH. split.
    + intros [Hn H] p. rewrite filter_cons. case_decide as Hp; [|apply H].
      subst p. cbn [length].
      assert (Hz : filter (λ m, m = n) nums = []).
      { destruct (filter (λ m, m = n) nums) as [|x l] eqn:E; [done|].
        assert (Hx : x ∈ filter (λ m, m = n) nums) by (rewrite E; left).
        by apply list_elem_of_filter in Hx as [-> Hx]. }
      rewrite Hz. simpl. lia.
    + intros H. split.
      * intros Hn. specialize (H n). rewrite filter_cons_True in H by done.
        cbn [length] in H.
        assert (Hin : n ∈ filter (λ m, m = n) nums)
          by by apply list_elem_of_filter.
        destruct (filter (λ m, m = n) nums); [by apply elem_of_nil in Hin|].
        simpl in H. lia.
      * intros p. specialize (H p). rewrite filter_cons in H.
        case_decide; cbn [length] in H; lia.
Qed.

(** X11. The report of [check_pages.py] on a text. When the text has no
    occurrence of "Page N" the script stops with the [ValueError] of [max]
    on an empty list. Otherwise [max_page] is the largest number found,
    the missing pages are exactly the numbers from 1 to [max_page] that do
    not occur, each once, and the pages reported as duplicated are exactly
    the numbers that occur more than once, each once: there is none exactly
    when no number occurs twice. *)
Theorem check_pages_report (s : string) :
  let nums := find_pages 0 s in
  match nums with
  | [] => check_pages s = Raise "max() arg is an empty sequence"
  | _ :: _ =>
      ∃ r, check_pages s = Return r
           ∧ total_occurrences r = Z.of_nat (length nums)
           ∧ (∀ n, n ∈ unique_pages r ↔ n ∈ nums)
           ∧ StronglySorted Z.lt (unique_pages r)
           ∧ max_page_found r ∈ nums
           ∧ (∀ n, n ∈ nums → n ≤ max_page_found r)
           ∧ (∀ n, n ∈ missing_pages r ↔ 1 ≤ n ≤ max_page_found r ∧ n ∉ nums)
           ∧ NoDup (missing_pages r)
           ∧ (∀ p, p ∈ duplicates r ↔ (1 < occurrences p nums)%nat)
           ∧ NoDup (duplicates r)
           ∧ (duplicates r = [] ↔ NoDup nums)
  end.
Proof.
  intros nums. unfold check_pages. fold nums. clearbody nums.
  set (unique := merge_sort Z.le (elements (list_to_set nums : gset Z))).
  assert (Hunique : ∀ n, n ∈ unique ↔ n ∈ nums).
  { intros n. unfold unique.
    by rewrite merge_sort_Permutation, elem_of_elements, elem_of_list_to_set. }
  assert (Hsorted : StronglySorted Z.lt unique).
  { apply StronglySorted_le_lt.
    - apply StronglySorted_merge_sort; apply _.
    - unfold unique. rewrite merge_sort_Permutation. apply NoDup_elements. }
  clearbody unique.
  destruct nums as [|n0 nums0] eqn:Enums.
  { assert (unique = []) as ->; [|done].
    destruct unique as [|x l]; [done|].
    assert (x ∈ @nil Z) by (apply Hunique; left). by apply elem_of_nil in H. }
  rewrite <- Enums in *.
  assert (Hn0 : n0 ∈ nums) by (rewrite Enums; left). clear Enums.
  destruct unique as [|u us] eqn:Eu.
  { apply Hunique in Hn0. by apply elem_of_nil in Hn0. }
  cbn [py_max mbind py_bind]. rewrite <- Eu.
  destruct (foldl_max_spec us u) as [Htop Hle]. cbn zeta in *.
  rewrite <- Eu in Htop, Hle, Hunique, Hsorted.
  set (top := foldl Z.max u us) in *.
  destruct (first_seen_spec nums) as [Hfs1 Hfs2].
  assert (Hdups : ∀ p, p ∈ filter (λ p, (1 < occurrences p nums)%nat)
                                  (first_seen nums)
                       ↔ (1 < occurrences p nums)%nat).
  { intros p. rewrite list_elem_of_filter, Hfs2. split; [tauto|].
    intros Hp. split; [done|]. unfold occurrences in Hp.
    destruct (filter (λ n, n = p) nums) as [|x l] eqn:E; [simpl in Hp; lia|].
    assert (Hx : x ∈ filter (λ n, n = p) nums) by (rewrite E; left).
    apply list_elem_of_filter in Hx as [-> Hx]. done. }
  eexists. split; [reflexivity|].
  cbn [total_occurrences unique_pages max_page_found missing_pages duplicates].
  conjuncts.
  - done.
  - apply Hunique.
  - done.
  - by apply Hunique.
  - intros n Hn. by apply Hle, Hunique.
  - intros n. rewrite list_elem_of_filter, elem_of_seqZ, Hunique.
    split; intros [? ?]; (split; [first [done|lia]..]).
  - apply NoDup_filter, NoDup_seqZ.
  - apply Hdups.
  - by apply NoDup_filter.
  - split.
    + intros Hnil. apply occurrences_NoDup. intros p.
      destruct (decide (1 < occurrences p nums)%nat) as [Hp|Hp]; [|lia].
      apply Hdups in Hp. rewrite Hnil in Hp. by apply elem_of_nil in Hp.
    + intros Hnd. rewrite occurrences_NoDup in Hnd.
      destruct (filter _ (first_seen nums)) as [|p l] eqn:E; [done|].
      assert (Hp : (1 < occurrences p nums)%nat) by (apply Hdups; left).
      specialize (Hnd p). lia.
Qed.

(** ** The Document nodes of a run *)

Lemma docs_with_id_nil g id :
  docs_with_id g id = [] ↔ id ∉ dn_id <$> g_docs g.
Proof.
  unfold docs_with_id. split.
  - intros H (d & -> & Hd)%list_elem_of_fmap.
    apply list_elem_of_lookup in Hd as [i Hi].
    assert (Hin : i ∈ positions (λ x, String.eqb (dn_id x) (dn_id d)) (g_docs g)).
    { apply elem_of_positions. exists d. split; [done|]. apply String.eqb_refl. }
    rewrite H in Hin. by apply elem_of_nil in Hin.
  - intros H. destruct (positions _ _) as [|i l] eqn:E; [done|].
    assert (Hin : i ∈ positions (λ x, String.eqb (dn_id x) id) (g_docs g))
      by (rewrite E; left).
    apply elem_of_positions in Hin as (d & Hd & Heq%String.eqb_eq).
    destruct H. apply list_elem_of_fmap. exists d. split; [done|].
    by eapply list_elem_of_lookup_2.
Qed.

Lemma exec_docs g s :
  g_docs (exec g s)
  = match s with
    | MergeDocument id source title =>
        merge_document (g_docs g) (DocNode id source title)
    | _ => g_docs g
    end.
Proof.
  destruct s; try done. cbn [exec]. unfold merge_document. cbn [dn_id].
  case_bool_decide as Hid.
  - destruct (docs_with_id g id) eqn:E; [|done].
    by apply docs_with_id_nil in E.
  - apply docs_with_id_nil in Hid. by rewrite Hid.
Qed.

(** The [MERGE] statements on Document nodes among a list of statements. *)
Lemma exec_all_docs ss : ∀ g,
  g_docs (exec_all g ss)
  = foldl merge_document (g_docs g)
      (omap (λ s, match s with
                  | MergeDocument id source title => Some (DocNode id source title)
                  | _ => None
                  end) ss).
Proof.
  induction ss as [|s ss IH]; intros g; [done|].
  rewrite exec_all_cons, IH, exec_docs, omap_cons_eq. by destruct s.
Qed.

(** ** The statements of a run *)

Lemma index_file_sent encode st file st' :
  index_file encode st file = Return st' →
  sent st' = sent st ++ [MergeDocument (f_stem file) (f_name file) (f_stem file)].
Proof.
  unfold index_file.
  match goal with |- context [foldl ?f ?s ?l] =>
    pose proof (index_pages_state encode (f_stem file) l s) as (H1 & _);
    set (st2 := foldl f s l) in *
  end.
  destruct (page_range_var st2); [|done]. intros [= <-].
  cbn [sent] in *. by rewrite H1.
Qed.

Lemma phase1_sent encode files : ∀ st st',
  phase1_from encode st files = Return st' →
  sent st'
  = sent st ++ ((λ f, MergeDocument (f_stem f) (f_name f) (f_stem f)) <$> files).
Proof.
  unfold phase1_from.
  induction files as [|f files IH]; intros st st' H; cbn [py_foldl] in H.
  - injection H as <-. by rewrite fmap_nil, (right_id_L [] (++)).
  - destruct (index_file encode st f) as [st1|e] eqn:E; [|done].
    cbn [mbind py_bind] in H. apply IH in H. apply index_file_sent in E.
    by rewrite H, E, fmap_cons, <- (assoc_L (++)).
Qed.

Lemma sequential_pass_exact doc_id cds ss :
  Forall (λ cd, cd_page_range cd ≠ []) cds →
  sequential_pass doc_id cds ss = Return (ss ++ next_statements doc_id cds).
Proof.
  intros Hall. unfold sequential_pass, next_statements.
  apply py_foldl_collect. intros i ss0 Hi%elem_of_seq.
  destruct (lookup_lt_is_Some_2 cds i) as [c1 H1]; [lia|].
  destruct (lookup_lt_is_Some_2 cds (S i)) as [c2 H2]; [lia|].
  destruct (chunk_label doc_id cds Hall c1) as (l1 & Hl1 & Hid1);
    [by eapply list_elem_of_lookup_2|].
  destruct (chunk_label doc_id cds Hall c2) as (l2 & Hl2 & Hid2);
    [by eapply list_elem_of_lookup_2|].
  unfold link_next, item. rewrite H1, H2, Hid1, Hid2. cbn [mbind py_bind].
  rewrite Hl1. cbn [mbind py_bind]. by rewrite Hl2.
Qed.

Lemma build_document_exact ss entry :
  Forall (λ cd, cd_page_range cd ≠ []) entry.2 →
  build_document ss entry = Return (ss ++ document_statements entry).
Proof.
  destruct entry as [doc_id cds]. cbn [snd]. intros Hall.
  unfold build_document, document_statements, page_statements. cbn [fst snd].
  rewrite (py_foldl_collect _
             (λ cd, [CreatePage (page_of_chunk_data doc_id cd);
                     MergeContains doc_id (chunk_node_id doc_id cd)])).
  2: { intros cd ss0 Hcd. rewrite Forall_forall in Hall.
       by apply create_page_eval, Hall. }
  cbn [mbind py_bind]. rewrite sequential_pass_exact by done.
  cbn [mbind py_bind]. rewrite similarity_pass_collect by done.
  unfold similarity_statements. by rewrite <- !(assoc_L (++)).
Qed.

Lemma phase3_exact docs ss :
  Forall (λ e : string * list chunk_data,
            Forall (λ cd, cd_page_range cd ≠ []) e.2) docs →
  phase3 ss docs = Return (ss ++ (docs ≫= document_statements)).
Proof.
  intros Hall. unfold phase3. apply py_foldl_collect.
  intros e ss0 He. apply build_document_exact.
  rewrite Forall_forall in Hall. by apply Hall.
Qed.

Lemma index_script_statements encode files st :
  files ≠ [] →
  phase1_from encode initial_state files = Return st →
  index_script encode files
  = Return (((λ f, MergeDocument (f_stem f) (f_name f) (f_stem f)) <$> files)
            ++ (doc_data st ≫= document_statements)).
Proof.
  intros Hne H1. unfold index_script. destruct files as [|f files]; [done|].
  rewrite H1. cbn [mbind py_bind].
  rewrite phase3_exact by (eapply phase1_ranges; [done|constructor]).
  by rewrite (phase1_sent _ _ _ _ H1).
Qed.

Lemma document_statements_no_merge entries :
  omap (λ s, match s with
             | MergeDocument id source title => Some (DocNode id source title)
             | _ => None
             end) (entries ≫= document_statements) = [].
Proof.
  rewrite omap_list_bind.
  induction entries as [|[doc_id cds] entries IH]; [done|].
  rewrite bind_cons, IH, (right_id_L [] (++)).
  unfold document_statements, page_statements, next_statements,
    similarity_statements. cbn [fst snd].
  rewrite !omap_app, !omap_list_bind.
  assert (Hnil : ∀ {A} (l : list A) (f : A → list doc_node),
            (∀ x, f x = []) → l ≫= f = []).
  { intros A l f Hf. induction l as [|x l IHl]; [done|].
    by rewrite bind_cons, Hf, IHl. }
  rewrite !Hnil; [|intros i; by destruct (cds !! i), (cds !! S i)|done].
  cbn [app]. generalize (window_pairs (length cds)). intros l.
  induction l as [|ij l IHl]; [done|]. rewrite omap_cons_eq.
  pose proof (similarity_edge_rel doc_id cds ij) as Hij.
  destruct (similarity_rel cds ij).
  - destruct Hij as (ci & cj & _ & _ & _ & ->). rewrite omap_cons_eq. done.
  - by rewrite Hij.
Qed.

Lemma run_index_docs encode files g g' :
  run_index encode files g = Return g' →
  g_docs g' = foldl merge_document (g_docs g) (doc_of_file <$> files).
Proof.
  unfold run_index. intros H.
  destruct files as [|f0 files0] eqn:E; [done|]. rewrite <- E in *.
  assert (Hne : files ≠ []) by by rewrite E.
  destruct (phase1_from encode initial_state files) as [st|e] eqn:E1.
  2: { unfold index_script in H. rewrite E in H. rewrite <- E in H.
       by rewrite E1 in H. }
  rewrite (index_script_statements encode files st Hne E1) in H.
  cbn [mbind py_bind] in H. injection H as <-.
  rewrite exec_all_docs, omap_app, document_statements_no_merge,
    (right_id_L [] (++)).
  f_equal. clear. induction files as [|f files IH]; [done|].
  by rewrite !fmap_cons, omap_cons_eq, IH.
Qed.

Lemma merge_document_fixed docs d :
  dn_id d ∈ dn_id <$> docs →
  (∀ x, x ∈ docs → dn_id x = dn_id d → x = d) →
  merge_document docs d = docs.
Proof.
  intros Hin Hall. unfold merge_document. rewrite bool_decide_true by done.
  rewrite <- (list_fmap_id docs) at 2. apply list_fmap_ext.
  intros i x Hx. destruct (String.eqb (dn_id x) (dn_id d)) eqn:E; [|done].
  apply String.eqb_eq in E. symmetry. apply Hall; [|done].
  by eapply list_elem_of_lookup_2.
Qed.

Lemma merge_document_settles docs d :
  dn_id d ∈ dn_id <$> merge_document docs d
  ∧ ∀ x, x ∈ merge_document docs d → dn_id x = dn_id d → x = d.
Proof.
  unfold merge_document. case_bool_decide as Hin.
  - split.
    + apply list_elem_of_fmap in Hin as (x & Hx & Hin).
      apply list_elem_of_fmap. exists d. split; [done|].
      apply list_elem_of_fmap. exists x. split; [|done].
      by rewrite <- Hx, String.eqb_refl.
    + intros x (x0 & -> & Hx0)%list_elem_of_fmap.
      destruct (String.eqb (dn_id x0) (dn_id d)) eqn:E; [done|].
      apply String.eqb_neq in E. by intros ?.
  - split.
    + rewrite fmap_app. apply elem_of_app. right. left.
    + intros x [Hx|Hx%list_elem_of_singleton]%elem_of_app; [|done].
      intros Hid. destruct Hin. apply list_elem_of_fmap. by exists x.
Qed.

Lemma merge_document_keeps docs d d' :
  dn_id d' ≠ dn_id d →
  dn_id d ∈ dn_id <$> docs ∧ (∀ x, x ∈ docs → dn_id x = dn_id d → x = d) →
  dn_id d ∈ dn_id <$> merge_document docs d'
  ∧ ∀ x, x ∈ merge_document docs d' → dn_id x = dn_id d → x = d.
Proof.
  intros Hne [Hin Hall]. unfold merge_document. case_bool_decide as Hin'.
  - split.
    + apply list_elem_of_fmap in Hin as (x & Hx & Hin).
      apply list_elem_of_fmap.
      exists (if String.eqb (dn_id x) (dn_id d') then d' else x). split.
      * destruct (String.eqb (dn_id x) (dn_id d')) eqn:E; [|done].
        apply String.eqb_eq in E. congruence.
      * apply list_elem_of_fmap. by exists x.
    + intros x (x0 & -> & Hx0)%list_elem_of_fmap.
      destruct (String.eqb (dn_id x0) (dn_id d')) eqn:E; [by intros ?|].
      by apply Hall.
  - split.
    + rewrite fmap_app. apply elem_of_app. by left.
    + intros x [Hx|Hx%list_elem_of_singleton]%elem_of_app; [by apply Hall|].
      subst x. by intros ?.
Qed.

Lemma merge_documents_settle ds : ∀ docs,
  NoDup (dn_id <$> ds) →
  ∀ d, d ∈ ds →
    dn_id d ∈ dn_id <$> foldl merge_document docs ds
    ∧ ∀ x, x ∈ foldl merge_document docs ds → dn_id x = dn_id d → x = d.
Proof.
  assert (Hkeep : ∀ ds docs d,
            dn_id d ∉ dn_id <$> ds →
            dn_id d ∈ dn_id <$> docs
            ∧ (∀ x, x ∈ docs → dn_id x = dn_id d → x = d) →
            dn_id d ∈ dn_id <$> foldl merge_document docs ds
            ∧ ∀ x, x ∈ foldl merge_document docs ds → dn_id x = dn_id d → x = d).
  { clear. induction ds as [|d' ds IH]; intros docs d Hd H; [done|].
    rewrite fmap_cons in Hd. apply not_elem_of_cons in Hd as [Hne Hd].
    cbn [foldl]. apply IH; [done|]. apply merge_document_keeps; [|done].
    by intros ?. }
  induction ds as [|d' ds IH]; intros docs Hnd d Hd.
  { by apply elem_of_nil in Hd. }
  rewrite fmap_cons in Hnd. apply NoDup_cons in Hnd as [Hd' Hnd].
  cbn [foldl]. apply elem_of_cons in Hd as [->|Hd]; [|by apply IH].
  apply Hkeep; [done|]. apply merge_document_settles.
Qed.

Lemma merge_documents_fresh ds : ∀ docs,
  NoDup ((dn_id <$> docs) ++ (dn_id <$> ds)) →
  foldl merge_document docs ds = docs ++ ds.
Proof.
  induction ds as [|d ds IH]; intros docs Hnd.
  - by rewrite (right_id_L [] (++)).
  - cbn [foldl]. unfold merge_document at 2.
    rewrite bool_decide_false.
    2: { apply NoDup_app in Hnd as (_ & Hdisj & _). intros Hin.
         apply (Hdisj _ Hin). rewrite fmap_cons. left. }
    rewrite IH, <- (assoc_L (++)); [done|].
    rewrite fmap_app, fmap_cons in *. cbn [fmap list_fmap app] in *.
    by rewrite <- (assoc_L (++)).
Qed.

(** X12. The Document nodes of a run. The run merges one Document node per
    file into those of the store, in the order of the files, so every file
    has a node afterwards; from a store without documents and files with
    distinct stems the nodes are exactly those of the files. Running the
    script again on the same files leaves the Document nodes as they are:
    this part of the script can be repeated without effect. *)
Theorem run_index_documents (encode : string → vector)
    (files : list source_file) (g g' : graph) :
  run_index encode files g = Return g' →
  g_docs g' = foldl merge_document (g_docs g) (doc_of_file <$> files)
  ∧ (∀ f, f ∈ files → f_stem f ∈ dn_id <$> g_docs g')
  ∧ (NoDup (f_stem <$> files) → g_docs g = [] →
     g_docs g' = doc_of_file <$> files)
  ∧ (NoDup (f_stem <$> files) →
     ∀ encode' g'', run_index encode' files g' = Return g'' →
                    g_docs g'' = g_docs g').
Proof.
  intros Hrun. pose proof (run_index_docs _ _ _ _ Hrun) as Hdocs.
  assert (Hids : dn_id <$> (doc_of_file <$> files) = f_stem <$> files).
  { rewrite <- list_fmap_compose. by apply list_fmap_ext. }
  conjuncts.
  - done.
  - intros f Hf. rewrite Hdocs.
    assert (Hd : ∀ ds docs d, d ∈ ds →
              dn_id d ∈ dn_id <$> foldl merge_document docs ds).
    { clear. induction ds as [|d' ds IH]; intros docs d Hd.
      { by apply elem_of_nil in Hd. }
      cbn [foldl]. apply elem_of_cons in Hd as [->|Hd]; [|by apply IH].
      destruct (merge_document_settles docs d') as [Hin _].
      revert Hin. generalize (merge_document docs d'). clear.
      induction ds as [|d ds IH]; intros docs Hin; [done|].
      cbn [foldl]. apply IH. unfold merge_document. case_bool_decide.
      - apply list_elem_of_fmap in Hin as (x & Hx & Hin).
        apply list_elem_of_fmap.
        exists (if String.eqb (dn_id x) (dn_id d) then d else x). split.
        + destruct (String.eqb (dn_id x) (dn_id d)) eqn:E; [|done].
          apply String.eqb_eq in E. congruence.
        + apply list_elem_of_fmap. by exists x.
      - rewrite fmap_app. apply elem_of_app. by left. }
    apply (Hd _ _ (doc_of_file f)). apply list_elem_of_fmap. by exists f.
  - intros Hnd Hempty. rewrite Hdocs, Hempty, merge_documents_fresh; [done|].
    by rewrite fmap_nil, Hids.
  - intros Hnd encode' g'' Hrun'.
    rewrite (run_index_docs _ _ _ _ Hrun').
    assert (Hall : ∀ d, d ∈ doc_of_file <$> files →
              dn_id d ∈ dn_id <$> g_docs g'
              ∧ ∀ x, x ∈ g_docs g' → dn_id x = dn_id d → x = d).
    { rewrite Hdocs. apply merge_documents_settle. by rewrite Hids. }
    revert Hall. generalize (doc_of_file <$> files). generalize (g_docs g').
    clear. intros docs ds. induction ds as [|d ds IH]; intros Hall; [done|].
    cbn [foldl]. rewrite merge_document_fixed; [|apply Hall; left..].
    apply IH. intros d' Hd'. apply Hall. by right.
Qed.

Lemma run_index_documents_witness :
  g_docs sample_graph = [DocNode "a" "a.md" "a"].
Proof.
  destruct (run_index_documents sample_encode sample_batch empty_graph
              sample_graph) as (_ & _ & H & _).
  { vm_compute. reflexivity. }
  apply H; [|done]. apply (bool_decide_unpack _). vm_compute. exact I.
Defined.

(** ** The store built by a run from the empty store *)

Lemma exec_all_app g ss1 ss2 :
  exec_all g (ss1 ++ ss2) = exec_all (exec_all g ss1) ss2.
Proof. unfold exec_all. apply foldl_app. Qed.

Lemma docs_with_id_unique g i d :
  NoDup (dn_id <$> g_docs g) → g_docs g !! i = Some d →
  docs_with_id g (dn_id d) = [i].
Proof.
  intros Hnd Hi. apply NoDup_only; [apply positions_NoDup|].
  intros k. unfold docs_with_id. rewrite elem_of_positions. split.
  - intros (q & Hk & Heq). apply String.eqb_eq in Heq.
    eapply NoDup_lookup; [exact Hnd | |].
    + rewrite list_lookup_fmap, Hk. simpl. by rewrite Heq.
    + by rewrite list_lookup_fmap, Hi.
  - intros ->. exists d. split; [done|]. apply String.eqb_refl.
Qed.

Lemma exec_merge_contains g doc_id chunk_id d a :
  docs_with_id g doc_id = [d] → pages_with_id g chunk_id = [a] →
  Contains d a ∉ g_rels g →
  exec g (MergeContains doc_id chunk_id)
  = Graph (g_docs g) (g_pages g) (g_rels g ++ [Contains d a]).
Proof.
  intros Hd Ha Hnew. cbn [exec]. rewrite Hd, Ha.
  cbn [match_pairs mbind list_bind fmap list_fmap app foldl].
  unfold merge_rel. by rewrite bool_decide_false.
Qed.

Lemma exec_next_page g a b pa pb :
  NoDup (pn_id <$> g_pages g) →
  g_pages g !! a = Some pa → g_pages g !! b = Some pb →
  exec g (CreateNextPage (pn_id pa) (pn_id pb))
  = Graph (g_docs g) (g_pages g) (g_rels g ++ [NextPage a b]).
Proof.
  intros Hnd Ha Hb. unfold exec.
  by rewrite (pages_with_id_unique g a pa), (pages_with_id_unique g b pb).
Qed.

Lemma exec_page_statements doc_id d cds : ∀ g,
  docs_with_id g doc_id = [d] →
  NoDup (pn_id <$> (g_pages g ++ (page_of_chunk_data doc_id <$> cds))) →
  (∀ d' p, Contains d' p ∈ g_rels g → (p < length (g_pages g))%nat) →
  exec_all g (page_statements doc_id cds)
  = Graph (g_docs g) (g_pages g ++ (page_of_chunk_data doc_id <$> cds))
          (g_rels g
           ++ ((λ i, Contains d (length (g_pages g) + i)) <$> seq 0 (length cds))).
Proof.
  unfold page_statements.
  induction cds as [|cd cds IH]; intros g Hd Hnd Hbound.
  - cbn. rewrite !(right_id_L [] (++)). by destruct g.
  - rewrite bind_cons, fmap_cons. rewrite fmap_cons in Hnd. cbn [app].
    rewrite !exec_all_cons.
    set (p := page_of_chunk_data doc_id cd) in *.
    change (exec g (CreatePage p))
      with (Graph (g_docs g) (g_pages g ++ [p]) (g_rels g)).
    set (g1 := Graph (g_docs g) (g_pages g ++ [p]) (g_rels g)).
    assert (Hnd1 : NoDup (pn_id <$> (g_pages g ++ [p]))).
    { rewrite (cons_middle p), (assoc_L (++)), fmap_app in Hnd.
      by apply NoDup_app in Hnd as [? _]. }
    rewrite (exec_merge_contains g1 doc_id (chunk_node_id doc_id cd) d
               (length (g_pages g))).
    + rewrite IH.
      * subst g1. cbn [g_docs g_pages g_rels]. f_equal.
        -- by rewrite <- (assoc_L (++)).
        -- rewrite <- (assoc_L (++)). f_equal. cbn [length].
           rewrite <- cons_seq, fmap_cons, <- fmap_S_seq, <- list_fmap_compose.
           cbn [app]. f_equal; [f_equal; lia|].
           apply list_fmap_ext. intros _ i _. cbn. rewrite length_app. cbn.
           f_equal. lia.
      * done.
      * subst g1. cbn [g_pages]. by rewrite <- (assoc_L (++)).
      * subst g1. cbn [g_pages g_rels]. intros d' q Hq. rewrite length_app.
        cbn [length].
        apply elem_of_app in Hq as [Hq|Hq%list_elem_of_singleton].
        -- apply Hbound in Hq. lia.
        -- injection Hq as -> ->. lia.
    + done.
    + apply (pages_with_id_unique g1 (length (g_pages g)) p); [done|].
      cbn [g_pages]. by apply list_lookup_middle.
    + cbn [g_rels]. intros Hin. apply Hbound in Hin. lia.
Qed.

Lemma exec_next_statements doc_id cds before g :
  g_pages g = before ++ (page_of_chunk_data doc_id <$> cds) →
  NoDup (pn_id <$> g_pages g) →
  exec_all g (next_statements doc_id cds)
  = Graph (g_docs g) (g_pages g)
          (g_rels g
           ++ ((λ i, NextPage (length before + i) (length before + S i))
                 <$> seq 0 (length cds - 1))).
Proof.
  intros Hpages Hnd. unfold next_statements.
  assert (Hseq : ∀ i, i ∈ seq 0 (length cds - 1) → (S i < length cds)%nat).
  { intros i Hi%elem_of_seq. lia. }
  revert g Hpages Hnd Hseq. generalize (seq 0 (length cds - 1)). intros l.
  induction l as [|i l IH]; intros g Hpages Hnd Hseq.
  - cbn. rewrite (right_id_L [] (++)). by destruct g.
  - rewrite bind_cons, fmap_cons.
    specialize (Hseq i ltac:(left)) as Hi.
    destruct (lookup_lt_is_Some_2 cds i) as [c1 H1]; [lia|].
    destruct (lookup_lt_is_Some_2 cds (S i)) as [c2 H2]; [lia|].
    rewrite H1, H2. cbn [app]. rewrite exec_all_cons.
    change (chunk_node_id doc_id c1) with (pn_id (page_of_chunk_data doc_id c1)).
    change (chunk_node_id doc_id c2) with (pn_id (page_of_chunk_data doc_id c2)).
    rewrite (exec_next_page g (length before + i) (length before + S i)
               (page_of_chunk_data doc_id c1) (page_of_chunk_data doc_id c2)).
    + rewrite IH; [|done..|intros j Hj; apply Hseq; by right].
      cbn [g_docs g_pages g_rels]. by rewrite <- (assoc_L (++)).
    + done.
    + rewrite Hpages, lookup_app_r, list_lookup_fmap by lia.
      replace (length before + i - length before)%nat with i by lia.
      by rewrite H1.
    + rewrite Hpages, lookup_app_r, list_lookup_fmap by lia.
      replace (length before + S i - length before)%nat with (S i) by lia.
      by rewrite H2.
Qed.

(** The statement and the relationship of a pair go together, also when the
    nodes of the document do not start the store. *)
Lemma similarity_edge_related doc_id cds first ij :
  match related_rel first (page_of_chunk_data doc_id <$> cds) ij with
  | Some r =>
      ∃ ci cj keywords distance,
        cds !! ij.1 = Some ci ∧ cds !! ij.2 = Some cj
        ∧ r = RelatedTo (first + ij.1) (first + ij.2) keywords distance
        ∧ similarity_edge doc_id cds ij
          = Some (CreateRelatedTo (chunk_node_id doc_id ci)
                    (chunk_node_id doc_id cj) keywords distance)
  | None => similarity_edge doc_id cds ij = None
  end.
Proof.
  unfold related_rel, similarity_edge. rewrite !list_lookup_fmap.
  destruct (cds !! ij.1) as [ci|]; [|done].
  destruct (cds !! ij.2) as [cj|]; [|done].
  cbn [fmap option_fmap option_map mbind option_bind pn_text pn_page_num
       page_of_chunk_data]. unfold shared_keywords.
  case_bool_decide; [|done]. by eexists ci, cj, _, _.
Qed.

Lemma exec_similarity_statements doc_id cds before ps : ∀ g,
  g_pages g = before ++ (page_of_chunk_data doc_id <$> cds) →
  NoDup (pn_id <$> g_pages g) →
  exec_all g (omap (similarity_edge doc_id cds) ps)
  = Graph (g_docs g) (g_pages g)
          (g_rels g
           ++ omap (related_rel (length before) (page_of_chunk_data doc_id <$> cds))
                   ps).
Proof.
  induction ps as [|ij ps IH]; intros g Hpages Hnd.
  - cbn. rewrite (right_id_L [] (++)). by destruct g.
  - rewrite !omap_cons_eq.
    pose proof (similarity_edge_related doc_id cds (length before) ij) as Hij.
    destruct (related_rel _ _ ij) as [r|].
    + destruct Hij as (ci & cj & kws & dist & Hi & Hj & -> & ->).
      rewrite exec_all_cons.
      change (chunk_node_id doc_id ci) with (pn_id (page_of_chunk_data doc_id ci)).
      change (chunk_node_id doc_id cj) with (pn_id (page_of_chunk_data doc_id cj)).
      rewrite (exec_related_to g (length before + ij.1) (length before + ij.2)
                 (page_of_chunk_data doc_id ci) (page_of_chunk_data doc_id cj)).
      * rewrite IH; [|done..]. cbn [g_docs g_pages g_rels].
        by rewrite <- (assoc_L (++)).
      * done.
      * rewrite Hpages, lookup_app_r, list_lookup_fmap by lia.
        replace (length before + ij.1 - length before)%nat with (ij.1) by lia.
        by rewrite Hi.
      * rewrite Hpages, lookup_app_r, list_lookup_fmap by lia.
        replace (length before + ij.2 - length before)%nat with (ij.2) by lia.
        by rewrite Hj.
    + rewrite Hij. by apply IH.
Qed.

Lemma exec_document_statements g entry d :
  docs_with_id g entry.1 = [d] →
  NoDup (pn_id <$> (g_pages g ++ (page_of_chunk_data entry.1 <$> entry.2))) →
  (∀ d' p, Contains d' p ∈ g_rels g → (p < length (g_pages g))%nat) →
  exec_all g (document_statements entry)
  = Graph (g_docs g) (g_pages g ++ (page_of_chunk_data entry.1 <$> entry.2))
          (g_rels g
           ++ document_rels d (length (g_pages g))
                (page_of_chunk_data entry.1 <$> entry.2)).
Proof.
  destruct entry as [doc_id cds]. cbn [fst snd]. intros Hd Hnd Hbound.
  unfold document_statements, document_rels, similarity_statements.
  cbn [fst snd]. rewrite !exec_all_app.
  rewrite (exec_page_statements doc_id d cds g Hd Hnd Hbound).
  rewrite (exec_next_statements doc_id cds (g_pages g)); [|done..].
  rewrite (exec_similarity_statements doc_id cds (g_pages g)); [|done..].
  cbn [g_docs g_pages g_rels]. rewrite !length_fmap.
  by rewrite <- !(assoc_L (++)).
Qed.

Lemma document_rels_contains d first nodes d' p :
  Contains d' p ∈ document_rels d first nodes → (p < first + length nodes)%nat.
Proof.
  unfold document_rels. rewrite !elem_of_app.
  intros [H|[H|H]].
  - apply list_elem_of_fmap in H as (i & [= -> ->] & Hi%elem_of_seq). lia.
  - by apply list_elem_of_fmap in H as (i & ? & _).
  - apply list_elem_of_omap in H as (ij & _ & H). unfold related_rel in H.
    destruct (nodes !! ij.1); [|done]. destruct (nodes !! ij.2); [|done].
    cbn in H. by case_bool_decide.
Qed.

Lemma exec_batch_statements entries : ∀ g d0,
  (∀ k e, entries !! k = Some e → docs_with_id g e.1 = [(d0 + k)%nat]) →
  NoDup (pn_id <$> (g_pages g
                    ++ (entries ≫= λ e, page_of_chunk_data e.1 <$> e.2))) →
  (∀ d' p, Contains d' p ∈ g_rels g → (p < length (g_pages g))%nat) →
  exec_all g (entries ≫= document_statements)
  = Graph (g_docs g)
          (g_pages g ++ (entries ≫= λ e, page_of_chunk_data e.1 <$> e.2))
          (g_rels g
           ++ batch_rels d0 (length (g_pages g))
                ((λ e, page_of_chunk_data e.1 <$> e.2) <$> entries)).
Proof.
  induction entries as [|e entries IH]; intros g d0 Hdocs Hnd Hbound.
  - cbn. rewrite !(right_id_L [] (++)). by destruct g.
  - rewrite !bind_cons, fmap_cons, exec_all_app. rewrite bind_cons in Hnd.
    rewrite (assoc_L (++)) in Hnd.
    rewrite (exec_document_statements g e d0).
    + rewrite (IH _ (S d0)).
      * cbn [g_docs g_pages g_rels batch_rels].
        rewrite length_app, <- !(assoc_L (++)). done.
      * cbn [g_docs]. intros k e' He'.
        specialize (Hdocs (S k) e' He'). unfold docs_with_id in *.
        cbn [g_docs]. rewrite Hdocs. f_equal. lia.
      * done.
      * cbn [g_pages g_rels]. intros d' p Hp. rewrite length_app.
        apply elem_of_app in Hp as [Hp|Hp].
        -- apply Hbound in Hp. lia.
        -- by apply document_rels_contains in Hp.
    + rewrite <- (Nat.add_0_r d0). by apply Hdocs.
    + rewrite fmap_app in Hnd. apply NoDup_app in Hnd as [? _]. done.
    + done.
Qed.

Lemma exec_merge_document g id source title :
  exec g (MergeDocument id source title)
  = Graph (merge_document (g_docs g) (DocNode id source title))
          (g_pages g) (g_rels g).
Proof.
  cbn [exec]. unfold merge_document. cbn [dn_id].
  case_bool_decide as Hid.
  - destruct (docs_with_id g id) eqn:E; [|done].
    by apply docs_with_id_nil in E.
  - apply docs_with_id_nil in Hid. by rewrite Hid.
Qed.

Lemma exec_all_merge_documents files : ∀ g,
  exec_all g ((λ f, MergeDocument (f_stem f) (f_name f) (f_stem f)) <$> files)
  = Graph (foldl merge_document (g_docs g) (doc_of_file <$> files))
          (g_pages g) (g_rels g).
Proof.
  induction files as [|f files IH]; intros g; [by destruct g|].
  by rewrite !fmap_cons, exec_all_cons, IH, exec_merge_document.
Qed.

Lemma entries_nodes files entries :
  Forall2 entry_of_file files entries →
  (λ e : string * list chunk_data, page_of_chunk_data e.1 <$> e.2) <$> entries
  = file_nodes <$> files
  ∧ (entries ≫= λ e, page_of_chunk_data e.1 <$> e.2) = indexed_pages files.
Proof.
  unfold indexed_pages.
  induction 1 as [|f [doc cds] files entries [Hk Hv] _ [IH1 IH2]]; [done|].
  cbn [fst snd] in *. subst doc.
  rewrite !fmap_cons, !bind_cons, IH1, IH2. cbn [fst snd].
  by rewrite Hv.
Qed.

Lemma run_index_fresh encode files g :
  run_index encode files empty_graph = Return g →
  NoDup (f_stem <$> files) →
  NoDup (pn_id <$> indexed_pages files) →
  g = indexed_graph files.
Proof.
  unfold run_index. intros H Hstems Hids.
  destruct files as [|f0 files0] eqn:E; [done|]. rewrite <- E in *.
  assert (Hne : files ≠ []) by by rewrite E.
  destruct (phase1_from encode initial_state files) as [st|e] eqn:E1.
  2: { unfold index_script in H. rewrite E in H. rewrite <- E in H.
       by rewrite E1 in H. }
  rewrite (index_script_statements encode files st Hne E1) in H.
  cbn [mbind py_bind] in H. injection H as <-.
  apply phase1_state in E1 as (entries & Hdata & Hall & _); [|done].
  cbn [initial_state doc_data app] in Hdata. rewrite Hdata.
  destruct (entries_nodes files entries Hall) as [Hnodes Hpages].
  assert (Hdocs : dn_id <$> (doc_of_file <$> files) = f_stem <$> files).
  { rewrite <- list_fmap_compose. by apply list_fmap_ext. }
  rewrite exec_all_app, exec_all_merge_documents.
  cbn [empty_graph g_docs g_pages g_rels].
  rewrite merge_documents_fresh by by rewrite fmap_nil, Hdocs.
  cbn [app].
  rewrite (exec_batch_statements entries _ 0).
  - cbn [g_docs g_pages g_rels app length]. unfold indexed_graph.
    by rewrite Hnodes, Hpages.
  - cbn [g_docs]. intros k e He.
    destruct (Forall2_lookup_r _ _ _ _ _ Hall He) as (f & Hf & [Hk _]).
    rewrite Hk.
    apply (docs_with_id_unique
             (Graph (doc_of_file <$> files) [] []) k (doc_of_file f)).
    + cbn [g_docs]. by rewrite Hdocs.
    + cbn [g_docs]. by rewrite list_lookup_fmap, Hf.
  - cbn [g_pages app]. by rewrite Hpages.
  - cbn [g_rels]. by intros d' p Hp%elem_of_nil.
Qed.

(** ** Sequential navigation on a freshly built store *)

Lemma store_successors_at g a pa :
  NoDup (pn_id <$> g_pages g) → g_pages g !! a = Some pa →
  store_successors g (pn_id pa)
  = omap (λ b, g_pages g !! b) (omap (next_from a) (g_rels g)).
Proof.
  intros Hnd Ha. unfold store_successors.
  induction (g_rels g) as [|r rels IH]; [done|].
  rewrite bind_cons, IH, omap_cons_eq. destruct r as [| a' b |]; try done.
  cbn [next_from]. destruct (g_pages g !! a') as [p1|] eqn:E1.
  - destruct (String.eqb (pn_id p1) (pn_id pa)) eqn:E.
    + apply String.eqb_eq in E.
      assert (a' = a) as ->.
      { eapply NoDup_lookup; [exact Hnd| |].
        - by rewrite list_lookup_fmap, E1.
        - by rewrite list_lookup_fmap, Ha, E. }
      rewrite bool_decide_true by done. rewrite omap_cons_eq.
      by destruct (g_pages g !! b).
    + rewrite bool_decide_false.
      2: { intros ->. rewrite Ha in E1. injection E1 as ->.
           by rewrite String.eqb_refl in E. }
      by destruct (g_pages g !! b).
  - rewrite bool_decide_false; [done|]. intros ->. by rewrite Ha in E1.
Qed.

Lemma store_predecessors_at g b pb :
  NoDup (pn_id <$> g_pages g) → g_pages g !! b = Some pb →
  store_predecessors g (pn_id pb)
  = omap (λ a, g_pages g !! a) (omap (next_into b) (g_rels g)).
Proof.
  intros Hnd Hb. unfold store_predecessors.
  induction (g_rels g) as [|r rels IH]; [done|].
  rewrite bind_cons, IH, omap_cons_eq. destruct r as [| a b' |]; try done.
  cbn [next_into]. destruct (g_pages g !! a) as [p2|] eqn:E2.
  - destruct (g_pages g !! b') as [p1|] eqn:E1.
    + destruct (String.eqb (pn_id p1) (pn_id pb)) eqn:E.
      * apply String.eqb_eq in E.
        assert (b' = b) as ->.
        { eapply NoDup_lookup; [exact Hnd| |].
          - by rewrite list_lookup_fmap, E1.
          - by rewrite list_lookup_fmap, Hb, E. }
        rewrite bool_decide_true by done. rewrite omap_cons_eq.
        by rewrite E2.
      * rewrite bool_decide_false; [done|].
        intros ->. rewrite Hb in E1. injection E1 as ->.
        by rewrite String.eqb_refl in E.
    + rewrite bool_decide_false; [done|]. intros ->. by rewrite Hb in E1.
  - destruct (bool_decide (b' = b)); [|done].
    rewrite omap_cons_eq. by rewrite E2.
Qed.

Lemma omap_seq_one {B : Type} (f : nat → option B) (m i : nat) (y : B) :
  (∀ j, (j < m)%nat → j ≠ i → f j = None) →
  f i = Some y →
  omap f (seq 0 m) = if bool_decide (i < m)%nat then [y] else [].
Proof.
  intros Hother Hi. induction m as [|m IH].
  - by rewrite bool_decide_false by lia.
  - rewrite seq_S, omap_app, IH by (intros j ? ?; apply Hother; lia).
    cbn [Nat.add]. rewrite omap_cons_eq. cbn [omap list_omap].
    destruct (decide (i = m)) as [->|Hne].
    + rewrite Hi, bool_decide_false, bool_decide_true by lia. done.
    + rewrite Hother by lia. rewrite (right_id_L [] (++)).
      destruct (decide (i < m)%nat).
      * by rewrite !bool_decide_true by lia.
      * by rewrite !bool_decide_false by lia.
Qed.

Lemma omap_none {A B : Type} (f : A → option B) (l : list A) :
  (∀ x, x ∈ l → f x = None) → omap f l = [].
Proof.
  induction l as [|x l IH]; intros H; [done|].
  rewrite omap_cons_eq, H by left. apply IH. intros y Hy. apply H. by right.
Qed.

Lemma omap_fmap_seq {B : Type} (f : rel → option B) (h : nat → rel) m :
  omap f (h <$> seq 0 m) = omap (λ i, f (h i)) (seq 0 m).
Proof.
  generalize (seq 0 m). intros l. induction l as [|i l IH]; [done|].
  by rewrite fmap_cons, !omap_cons_eq, IH.
Qed.

Lemma related_rel_kind first nodes ij r :
  related_rel first nodes ij = Some r → ∃ a b kws dist, r = RelatedTo a b kws dist.
Proof.
  unfold related_rel. destruct (nodes !! ij.1); [|done].
  destruct (nodes !! ij.2); [|done]. cbn.
  case_bool_decide; [|done]. intros [= <-]. by eexists _, _, _, _.
Qed.

Lemma document_rels_next_from d first nodes a :
  omap (next_from a) (document_rels d first nodes)
  = if bool_decide (first ≤ a ∧ S (a - first) < length nodes)%nat
    then [S a] else [].
Proof.
  unfold document_rels. rewrite !omap_app, !omap_fmap_seq.
  rewrite (omap_none _ (seq 0 (length nodes))) by done.
  rewrite (omap_none _ (omap _ _)).
  2: { intros r (ij & _ & Hr)%list_elem_of_omap.
       by apply related_rel_kind in Hr as (? & ? & ? & ? & ->). }
  rewrite (right_id_L [] (++)). cbn [app next_from].
  destruct (decide (first ≤ a)%nat) as [Hle|Hlt].
  - rewrite (omap_seq_one _ _ (a - first)%nat (S a)).
    + destruct (decide (S (a - first) < length nodes)%nat).
      * by rewrite !bool_decide_true by lia.
      * by rewrite !bool_decide_false by lia.
    + intros j _ Hj. rewrite bool_decide_false by lia. done.
    + rewrite bool_decide_true by lia. f_equal. lia.
  - rewrite (bool_decide_false (_ ∧ _)) by lia. apply omap_none.
    intros j _. by rewrite bool_decide_false by lia.
Qed.

Lemma document_rels_next_into d first nodes b :
  omap (next_into b) (document_rels d first nodes)
  = if bool_decide (first < b ∧ b - first < length nodes)%nat
    then [(b - 1)%nat] else [].
Proof.
  unfold document_rels. rewrite !omap_app, !omap_fmap_seq.
  rewrite (omap_none _ (seq 0 (length nodes))) by done.
  rewrite (omap_none _ (omap _ _)).
  2: { intros r (ij & _ & Hr)%list_elem_of_omap.
       by apply related_rel_kind in Hr as (? & ? & ? & ? & ->). }
  rewrite (right_id_L [] (++)). cbn [app next_into].
  destruct (decide (first < b)%nat) as [Hlt|Hle].
  - rewrite (omap_seq_one _ _ (b - first - 1)%nat (b - 1)%nat).
    + destruct (decide (b - first < length nodes)%nat).
      * by rewrite !bool_decide_true by lia.
      * by rewrite !bool_decide_false by lia.
    + intros j _ Hj. rewrite bool_decide_false by lia. done.
    + rewrite bool_decide_true by lia. f_equal. lia.
  - rewrite (bool_decide_false (_ ∧ _)) by lia. apply omap_none.
    intros j _. by rewrite bool_decide_false by lia.
Qed.

Lemma batch_rels_next_before docs : ∀ d first a,
  (a < first)%nat → omap (next_from a) (batch_rels d first docs) = [].
Proof.
  induction docs as [|nodes docs IH]; intros d first a Ha; [done|].
  cbn [batch_rels]. rewrite omap_app, document_rels_next_from, IH by lia.
  by rewrite bool_decide_false by lia.
Qed.

Lemma batch_rels_next_into_before docs : ∀ d first b,
  (b ≤ first)%nat → omap (next_into b) (batch_rels d first docs) = [].
Proof.
  induction docs as [|nodes docs IH]; intros d first b Hb; [done|].
  cbn [batch_rels]. rewrite omap_app, document_rels_next_into, IH by lia.
  by rewrite bool_decide_false by lia.
Qed.

Lemma batch_rels_next_from docs : ∀ d first k nodes i,
  docs !! k = Some nodes → (i < length nodes)%nat →
  omap (next_from (first + length (concat (take k docs)) + i))
       (batch_rels d first docs)
  = if bool_decide (S i < length nodes)%nat
    then [S (first + length (concat (take k docs)) + i)] else [].
Proof.
  induction docs as [|nodes0 docs IH]; intros d first k nodes i Hk Hi; [done|].
  cbn [batch_rels]. rewrite omap_app, document_rels_next_from.
  destruct k as [|k].
  - injection Hk as ->. cbn [take concat length].
    rewrite batch_rels_next_before by lia. rewrite (right_id_L [] (++)).
    destruct (decide (S i < length nodes)%nat).
    + by rewrite !bool_decide_true by lia.
    + by rewrite !bool_decide_false by lia.
  - cbn [take concat]. rewrite length_app. cbn in Hk.
    rewrite bool_decide_false by lia. cbn [app].
    specialize (IH (S d) (first + length nodes0)%nat k nodes i Hk Hi).
    replace (first + (length nodes0 + length (concat (take k docs))) + i)%nat
      with (first + length nodes0 + length (concat (take k docs)) + i)%nat by lia.
    done.
Qed.

Lemma batch_rels_next_into docs : ∀ d first k nodes i,
  docs !! k = Some nodes → (i < length nodes)%nat →
  omap (next_into (first + length (concat (take k docs)) + i))
       (batch_rels d first docs)
  = match i with
    | O => []
    | S j => [(first + length (concat (take k docs)) + j)%nat]
    end.
Proof.
  induction docs as [|nodes0 docs IH]; intros d first k nodes i Hk Hi; [done|].
  cbn [batch_rels]. rewrite omap_app, document_rels_next_into.
  destruct k as [|k].
  - injection Hk as ->. cbn [take concat length].
    rewrite batch_rels_next_into_before by lia. rewrite (right_id_L [] (++)).
    destruct i as [|j].
    + by rewrite bool_decide_false by lia.
    + rewrite bool_decide_true by lia. f_equal. lia.
  - cbn [take concat]. rewrite length_app. cbn in Hk.
    rewrite bool_decide_false by lia. cbn [app].
    specialize (IH (S d) (first + length nodes0)%nat k nodes i Hk Hi).
    replace (first + (length nodes0 + length (concat (take k docs))) + i)%nat
      with (first + length nodes0 + length (concat (take k docs)) + i)%nat by lia.
    rewrite IH. destruct i as [|j]; [done|]. f_equal. lia.
Qed.

Lemma lookup_concat {A : Type} (ls : list (list A)) : ∀ k l i,
  ls !! k = Some l → (i < length l)%nat →
  concat ls !! (length (concat (take k ls)) + i)%nat = l !! i.
Proof.
  induction ls as [|l0 ls IH]; intros k l i Hk Hi; [done|].
  destruct k as [|k].
  - injection Hk as ->. cbn [take concat length Nat.add].
    by rewrite lookup_app_l.
  - cbn [take concat]. cbn in Hk. rewrite length_app, lookup_app_r by lia.
    replace (length l0 + length (concat (take k ls)) + i - length l0)%nat
      with (length (concat (take k ls)) + i)%nat by lia.
    by apply IH.
Qed.

Lemma indexed_pages_concat files :
  indexed_pages files = concat (file_nodes <$> files).
Proof.
  unfold indexed_pages. induction files as [|f files IH]; [done|].
  by rewrite bind_cons, fmap_cons, IH.
Qed.

Lemma filter_all {A : Type} (P : A → Prop) `{∀ x, Decision (P x)} (l : list A) :
  (∀ x, x ∈ l → P x) → filter P l = l.
Proof.
  induction l as [|x l IH]; intros Hl; [done|].
  rewrite filter_cons_True by (apply Hl; left).
  f_equal. apply IH. intros y Hy. apply Hl. by right.
Qed.

Lemma filter_none {A : Type} (P : A → Prop) `{∀ x, Decision (P x)} (l : list A) :
  (∀ x, x ∈ l → ¬ P x) → filter P l = [].
Proof.
  induction l as [|x l IH]; intros Hl; [done|].
  rewrite filter_cons_False by (apply Hl; left).
  apply IH. intros y Hy. apply Hl. by right.
Qed.

Lemma document_rels_counts d first nodes :
  length (filter is_contains (document_rels d first nodes)) = length nodes
  ∧ length (filter is_next_page (document_rels d first nodes))
    = (length nodes - 1)%nat.
Proof.
  unfold document_rels. rewrite !filter_app, !length_app.
  assert (Hrel : ∀ r, r ∈ omap (related_rel first nodes)
                             (window_pairs (length nodes)) →
                      is_contains r = false ∧ is_next_page r = false).
  { intros r (ij & _ & Hr)%list_elem_of_omap.
    by apply related_rel_kind in Hr as (? & ? & ? & ? & ->). }
  split.
  - rewrite filter_all, (filter_none _ (_ <$> seq 0 (length nodes - 1))),
      (filter_none _ (omap _ _)).
    + rewrite length_fmap, length_seq. simpl. lia.
    + intros r Hr Hc. apply Hrel in Hr as [Hr _]. by rewrite Hr in Hc.
    + intros r (i & -> & _)%list_elem_of_fmap. cbn. tauto.
    + intros r (i & -> & _)%list_elem_of_fmap. cbn. tauto.
  - rewrite (filter_none _ (_ <$> seq 0 (length nodes))), filter_all,
      (filter_none _ (omap _ _)).
    + rewrite length_fmap, length_seq. simpl. lia.
    + intros r Hr Hc. apply Hrel in Hr as [_ Hr]. by rewrite Hr in Hc.
    + intros r (i & -> & _)%list_elem_of_fmap. cbn. tauto.
    + intros r (i & -> & _)%list_elem_of_fmap. cbn. tauto.
Qed.

Lemma batch_rels_counts docs : ∀ d first,
  length (filter is_contains (batch_rels d first docs)) = length (concat docs)
  ∧ length (filter is_next_page (batch_rels d first docs))
    = sum_list ((λ nodes, length nodes - 1)%nat <$> docs).
Proof.
  induction docs as [|nodes docs IH]; intros d first; [done|].
  cbn [batch_rels concat]. rewrite !filter_app, !length_app, fmap_cons.
  destruct (document_rels_counts d first nodes) as [-> ->].
  destruct (IH (S d) (first + length nodes)%nat) as [-> ->]. done.
Qed.

(** X13. The store a run builds from the empty store, for files with
    distinct stems whose Page nodes get distinct ids: the Document nodes of
    the files, the Page nodes of their chunks in order, and for each document
    one CONTAINS relationship per node, one NEXT_PAGE relationship from each
    node to the next node of the same document, and the similarity
    relationships of its window, and nothing else. So there are as many
    CONTAINS relationships as chunks, and a document of n chunks has n - 1
    NEXT_PAGE relationships. *)
Theorem run_index_builds_graph (encode : string → vector)
    (files : list source_file) (g : graph) :
  run_index encode files empty_graph = Return g →
  NoDup (f_stem <$> files) →
  NoDup (pn_id <$> indexed_pages files) →
  g = indexed_graph files
  ∧ count_pages g = length (batch_chunks files)
  ∧ length (filter is_contains (g_rels g)) = length (batch_chunks files)
  ∧ count_next_page g
    = sum_list ((λ f, length (file_chunks f) - 1)%nat <$> files).
Proof.
  intros Hrun Hstems Hids.
  rewrite (run_index_fresh _ _ _ Hrun Hstems Hids).
  unfold count_pages, count_next_page. cbn [indexed_graph g_pages g_rels].
  destruct (batch_rels_counts (file_nodes <$> files) 0 0) as [-> ->].
  rewrite <- indexed_pages_concat, indexed_pages_length.
  conjuncts; try done.
  rewrite <- list_fmap_compose. f_equal. apply list_fmap_ext.
  intros _ f _. cbn. unfold file_nodes. by rewrite length_imap.
Qed.

Lemma run_index_builds_graph_witness :
  count_next_page story_batch_graph = 4%nat.
Proof.
  destruct (run_index_builds_graph sample_encode story_batch story_batch_graph)
    as (_ & _ & _ & H).
  - vm_compute. reflexivity.
  - apply (bool_decide_unpack _). vm_compute. exact I.
  - apply (bool_decide_unpack _). vm_compute. exact I.
  - rewrite H. vm_compute. reflexivity.
Defined.

Lemma first_position_lookup files k f i :
  files !! k = Some f → (i < length (file_nodes f))%nat →
  first_position files k = length (concat (take k (file_nodes <$> files)))
  ∧ indexed_pages files !! (first_position files k + i)%nat = file_nodes f !! i.
Proof.
  intros Hk Hi. unfold first_position.
  rewrite !indexed_pages_concat, fmap_take. split; [done|].
  apply lookup_concat; [|done]. by rewrite list_lookup_fmap, Hk.
Qed.

Section fresh_navigation.
Variables (files : list source_file) (k : nat) (f : source_file) (i : nat)
          (c : chunk).
Hypothesis ids : NoDup (pn_id <$> indexed_pages files).
Hypothesis file : files !! k = Some f.
Hypothesis chunk_at : file_chunks f !! i = Some c.

Lemma fresh_node_position :
  (i < length (file_nodes f))%nat
  ∧ file_nodes f !! i = Some (node_of_chunk (f_stem f) i c)
  ∧ indexed_pages files !! (first_position files k + i)%nat
    = Some (node_of_chunk (f_stem f) i c).
Proof.
  assert (Hi : (i < length (file_nodes f))%nat).
  { unfold file_nodes. rewrite length_imap. by eapply lookup_lt_Some. }
  assert (Hnode : file_nodes f !! i = Some (node_of_chunk (f_stem f) i c)).
  { unfold file_nodes. by rewrite list_lookup_imap, chunk_at. }
  destruct (first_position_lookup files k f i file Hi) as [_ H].
  by rewrite H.
Qed.

Lemma fresh_successors :
  store_successors (indexed_graph files) (pn_id (node_of_chunk (f_stem f) i c))
  = option_list (file_nodes f !! S i).
Proof.
  destruct fresh_node_position as (Hi & Hnode & Hpos).
  rewrite (store_successors_at (indexed_graph files)
             (first_position files k + i)) by done.
  cbn [indexed_graph g_pages g_rels].
  destruct (first_position_lookup files k f i file Hi) as [Hfirst _].
  rewrite Hfirst.
  pose proof (batch_rels_next_from (file_nodes <$> files) 0 0 k (file_nodes f) i)
    as Hnext.
  cbn [Nat.add] in Hnext. rewrite Hnext; [|by rewrite list_lookup_fmap, file|done].
  case_bool_decide as Hlast.
  - rewrite omap_cons_eq. cbn [omap list_omap]. rewrite <- Hfirst.
    replace (S (first_position files k + i)) with (first_position files k + S i)%nat
      by lia.
    destruct (first_position_lookup files k f (S i) file Hlast) as [_ ->].
    by destruct (file_nodes f !! S i).
  - rewrite lookup_ge_None_2 by lia. done.
Qed.

Lemma fresh_predecessors :
  store_predecessors (indexed_graph files) (pn_id (node_of_chunk (f_stem f) i c))
  = match i with
    | O => []
    | S j => option_list (file_nodes f !! j)
    end.
Proof.
  destruct fresh_node_position as (Hi & Hnode & Hpos).
  rewrite (store_predecessors_at (indexed_graph files)
             (first_position files k + i)) by done.
  cbn [indexed_graph g_pages g_rels].
  destruct (first_position_lookup files k f i file Hi) as [Hfirst _].
  rewrite Hfirst.
  pose proof (batch_rels_next_into (file_nodes <$> files) 0 0 k (file_nodes f) i)
    as Hprev.
  cbn [Nat.add] in Hprev. rewrite Hprev; [|by rewrite list_lookup_fmap, file|done].
  destruct i as [|j]; [done|].
  rewrite omap_cons_eq. cbn [omap list_omap]. rewrite <- Hfirst.
  destruct (first_position_lookup files k f j file ltac:(lia)) as [_ ->].
  by destruct (file_nodes f !! j).
Qed.

End fresh_navigation.

(** X14. Navigation on a store built from the empty store, for files with
    distinct stems whose Page nodes get distinct ids. The node of the
    [i]-th chunk of a file has as NEXT_PAGE successor the node of the chunk
    after it in the same file and as predecessor the node of the chunk
    before it, and no other; the last chunk of a file has no successor and
    the first no predecessor, also when other files come after or before.
    So when the markers of the file carry distinct numbers, asking for any
    page of the chunk returns the text of the chunk with the page number and
    the page-range label of the following chunk as [next_page] and those of
    the preceding chunk as [prev_page], or [None] at the ends of the file. *)
Theorem fresh_run_navigation (encode : string → vector)
    (files : list source_file) (g : graph) (k : nat) (f : source_file)
    (i : nat) (c : chunk) :
  run_index encode files empty_graph = Return g →
  NoDup (f_stem <$> files) →
  NoDup (pn_id <$> indexed_pages files) →
  files !! k = Some f →
  file_chunks f !! i = Some c →
  let p := node_of_chunk (f_stem f) i c in
  let previous := match i with O => None | S j => file_nodes f !! j end in
  let neighbour (o : option chunk) :=
    neighbour_of ((λ c', (page_num c', range_label (page_range c'))) <$> o) in
  g_pages g !! (first_position files k + i)%nat = Some p
  ∧ store_successors g (pn_id p) = option_list (file_nodes f !! S i)
  ∧ store_predecessors g (pn_id p) = option_list previous
  ∧ (NoDup (marker_numbers (f_content f)) →
     ∀ page, page ∈ page_range c →
       ∃ d, get_page_content (store_services g) (f_stem f) page None = Return d
            ∧ dict_get "content" d = Some (VStr (text c))
            ∧ dict_get "page_range" d = Some (VInts (page_range c))
            ∧ dict_get "next_page" d = Some (neighbour (file_chunks f !! S i))
            ∧ dict_get "prev_page" d
              = Some (neighbour (match i with
                                 | O => None
                                 | S j => file_chunks f !! j
                                 end))).
Proof.
  intros Hrun Hstems Hids Hfile Hchunk p previous neighbour.
  assert (Hnodes : ∀ j, file_nodes f !! j
                        = node_of_chunk (f_stem f) j <$> file_chunks f !! j).
  { intros j. unfold file_nodes. by rewrite list_lookup_imap. }
  rewrite (run_index_fresh _ _ _ Hrun Hstems Hids).
  destruct (fresh_node_position files k f i c Hfile Hchunk) as (Hi & Hnode & Hpos).
  pose proof (fresh_successors files k f i c Hids Hfile Hchunk) as Hnext.
  pose proof (fresh_predecessors files k f i c Hids Hfile Hchunk) as Hprev.
  fold p in Hnext, Hprev, Hpos, Hnode.
  assert (Hprev' : store_predecessors (indexed_graph files) (pn_id p)
                   = option_list previous).
  { rewrite Hprev. unfold previous. by destruct i. }
  conjuncts; [done..|].
  intros Hmarkers page Hpage.
  assert (Hf : f ∈ files) by by eapply list_elem_of_lookup_2.
  pose proof (indexed_containing_elem files f page Hstems Hf) as Helem.
  assert (Hin : p ∈ store_page_containing (indexed_graph files) (f_stem f) page).
  { unfold store_page_containing. cbn [indexed_graph g_pages].
    apply Helem. by exists i, c. }
  destruct (store_page_containing (indexed_graph files) (f_stem f) page)
    as [|q rest] eqn:E; [by apply elem_of_nil in Hin|].
  assert (q = p) as ->.
  { assert (Hq : q ∈ q :: rest) by left. rewrite <- E in Hq.
    unfold store_page_containing in Hq. cbn [indexed_graph g_pages] in Hq.
    apply Helem in Hq as (j & c' & Hj & Hpage' & ->).
    assert (j = i) as ->.
    { by apply (split_by_pages_owner (f_content f) MIN_WORDS j i c' c page). }
    unfold file_chunks in Hchunk. rewrite Hchunk in Hj. by injection Hj as ->. }
  eexists. split.
  - apply (get_page_content_single None None (store_driver (indexed_graph files))
             eq_refl (f_stem f) page None (row_of_page <$> p :: rest)
             (row_of_page p));
      [by left|cbn [page_containing store_driver]; by rewrite E|done
      |reflexivity..].
  - rewrite single_result_content, single_result_page_range,
      single_result_next, single_result_prev.
    cbn [r_id row_of_page r_text r_page_range]. rewrite Hnext, Hprev'.
    conjuncts; try done.
    + rewrite Hnodes. by destruct (file_chunks f !! S i).
    + unfold previous. destruct i as [|j]; [done|].
      rewrite Hnodes. by destruct (file_chunks f !! j).
Qed.

Lemma fresh_run_navigation_witness :
  store_successors story_batch_graph "m_page_3" = []
  ∧ store_predecessors story_batch_graph "s_page_1" = [].
Proof.
  destruct (fresh_run_navigation sample_encode story_batch story_batch_graph
              0 (SourceFile "m.md" "m" merged_doc) 1
              (Chunk 3 [3] (sample_page 3 50) 52 false))
    as (_ & Hnext & _).
  { vm_compute. reflexivity. }
  { apply (bool_decide_unpack _). vm_compute. exact I. }
  { apply (bool_decide_unpack _). vm_compute. exact I. }
  { reflexivity. }
  { vm_compute. reflexivity. }
  destruct (fresh_run_navigation sample_encode story_batch story_batch_graph
              1 (SourceFile "s.md" "s" story_doc) 0
              (Chunk 1 [1] (keyword_page 1 "alpha bravo charlie") 55 false))
    as (_ & _ & Hprev & _).
  { vm_compute. reflexivity. }
  { apply (bool_decide_unpack _). vm_compute. exact I. }
  { apply (bool_decide_unpack _). vm_compute. exact I. }
  { reflexivity. }
  { vm_compute. reflexivity. }
  split; [exact Hnext|exact Hprev].
Defined.

(** ** The ids of the Page nodes *)

Lemma pretty_N_char_digit x : Py.isdigit (pretty_N_char x) = true.
Proof.
  unfold pretty_N_char.
  repeat first
    [ reflexivity
    | match goal with |- context [match ?p with _ => _ end] => destruct p end ].
Qed.

Lemma pretty_N_go_digits x : ∀ s,
  all_digits s = true → all_digits (pretty_N_go x s) = true.
Proof.
  induction (N.lt_wf_0 x) as [x _ IH]. intros s Hs.
  destruct (decide (x = 0)%N) as [->|Hx]; [by rewrite pretty_N_go_0|].
  rewrite pretty_N_go_step by lia. apply IH.
  - apply N.div_lt; lia.
  - cbn [all_digits]. by rewrite pretty_N_char_digit, Hs.
Qed.

Lemma str_digits n : 0 ≤ n → all_digits (Py.str n) = true.
Proof.
  intros Hn. unfold Py.str, pretty, pretty_Z.
  destruct n as [|p|p]; [done| |lia].
  unfold pretty, pretty_positive, pretty, pretty_N. case_decide; [done|].
  by apply pretty_N_go_digits.
Qed.

Lemma all_digits_app s t :
  all_digits (s +:+ t) = all_digits s && all_digits t.
Proof.
  induction s as [|c s IH]; [done|].
  rewrite sapp_cons. cbn [all_digits]. by rewrite IH, andb_assoc.
Qed.

Lemma digits_prefix_inj s1 : ∀ s2 c1 c2 t1 t2,
  all_digits s1 = true → all_digits s2 = true →
  Py.isdigit c1 = false → Py.isdigit c2 = false →
  s1 +:+ String c1 t1 = s2 +:+ String c2 t2 → s1 = s2.
Proof.
  induction s1 as [|d s1 IH]; intros s2 c1 c2 t1 t2 H1 H2 Hc1 Hc2 Heq.
  - destruct s2 as [|d' s2]; [done|]. rewrite sapp_cons in Heq.
    injection Heq as -> _. cbn [all_digits] in H2.
    apply andb_true_iff in H2 as [H2 _]. congruence.
  - cbn [all_digits] in H1. apply andb_true_iff in H1 as [Hd H1].
    destruct s2 as [|d' s2].
    + rewrite sapp_cons in Heq. injection Heq as -> _. congruence.
    + rewrite !sapp_cons in Heq. injection Heq as -> Heq.
      cbn [all_digits] in H2. apply andb_true_iff in H2 as [_ H2].
      f_equal. exact (IH s2 c1 c2 t1 t2 H1 H2 Hc1 Hc2 Heq).
Qed.

Lemma occurs_app c0 s t : occurs c0 (s +:+ t) = occurs c0 s || occurs c0 t.
Proof.
  induction s as [|c s IH]; [done|].
  rewrite sapp_cons. cbn [occurs]. by rewrite IH, orb_assoc.
Qed.

Lemma digits_without c0 s :
  Py.isdigit c0 = false → all_digits s = true → occurs c0 s = false.
Proof.
  intros Hc0. induction s as [|c s IH]; [done|]. cbn [all_digits occurs].
  intros [Hc Hs]%andb_true_iff. rewrite IH by done.
  destruct (Ascii.eqb c c0) eqn:E; [|done].
  apply Ascii.eqb_eq in E. congruence.
Qed.

Lemma after_last_app c0 s l :
  occurs c0 l = false → after_last c0 (s +:+ String c0 l) = l.
Proof.
  intros Hl. induction s as [|c s IH].
  - change ("" +:+ String c0 l) with (String c0 l). cbn [after_last].
    by rewrite Hl, Ascii.eqb_refl.
  - rewrite sapp_cons. cbn [after_last].
    rewrite occurs_app. cbn [occurs]. rewrite Ascii.eqb_refl.
    by rewrite orb_true_r.
Qed.

Lemma length_sapp s t :
  String.length (s +:+ t) = (String.length s + String.length t)%nat.
Proof.
  induction s as [|c s IH]; [done|]. rewrite sapp_cons. cbn. by rewrite IH.
Qed.

Lemma sapp_inv_tail s1 : ∀ s2 t, s1 +:+ t = s2 +:+ t → s1 = s2.
Proof.
  induction s1 as [|c s1 IH]; intros s2 t Heq.
  - destruct s2 as [|c' s2]; [done|].
    apply (f_equal String.length) in Heq. rewrite !length_sapp in Heq.
    cbn in Heq. lia.
  - destruct s2 as [|c' s2].
    + apply (f_equal String.length) in Heq. rewrite !length_sapp in Heq.
      cbn in Heq. lia.
    + rewrite !sapp_cons in Heq. injection Heq as -> Heq. f_equal.
      by eapply IH.
Qed.

Lemma sapp_inv_head s t1 t2 : s +:+ t1 = s +:+ t2 → t1 = t2.
Proof.
  induction s as [|c s IH]; [done|]. rewrite !sapp_cons. intros [= H]. auto.
Qed.

(** An id splits in one way into a stem and a label without underscore. *)
Lemma neo_id_inj s1 s2 l1 l2 :
  occurs "_" l1 = false → occurs "_" l2 = false →
  neo_id s1 l1 = neo_id s2 l2 → s1 = s2 ∧ l1 = l2.
Proof.
  intros H1 H2 Heq. unfold neo_id in Heq.
  assert (Hl : l1 = l2).
  { apply (f_equal (after_last "_")) in Heq.
    change (s1 +:+ "_page_" +:+ l1) with (s1 +:+ "_page" +:+ String "_" l1) in Heq.
    change (s2 +:+ "_page_" +:+ l2) with (s2 +:+ "_page" +:+ String "_" l2) in Heq.
    rewrite <- !sapp_assoc in Heq. by rewrite !after_last_app in Heq. }
  subst l2. split; [|done]. by apply sapp_inv_tail in Heq.
Qed.

(** The shape of a marker: "Page", whitespace, digits, whitespace. *)
Lemma match_page_marker_shape s g :
  Py.match_page_marker s = Some g →
  ∃ c r, s = String "P" (String "a" (String "g" (String "e" (String c r))))
         ∧ Py.isspace c = true
         ∧ g = (Py.span Py.isdigit (Py.lstrip (String c r))).1
         ∧ g ≠ ""
         ∧ Py.lstrip (Py.span Py.isdigit (Py.lstrip (String c r))).2 = "".
Proof.
  intros H.
  destruct s as [|c1 s]; [done|].
  destruct (decide (c1 = "P"%char)) as [->|Hne].
  2: { exfalso. revert H. simpl.
       destruct c1 as [[] [] [] [] [] [] [] []]; try done. }
  destruct s as [|c2 s]; [done|].
  destruct (decide (c2 = "a"%char)) as [->|Hne].
  2: { exfalso. revert H. simpl.
       destruct c2 as [[] [] [] [] [] [] [] []]; try done. }
  destruct s as [|c3 s]; [done|].
  destruct (decide (c3 = "g"%char)) as [->|Hne].
  2: { exfalso. revert H. simpl.
       destruct c3 as [[] [] [] [] [] [] [] []]; try done. }
  destruct s as [|c4 s]; [done|].
  destruct (decide (c4 = "e"%char)) as [->|Hne].
  2: { exfalso. revert H. simpl.
       destruct c4 as [[] [] [] [] [] [] [] []]; try done. }
  destruct s as [|c r]; [done|].
  change (Py.match_page_marker (String "P" (String "a" (String "g"
            (String "e" (String c r))))))
    with (if Py.isspace c then
            let '(ds, r2) := Py.span Py.isdigit (Py.lstrip (String c r)) in
            match ds with
            | "" => None
            | _ => match Py.lstrip r2 with
                   | "" => Some ds
                   | _ => None
                   end
            end
          else None) in H.
  destruct (Py.isspace c) eqn:Ec; [|done].
  destruct (Py.span Py.isdigit (Py.lstrip (String c r))) as [ds r2] eqn:Es.
  destruct ds as [|d ds]; [done|].
  destruct (Py.lstrip r2) eqn:El; [|done]. injection H as <-.
  exists c, r. rewrite Es. cbn [fst snd]. by rewrite El.
Qed.

Lemma span_digits s : all_digits (Py.span Py.isdigit s).1 = true.
Proof.
  induction s as [|c s IH]; [done|]. cbn [Py.span].
  destruct (Py.isdigit c) eqn:E; [|done].
  destruct (Py.span Py.isdigit s) as [a b]. cbn [fst] in *.
  cbn [all_digits]. by rewrite E.
Qed.

Lemma int_go_nonneg s : ∀ acc,
  0 ≤ acc → all_digits s = true → 0 ≤ Py.int_go acc s.
Proof.
  induction s as [|c s IH]; intros acc Hacc Hs; [done|].
  cbn [all_digits] in Hs. apply andb_true_iff in Hs as [Hc Hs].
  cbn [Py.int_go]. apply IH; [|done].
  unfold Py.isdigit in Hc. apply andb_true_iff in Hc as [Hc _].
  apply N.leb_le in Hc. unfold Py.digit_val. lia.
Qed.

Lemma page_match_nonneg line n : page_match line = Some n → 0 ≤ n.
Proof.
  unfold page_match.
  destruct (Py.match_page_marker (Py.strip line)) as [g|] eqn:E; [|done].
  intros [= <-].
  apply match_page_marker_shape in E as (c & r & _ & _ & -> & _).
  apply int_go_nonneg; [done|apply span_digits].
Qed.

Lemma marker_numbers_nonneg content n : n ∈ marker_numbers content → 0 ≤ n.
Proof.
  unfold marker_numbers. intros (line & _ & H)%list_elem_of_omap.
  by eapply page_match_nonneg.
Qed.

Lemma range_label_shape r :
  r ≠ [] → Forall (λ n, 0 ≤ n) r →
  ∃ a, head r = Some a ∧ 0 ≤ a
       ∧ (range_label r = Py.str a
          ∨ ∃ b, 0 ≤ b ∧ range_label r = Py.str a +:+ String "-" (Py.str b)).
Proof.
  intros Hne Hall. destruct r as [|a r]; [done|].
  apply Forall_cons in Hall as Ha. destruct Ha as [Ha _].
  exists a. split; [done|]. split; [done|].
  unfold range_label, page_range_label. cbn [head].
  case_bool_decide; [|by left].
  destruct (last (a :: r)) as [b|] eqn:E; [|by apply last_None in E].
  right. exists b. split; [|done].
  rewrite Forall_forall in Hall. apply Hall.
  rewrite last_lookup in E. by eapply list_elem_of_lookup_2.
Qed.

Lemma range_label_head r1 r2 :
  r1 ≠ [] → r2 ≠ [] →
  Forall (λ n, 0 ≤ n) r1 → Forall (λ n, 0 ≤ n) r2 →
  range_label r1 = range_label r2 → head r1 = head r2.
Proof.
  intros Hne1 Hne2 Hall1 Hall2 Heq.
  destruct (range_label_shape r1 Hne1 Hall1) as (a1 & -> & Ha1 & H1).
  destruct (range_label_shape r2 Hne2 Hall2) as (a2 & -> & Ha2 & H2).
  pose proof (str_digits a1 Ha1) as Hd1. pose proof (str_digits a2 Ha2) as Hd2.
  f_equal. apply (inj Py.str).
  destruct H1 as [H1|(b1 & Hb1 & H1)], H2 as [H2|(b2 & Hb2 & H2)];
    rewrite H1, H2 in Heq.
  - done.
  - rewrite Heq, all_digits_app in Hd1. cbn in Hd1.
    by rewrite andb_false_r in Hd1.
  - rewrite <- Heq, all_digits_app in Hd2. cbn in Hd2.
    by rewrite andb_false_r in Hd2.
  - by eapply (digits_prefix_inj _ _ "-" "-").
Qed.

Lemma range_label_plain r :
  r ≠ [] → Forall (λ n, 0 ≤ n) r → occurs "_" (range_label r) = false.
Proof.
  intros Hne Hall.
  destruct (range_label_shape r Hne Hall) as (a & _ & Ha & [->|(b & Hb & ->)]).
  - by apply digits_without, str_digits.
  - rewrite occurs_app. cbn [occurs].
    rewrite !digits_without by (done || by apply str_digits). done.
Qed.

Lemma file_chunk_nonneg f c :
  c ∈ file_chunks f → Forall (λ n, 0 ≤ n) (page_range c).
Proof.
  intros Hc. apply Forall_forall. intros n Hn.
  apply (marker_numbers_nonneg (f_content f)).
  apply (split_by_pages_covers _ MIN_WORDS). by exists c.
Qed.

(** X15. The Page nodes of a batch get distinct ids whenever the stems of
    the files are distinct and, in each file, the page markers carry
    distinct numbers: an id splits in one way into the stem and the page
    range label, and the labels of two chunks of a file differ since their
    first pages differ. *)
Theorem page_ids_distinct (files : list source_file) :
  NoDup (f_stem <$> files) →
  (∀ f, f ∈ files → NoDup (marker_numbers (f_content f))) →
  NoDup (pn_id <$> indexed_pages files).
Proof.
  intros Hstems Hmarkers.
  assert (Hnode : ∀ f p, p ∈ file_nodes f →
            ∃ i c, file_chunks f !! i = Some c ∧ p = node_of_chunk (f_stem f) i c).
  { intros f p Hp. unfold file_nodes in Hp.
    apply elem_of_lookup_imap in Hp as (i & c & -> & Hc). by exists i, c. }
  assert (Hplain : ∀ f i c, file_chunks f !! i = Some c →
            occurs "_" (range_label (page_range c)) = false).
  { intros f i c Hc. apply list_elem_of_lookup_2 in Hc as Hin.
    apply range_label_plain; [|by eapply file_chunk_nonneg].
    by eapply split_by_pages_chunk_shape. }
  assert (Hsame : ∀ f i j ci cj, f ∈ files →
            file_chunks f !! i = Some ci → file_chunks f !! j = Some cj →
            range_label (page_range ci) = range_label (page_range cj) → i = j).
  { intros f i j ci cj Hf Hi Hj Hlabel.
    apply list_elem_of_lookup_2 in Hi as Hini.
    apply list_elem_of_lookup_2 in Hj as Hinj.
    destruct (split_by_pages_chunk_shape _ _ _ Hini) as (Hnei & _ & Hheadi).
    destruct (split_by_pages_chunk_shape _ _ _ Hinj) as (Hnej & _ & Hheadj).
    pose proof (range_label_head _ _ Hnei Hnej (file_chunk_nonneg f ci Hini)
                  (file_chunk_nonneg f cj Hinj) Hlabel) as Hhead.
    rewrite Hheadi, Hheadj in Hhead. injection Hhead as Hnum.
    apply (split_by_pages_owner (f_content f) MIN_WORDS i j ci cj (page_num ci));
      [by apply Hmarkers|done|done| |].
    - apply head_Some_elem_of. done.
    - rewrite Hnum. apply head_Some_elem_of. done. }
  assert (Hkey : ∀ f1 f2 p1 p2, f1 ∈ files → f2 ∈ files →
            p1 ∈ file_nodes f1 → p2 ∈ file_nodes f2 →
            pn_id p1 = pn_id p2 → f1 = f2 ∧ p1 = p2).
  { intros f1 f2 p1 p2 Hf1 Hf2 Hp1 Hp2 Hid.
    apply Hnode in Hp1 as (i1 & c1 & Hc1 & ->).
    apply Hnode in Hp2 as (i2 & c2 & Hc2 & ->).
    cbn [pn_id node_of_chunk] in Hid.
    apply neo_id_inj in Hid as [Hstem Hlabel]; [|by eapply Hplain..].
    assert (f1 = f2) as -> by by eapply (NoDup_fmap_inj f_stem files).
    split; [done|].
    assert (i1 = i2) as -> by by eapply (Hsame f2).
    rewrite Hc1 in Hc2. by injection Hc2 as ->. }
  apply NoDup_fmap_2_strong.
  - intros p1 p2 Hp1 Hp2 Hid. unfold indexed_pages in Hp1, Hp2.
    apply list_elem_of_bind in Hp1 as (f1 & Hp1 & Hf1).
    apply list_elem_of_bind in Hp2 as (f2 & Hp2 & Hf2).
    by destruct (Hkey f1 f2 p1 p2).
  - unfold indexed_pages. apply NoDup_bind.
    + intros f1 f2 p Hf1 Hf2 Hp1 Hp2.
      by destruct (Hkey f1 f2 p p).
    + intros f Hf. fold (file_chunks f). fold (file_nodes f).
      apply NoDup_alt. intros i j p Hi Hj. unfold file_nodes in Hi, Hj.
      rewrite list_lookup_imap in Hi, Hj.
      destruct (file_chunks f !! i) as [ci|] eqn:Ei; [|done].
      destruct (file_chunks f !! j) as [cj|] eqn:Ej; [|done].
      cbn [fmap option_fmap option_map] in Hi, Hj. rewrite <- Hi in Hj.
      apply (f_equal (fmap pn_chunk_idx)) in Hj.
      cbn [fmap option_fmap option_map node_of_chunk pn_chunk_idx] in Hj.
      injection Hj. lia.
    + by apply NoDup_fmap_1 in Hstems.
Qed.

Lemma page_ids_distinct_witness :
  NoDup (pn_id <$> indexed_pages story_batch).
Proof.
  apply page_ids_distinct.
  - apply (bool_decide_unpack _). vm_compute. exact I.
  - intros f Hf. apply elem_of_cons in Hf as [->|Hf].
    { apply (bool_decide_unpack _). vm_compute. exact I. }
    apply list_elem_of_singleton in Hf as ->.
    apply (bool_decide_unpack _). vm_compute. exact I.
Defined.

(** ** The context of a chunk on a freshly built store *)

Lemma omap_omap {A B C : Type} (f : A → option B) (g : B → option C)
    (l : list A) :
  omap g (omap f l) = omap (λ x, f x ≫= g) l.
Proof.
  induction l as [|x l IH]; [done|].
  rewrite !omap_cons_eq. destruct (f x) as [y|]; cbn [mbind option_bind].
  - rewrite omap_cons_eq, IH. done.
  - done.
Qed.

Lemma omap_bind_list {A B C : Type} (h : B → option C) (g : A → list B)
    (l : list A) :
  omap h (l ≫= g) = l ≫= (λ x, omap h (g x)).
Proof.
  induction l as [|x l IH]; [done|].
  by rewrite !bind_cons, omap_app, IH.
Qed.

Lemma omap_ext_in {A B : Type} (f g : A → option B) (l : list A) :
  (∀ x, x ∈ l → f x = g x) → omap f l = omap g l.
Proof.
  induction l as [|x l IH]; intros H; [done|].
  rewrite !omap_cons_eq, H, IH; [done| |left].
  intros y Hy. apply H. by right.
Qed.

Lemma omap_length_le {A B : Type} (f : A → option B) (l : list A) :
  (length (omap f l) ≤ length l)%nat.
Proof.
  induction l as [|x l IH]; [done|].
  rewrite omap_cons_eq. destruct (f x); cbn [length]; lia.
Qed.

Lemma bind_seq_one {B : Type} (g : nat → list B) (m i : nat) :
  (∀ j, (j < m)%nat → j ≠ i → g j = []) →
  seq 0 m ≫= g = if bool_decide (i < m)%nat then g i else [].
Proof.
  intros Hother. induction m as [|m IH].
  - by rewrite bool_decide_false by lia.
  - rewrite seq_S, bind_app, IH by (intros j ? ?; apply Hother; lia).
    cbn [Nat.add]. rewrite bind_cons.
    change (@nil nat ≫= g) with (@nil B). rewrite (right_id_L [] (++)).
    destruct (decide (i = m)) as [->|Hne].
    + rewrite bool_decide_false, bool_decide_true by lia. done.
    + rewrite (Hother m) by lia. rewrite (right_id_L [] (++)).
      destruct (decide (i < m)%nat).
      * by rewrite !bool_decide_true by lia.
      * by rewrite !bool_decide_false by lia.
Qed.

Lemma related_rel_other first nodes i j a :
  (first + i)%nat ≠ a → related_rel first nodes (i, j) ≫= related_from a = None.
Proof.
  intros Hne. unfold related_rel. cbn [fst snd].
  destruct (nodes !! i); [|done]. destruct (nodes !! j); [|done].
  cbn [mbind option_bind]. case_bool_decide; [|done].
  cbn [mbind option_bind related_from]. by rewrite bool_decide_false.
Qed.

Lemma related_targets_outside first nodes i :
  (length nodes ≤ i + 2)%nat → related_targets first nodes i = [].
Proof.
  intros H. unfold related_targets.
  by replace (Nat.min (i + 6) (length nodes) - (i + 2))%nat with 0%nat by lia.
Qed.

Lemma omap_fmap_eq {A B C : Type} (f : B → option C) (h : A → B)
    (l : list A) :
  omap f (h <$> l) = omap (λ x, f (h x)) l.
Proof.
  induction l as [|x l IH]; [done|].
  by rewrite fmap_cons, !omap_cons_eq, IH.
Qed.

Lemma document_rels_related_from d first nodes a :
  omap (related_from a) (document_rels d first nodes)
  = if bool_decide (first ≤ a)%nat then related_targets first nodes (a - first)
    else [].
Proof.
  unfold document_rels. rewrite !omap_app, !omap_fmap_seq.
  rewrite (omap_none _ (seq 0 (length nodes))) by done.
  rewrite (omap_none _ (seq 0 (length nodes - 1))) by done.
  cbn [app]. rewrite omap_omap. unfold window_pairs.
  rewrite omap_bind_list.
  destruct (decide (first ≤ a)%nat) as [Hle|Hlt].
  - rewrite bool_decide_true by done.
    rewrite (bind_seq_one _ _ (a - first)).
    2: { intros j _ Hj. rewrite omap_fmap_eq. apply omap_none.
         intros j' _. apply related_rel_other. lia. }
    case_bool_decide as Hin.
    + rewrite omap_fmap_eq. unfold related_targets.
      by replace (first + (a - first))%nat with a by lia.
    + by rewrite related_targets_outside by lia.
  - rewrite bool_decide_false by done.
    rewrite (bind_seq_one _ _ 0).
    2: { intros j _ Hj. rewrite omap_fmap_eq. apply omap_none.
         intros j' _. apply related_rel_other. lia. }
    case_bool_decide; [|done].
    rewrite omap_fmap_eq. apply omap_none.
    intros j' _. apply related_rel_other. lia.
Qed.

Lemma batch_rels_related_before docs : ∀ d first a,
  (a < first)%nat → omap (related_from a) (batch_rels d first docs) = [].
Proof.
  induction docs as [|nodes docs IH]; intros d first a Ha; [done|].
  cbn [batch_rels]. rewrite omap_app, document_rels_related_from, IH by lia.
  by rewrite bool_decide_false by lia.
Qed.

Lemma batch_rels_related_from docs : ∀ d first k nodes i,
  docs !! k = Some nodes → (i < length nodes)%nat →
  omap (related_from (first + length (concat (take k docs)) + i))
       (batch_rels d first docs)
  = related_targets (first + length (concat (take k docs))) nodes i.
Proof.
  induction docs as [|nodes0 docs IH]; intros d first k nodes i Hk Hi; [done|].
  cbn [batch_rels]. rewrite omap_app, document_rels_related_from.
  destruct k as [|k].
  - injection Hk as ->. cbn [take concat length].
    rewrite batch_rels_related_before by lia. rewrite (right_id_L [] (++)).
    rewrite bool_decide_true by lia.
    replace (first + 0 + i - first)%nat with i by lia.
    by replace (first + 0)%nat with first by lia.
  - cbn [take concat]. rewrite length_app. cbn in Hk.
    rewrite bool_decide_true by lia.
    rewrite related_targets_outside by lia. cbn [app].
    specialize (IH (S d) (first + length nodes0)%nat k nodes i Hk Hi).
    replace (first + (length nodes0 + length (concat (take k docs))) + i)%nat
      with (first + length nodes0 + length (concat (take k docs)) + i)%nat by lia.
    rewrite IH. f_equal. lia.
Qed.

Lemma store_related_all_at g a pa :
  NoDup (pn_id <$> g_pages g) → g_pages g !! a = Some pa →
  store_related_all g (pn_id pa)
  = omap (related_node (g_pages g)) (omap (related_from a) (g_rels g)).
Proof.
  intros Hnd Ha. unfold store_related_all.
  induction (g_rels g) as [|r rels IH]; [done|].
  rewrite bind_cons, IH, omap_cons_eq. destruct r as [| |a' b kw dist]; try done.
  cbn [related_from]. destruct (g_pages g !! a') as [p1|] eqn:E1.
  - destruct (String.eqb (pn_id p1) (pn_id pa)) eqn:E.
    + apply String.eqb_eq in E.
      assert (a' = a) as ->.
      { eapply NoDup_lookup; [exact Hnd| |].
        - by rewrite list_lookup_fmap, E1.
        - by rewrite list_lookup_fmap, Ha, E. }
      rewrite bool_decide_true by done. rewrite omap_cons_eq.
      change (related_node (g_pages g) (b, kw, dist))
        with ((λ p, (p, kw, dist)) <$> g_pages g !! b).
      by destruct (g_pages g !! b).
    + rewrite bool_decide_false.
      2: { intros ->. rewrite Ha in E1. injection E1 as ->.
           by rewrite String.eqb_refl in E. }
      by destruct (g_pages g !! b).
  - rewrite bool_decide_false; [done|]. intros ->. by rewrite Ha in E1.
Qed.

Lemma related_targets_nodes pages first nodes i :
  (∀ j, (j < length nodes)%nat → pages !! (first + j)%nat = nodes !! j) →
  omap (related_node pages) (related_targets first nodes i)
  = related_after nodes i.
Proof.
  intros Hpages. unfold related_targets, related_after.
  rewrite omap_omap. apply omap_ext_in. intros j _.
  unfold related_rel. cbn [fst snd].
  destruct (nodes !! i) as [pi|]; [|done].
  destruct (nodes !! j) as [pj|] eqn:Ej; [|done].
  cbn [mbind option_bind]. case_bool_decide; [|done].
  cbn [mbind option_bind related_from]. rewrite bool_decide_true by done.
  cbn [mbind option_bind]. unfold related_node. cbn [fst snd].
  rewrite Hpages by by eapply lookup_lt_Some. by rewrite Ej.
Qed.

Lemma get_intra_document_context_found sv db doc_id chunk_idx recs rec
    nexts prevs rels :
  neo4j_driver sv = Some db →
  session db = Return () →
  find_page db doc_id chunk_idx = Return recs →
  head recs = Some rec →
  next_chunks db (r_id rec) = Rows nexts None →
  previous_chunks db (r_id rec) = Rows prevs None →
  related_chunks db (r_id rec) = Rows rels None →
  get_intra_document_context sv doc_id chunk_idx
  = Return [("doc_id", VStr doc_id);
            ("chunk_idx", VInt chunk_idx);
            ("next_chunks",
             VList ((λ r, context_of (cr_id r) (cr_idx r) (cr_page_range_str r)
                            (cr_text r)) <$> nexts));
            ("discussing_chunks",
             VList ((λ r, discussing_of (cr_id r) (cr_idx r) (cr_page_range_str r)
                            (cr_text r) (cr_keywords r) (cr_distance r)) <$> rels));
            ("previous_chunks",
             VList ((λ r, context_of (cr_id r) (cr_idx r) (cr_page_range_str r)
                            (cr_text r)) <$> prevs));
            ("error", VNone)].
Proof.
  intros Hdb Hsession Hfind Hhead Hnext Hprev Hrel.
  assert (Hc : ∀ rows : list chunk_row,
            context_entry <$> rows
            = (λ r, context_of (cr_id r) (cr_idx r) (cr_page_range_str r)
                      (cr_text r)) <$> rows).
  { intros rows. apply list_fmap_ext. intros _ r _.
    unfold context_entry, context_of. by rewrite preview_shown. }
  assert (Hd : ∀ rows : list chunk_row,
            discussing_entry <$> rows
            = (λ r, discussing_of (cr_id r) (cr_idx r) (cr_page_range_str r)
                      (cr_text r) (cr_keywords r) (cr_distance r)) <$> rows).
  { intros rows. apply list_fmap_ext. intros _ r _.
    unfold discussing_entry, discussing_of. by rewrite preview_shown. }
  unfold get_intra_document_context. rewrite Hdb.
  unfold returning, try_except, mbind, block_bind, call, set_key, end_of_rows.
  rewrite Hsession, Hfind, Hhead, Hnext, Hprev, Hrel. cbn [received failure].
  rewrite !Hc, Hd. reflexivity.
Qed.

Lemma filter_bind {A B : Type} (P : B → Prop) `{∀ x, Decision (P x)}
    (g : A → list B) (l : list A) :
  filter P (l ≫= g) = l ≫= (λ x, filter P (g x)).
Proof.
  induction l as [|x l IH]; [done|].
  by rewrite !bind_cons, filter_app, IH.
Qed.

Lemma bind_empty {A B : Type} (g : A → list B) (l : list A) :
  (∀ x, x ∈ l → g x = []) → l ≫= g = [].
Proof.
  induction l as [|x l IH]; intros H; [done|].
  rewrite bind_cons, H by left. apply IH. intros y Hy. apply H. by right.
Qed.

Lemma filter_imap_one {A B : Type} (P : B → Prop) `{∀ x, Decision (P x)}
    (l : list A) : ∀ (h : nat → A → B) (i : nat) (c : A),
  l !! i = Some c → P (h i c) →
  (∀ j x, j ≠ i → l !! j = Some x → ¬ P (h j x)) →
  filter P (imap h l) = [h i c].
Proof.
  induction l as [|x l IH]; intros h i c Hi HP Hother; [done|].
  cbn [imap]. destruct i as [|i].
  - injection Hi as ->. rewrite filter_cons_True by done. f_equal.
    apply filter_none. intros y (j & z & -> & Hz)%elem_of_lookup_imap.
    apply (Hother (S j)); [lia|done].
  - rewrite filter_cons_False by (apply (Hother 0%nat); [lia|done]).
    apply (IH (h ∘ S) i c Hi HP). intros j z Hj Hz.
    apply (Hother (S j)); [lia|done].
Qed.

Lemma fresh_find_page files k f i c :
  NoDup (f_stem <$> files) →
  files !! k = Some f →
  file_chunks f !! i = Some c →
  store_find_page (indexed_graph files) (f_stem f) (Z.of_nat i)
  = [node_of_chunk (f_stem f) i c].
Proof.
  intros Hstems Hfile Hchunk.
  unfold store_find_page. cbn [indexed_graph g_pages]. unfold indexed_pages.
  rewrite filter_bind.
  rewrite <- (take_drop_middle files k f Hfile) in Hstems |- *.
  rewrite fmap_app, fmap_cons in Hstems.
  apply NoDup_app in Hstems as (_ & Hbefore & Hafter).
  apply NoDup_cons in Hafter as [Hafter _].
  rewrite bind_app, bind_cons.
  assert (Hother : ∀ x, f_stem x ≠ f_stem f →
            filter (λ p, pn_doc_id p = f_stem f ∧ pn_chunk_idx p = Z.of_nat i)
              (imap (node_of_chunk (f_stem x))
                 (split_by_pages (f_content x) MIN_WORDS)) = []).
  { intros x Hx. apply filter_none.
    intros p (j & z & -> & _)%elem_of_lookup_imap [Hdoc _]. done. }
  rewrite !bind_empty, (right_id_L [] (++)).
  - cbn [app]. apply filter_imap_one; [done|done|].
    intros j x Hj _ [_ Hidx]. cbn [pn_chunk_idx node_of_chunk] in Hidx. lia.
  - intros x Hx. apply Hother. intros Heq. apply Hafter.
    rewrite <- Heq. by apply list_elem_of_fmap_2.
  - intros x Hx. apply Hother. intros Heq. apply (Hbefore (f_stem x)).
    + by apply list_elem_of_fmap_2.
    + rewrite Heq. left.
Qed.

Lemma fresh_related files k f i c :
  NoDup (pn_id <$> indexed_pages files) →
  files !! k = Some f →
  file_chunks f !! i = Some c →
  store_related_all (indexed_graph files) (pn_id (node_of_chunk (f_stem f) i c))
  = related_after (file_nodes f) i.
Proof.
  intros Hids Hfile Hchunk.
  destruct (fresh_node_position files k f i c Hfile Hchunk) as (Hi & Hnode & Hpos).
  rewrite (store_related_all_at (indexed_graph files)
             (first_position files k + i)) by done.
  cbn [indexed_graph g_pages g_rels].
  destruct (first_position_lookup files k f i Hfile Hi) as [Hfirst _].
  rewrite Hfirst.
  pose proof (batch_rels_related_from (file_nodes <$> files) 0 0 k (file_nodes f) i)
    as Hrel.
  cbn [Nat.add] in Hrel. rewrite Hrel; [|by rewrite list_lookup_fmap, Hfile|done].
  apply related_targets_nodes. intros j Hj. rewrite <- Hfirst.
  by destruct (first_position_lookup files k f j Hfile Hj) as [_ ->].
Qed.

Lemma related_after_length nodes i : (length (related_after nodes i) ≤ 4)%nat.
Proof.
  unfold related_after.
  etrans; [apply omap_length_le|]. rewrite length_seq. lia.
Qed.

Lemma related_after_elem f i c x :
  file_chunks f !! i = Some c →
  x ∈ related_after (file_nodes f) i ↔
  ∃ j cj, (i + 2 ≤ j ≤ i + 5)%nat ∧ file_chunks f !! j = Some cj
          ∧ SIMILARITY_THRESHOLD
            ≤ Z.of_nat (size (keywords (text c) ∩ keywords (text cj)))
          ∧ x = (node_of_chunk (f_stem f) j cj,
                 take 5 (elements (keywords (text c) ∩ keywords (text cj))),
                 page_num cj - page_num c).
Proof.
  intros Hchunk. unfold related_after. rewrite list_elem_of_omap.
  assert (Hlen : length (file_nodes f) = length (file_chunks f)).
  { unfold file_nodes. by rewrite length_imap. }
  assert (Hnode : ∀ j, file_nodes f !! j
                       = node_of_chunk (f_stem f) j <$> file_chunks f !! j).
  { intros j. unfold file_nodes. by rewrite list_lookup_imap. }
  split.
  - intros (j & Hj & Hx). apply elem_of_seq in Hj.
    rewrite !Hnode, Hchunk in Hx. cbn [fmap option_fmap option_map mbind option_bind] in Hx.
    destruct (file_chunks f !! j) as [cj|] eqn:Ej; [|done].
    cbn [fmap option_fmap option_map mbind option_bind pn_text pn_page_num node_of_chunk] in Hx.
    case_bool_decide as Hsize; [|done]. injection Hx as <-.
    exists j, cj. conjuncts; try done; lia.
  - intros (j & cj & Hj & Ej & Hsize & ->). exists j. split.
    + apply elem_of_seq. apply lookup_lt_Some in Ej. lia.
    + rewrite !Hnode, Hchunk, Ej.
      cbn [fmap option_fmap option_map mbind option_bind pn_text pn_page_num node_of_chunk].
      by rewrite bool_decide_true.
Qed.

Lemma chunk_of_node_of_chunk f j cj :
  file_chunks f !! j = Some cj →
  chunk_of_node (node_of_chunk (f_stem f) j cj) = cj.
Proof.
  intros Hj. apply list_elem_of_lookup_2 in Hj.
  pose proof (chunk_word_count (f_content f) MIN_WORDS cj Hj) as Hwc.
  destruct cj. unfold chunk_of_node. cbn in *. by rewrite Hwc.
Qed.

Lemma StronglySorted_fmap_in {A B : Type} (f : A → B) (R1 : relation A)
    (R2 : relation B) (l : list A) :
  (∀ x y, x ∈ l → y ∈ l → R1 x y → R2 (f x) (f y)) →
  StronglySorted R1 l → StronglySorted R2 (f <$> l).
Proof.
  intros H Hl. induction Hl as [|x l Hl IH Hx]; [constructor|].
  rewrite fmap_cons. constructor.
  - apply IH. intros a b Ha Hb. apply H; by right.
  - apply Forall_fmap, Forall_forall. intros y Hy. cbn.
    apply H; [left|by right|]. rewrite Forall_forall in Hx. by apply Hx.
Qed.

(** X16. The context of a chunk on a store built from the empty store, for
    files with distinct stems whose Page nodes get distinct ids. For the
    [doc] and [chunk_idx] of the [i]-th chunk of a file the lookup finds the
    node of that chunk and returns no error; [next_chunks] is the chunk
    after it and [previous_chunks] the chunk before it, or empty at the
    ends of the file. [discussing_chunks] holds at most four entries, most
    stored keywords first: exactly the chunks two to five positions after
    it in the same file that share at least [SIMILARITY_THRESHOLD] keywords
    with it, each with up to five of the shared keywords and the distance
    of the page numbers. Chunks before it are never listed, and neither is
    the chunk next to it. Every entry carries the id, the position, the
    page-range label and the first 200 characters of the text of its
    chunk. *)
Theorem fresh_run_context (encode : string → vector)
    (files : list source_file) (g : graph) (k : nat) (f : source_file)
    (i : nat) (c : chunk) :
  run_index encode files empty_graph = Return g →
  NoDup (f_stem <$> files) →
  NoDup (pn_id <$> indexed_pages files) →
  files !! k = Some f →
  file_chunks f !! i = Some c →
  let label cj := range_label (page_range cj) in
  let entry j cj :=
    context_of (f_stem f +:+ "_page_" +:+ label cj) (Z.of_nat j) (label cj)
               (text cj) in
  let neighbour j := option_list (entry j <$> file_chunks f !! j) in
  ∃ d related,
    get_intra_document_context (store_services g) (f_stem f) (Z.of_nat i)
    = Return d
    ∧ dict_get "error" d = Some VNone
    ∧ dict_get "next_chunks" d = Some (VList (neighbour (S i)))
    ∧ dict_get "previous_chunks" d
      = Some (VList (match i with O => [] | S j => neighbour j end))
    ∧ dict_get "discussing_chunks" d
      = Some (VList ((λ x : nat * chunk,
                        discussing_of (f_stem f +:+ "_page_" +:+ label x.2)
                          (Z.of_nat x.1) (label x.2) (text x.2)
                          (stored_keywords c x.2) (page_num x.2 - page_num c))
                       <$> related))
    ∧ (length related ≤ 4)%nat
    ∧ StronglySorted (λ a b : nat * chunk,
                        (length (stored_keywords c b.2)
                         ≤ length (stored_keywords c a.2))%nat) related
    ∧ ∀ j cj, (j, cj) ∈ related ↔
        (i + 2 ≤ j ≤ i + 5)%nat ∧ file_chunks f !! j = Some cj
        ∧ SIMILARITY_THRESHOLD
          ≤ Z.of_nat (size (keywords (text c) ∩ keywords (text cj))).
Proof.
  intros Hrun Hstems Hids Hfile Hchunk label entry neighbour.
  rewrite (run_index_fresh _ _ _ Hrun Hstems Hids).
  set (p := node_of_chunk (f_stem f) i c).
  pose proof (fresh_find_page files k f i c Hstems Hfile Hchunk) as Hfind.
  pose proof (fresh_successors files k f i c Hids Hfile Hchunk) as Hnext.
  pose proof (fresh_predecessors files k f i c Hids Hfile Hchunk) as Hprev.
  pose proof (fresh_related files k f i c Hids Hfile Hchunk) as Hrel.
  fold p in Hfind, Hnext, Hprev, Hrel.
  set (sorted := merge_sort by_keywords_desc (related_after (file_nodes f) i)).
  assert (Hperm : sorted ≡ₚ related_after (file_nodes f) i)
    by apply merge_sort_Permutation.
  assert (Hlen : (length sorted ≤ 4)%nat).
  { rewrite Hperm. apply related_after_length. }
  assert (Hnode : ∀ j, file_nodes f !! j
                       = node_of_chunk (f_stem f) j <$> file_chunks f !! j).
  { intros j. unfold file_nodes. by rewrite list_lookup_imap. }
  assert (Hmem : ∀ x, x ∈ sorted ↔
            ∃ j cj, (i + 2 ≤ j ≤ i + 5)%nat ∧ file_chunks f !! j = Some cj
              ∧ SIMILARITY_THRESHOLD
                ≤ Z.of_nat (size (keywords (text c) ∩ keywords (text cj)))
              ∧ x = (node_of_chunk (f_stem f) j cj, stored_keywords c cj,
                     page_num cj - page_num c)).
  { intros x. rewrite Hperm. by apply related_after_elem. }
  set (back := λ x : page_node * list string * Z,
                 (Z.to_nat (pn_chunk_idx x.1.1), chunk_of_node x.1.1)).
  assert (Hback : ∀ j cj, file_chunks f !! j = Some cj →
            back (node_of_chunk (f_stem f) j cj, stored_keywords c cj,
                  page_num cj - page_num c) = (j, cj)).
  { intros j cj Hj. unfold back. cbn [fst snd].
    rewrite (chunk_of_node_of_chunk f j cj Hj).
    cbn [pn_chunk_idx node_of_chunk]. by rewrite Nat2Z.id. }
  eexists _, (back <$> sorted). split.
  - apply (get_intra_document_context_found _ (store_driver (indexed_graph files))
             _ _ [row_of_page p] (row_of_page p)); try reflexivity.
    cbn [find_page store_driver]. by rewrite Hfind.
  - cbn [dict_get String.eqb Ascii.eqb Bool.eqb r_id row_of_page].
    unfold store_related. rewrite Hnext, Hprev, Hrel. fold sorted.
    rewrite (take_ge sorted) by lia. conjuncts.
    + done.
    + unfold neighbour. rewrite Hnode.
      by destruct (file_chunks f !! S i).
    + destruct i as [|j]; [done|]. unfold neighbour. rewrite Hnode.
      by destruct (file_chunks f !! j).
    + f_equal. f_equal. rewrite <- !list_fmap_compose.
      apply list_fmap_ext. intros n x Hx.
      apply list_elem_of_lookup_2, Hmem in Hx as (j & cj & _ & Hj & _ & ->).
      cbn [compose]. rewrite (Hback j cj Hj). reflexivity.
    + by rewrite length_fmap.
    + apply (StronglySorted_fmap_in back by_keywords_desc);
        [|apply (StronglySorted_merge_sort _)].
      intros x y (jx & cx & _ & Hjx & _ & ->)%Hmem
                 (jy & cy & _ & Hjy & _ & ->)%Hmem Hxy.
      rewrite (Hback jx cx Hjx), (Hback jy cy Hjy). exact Hxy.
    + intros j cj. rewrite list_elem_of_fmap. split.
      * intros (x & Hx & (j' & cj' & Hr & Hj' & Hsize & ->)%Hmem).
        rewrite (Hback j' cj' Hj') in Hx. by injection Hx as -> ->.
      * intros (Hr & Hj & Hsize).
        exists (node_of_chunk (f_stem f) j cj, stored_keywords c cj,
                page_num cj - page_num c).
        split; [by rewrite Hback|]. apply Hmem. by exists j, cj.
Qed.

Lemma fresh_run_context_witness :
  ∃ d, get_intra_document_context (store_services story_batch_graph) "s" 0
       = Return d
       ∧ dict_get "error" d = Some VNone.
Proof.
  destruct (fresh_run_context sample_encode story_batch story_batch_graph
              1 (SourceFile "s.md" "s" story_doc) 0
              (Chunk 1 [1] (keyword_page 1 "alpha bravo charlie") 55 false))
    as (d & related & Hd & Herr & _).
  { vm_compute. reflexivity. }
  { apply (bool_decide_unpack _). vm_compute. exact I. }
  { apply (bool_decide_unpack _). vm_compute. exact I. }
  { reflexivity. }
  { vm_compute. reflexivity. }
  exists d. split; [exact Hd|exact Herr].
Defined.

(** ** The statistics of a document on a freshly built store *)

Lemma get_document_info_found sv db doc_id rows n m :
  neo4j_driver sv = Some db →
  session db = Return () →
  document_pages db doc_id = Rows rows None →
  count_next db doc_id = Return [n] →
  count_related db doc_id = Return [m] →
  get_document_info sv doc_id
  = Return [("doc_id", VStr doc_id);
            ("chunks",
             VList ((λ r, summary_of (cr_id r) (cr_idx r) (cr_page_range_str r)
                            (cr_is_merged r) (cr_text r)) <$> rows));
            ("stats",
             stats_of (Z.of_nat (length rows))
               (Z.of_nat (length (filter (λ r, cr_is_merged r = true) rows)))
               n m (n + m));
            ("error", VNone)].
Proof.
  intros Hdb Hsession Hrows Hn Hm.
  unfold get_document_info. rewrite Hdb.
  unfold returning, try_except, mbind, block_bind, call, set_key, end_of_rows.
  rewrite Hsession, Hrows, Hn, Hm. cbn [received failure].
  rewrite (list_fmap_ext summary_entry
             (λ r, summary_of (cr_id r) (cr_idx r) (cr_page_range_str r)
                     (cr_is_merged r) (cr_text r)) rows)
    by (intros _ r _; apply summary_entry_of).
  reflexivity.
Qed.

Lemma store_contained_at g d dn :
  NoDup (dn_id <$> g_docs g) → g_docs g !! d = Some dn →
  store_contained g (dn_id dn) = omap (contains_from d) (g_rels g).
Proof.
  intros Hnd Hd. unfold store_contained.
  induction (g_rels g) as [|r rels IH]; [done|].
  rewrite bind_cons, IH, omap_cons_eq. destruct r as [d' p| |]; try done.
  cbn [contains_from]. destruct (g_docs g !! d') as [dn'|] eqn:E1.
  - destruct (String.eqb (dn_id dn') (dn_id dn)) eqn:E.
    + apply String.eqb_eq in E.
      assert (d' = d) as ->.
      { eapply NoDup_lookup; [exact Hnd| |].
        - by rewrite list_lookup_fmap, E1.
        - by rewrite list_lookup_fmap, Hd, E. }
      by rewrite bool_decide_true by done.
    + rewrite bool_decide_false; [done|].
      intros ->. rewrite Hd in E1. injection E1 as ->.
      by rewrite String.eqb_refl in E.
  - rewrite bool_decide_false; [done|]. intros ->. by rewrite Hd in E1.
Qed.

Lemma omap_some_seq {B : Type} (h : nat → B) a n :
  omap (λ i, Some (h i)) (seq a n) = h <$> seq a n.
Proof.
  revert a. induction n as [|n IH]; intros a; [done|].
  cbn [seq]. by rewrite omap_cons_eq, fmap_cons, IH.
Qed.

Lemma document_rels_contains_from d first nodes d' :
  omap (contains_from d') (document_rels d first nodes)
  = if bool_decide (d = d') then seq first (length nodes) else [].
Proof.
  unfold document_rels. rewrite !omap_app, !omap_fmap_seq.
  rewrite (omap_none _ (seq 0 (length nodes - 1))) by done.
  rewrite (omap_none _ (omap _ _)).
  2: { intros r (ij & _ & Hr)%list_elem_of_omap.
       by apply related_rel_kind in Hr as (? & ? & ? & ? & ->). }
  rewrite !(right_id_L [] (++)). cbn [contains_from].
  case_bool_decide.
  - rewrite (omap_some_seq (λ i, (first + i)%nat)).
    rewrite fmap_add_seq. f_equal. lia.
  - by apply omap_none.
Qed.

Lemma batch_rels_contains_before docs : ∀ d first d',
  (d' < d)%nat → omap (contains_from d') (batch_rels d first docs) = [].
Proof.
  induction docs as [|nodes docs IH]; intros d first d' Hd; [done|].
  cbn [batch_rels]. rewrite omap_app, document_rels_contains_from, IH by lia.
  by rewrite bool_decide_false by lia.
Qed.

Lemma batch_rels_contains_from docs : ∀ d first k nodes,
  docs !! k = Some nodes →
  omap (contains_from (d + k)) (batch_rels d first docs)
  = seq (first + length (concat (take k docs))) (length nodes).
Proof.
  induction docs as [|nodes0 docs IH]; intros d first k nodes Hk; [done|].
  cbn [batch_rels]. rewrite omap_app, document_rels_contains_from.
  destruct k as [|k].
  - injection Hk as ->. cbn [take concat length].
    rewrite batch_rels_contains_before by lia. rewrite (right_id_L [] (++)).
    rewrite bool_decide_true by lia. f_equal. lia.
  - cbn [take concat]. rewrite length_app. cbn in Hk.
    rewrite bool_decide_false by lia. cbn [app].
    specialize (IH (S d) (first + length nodes0)%nat k nodes Hk).
    replace (d + S k)%nat with (S d + k)%nat by lia.
    rewrite IH. f_equal. lia.
Qed.

Lemma omap_lookup_seq {A : Type} (nodes : list A) : ∀ (pages : list A) first,
  (∀ j, (j < length nodes)%nat → pages !! (first + j)%nat = nodes !! j) →
  omap (λ i, pages !! i) (seq first (length nodes)) = nodes.
Proof.
  induction nodes as [|x nodes IH]; intros pages first H; [done|].
  cbn [length seq]. rewrite omap_cons_eq.
  pose proof (H 0%nat ltac:(cbn; lia)) as H0.
  rewrite Nat.add_0_r in H0. rewrite H0. cbn [lookup list_lookup]. f_equal.
  apply IH. intros j Hj.
  replace (S first + j)%nat with (first + S j)%nat by lia.
  by rewrite H by (cbn; lia).
Qed.

Lemma imap_sorted {A B : Type} (R : relation B) (l : list A) : ∀ (h : nat → A → B),
  (∀ i j x y, (i < j)%nat → l !! i = Some x → l !! j = Some y →
              R (h i x) (h j y)) →
  StronglySorted R (imap h l).
Proof.
  induction l as [|x l IH]; intros h H; [constructor|].
  cbn [imap]. constructor.
  - apply IH. intros i j a b Hij Ha Hb. apply (H (S i) (S j)); [lia|done..].
  - apply Forall_forall. intros y (j & z & -> & Hz)%elem_of_lookup_imap.
    apply (H 0%nat (S j)); [lia|done..].
Qed.

Lemma file_nodes_sorted f :
  merge_sort by_chunk_idx (file_nodes f) = file_nodes f.
Proof.
  apply (StronglySorted_unique_strong by_chunk_idx).
  - intros p q Hp Hq Hpq Hqp. unfold by_chunk_idx in Hpq, Hqp.
    rewrite merge_sort_Permutation in Hp.
    revert Hp Hq. unfold file_nodes.
    intros (i & ci & -> & Hi)%elem_of_lookup_imap
           (j & cj & -> & Hj)%elem_of_lookup_imap.
    cbn [pn_chunk_idx node_of_chunk] in Hpq, Hqp.
    assert (i = j) as -> by lia. rewrite Hi in Hj. by injection Hj as ->.
  - apply (StronglySorted_merge_sort _).
  - unfold file_nodes. apply imap_sorted. intros i j x y Hij _ _.
    unfold by_chunk_idx. cbn [pn_chunk_idx node_of_chunk]. lia.
  - apply merge_sort_Permutation.
Qed.

Lemma count_next_from rels p :
  length (filter (λ r, is_next_page r = true ∧ page_source r = Some p) rels)
  = length (omap (next_from p) rels).
Proof.
  induction rels as [|r rels IH]; [done|].
  rewrite omap_cons_eq. destruct r as [| a b |]; cbn [next_from].
  - rewrite filter_cons_False by (by intros [? _]). done.
  - case_bool_decide as Ha.
    + subst a. rewrite filter_cons_True by done. cbn [length]. by rewrite IH.
    + rewrite filter_cons_False; [done|].
      intros [_ [= ->]]. done.
  - rewrite filter_cons_False by (by intros [? _]). done.
Qed.

Lemma count_related_from rels p :
  length (filter (λ r, is_related_to r = true ∧ page_source r = Some p) rels)
  = length (omap (related_from p) rels).
Proof.
  induction rels as [|r rels IH]; [done|].
  rewrite omap_cons_eq. destruct r as [| | a b kw dist]; cbn [related_from].
  - rewrite filter_cons_False by (by intros [? _]). done.
  - rewrite filter_cons_False by (by intros [? _]). done.
  - case_bool_decide as Ha.
    + subst a. rewrite filter_cons_True by done. cbn [length]. by rewrite IH.
    + rewrite filter_cons_False; [done|].
      intros [_ [= ->]]. done.
Qed.

Lemma length_bind_ext {A B C : Type} (g1 : A → list B) (g2 : A → list C)
    (l : list A) :
  (∀ x, x ∈ l → length (g1 x) = length (g2 x)) →
  length (l ≫= g1) = length (l ≫= g2).
Proof.
  induction l as [|x l IH]; intros H; [done|].
  rewrite !bind_cons, !length_app, H by left. f_equal.
  apply IH. intros y Hy. apply H. by right.
Qed.

Lemma length_bind_ones {A B : Type} (g : A → list B) (l : list A) :
  (∀ x, x ∈ l → length (g x) = 1%nat) → length (l ≫= g) = length l.
Proof.
  induction l as [|x l IH]; intros H; [done|].
  rewrite bind_cons, length_app, H by left. cbn [length]. f_equal.
  apply IH. intros y Hy. apply H. by right.
Qed.

Lemma bind_fmap_list {A B C : Type} (h : A → B) (g : B → list C) (l : list A) :
  (h <$> l) ≫= g = l ≫= (λ x, g (h x)).
Proof.
  induction l as [|x l IH]; [done|].
  by rewrite fmap_cons, !bind_cons, IH.
Qed.

Lemma omap_length_ext {A B C : Type} (f : A → option B) (g : A → option C)
    (l : list A) :
  (∀ x, x ∈ l → is_Some (f x) ↔ is_Some (g x)) →
  length (omap f l) = length (omap g l).
Proof.
  induction l as [|x l IH]; intros H; [done|].
  rewrite !omap_cons_eq. specialize (IH (λ y Hy, H y (list_elem_of_further _ _ _ Hy))).
  pose proof (H x ltac:(left)) as Hx.
  destruct (f x), (g x); cbn [length]; try by rewrite IH.
  - destruct Hx as [Hx _]. by destruct Hx.
  - destruct Hx as [_ Hx]. by destruct Hx.
Qed.

Lemma related_targets_length first nodes i :
  length (related_targets first nodes i) = length (related_after nodes i).
Proof.
  unfold related_targets, related_after. apply omap_length_ext.
  intros j _. unfold related_rel. cbn [fst snd].
  destruct (nodes !! i); cbn [mbind option_bind];
    [|by split; intros [? [=]]].
  destruct (nodes !! j); cbn [mbind option_bind];
    [|by split; intros [? [=]]].
  case_bool_decide; cbn [mbind option_bind related_from];
    [|by split; intros [? [=]]].
  rewrite bool_decide_true by done.
  split; intros _; by eexists.
Qed.

Section fresh_document.
Variables (files : list source_file) (k : nat) (f : source_file).
Hypothesis stems : NoDup (f_stem <$> files).
Hypothesis file : files !! k = Some f.

Lemma fresh_first_position :
  first_position files k = length (concat (take k (file_nodes <$> files))).
Proof.
  unfold first_position. by rewrite indexed_pages_concat, fmap_take.
Qed.

Lemma fresh_contained :
  store_contained (indexed_graph files) (f_stem f)
  = seq (first_position files k) (length (file_nodes f)).
Proof.
  change (f_stem f) with (dn_id (doc_of_file f)).
  rewrite (store_contained_at (indexed_graph files) k (doc_of_file f)).
  - cbn [indexed_graph g_rels].
    pose proof (batch_rels_contains_from (file_nodes <$> files) 0 0 k
                  (file_nodes f)) as H.
    cbn [Nat.add] in H. rewrite H by by rewrite list_lookup_fmap, file.
    by rewrite fresh_first_position.
  - cbn [indexed_graph g_docs]. rewrite <- list_fmap_compose.
    by rewrite (list_fmap_ext (dn_id ∘ doc_of_file) f_stem files).
  - cbn [indexed_graph g_docs]. by rewrite list_lookup_fmap, file.
Qed.

Lemma fresh_contained_nodes :
  omap (λ i, g_pages (indexed_graph files) !! i)
       (store_contained (indexed_graph files) (f_stem f))
  = file_nodes f.
Proof.
  rewrite fresh_contained. cbn [indexed_graph g_pages].
  apply omap_lookup_seq. intros j Hj.
  by destruct (first_position_lookup files k f j file Hj) as [_ ->].
Qed.

Lemma fresh_count_next :
  store_count_from (indexed_graph files) (f_stem f) is_next_page
  = Z.of_nat (length (file_nodes f) - 1).
Proof.
  unfold store_count_from. rewrite fresh_contained. f_equal.
  cbn [indexed_graph g_rels].
  set (n := length (file_nodes f)).
  erewrite length_bind_ext; [|intros p _; apply count_next_from].
  replace (seq (first_position files k) n)
    with ((λ i, first_position files k + i)%nat <$> seq 0 n)
    by (rewrite fmap_add_seq; f_equal; lia).
  rewrite bind_fmap_list.
  rewrite (length_bind_ext _ (λ i, if bool_decide (S i < n)%nat then [i] else [])).
  2: { intros i Hi%elem_of_seq. rewrite fresh_first_position.
       pose proof (batch_rels_next_from (file_nodes <$> files) 0 0 k
                     (file_nodes f) i) as H.
       cbn [Nat.add] in H. rewrite H; [|by rewrite list_lookup_fmap, file|lia].
       fold n. by destruct (bool_decide (S i < n)%nat). }
  destruct n as [|m]; [done|].
  rewrite seq_S, bind_app, length_app. cbn [Nat.add].
  rewrite length_bind_ones.
  - rewrite length_seq, bind_cons. rewrite bool_decide_false by lia.
    cbn. lia.
  - intros i Hi%elem_of_seq. by rewrite bool_decide_true by lia.
Qed.

Lemma fresh_count_related :
  store_count_from (indexed_graph files) (f_stem f) is_related_to
  = Z.of_nat (related_count (file_nodes f)).
Proof.
  unfold store_count_from, related_count. rewrite fresh_contained. f_equal.
  cbn [indexed_graph g_rels].
  set (n := length (file_nodes f)).
  erewrite length_bind_ext; [|intros p _; apply count_related_from].
  replace (seq (first_position files k) n)
    with ((λ i, first_position files k + i)%nat <$> seq 0 n)
    by (rewrite fmap_add_seq; f_equal; lia).
  rewrite bind_fmap_list. apply length_bind_ext.
  intros i Hi%elem_of_seq. rewrite fresh_first_position.
  pose proof (batch_rels_related_from (file_nodes <$> files) 0 0 k
                (file_nodes f) i) as H.
  cbn [Nat.add] in H. rewrite H; [|by rewrite list_lookup_fmap, file|lia].
  apply related_targets_length.
Qed.

End fresh_document.

Lemma imap_merged (cs : list chunk) : ∀ h : nat → chunk → page_node,
  (∀ j c, pn_is_merged (h j c) = is_merged c) →
  length (filter (λ r, cr_is_merged r = true)
            ((λ p, chunk_row_of_page p [] 0) <$> imap h cs))
  = length (filter (λ c, is_merged c = true) cs).
Proof.
  induction cs as [|c cs IH]; intros h Hh; [done|].
  cbn [imap]. rewrite fmap_cons, !filter_cons.
  cbn [cr_is_merged chunk_row_of_page]. rewrite Hh.
  specialize (IH (h ∘ S) (λ j c', Hh (S j) c')).
  destruct (decide (is_merged c = true)); cbn [length]; by rewrite IH.
Qed.

(** X17. The statistics of a document on a store built from the empty
    store, for files with distinct stems whose Page nodes get distinct ids.
    For the stem of a file [get_document_info] returns no error and lists
    the chunks of the file in order, one entry per chunk with its id, its
    position, its page-range label, its merged flag and the first 150
    characters of its text; [total_chunks] is their number n,
    [merged_chunks] the number of merged chunks, [next_relationships] is
    n - 1 (0 for a file without chunks), [discusses_relationships] the
    number of pairs of its chunks the similarity window relates, and
    [total_relationships] the sum of the two. Relationships of the other
    files of the batch are not counted. *)
Theorem fresh_run_document_info (encode : string → vector)
    (files : list source_file) (g : graph) (k : nat) (f : source_file) :
  run_index encode files empty_graph = Return g →
  NoDup (f_stem <$> files) →
  NoDup (pn_id <$> indexed_pages files) →
  files !! k = Some f →
  let n := length (file_chunks f) in
  let merged := length (filter (λ c, is_merged c = true) (file_chunks f)) in
  let discusses := related_count (file_nodes f) in
  let label c := range_label (page_range c) in
  get_document_info (store_services g) (f_stem f)
  = Return [("doc_id", VStr (f_stem f));
            ("chunks",
             VList (imap (λ j c, summary_of (f_stem f +:+ "_page_" +:+ label c)
                                   (Z.of_nat j) (label c) (is_merged c) (text c))
                         (file_chunks f)));
            ("stats",
             VDict [("total_chunks", VInt (Z.of_nat n));
                    ("merged_chunks", VInt (Z.of_nat merged));
                    ("next_relationships", VInt (Z.of_nat (n - 1)));
                    ("discusses_relationships", VInt (Z.of_nat discusses));
                    ("total_relationships",
                     VInt (Z.of_nat (n - 1) + Z.of_nat discusses))]);
            ("error", VNone)].
Proof.
  intros Hrun Hstems Hids Hfile n merged discusses label.
  rewrite (run_index_fresh _ _ _ Hrun Hstems Hids).
  assert (Hn : length (file_nodes f) = n).
  { unfold file_nodes. by rewrite length_imap. }
  rewrite (get_document_info_found _ (store_driver (indexed_graph files))
             _ ((λ p, chunk_row_of_page p [] 0) <$> file_nodes f)
             (Z.of_nat (n - 1)) (Z.of_nat discusses)); try reflexivity.
  - rewrite length_fmap, Hn. unfold file_nodes at 2.
    rewrite imap_merged by done. rewrite <- list_fmap_compose.
    unfold file_nodes. by rewrite fmap_imap.
  - cbn [document_pages store_driver].
    by rewrite (fresh_contained_nodes files k f Hstems Hfile), file_nodes_sorted.
  - cbn [count_next store_driver].
    by rewrite (fresh_count_next files k f Hstems Hfile), Hn.
  - cbn [count_related store_driver].
    by rewrite (fresh_count_related files k f Hstems Hfile).
Qed.

Lemma fresh_run_document_info_witness :
  ∃ d, get_document_info (store_services story_batch_graph) "m" = Return d
       ∧ dict_get "error" d = Some VNone.
Proof.
  eexists. split.
  - apply (fresh_run_document_info sample_encode story_batch story_batch_graph
             0 (SourceFile "m.md" "m" merged_doc)).
    + vm_compute. reflexivity.
    + apply (bool_decide_unpack _). vm_compute. exact I.
    + apply (bool_decide_unpack _). vm_compute. exact I.
    + reflexivity.
  - reflexivity.
Defined.

(** ** The page markers and the matches of [check_pages.py] *)

Lemma every_app p s t : every p (s +:+ t) = every p s && every p t.
Proof.
  induction s as [|c s IH]; [done|].
  rewrite sapp_cons. cbn [every]. by rewrite IH, andb_assoc.
Qed.

Lemma every_space s : every Py.isspace s = true ↔ has_nonspace s = false.
Proof.
  induction s as [|c s IH]; [done|]. cbn [every has_nonspace].
  rewrite andb_true_iff, orb_false_iff, negb_false_iff. by rewrite IH.
Qed.

Lemma span_eq p s :
  s = (Py.span p s).1 +:+ (Py.span p s).2
  ∧ every p (Py.span p s).1 = true
  ∧ stops p (Py.span p s).2 = true.
Proof.
  induction s as [|c s (IH1 & IH2 & IH3)]; [done|].
  cbn [Py.span]. destruct (p c) eqn:Ec.
  - destruct (Py.span p s) as [a b]. cbn [fst snd] in *.
    rewrite sapp_cons, <- IH1. cbn [every]. by rewrite Ec, IH2.
  - cbn [fst snd stops every]. by rewrite Ec.
Qed.

Lemma span_app p a b :
  every p a = true → stops p b = true → Py.span p (a +:+ b) = (a, b).
Proof.
  intros Ha Hb. induction a as [|c a IH].
  - change ("" +:+ b) with b. destruct b as [|c b]; [done|].
    cbn [stops] in Hb. cbn [Py.span]. by destruct (p c).
  - cbn [every] in Ha. apply andb_true_iff in Ha as [Hc Ha].
    rewrite sapp_cons. cbn [Py.span]. by rewrite Hc, IH.
Qed.

Lemma lstrip_span s : Py.lstrip s = (Py.span Py.isspace s).2.
Proof.
  induction s as [|c s IH]; [done|].
  cbn [Py.lstrip Py.span]. destruct (Py.isspace c); [|done].
  rewrite IH. by destruct (Py.span Py.isspace s).
Qed.

Lemma rstrip_eq s : ∃ w, s = Py.rstrip s +:+ w ∧ every Py.isspace w = true.
Proof.
  induction s as [|c s (w & IH & Hw)]; [by exists ""|].
  cbn [Py.rstrip]. destruct (Py.rstrip s) as [|c' r] eqn:E.
  - change ("" +:+ w) with w in IH. subst w.
    destruct (Py.isspace c) eqn:Ec.
    + exists (String c s). split; [done|]. cbn [every]. by rewrite Ec.
    + by exists s.
  - exists w. split; [|done]. by rewrite sapp_cons, <- IH.
Qed.

Lemma digit_not_space c : Py.isdigit c = true → Py.isspace c = false.
Proof. destruct c as [[] [] [] [] [] [] [] []]; done. Qed.

Lemma space_not_digit c : Py.isspace c = true → Py.isdigit c = false.
Proof. destruct c as [[] [] [] [] [] [] [] []]; done. Qed.

Lemma space_no_match c s : Py.isspace c = true → match_page_at (String c s) = None.
Proof. destruct c as [[] [] [] [] [] [] [] []]; done. Qed.

Lemma digits_stop_space d s :
  every Py.isdigit d = true → d ≠ "" → stops Py.isspace (d +:+ s) = true.
Proof.
  destruct d as [|c d]; [done|]. cbn [every]. intros [Hc _]%andb_true_iff _.
  rewrite sapp_cons. cbn [stops]. by rewrite digit_not_space.
Qed.

Lemma spaces_stop_digit w s :
  every Py.isspace w = true → stops Py.isdigit s = true →
  stops Py.isdigit (w +:+ s) = true.
Proof.
  destruct w as [|c w]; [done|]. cbn [every]. intros [Hc _]%andb_true_iff _.
  rewrite sapp_cons. cbn [stops]. by rewrite space_not_digit.
Qed.

(** The shape of a line that is a page marker. *)
Lemma page_match_shape line n :
  page_match line = Some n →
  ∃ w1 w2 d w3,
    line = w1 +:+ "Page" +:+ w2 +:+ d +:+ w3
    ∧ every Py.isspace w1 = true
    ∧ every Py.isspace w2 = true ∧ w2 ≠ ""
    ∧ every Py.isdigit d = true ∧ d ≠ ""
    ∧ every Py.isspace w3 = true
    ∧ n = Py.int d.
Proof.
  unfold page_match. intros H.
  destruct (Py.match_page_marker (Py.strip line)) as [g|] eqn:E; [|done].
  injection H as <-.
  apply match_page_marker_shape in E as (c & r & Hs & Hc & Hg & Hne & Hr).
  destruct (span_eq Py.isspace line) as (H1 & Hw1 & _).
  rewrite <- lstrip_span in H1.
  destruct (rstrip_eq (Py.lstrip line)) as (w3b & H2 & Hw3b).
  fold (Py.strip line) in H2. rewrite Hs in H2.
  destruct (span_eq Py.isspace (String c r)) as (H3 & Hw2 & _).
  rewrite <- lstrip_span in H3.
  destruct (span_eq Py.isdigit (Py.lstrip (String c r))) as (H4 & Hd & _).
  rewrite <- Hg in H4, Hd.
  set (r2 := (Py.span Py.isdigit (Py.lstrip (String c r))).2) in *.
  apply lstrip_empty, every_space in Hr.
  exists (Py.span Py.isspace line).1, (Py.span Py.isspace (String c r)).1,
         g, (r2 +:+ w3b).
  conjuncts; try done.
  - rewrite H1 at 1. f_equal. rewrite H2.
    change (String "P" (String "a" (String "g" (String "e" (String c r)))))
      with ("Page" +:+ String c r).
    rewrite sapp_assoc. f_equal. rewrite H3 at 1. rewrite sapp_assoc. f_equal.
    rewrite H4 at 1. by rewrite sapp_assoc.
  - intros Hnil. rewrite Hnil in H3. change ("" +:+ ?x) with x in H3.
    cbn [Py.span] in Hnil. rewrite Hc in Hnil.
    by destruct (Py.span Py.isspace r).
  - by rewrite every_app, Hr, Hw3b.
Qed.

Lemma find_pages_spaces w s :
  every Py.isspace w = true → find_pages 0 (w +:+ s) = find_pages 0 s.
Proof.
  induction w as [|c w IH]; [done|].
  cbn [every]. intros [Hc Hw]%andb_true_iff.
  rewrite sapp_cons. cbn [find_pages].
  rewrite space_no_match by done. by apply IH.
Qed.

Lemma find_pages_skip x : ∀ s k,
  find_pages (String.length x + k) (x +:+ s) = find_pages k s.
Proof.
  induction x as [|c x IH]; intros s k; [done|].
  rewrite sapp_cons. cbn [String.length Nat.add find_pages]. apply IH.
Qed.

(** The shape of the text at a match. *)
Lemma match_page_at_shape s digits len :
  match_page_at s = Some (digits, len) →
  ∃ spaces r2,
    s = "Page" +:+ spaces +:+ digits +:+ r2
    ∧ len = (4 + String.length spaces + String.length digits)%nat
    ∧ every Py.isspace spaces = true
    ∧ every Py.isdigit digits = true ∧ digits ≠ "".
Proof.
  intros H.
  destruct s as [|c1 s]; [done|].
  destruct (decide (c1 = "P"%char)) as [->|Hne].
  2: { exfalso. revert H. simpl.
       destruct c1 as [[] [] [] [] [] [] [] []]; try done. }
  destruct s as [|c2 s]; [done|].
  destruct (decide (c2 = "a"%char)) as [->|Hne].
  2: { exfalso. revert H. simpl.
       destruct c2 as [[] [] [] [] [] [] [] []]; try done. }
  destruct s as [|c3 s]; [done|].
  destruct (decide (c3 = "g"%char)) as [->|Hne].
  2: { exfalso. revert H. simpl.
       destruct c3 as [[] [] [] [] [] [] [] []]; try done. }
  destruct s as [|c4 r]; [done|].
  destruct (decide (c4 = "e"%char)) as [->|Hne].
  2: { exfalso. revert H. simpl.
       destruct c4 as [[] [] [] [] [] [] [] []]; try done. }
  change (match_page_at (String "P" (String "a" (String "g" (String "e" r)))))
    with (let '(spaces, r1) := Py.span Py.isspace r in
          let '(digits, _) := Py.span Py.isdigit r1 in
          match spaces, digits with
          | String _ _, String _ _ =>
              Some (digits, (4 + String.length spaces + String.length digits)%nat)
          | _, _ => None
          end) in H.
  destruct (span_eq Py.isspace r) as (H1 & Hw & _).
  destruct (Py.span Py.isspace r) as [spaces r1]. cbn [fst snd] in H1, Hw.
  destruct (span_eq Py.isdigit r1) as (H2 & Hd & _).
  destruct (Py.span Py.isdigit r1) as [ds r2]. cbn [fst snd] in H2, Hd.
  destruct spaces as [|c spaces]; [done|]. destruct ds as [|d ds]; [done|].
  injection H as <- <-.
  exists (String c spaces), r2. conjuncts; try done.
  change (String "P" (String "a" (String "g" (String "e" r))))
    with ("Page" +:+ r).
  by rewrite H1 at 1; rewrite H2 at 1.
Qed.

(** The search at a marker. *)
Lemma find_pages_marker w2 d rest :
  every Py.isspace w2 = true → w2 ≠ "" →
  every Py.isdigit d = true → d ≠ "" →
  stops Py.isdigit rest = true →
  find_pages 0 ("Page" +:+ w2 +:+ d +:+ rest)
  = Py.int d :: find_pages 0 rest.
Proof.
  intros Hw2 Hne2 Hd Hned Hrest.
  change ("Page" +:+ w2 +:+ d +:+ rest)
    with (String "P" ("age" +:+ w2 +:+ d +:+ rest)).
  cbn [find_pages].
  change (match_page_at (String "P" ("age" +:+ w2 +:+ d +:+ rest)))
    with (let '(spaces, r1) := Py.span Py.isspace (w2 +:+ d +:+ rest) in
          let '(digits, _) := Py.span Py.isdigit r1 in
          match spaces, digits with
          | String _ _, String _ _ =>
              Some (digits, (4 + String.length spaces + String.length digits)%nat)
          | _, _ => None
          end).
  rewrite (span_app Py.isspace w2 (d +:+ rest)) by
    (done || by apply digits_stop_space).
  rewrite (span_app Py.isdigit d rest) by done.
  destruct w2 as [|c w2]; [done|]. destruct d as [|c' d]; [done|].
  f_equal.
  replace (4 + String.length (String c w2) + String.length (String c' d) - 1)%nat
    with (String.length ("age" +:+ String c w2 +:+ String c' d) + 0)%nat.
  2: { rewrite !length_sapp. cbn [String.length]. lia. }
  rewrite <- (find_pages_skip ("age" +:+ String c w2 +:+ String c' d) rest 0).
  by rewrite !sapp_assoc.
Qed.

Lemma number_tail_step c x :
  number_tail (String c x) → x = "" ∨ number_tail x.
Proof.
  intros (w & d & Hx & Hw & Hd & Hne).
  destruct w as [|c' w].
  - change ("" +:+ d) with d in Hx. subst d.
    cbn [every] in Hd. apply andb_true_iff in Hd as [_ Hd].
    destruct x as [|c' x]; [by left|]. right. by exists "", (String c' x).
  - rewrite sapp_cons in Hx. injection Hx as -> ->.
    cbn [every] in Hw. apply andb_true_iff in Hw as [_ Hw].
    right. by exists w, d.
Qed.

Lemma match_tail_step c x :
  match_tail (String c x) → x = "" ∨ match_tail x.
Proof.
  intros [H|(y & Hy & [H|[H|H]])].
  - apply number_tail_step in H as [H|H]; [by left|]. right. by left.
  - change ("e" +:+ y) with (String "e" y) in H. injection H as -> ->.
    right. by left.
  - change ("ge" +:+ y) with (String "g" ("e" +:+ y)) in H. injection H as -> ->.
    right. right. exists y. split; [done|]. by left.
  - change ("age" +:+ y) with (String "a" ("ge" +:+ y)) in H.
    injection H as -> ->.
    right. right. exists y. split; [done|]. right. by left.
Qed.

Lemma in_match_step k c s : in_match (S k) (String c s) → in_match k s.
Proof.
  intros [H|(x & rest & Hs & Hk & Hx)]; [done|].
  destruct x as [|c' x]; [done|].
  rewrite sapp_cons in Hs. injection Hs as -> ->.
  cbn [String.length] in Hk. injection Hk as ->.
  apply match_tail_step in Hx as [->|Hx]; [by left|].
  right. by exists x, rest.
Qed.

(** The search over a first part of the text. *)
Lemma find_pages_prefix s1 : ∀ s2 skip,
  in_match skip (s1 +:+ s2) →
  ∃ found skip',
    find_pages skip (s1 +:+ s2) = found ++ find_pages skip' s2
    ∧ in_match skip' s2.
Proof.
  induction s1 as [|c s1 IH]; intros s2 skip Hin.
  { by exists [], skip. }
  rewrite sapp_cons in Hin |- *. cbn [find_pages].
  destruct skip as [|k].
  - destruct (match_page_at (String c (s1 +:+ s2))) as [[digits len]|] eqn:E.
    + apply match_page_at_shape in E as (spaces & r2 & Hs & -> & Hw & Hd & Hne).
      change ("Page" +:+ spaces +:+ digits +:+ r2)
        with (String "P" ("age" +:+ spaces +:+ digits +:+ r2)) in Hs.
      injection Hs as -> Hs.
      destruct (IH s2 (4 + String.length spaces + String.length digits - 1)%nat)
        as (found & skip' & Hfound & Hin').
      { right. exists ("age" +:+ spaces +:+ digits), r2. conjuncts.
        - by rewrite Hs, !sapp_assoc.
        - rewrite !length_sapp. cbn [String.length]. lia.
        - right. exists (spaces +:+ digits). split.
          + by exists spaces, digits.
          + by right; right. }
      exists (Py.int digits :: found), skip'. by rewrite Hfound.
    + apply (IH s2 0%nat). by left.
  - apply (IH s2 k). by eapply in_match_step.
Qed.

(** No match is under way at the start of a marker line. *)
Lemma in_match_marker skip w1 s :
  every Py.isspace w1 = true →
  in_match skip (w1 +:+ String "P" s) → skip = 0%nat.
Proof.
  intros Hw1 [H|(x & rest & Hs & Hk & Hx)]; [done|]. exfalso.
  assert (Hnum : ∀ y r, number_tail y → w1 +:+ String "P" s ≠ y +:+ r).
  { intros y r (w & d & -> & Hw & Hd & Hne) Heq.
    apply (f_equal (Py.span Py.isspace)) in Heq.
    rewrite (span_app Py.isspace w1 (String "P" s)) in Heq by done.
    rewrite sapp_assoc in Heq.
    rewrite (span_app Py.isspace w (d +:+ r)) in Heq
      by (done || by apply digits_stop_space).
    injection Heq as _ Heq. destruct d as [|c d]; [done|].
    rewrite sapp_cons in Heq. injection Heq as <- _. done. }
  assert (Hhead : ∀ c y, Py.isspace c = false → c ≠ "P"%char →
            w1 +:+ String "P" s ≠ String c y).
  { intros c y Hc HP Heq. destruct w1 as [|c' w1].
    - change ("" +:+ String "P" s) with (String "P" s) in Heq.
      injection Heq as <- _. done.
    - rewrite sapp_cons in Heq. injection Heq as -> _.
      cbn [every] in Hw1. by rewrite Hc in Hw1. }
  destruct Hx as [Hx|(y & Hy & [-> | [-> | ->]])].
  - by eapply Hnum.
  - by apply (Hhead "e"%char (y +:+ rest)) in Hs.
  - by apply (Hhead "g"%char ("e" +:+ y +:+ rest)) in Hs.
  - by apply (Hhead "a"%char ("ge" +:+ y +:+ rest)) in Hs.
Qed.

Lemma split_on_cases sep s :
  Py.split_on sep s = [s]
  ∨ ∃ l t, s = l +:+ String sep t
           ∧ Py.split_on sep s = l :: Py.split_on sep t.
Proof.
  induction s as [|c s IH]; [by left|].
  cbn [Py.split_on]. destruct (Ascii.eqb c sep) eqn:E.
  - apply Ascii.eqb_eq in E as ->. right. by exists "", s.
  - destruct IH as [->|(l & t & -> & ->)]; [by left|].
    right. by exists (String c l), t.
Qed.

(** The search over a marker line. *)
Lemma find_pages_marker_line line n rest skip :
  page_match line = Some n →
  stops Py.isdigit rest = true →
  in_match skip (line +:+ rest) →
  find_pages skip (line +:+ rest) = n :: find_pages 0 rest.
Proof.
  intros (w1 & w2 & d & w3 & -> & Hw1 & Hw2 & Hne2 & Hd & Hned & Hw3 & ->)
    %page_match_shape Hrest Hin.
  rewrite !sapp_assoc in Hin |- *.
  change ("Page" +:+ w2 +:+ d +:+ w3 +:+ rest)
    with (String "P" ("age" +:+ w2 +:+ d +:+ w3 +:+ rest)) in Hin.
  apply in_match_marker in Hin as ->; [|done].
  rewrite find_pages_spaces by done.
  rewrite find_pages_marker by (done || by apply spaces_stop_digit).
  by rewrite find_pages_spaces.
Qed.

Lemma markers_found n : ∀ content skip,
  (String.length content ≤ n)%nat →
  in_match skip content →
  marker_numbers content `sublist_of` find_pages skip content.
Proof.
  unfold marker_numbers.
  induction n as [|n IH]; intros content skip Hlen Hin.
  - destruct content; [|cbn in Hlen; lia].
    cbn [Py.split_on]. rewrite omap_cons_eq. change (page_match "") with (@None Z).
    apply sublist_nil_l.
  - destruct (split_on_cases Py.LF content) as [->|(l & t & -> & ->)].
    + rewrite omap_cons_eq. destruct (page_match content) as [m|] eqn:E.
      * replace (find_pages skip content)
          with (find_pages skip (content +:+ "")) by by rewrite sapp_nil.
        rewrite (find_pages_marker_line content m "" skip);
          [|done|done|by rewrite sapp_nil].
        apply sublist_skip, sublist_nil_l.
      * apply sublist_nil_l.
    + rewrite length_sapp in Hlen. cbn [String.length] in Hlen.
      rewrite omap_cons_eq. destruct (page_match l) as [m|] eqn:E.
      * rewrite (find_pages_marker_line l m (String Py.LF t) skip);
          [|done|done|done].
        apply sublist_skip.
        change (String Py.LF t) with (String Py.LF "" +:+ t).
        rewrite find_pages_spaces by done.
        apply IH; [lia|by left].
      * change (l +:+ String Py.LF t) with (l +:+ String Py.LF "" +:+ t) in Hin |- *.
        rewrite <- sapp_assoc in Hin |- *.
        destruct (find_pages_prefix _ _ _ Hin) as (found & skip' & -> & Hin').
        apply sublist_inserts_l. apply IH; [lia|done].
Qed.

(** X18. The page markers and the report of [check_pages.py]. Every
    marker [split_by_pages] cuts at is one of the matches of "Page N" the
    script counts, in the same order, whatever text surrounds the markers.
    So when a document has a marker the script gives a report, every page
    of every chunk is among its unique pages, and when it reports no
    duplicated page the markers of the document carry distinct numbers. *)
Theorem check_pages_counts_markers (content : string) :
  marker_numbers content `sublist_of` find_pages 0 content
  ∧ (marker_numbers content ≠ [] → ∃ r, check_pages content = Return r)
  ∧ ∀ r, check_pages content = Return r →
      (∀ c n, c ∈ split_by_pages content MIN_WORDS → n ∈ page_range c →
              n ∈ unique_pages r)
      ∧ (duplicates r = [] → NoDup (marker_numbers content)).
Proof.
  assert (Hsub : marker_numbers content `sublist_of` find_pages 0 content).
  { apply (markers_found (String.length content)); [done|by left]. }
  split; [done|].
  unfold check_pages.
  set (nums := find_pages 0 content) in *.
  set (unique := merge_sort Z.le (elements (list_to_set nums : gset Z))).
  assert (Hunique : ∀ n, n ∈ unique ↔ n ∈ nums).
  { intros n. unfold unique.
    by rewrite merge_sort_Permutation, elem_of_elements, elem_of_list_to_set. }
  clearbody unique. split.
  - intros Hne. destruct unique as [|u us]; [|by eexists].
    destruct (marker_numbers content) as [|m ms] eqn:E; [done|].
    assert (Hm : m ∈ nums).
    { eapply elem_of_sublist; [|exact Hsub]. left. }
    apply Hunique in Hm. by apply elem_of_nil in Hm.
  - intros r Hr. destruct unique as [|u us] eqn:Eu; [done|].
    cbn [py_max mbind py_bind] in Hr. injection Hr as <-. cbn [unique_pages duplicates]. split.
    + intros c n Hc Hn. apply Hunique.
      eapply elem_of_sublist; [|exact Hsub].
      apply (split_by_pages_covers _ MIN_WORDS). by exists c.
    + intros Hdups. eapply sublist_NoDup; [|exact Hsub].
      apply occurrences_NoDup. intros p.
      destruct (decide (1 < occurrences p nums)%nat) as [Hp|]; [|lia].
      exfalso.
      assert (Hin : p ∈ filter (λ p, (1 < occurrences p nums)%nat)
                                (first_seen nums)).
      { apply list_elem_of_filter. split; [done|].
        apply first_seen_spec. unfold occurrences in Hp.
        destruct (filter (λ n, n = p) nums) as [|x l] eqn:E; [cbn in Hp; lia|].
        assert (Hx : x ∈ filter (λ n, n = p) nums) by (rewrite E; left).
        by apply list_elem_of_filter in Hx as [-> Hx]. }
      rewrite Hdups in Hin. by apply elem_of_nil in Hin.
Qed.

Lemma check_pages_counts_markers_witness :
  ∃ r, check_pages merged_doc = Return r.
Proof.
  destruct (check_pages_counts_markers merged_doc) as (_ & H & _).
  apply H. vm_compute. discriminate.
Defined.

(** ** The points of the vector index and the Page nodes *)

Lemma Forall2_imap {A B C : Type} (R : B → C → Prop) (l : list A) :
  ∀ (g1 : nat → A → B) (g2 : nat → A → C),
  (∀ i x, l !! i = Some x → R (g1 i x) (g2 i x)) →
  Forall2 R (imap g1 l) (imap g2 l).
Proof.
  induction l as [|x l IH]; intros g1 g2 H; [constructor|].
  cbn [imap]. constructor.
  - by apply (H 0%nat).
  - apply IH. intros i y Hi. by apply (H (S i)).
Qed.

Lemma batch_points_nodes encode (R : point → page_node → Prop)
    (fs : list source_file) : ∀ first,
  (∀ f i c, f ∈ fs → file_chunks f !! i = Some c → ∀ first',
     R (point_of_chunk encode (f_stem f) first' i c)
       (node_of_chunk (f_stem f) i c)) →
  Forall2 R (batch_points encode first fs) (indexed_pages fs).
Proof.
  induction fs as [|f fs IH]; intros first H; [constructor|].
  cbn [batch_points]. unfold indexed_pages. rewrite bind_cons.
  apply Forall2_app.
  - apply Forall2_imap. intros i c Hc. apply H; [left|done].
  - apply IH. intros f' i c Hf'. apply H. by right.
Qed.

(** X19. The two stores after a run from the empty store name the same
    chunks. The points collected for the vector index and the Page nodes of
    the graph correspond one to one, in order: a point and its node carry
    the same text, page number, page range and merged flag, and the [doc]
    and [chunk_idx] of the point are the [doc_id] and [chunk_idx] of the
    node. For files with distinct stems these two values select that node
    and no other, so the context lookup of [hybrid_search] for a chunk found
    by vector search reaches the node of that chunk and returns no error. *)
Theorem points_name_nodes (encode : string → vector)
    (files : list source_file) (st : index_state) (g : graph) :
  phase1_from encode initial_state files = Return st →
  run_index encode files empty_graph = Return g →
  NoDup (f_stem <$> files) →
  NoDup (pn_id <$> indexed_pages files) →
  Forall2 (λ p n,
      pt_doc p = pn_doc_id n ∧ pt_chunk_idx p = pn_chunk_idx n
      ∧ pt_text p = pn_text n ∧ pt_page_num p = pn_page_num n
      ∧ pt_page_range p = pn_page_range n ∧ pt_is_merged p = pn_is_merged n
      ∧ store_find_page g (pt_doc p) (pt_chunk_idx p) = [n]
      ∧ ∃ ctx, get_intra_document_context (store_services g) (pt_doc p)
                 (pt_chunk_idx p) = Return ctx
               ∧ dict_get "error" ctx = Some VNone)
    (all_points st) (g_pages g).
Proof.
  intros Hphase Hrun Hstems Hids.
  rewrite (run_index_fresh _ _ _ Hrun Hstems Hids).
  apply phase1_points in Hphase as (-> & _).
  cbn [initial_state all_points point_id app indexed_graph g_pages].
  apply batch_points_nodes. intros f i c Hf Hc first.
  apply list_elem_of_lookup in Hf as [k Hk].
  pose proof (fresh_find_page files k f i c Hstems Hk Hc) as Hfind.
  cbn [point_of_chunk node_of_chunk pt_doc pt_chunk_idx pt_text pt_page_num
       pt_page_range pt_is_merged pn_doc_id pn_chunk_idx pn_text pn_page_num
       pn_page_range pn_is_merged].
  conjuncts; try done.
  eexists. split.
  - apply (get_intra_document_context_found _ (store_driver (indexed_graph files))
             _ _ [row_of_page (node_of_chunk (f_stem f) i c)]
             (row_of_page (node_of_chunk (f_stem f) i c))); try reflexivity.
    cbn [find_page store_driver]. by rewrite Hfind.
  - reflexivity.
Qed.

Lemma points_name_nodes_witness :
  length (g_pages story_batch_graph) = 6%nat.
Proof.
  pose proof (points_name_nodes sample_encode story_batch
                (match phase1_from sample_encode initial_state story_batch with
                 | Return st => st
                 | Raise _ => initial_state
                 end) story_batch_graph) as H.
  apply Forall2_length in H.
  - rewrite <- H. vm_compute. reflexivity.
  - vm_compute. reflexivity.
  - vm_compute. reflexivity.
  - apply (bool_decide_unpack _). vm_compute. exact I.
  - apply (bool_decide_unpack _). vm_compute. exact I.
Defined.

(** ** The words of a document and the words of its chunks *)

Lemma split_go_spaces w : ∀ cur,
  every Py.isspace w = true → Py.split_go cur w = Py.emit cur.
Proof.
  induction w as [|c w IH]; intros cur Hw; [done|].
  cbn [every] in Hw. apply andb_true_iff in Hw as [Hc Hw].
  cbn [Py.split_go]. rewrite Hc, IH by done.
  apply (right_id_L [] (++)).
Qed.

Lemma split_go_app_spaces s w : ∀ cur,
  every Py.isspace w = true → Py.split_go cur (s +:+ w) = Py.split_go cur s.
Proof.
  induction s as [|c s IH]; intros cur Hw.
  - change ("" +:+ w) with w. by rewrite split_go_spaces.
  - rewrite sapp_cons. cbn [Py.split_go]. by rewrite !IH.
Qed.

Lemma split_spaces_app w s :
  every Py.isspace w = true → Py.split (w +:+ s) = Py.split s.
Proof.
  unfold Py.split. induction w as [|c w IH]; intros Hw; [done|].
  cbn [every] in Hw. apply andb_true_iff in Hw as [Hc Hw].
  rewrite sapp_cons. cbn [Py.split_go]. rewrite Hc. by apply IH.
Qed.

Lemma split_strip s : Py.split (Py.strip s) = Py.split s.
Proof.
  unfold Py.strip.
  destruct (rstrip_eq (Py.lstrip s)) as (w & Hr & Hw).
  destruct (span_eq Py.isspace s) as (Hl & Hw1 & _).
  rewrite <- lstrip_span in Hl.
  rewrite Hl at 2. rewrite split_spaces_app by done.
  rewrite Hr at 2. unfold Py.split. by rewrite split_go_app_spaces.
Qed.

Lemma bind_nil_eq {A B : Type} (g : A → list B) : @nil A ≫= g = [].
Proof. reflexivity. Qed.

Lemma split_join_lines lines :
  Py.split (Py.join Py.nl lines) = lines ≫= Py.split.
Proof.
  induction lines as [|x lines IH]; [done|].
  destruct lines as [|y lines].
  - cbn [Py.join]. by rewrite bind_cons, bind_nil_eq, (right_id_L [] (++)).
  - rewrite join_cons2, bind_cons, <- IH.
    unfold Py.split, Py.nl.
    change (String Py.LF "" +:+ Py.join (String Py.LF "") (y :: lines))
      with (String Py.LF (Py.join (String Py.LF "") (y :: lines))).
    by rewrite split_go_sep.
Qed.

Lemma split_join_texts texts :
  Py.split (Py.join (Py.nl +:+ Py.nl) texts) = texts ≫= Py.split.
Proof.
  induction texts as [|t texts IH]; [done|].
  destruct texts as [|u texts].
  - cbn [Py.join]. by rewrite bind_cons, bind_nil_eq, (right_id_L [] (++)).
  - rewrite join_cons2, bind_cons, <- IH.
    change (t +:+ (Py.nl +:+ Py.nl) +:+ Py.join (Py.nl +:+ Py.nl) (u :: texts))
      with (t +:+ Py.nl +:+ Py.nl +:+ Py.join (Py.nl +:+ Py.nl) (u :: texts)).
    apply split_join2.
Qed.

Lemma flush_page_words st :
  (flush_page st ≫= λ p, Py.split (rp_text p)) = scanned_words st.
Proof.
  unfold flush_page, scanned_words.
  destruct (current_page st) as [|l ls] eqn:E.
  { destruct (current_page_num st);
      by rewrite ?bind_nil_eq, (right_id_L [] (++)). }
  destruct (current_page_num st) as [n|]; [|by rewrite (right_id_L [] (++))].
  pose proof (split_strip (Py.join Py.nl (l :: ls))) as Hs.
  rewrite split_join_lines in Hs.
  destruct (Py.strip (Py.join Py.nl (l :: ls))) as [|c t] eqn:Et.
  - rewrite <- Hs. change (Py.split "") with (@nil string).
    by rewrite (right_id_L [] (++)).
  - rewrite bind_app, bind_cons. cbn [rp_text].
    by rewrite bind_nil_eq, (right_id_L [] (++)), Hs.
Qed.

Lemma scan_line_words st line :
  scanned_words (scan_line st line)
  = scanned_words st
    ++ match current_page_num st, page_match line with
       | None, None => []
       | _, _ => Py.split line
       end.
Proof.
  unfold scan_line. destruct (page_match line) as [n|].
  - unfold scanned_words at 1. cbn [raw_pages current_page current_page_num].
    rewrite flush_page_words, bind_cons, bind_nil_eq.
    rewrite (right_id_L [] (++)). by destruct (current_page_num st).
  - unfold scanned_words. cbn [raw_pages current_page current_page_num].
    destruct (current_page_num st).
    + rewrite bind_app, bind_cons, bind_nil_eq.
      by rewrite (right_id_L [] (++)), (assoc_L (++)).
    + by rewrite !(right_id_L [] (++)).
Qed.

Lemma scan_lines_words lines : ∀ st,
  scanned_words (foldl scan_line st lines)
  = scanned_words st
    ++ match current_page_num st with
       | Some _ => lines ≫= Py.split
       | None => from_first_marker lines ≫= Py.split
       end.
Proof.
  induction lines as [|line lines IH]; intros st.
  { cbn [foldl from_first_marker].
    destruct (current_page_num st); by rewrite bind_nil_eq, (right_id_L [] (++)). }
  cbn [foldl]. rewrite IH, scan_line_words. cbn [from_first_marker].
  unfold scan_line. destruct (page_match line) as [n|] eqn:E;
    cbn [current_page_num].
  - rewrite bind_cons, <- (assoc_L (++)). by destruct (current_page_num st).
  - destruct (current_page_num st); [|by rewrite (right_id_L [] (++))].
    by rewrite bind_cons, <- (assoc_L (++)).
Qed.

Lemma extract_raw_pages_words content :
  (extract_raw_pages content ≫= λ p, Py.split (rp_text p)) = page_words content.
Proof.
  unfold extract_raw_pages. by rewrite flush_page_words, scan_lines_words.
Qed.

Lemma merge_pages_words min_words pages :
  (merge_pages min_words pages ≫= λ c, Py.split (text c))
  = pages ≫= λ p, Py.split (rp_text p).
Proof.
  destruct (merge_pages_groups min_words pages) as (groups & <- & -> & _).
  induction groups as [|g groups IH]; [done|].
  rewrite fmap_cons, bind_cons, IH. cbn [concat chunk_of_group text].
  rewrite bind_app. f_equal.
  rewrite split_join_texts. apply bind_fmap_list.
Qed.

(** X20. Chunking loses no word. The words of the chunks of
    [split_by_pages], chunk after chunk, are the words of the document from
    its first page marker on, in the same order, for every threshold: no
    word of a page is dropped, repeated or moved when short pages are merged,
    and the marker lines are part of the chunk texts. So the word counts of
    the chunks add up to the number of these words. *)
Theorem split_by_pages_keeps_words (content : string) (min_words : Z) :
  (split_by_pages content min_words ≫= λ c, Py.split (text c))
  = page_words content
  ∧ sumZ (word_count <$> split_by_pages content min_words)
    = Z.of_nat (length (page_words content)).
Proof.
  assert (Hwords : (split_by_pages content min_words ≫= λ c, Py.split (text c))
                   = page_words content).
  { unfold split_by_pages. by rewrite merge_pages_words, extract_raw_pages_words. }
  split; [done|]. rewrite <- Hwords. clear Hwords.
  pose proof (chunk_word_count content min_words) as Hcount.
  induction (split_by_pages content min_words) as [|c cs IH]; [done|].
  rewrite fmap_cons, bind_cons, length_app. cbn [sumZ].
  rewrite IH by (intros c' Hc'; apply Hcount; by right).
  rewrite (Hcount c) by left. unfold count_words. lia.
Qed.

(** ** Requests for a range that is a single page or is reversed *)

(** X21. The two borders of a range request. A request whose end page
    equals its start page is a single-page request: it gives the result of
    the request without an end page, for every backend. A request whose
    end page lies before its start page is a range request that no page can
    meet: on every store it reports that no pages were found in the range,
    with the content and the page range left empty; the bounds are not
    exchanged and no exception is raised. *)
Theorem get_page_content_range_edges (sv : services) (g : graph)
    (doc_id : string) (start_page end_page : Z) :
  get_page_content sv doc_id start_page (Some start_page)
  = get_page_content sv doc_id start_page None
  ∧ (end_page < start_page →
     get_page_content (store_services g) doc_id start_page (Some end_page)
     = Return (unresolved_result doc_id start_page end_page true
                 ("No pages found in range " +:+ Py.str start_page +:+ "-"
                  +:+ Py.str end_page +:+ " in " +:+ doc_id))).
Proof.
  split.
  - unfold get_page_content. by rewrite Z.eqb_refl.
  - intros Hlt.
    apply (get_page_content_range_empty None None (store_driver g) eq_refl);
      [lia|].
    cbn [pages_in_range store_driver]. unfold store_pages_in_range.
    rewrite filter_none; [done|].
    intros p _ [_ Hp]. unfold intersects in Hp.
    apply Exists_exists in Hp as (page & _ & ? & ?). lia.
Qed.

Lemma get_page_content_range_edges_witness :
  ∃ d, get_page_content (store_services story_batch_graph) "s" 3 (Some 1)
       = Return d
       ∧ dict_get "content" d = Some VNone.
Proof.
  destruct (get_page_content_range_edges (store_services story_batch_graph)
              story_batch_graph "s" 3 1) as [_ H].
  eexists. split; [apply H; lia|reflexivity].
Defined.

(** ** The documents listed after a run *)

Global Instance by_doc_id_total : Total by_doc_id.
Proof. intros a b. unfold by_doc_id. apply (total String.le). Qed.
Global Instance by_doc_id_trans : Transitive by_doc_id.
Proof. intros a b c. unfold by_doc_id. apply (transitivity (R := String.le)). Qed.

(** X22. The documents listed after a run on a store without documents,
    for files with distinct stems. [list_documents] returns no error and
    lists every file of the batch once and nothing else; the entry of a file
    has its stem as [id] and as [title] and its file name as [source];
    [total] is the number of files; the entries are ordered by [id], which
    need not be the order in which the files were indexed. *)
Theorem list_documents_after_run (encode : string → vector)
    (files : list source_file) (g g' : graph) :
  run_index encode files g = Return g' →
  g_docs g = [] →
  NoDup (f_stem <$> files) →
  ∃ listed,
    list_documents (store_services g')
    = Return [("documents",
               VList ((λ f, VDict [("id", VStr (f_stem f));
                                   ("source", VStr (f_name f));
                                   ("title", VStr (f_stem f))]) <$> listed));
              ("total", VInt (Z.of_nat (length files)));
              ("error", VNone)]
    ∧ listed ≡ₚ files
    ∧ StronglySorted (λ a b, String.le (f_stem a) (f_stem b)) listed.
Proof.
  intros Hrun Hempty Hstems.
  pose proof (run_index_docs _ _ _ _ Hrun) as Hdocs.
  rewrite Hempty, merge_documents_fresh in Hdocs.
  2: { cbn [fmap list_fmap app]. rewrite <- list_fmap_compose.
       by rewrite (list_fmap_ext (dn_id ∘ doc_of_file) f_stem files). }
  cbn [app] in Hdocs.
  set (by_stem := λ a b : source_file, String.le (f_stem a) (f_stem b)).
  assert (Hdec : RelDecision by_stem) by (intros a b; unfold by_stem; apply _).
  assert (Htotal : Total by_stem).
  { intros a b. unfold by_stem. apply (total String.le). }
  assert (Htrans : Transitive by_stem).
  { intros a b c. unfold by_stem. apply (transitivity (R := String.le)). }
  exists (merge_sort by_stem files).
  assert (Hsorted : merge_sort by_doc_id (doc_of_file <$> files)
                    = doc_of_file <$> merge_sort by_stem files).
  { apply (StronglySorted_unique_strong by_doc_id).
    - intros a b Ha Hb Hab Hba. rewrite merge_sort_Permutation in Ha.
      apply list_elem_of_fmap in Ha as (fa & -> & Ha).
      apply list_elem_of_fmap in Hb as (fb & -> & Hb).
      rewrite merge_sort_Permutation in Hb.
      unfold by_doc_id in Hab, Hba. cbn [dn_id doc_of_file] in Hab, Hba.
      assert (f_stem fa = f_stem fb) by by apply (anti_symm String.le).
      f_equal. by eapply (NoDup_fmap_inj f_stem files).
    - apply (StronglySorted_merge_sort _).
    - apply (StronglySorted_fmap doc_of_file by_stem by_doc_id).
      + intros a b Hab. exact Hab.
      + apply (StronglySorted_merge_sort by_stem).
    - by rewrite !merge_sort_Permutation. }
  conjuncts.
  - rewrite list_documents_value.
    cbn [neo4j_driver store_services session all_documents store_driver
         mbind py_bind received failure].
    rewrite Hdocs, Hsorted, !length_fmap, <- !list_fmap_compose.
    by rewrite (Permutation_length (merge_sort_Permutation by_stem files)).
  - apply merge_sort_Permutation.
  - apply (StronglySorted_merge_sort by_stem).
Qed.

Lemma list_documents_after_run_witness :
  ∃ d, list_documents (store_services story_batch_graph) = Return d
       ∧ dict_get "total" d = Some (VInt 2).
Proof.
  destruct (list_documents_after_run sample_encode story_batch empty_graph
              story_batch_graph) as (listed & H & _).
  - vm_compute. reflexivity.
  - reflexivity.
  - apply (bool_decide_unpack _). vm_compute. exact I.
  - eexists. split; [exact H|reflexivity].
Defined.
